(* ===== verification/_CoqProject ===== *)
-Q . S2P
Prelude.v
Text.v
Config.v
Options.v
MonitorStats.v
LruBuffer.v
UtHash.v
UtSort.v
Affinity.v
Os.v
TimingStats.v
Cpufreq.v
SimOs.v
ExternRam.v
Noop.v
Memcached.v
RamCloud.v
BackendScenario.v
ThreadedIo.v
Upid.v
BufferAllocator.v
RingThreads.v
PageCache.v
World.v
PageCacheRead.v
CachedPages.v
Userfault.v
LruCache.v
PrefetchThread.v
WriteThread.v
Consistency.v
Async.v
AsyncHandler.v
AsyncRuns.v
AsyncCode.v
Faults.v
Memory.v
Application.v
TestPrograms.v
ReadAhead.v
Zookeeper.v
Processes.v
UfdClient.v
Registration.v
PollfdVector.v
HandOver.v
Monitor.v
MainThread.v
Ui.v
UiClient.v
UiTiming.v
AttachMemory.v
Locks.v
LockOrder.v
Scenario.v
AsyncScenario.v
