(* ===== verification/Prelude.v ===== *)
(** FluidMem: a verification of the monitor that gives processes memory from other machines.

    * The program

    A process allocates a region and arms it with a userfault descriptor
    ([lib/userfault/userfault-client.c]).  It sends the descriptor over a socket to the monitor, which gives the
    process an identifier that is unique in ZooKeeper ([include/zookeeper_upid.h], [include/upid.h]) and a client of the
    external memory ([lib/externram]), and hands the descriptor to its polling thread ([monitor/monitor.c],
    [monitor/pollfd_vector.c]).  From then on each access to a page that is not resident is a fault, read from the
    descriptor.  The handlers of [lib/userfault/userfault.c] place a zero page or the page's content, keep
    the resident pages in a list ordered by use ([lib/lrubuffer]), and when there are more than the limit move the oldest one
    out of the process and to the external memory.  Depending on the build, writing is left to a second thread over a list
    of pages ([include/threaded_io.h]), pages that follow are read ahead into a cache ([lib/pagecache]) by the handler or by a
    third thread, and empty pages are prepared by a fourth ([include/buffer_allocator_array.h]).  A further thread
    carries out commands ([monitor/ui_processing.c], [monitor/ui.c]).

    * How it is modelled

    C and C++ code is a function on explicit state, [M S A], whose outcome is a result, undefined behaviour of a named kind,
    or a wait that only another thread can end ([Prelude]).  Integers are kept at their width where they wrap around, memory that the
    code frees or shares is reached through pointers, and the preprocessor symbols of the build are a type class
    ([Config]).  Code that is not in the repository is a class of operations with its documented
    behaviour as laws: the kernel ([Os.OS], [OSLaws]), libmemcached, the RAMCloud client, ZooKeeper, [rand].  A backend is an
    instance of [ExternRam.ExternRAM]; the handlers are verified against [ExternRAMLaws], which the backends satisfy.
    [SimOs] is a kernel that satisfies the laws, and [Scenario], [AsyncScenario] and [BackendScenario] run the theorems on
    concrete monitors.

    * The files

    - [Prelude], [Text], [Config]: integers, outcomes, the state monad, tactics; text as the C library prints and reads
      it; the build symbols.
    - [LruBuffer] ([lib/lrubuffer/LRUBufferImpl.*], [LRUBufferWrapper.cc], [include/pagehash.h]) and [LruCache]
      ([lib/lrubuffer/lrucache.h], with its nodes on a heap): lists of pages in the order of their use.
    - [UtHash] and [UtSort] ([include/uthash.h]): the hash table at the level of buckets and chains; its
      merge sort and its other hash functions.
    - [Os], [SimOs] (the kernel, [include/dbg.h]), [MonitorStats], [TimingStats] ([lib/monitorstats]), [Affinity]
      ([include/affinity.h]), [Cpufreq] ([include/cpufreq.h]).
    - [ExternRam] ([externRAMClient.hh], [externRAMClientWrapper.cc]), [Noop], [Memcached], [RamCloud]
      ([lib/externram/*/externRAMClientImpl.cc]): the interface to external memory and its three implementations.
    - [ThreadedIo] ([include/threaded_io.h]), [Upid] ([include/upid.h]), [BufferAllocator] and [RingThreads]
      ([include/buffer_allocator_array.h]): the state that the threads share.
    - [PageCache], [PageCacheRead], [CachedPages] ([lib/pagecache/PageCacheImpl.*], [PageCacheWrapper.cc]).
    - [World], [Userfault] ([lib/userfault/userfault.c]): the state of the process and the fault handlers; [Consistency],
      [Faults] and [Memory] have the theorems on them.  [Application]: programs that run in this memory; [TestPrograms]: those of
      [test/test_for_corruption.c], [test/test_nofluidmem.c] and [test/test_cases.c]; [ReadAhead]: [test/test_readahead.c].
    - [WriteThread], [PrefetchThread]: the two helper threads; [Async], [AsyncHandler], [AsyncRuns] and [AsyncCode]: the handler and the write thread
      interleaved.
    - [Zookeeper], [Processes], [Registration]: the registry, [recv_fd] and the removal of processes; [UfdClient]: the other
      end of the socket.
    - [PollfdVector], [Monitor], [HandOver], [MainThread], [Options] ([monitor/pollfd_vector.c], [monitor/monitor.c]): the
      polling loop, how it gets its descriptors, the loop over connections, the order of the start, the
      command line.
    - [Ui], [UiTiming], [UiClient] ([monitor/ui_processing.c], [monitor/ui.c], [scripts/statsExtraction.py]): the commands, those
      of the build with [TIMING], the client, and the script that reads its output.
    - [AttachMemory] ([scripts/attachMemory.py]): the script that plugs memory into a virtual machine.
    - [Locks]: threads with mutexes, semaphores and shared variables, and a discipline that rules out deadlocks and races;
      [LockOrder]: what each function of the monitor does with them, in every build, and the threads that [main] starts.

    * What is shown

    - The monitor is a memory.  In the build without helper threads every run of faults, stores, resizes and registrations
      refines a map from addresses to pages, faults are served to the end, and the number of resident pages stays within the
      limit ([Memory], [Faults], [Consistency]).  Its polling loop has no undefined behaviour whatever arrives
      ([Monitor]).
    - Applications cannot tell the difference: any program of loads and stores computes on the monitor what it computes in plain
      memory, and ends unless a fault fails ([Application]); the repository's own tests pass for that reason ([TestPrograms],
      [ReadAhead]).
    - All threads together, in every build and interleaving: nobody waits for a mutex it holds, whenever a thread waits for a
      mutex some thread can go on, and no two threads use a protected variable at once; each variable that no mutex
      protects is used by two threads at once in some interleaving ([LockOrder]).
    - With the write thread the refinement holds for every interleaving of handler, thread and stores; they do not block each other,
      a waiting handler is released, and a flush writes everything ([AsyncRuns]).  The steps that are interleaved are those of the
      code: [AsyncCode] shows that the function run alone is a run of them.
    - The prefetch thread does what was asked and no wake-up between it and the handler is lost
      ([PrefetchThread]); descriptors reach the polling thread once each, in any interleaving ([HandOver]).
    - Each data structure implements its specification: the two lists, the hash table with its expansion and its sort, the page
      cache, the poll vector, the ring of pages, the rings of samples.
    - Each backend stores what it is given and gives it back; the registry and [recv_fd] give out only identifiers that were
      free; what the client library sends, what the user types and what the script reads are understood at the other end.
    - The start sets up everything before the thread that uses it, in every build ([MainThread]).
    - Where the code goes wrong the development says how: resizing to a negative size, removing a process by number, a flush
      after the first one, a page given out twice by the ring of pages, a client that cannot arm its region, the hundred and
      first thread, and others.

    * Steps and fuel

    Where threads are interleaved a step is what happens under one lock, one system call, one call of the backend, or one
    operation on a semaphore; accesses to [num_initialized_pages] in [RingThreads], which two locks protect from nothing, are steps of
    their own.  Loops whose end depends on the world take fuel: the retries of a write are bounded by [WriteFuel], which
    [EnoughFuel] relates to the number of failures a backend may have in a row; the attempts of [add_upid] and [del_upid] by the number of
    rounds that the laws of ZooKeeper allow; the search for an identifier by the 65536 values there are; the passes of the
    merge sort by 32, since the length of the parts doubles.  The theorems show that this fuel is enough: running out of it is
    an outcome, [UB OutOfFuel], which they exclude.

    * Not modelled

    - Messages to the log, the layout of replies other than the statistics, and sleeps.
    - The functional models leave out mutexes that protect the whole of one operation, which is then one definition; [LockOrder]
      has them all but those of the build with [TIMING], and there branches and loops may go either way, since what is shown holds for
      each.  Counters that are incremented without a mutex are not among its variables.  In the functional models the prefetch thread, the
      refilling thread and the write thread are each studied beside the handler, not all at once; the handler in
      pieces is that of the builds without page cache and asynchronous read.
    - Whether a waiting thread gets its turn: nothing is assumed of the scheduler, so that what is shown is that some step is
      possible.
    - Of [include/uthash.h] what nothing uses: selection, ordered insertion, Bloom filters, MurmurHash.
    - Scripts of the shell; [lib/externram/client.cc] and [lib/externram/trace.c], a program written against methods the
      interface does not have and hooks for tracing; the kernel patches.
    - Of the tests [test/test_externram.c], which measures times, and the creation of the threads around
      [fault_test]. *)
From stdpp Require Export base tactics numbers list gmap strings.

(** * Machine integers *)

Declare Scope fm_scope.
Delimit Scope fm_scope with fm.
Open Scope Z_scope.

Definition u16 (z : Z) : Z := z mod 2 ^ 16.
Definition u32 (z : Z) : Z := z mod 2 ^ 32.
Definition u64 (z : Z) : Z := z mod 2 ^ 64.
(** A value stored in a 32-bit [int]. *)
Definition s32 (z : Z) : Z := (z + 2 ^ 31) mod 2 ^ 32 - 2 ^ 31.

(** [sys/user.h]: [PAGE_SIZE] is [1UL << 12] and [PAGE_MASK] is [~(PAGE_SIZE-1)],
    both of type [unsigned long]. *)
Definition PAGE_SIZE : Z := 4096.
Definition PAGE_MASK : Z := 2 ^ 64 - 4096.

Definition is_u64 (z : Z) : Prop := 0 <= z < 2 ^ 64.
Definition is_s32 (z : Z) : Prop := - 2 ^ 31 <= z < 2 ^ 31.

(** Masking with [PAGE_MASK]. *)
Definition page_of (z : Z) : Z := Z.land z PAGE_MASK.
Definition aligned (z : Z) : Prop := is_u64 z /\ z mod 4096 = 0.

#[export] Instance is_u64_dec z : Decision (is_u64 z).
Proof. unfold is_u64. apply _. Defined.
#[export] Instance is_s32_dec z : Decision (is_s32 z).
Proof. unfold is_s32. apply _. Defined.
#[export] Instance aligned_dec z : Decision (aligned z).
Proof. unfold aligned. apply _. Defined.

Lemma PAGE_MASK_eq : PAGE_MASK = Z.land (Z.ones 64) (Z.lnot (Z.ones 12)).
Proof. reflexivity. Qed.

Lemma page_of_eq z : page_of z = z mod 2 ^ 64 - z mod 4096.
Proof.
  unfold page_of. rewrite PAGE_MASK_eq, Z.land_assoc, Z.land_ones by lia.
  rewrite <- Z.sub_land_same_l, Z.land_ones by lia.
  change 4096 with (2 ^ 12). f_equal. apply Z.mod_mod_divide.
  exists (2 ^ 52). reflexivity.
Qed.

Lemma page_of_small z : is_u64 z -> page_of z = z - z mod 4096.
Proof. unfold is_u64. intros Hz. rewrite page_of_eq, (Z.mod_small z (2 ^ 64)) by lia. done. Qed.

Lemma page_of_aligned z : aligned (page_of z).
Proof.
  unfold aligned, is_u64. rewrite page_of_eq.
  pose proof (Z.mod_pos_bound z (2 ^ 64) ltac:(lia)).
  assert (Hm : (z mod 2 ^ 64) mod 4096 = z mod 4096).
  { apply Z.mod_mod_divide. exists (2 ^ 52). reflexivity. }
  pose proof (Z.mod_pos_bound z 4096 ltac:(lia)).
  pose proof (Z.mod_le (z mod 2 ^ 64) 4096 ltac:(lia) ltac:(lia)).
  split; [lia|].
  rewrite Zminus_mod, Hm, Z.mod_mod, Z.sub_diag by lia. done.
Qed.

Lemma page_of_id z : aligned z -> page_of z = z.
Proof. intros [Hz Hm]. rewrite page_of_small, Hm by done. lia. Qed.

Lemma page_of_idemp z : page_of (page_of z) = page_of z.
Proof. apply page_of_id, page_of_aligned. Qed.

(** Adding an offset inside the page does not change the page. *)
Lemma page_of_add k o : aligned k -> 0 <= o < 4096 -> page_of (k + o) = k.
Proof.
  intros [Hk Hm] Ho. unfold is_u64 in Hk.
  pose proof (Z.div_mod k 4096 ltac:(lia)).
  rewrite page_of_small.
  - rewrite <- Z.add_mod_idemp_l, Hm, Z.add_0_l, Z.mod_small by lia. lia.
  - unfold is_u64. change (2 ^ 64) with (4096 * 2 ^ 52) in *. nia.
Qed.

Lemma s32_id z : is_s32 z -> s32 z = z.
Proof. unfold is_s32, s32. intros. rewrite Z.mod_small; lia. Qed.
Lemma s32_range z : is_s32 (s32 z).
Proof. unfold is_s32, s32. pose proof (Z.mod_pos_bound (z + 2 ^ 31) (2 ^ 32)). lia. Qed.
Lemma u64_id z : is_u64 z -> u64 z = z.
Proof. unfold is_u64, u64. intros. by rewrite Z.mod_small by lia. Qed.
Lemma u64_range z : is_u64 (u64 z).
Proof. unfold is_u64, u64. apply Z.mod_pos_bound. lia. Qed.

(** * Outcomes of C code

    A call returns, runs into behaviour the C and C++ standards leave
    undefined (or an [assert] that fails), or stops at a wait that only another
    thread can end. *)

Inductive fault : Set :=
| NullDeref | UseAfterFree | OutOfBounds | EmptyContainer | AssertFail
| MissingReturn | Uninitialised | BadUnlock | BadFormat | Arithmetic | OutOfFuel.

Inductive outcome (A : Type) : Type :=
| Ok (a : A)
| UB (f : fault)
| Blocked.
Arguments Ok {A} a.
Arguments UB {A} f.
Arguments Blocked {A}.

#[export] Instance outcome_bind : MBind outcome := fun _ _ k m =>
  match m with Ok a => k a | UB f => UB f | Blocked => Blocked end.
#[export] Instance outcome_ret : MRet outcome := fun _ a => Ok a.

(** Stateful code: explicit state passing over [outcome]. *)
Definition M (S A : Type) : Type := S -> outcome (A * S).

#[export] Instance M_ret {S} : MRet (M S) := fun _ a s => Ok (a, s).
#[export] Instance M_bind {S} : MBind (M S) := fun _ _ k m s =>
  match m s with Ok (a, s') => k a s' | UB f => UB f | Blocked => Blocked end.

Section monad.
Context {S : Type}.

Definition mget : M S S := fun s => Ok (s, s).
Definition mput (s : S) : M S unit := fun _ => Ok (tt, s).
Definition mmod (f : S -> S) : M S unit := fun s => Ok (tt, f s).
Definition mgets {A} (f : S -> A) : M S A := fun s => Ok (f s, s).
Definition mub {A} (f : fault) : M S A := fun _ => UB f.
Definition mblock {A} : M S A := fun _ => Blocked.
(** Guard of a C statement: [mwhen b m] is [if (b) m]. *)
Definition mwhen (b : bool) (m : M S unit) : M S unit :=
  if b then m else mret tt.
Definition mlift {A} (o : outcome A) : M S A := fun s =>
  match o with Ok a => Ok (a, s) | UB f => UB f | Blocked => Blocked end.

(** [for (x : l) f x] with the results collected. *)
Fixpoint mmapM {A B} (f : A -> M S B) (l : list A) : M S (list B) :=
  match l with
  | [] => mret []
  | x :: l => y ← f x; ys ← mmapM f l; mret (y :: ys)
  end.

Fixpoint miter {A} (f : A -> M S unit) (l : list A) : M S unit :=
  match l with
  | [] => mret tt
  | x :: l => f x;; miter f l
  end.
End monad.

(** Running an operation on a part of a larger state. *)
Definition zoom {S T A} (get : S -> T) (put : T -> S -> S) (m : M T A) : M S A :=
  fun s => match m (get s) with
           | Ok (a, t) => Ok (a, put t s)
           | UB f => UB f
           | Blocked => Blocked
           end.

(** Every result of [m] satisfies [P]. *)
Definition returns {S A} (P : A -> Prop) (m : M S A) : Prop := forall s x s', m s = Ok (x, s') -> P x.

Lemma returns_ret {S A} (P : A -> Prop) x : P x -> returns P (mret x : M S A).
Proof. by intros H s y s' [= <- _]. Qed.

Lemma returns_bind {S A B} (Q : A -> Prop) (P : B -> Prop) (m : M S A) k :
  returns Q m -> (forall x, Q x -> returns P (k x)) -> returns P (m ≫= k).
Proof.
  intros Hm Hk s y s'. unfold mbind, M_bind. destruct (m s) as [[x s1]| |] eqn:E; [|done|done].
  apply (Hk x). by apply (Hm s x s1).
Qed.

Lemma returns_any {S A} (m : M S A) : returns (fun _ => True) m.
Proof. done. Qed.

(** Running a sequence, from its parts and back. *)
Lemma run_bind {S A B} (m : M S A) (k : A -> M S B) s a s' : m s = Ok (a, s') -> (m ≫= k) s = k a s'.
Proof. intros E. unfold mbind, M_bind. by rewrite E. Qed.

Lemma zoom_run {S T A} (g : S -> T) (put : T -> S -> S) (m : M T A) s a s' : zoom g put m s = Ok (a, s') ->
  exists t', m (g s) = Ok (a, t') /\ s' = put t' s.
Proof. unfold zoom. destruct (m (g s)) as [[x t]| |]; [|done|done]. intros [= -> <-]. by exists t. Qed.

Lemma bind_run {S A B} (m : M S A) (k : A -> M S B) s b s2 : (m ≫= k) s = Ok (b, s2) ->
  exists a s1, m s = Ok (a, s1) /\ k a s1 = Ok (b, s2).
Proof. unfold mbind, M_bind. destruct (m s) as [[a s1]| |]; [|done|done]. eauto. Qed.

(** * Tactics and hints *)

Create HintDb fm discriminated.
#[export] Hint Constants Transparent : fm.
#[export] Hint Resolve page_of_aligned page_of_idemp s32_range u64_range : fm.

(** Case analysis on every [if], [match] and [decide] of a goal or hypothesis. *)
Ltac cases :=
  repeat first
    [ progress simplify_eq/=
    | case_decide
    | case_match
    | progress destruct_and? ].

(** Case analysis on every scrutinee of one hypothesis. *)
Ltac split_in E :=
  repeat match type of E with
         | context [match ?x with _ => _ end] => destruct x eqn:?
         end.

(** Unfolds the state monad down to the underlying matches. *)
Ltac munfold :=
  unfold mbind, mret, M_bind, M_ret, outcome_bind, outcome_ret,
    mget, mput, mmod, mgets, mub, mblock, mwhen, mlift, zoom in *.

(** Closes a decidable goal by evaluating its decision procedure. *)
Ltac by_decide := apply (bool_decide_unpack _); vm_compute; exact I.

Ltac mrun := munfold; simpl in *.

(** * Pages and pointers *)

(** The contents of a page frame. *)
Definition page : Type := list Byte.byte.
Definition zero_page : page := replicate (Z.to_nat PAGE_SIZE) Byte.x00.

#[export] Instance byte_eq_dec : EqDecision Byte.byte := Byte.byte_eq_dec.
#[export] Instance page_eq_dec : EqDecision page := _.

(** A pointer of the monitor process; [NULL] and [MAP_FAILED] are the values
    the sources test for. *)
Abbreviation ptr := Z (only parsing).
Definition NULL : ptr := 0.
Definition MAP_FAILED : ptr := 2 ^ 64 - 1.

(** * Lists *)

Lemma filter_all {A} (P : A -> Prop) `{forall x, Decision (P x)} (l : list A) :
  Forall P l -> filter P l = l.
Proof. induction 1; [done|]. rewrite filter_cons_True by done. by f_equal. Qed.

Lemma filter_none {A} (P : A -> Prop) `{forall x, Decision (P x)} (l : list A) :
  Forall (fun x => ~ P x) l -> filter P l = [].
Proof. induction 1; [done|]. by rewrite filter_cons_False by done. Qed.

Lemma NoDup_fmap_filter {A B} (f : A -> B) (P : A -> Prop) `{forall x, Decision (P x)} (l : list A) :
  NoDup (f <$> l) -> NoDup (f <$> filter P l).
Proof.
  induction l as [|x l IH]; [done|]. intros [Hx Hl]%NoDup_cons.
  destruct (decide (P x)).
  2:{ rewrite filter_cons_False by done. by apply IH. }
  rewrite filter_cons_True by done. apply NoDup_cons. split; [|by apply IH].
  intros (y & Heq & [_ Hy]%list_elem_of_filter)%list_elem_of_fmap. apply Hx.
  apply list_elem_of_fmap. eauto.
Qed.

Lemma length_filter_split {A} (P : A -> Prop) `{forall x, Decision (P x)} (l : list A) :
  (length (filter P l) + length (filter (fun x => ~ P x) l) = length l)%nat.
Proof.
  induction l as [|x l IH]; [done|]. destruct (decide (P x)).
  - rewrite filter_cons_True, filter_cons_False by tauto. simpl. lia.
  - rewrite filter_cons_False, filter_cons_True by tauto. simpl. lia.
Qed.

Lemma Forall_filter_sub {A} (Q P : A -> Prop) `{forall x, Decision (P x)} (l : list A) :
  Forall Q l -> Forall Q (filter P l).
Proof. rewrite !Forall_forall. intros HQ x [_ Hx]%list_elem_of_filter. by apply HQ. Qed.

(** * Fresh addresses *)

(** An address above every address of a heap: where [malloc] puts a new object. *)
Definition fresh_ptr {A} (m : gmap Z A) : Z := map_fold (fun k _ acc => Z.max acc (k + 1)) 1 m.

Lemma fresh_ptr_above {A} (m : gmap Z A) : 1 <= fresh_ptr m /\ (forall k, is_Some (m !! k) -> k < fresh_ptr m).
Proof.
  unfold fresh_ptr.
  apply (map_fold_weak_ind (fun acc m => 1 <= acc /\ (forall k, is_Some (m !! k) -> k < acc))).
  - split; [lia|]. intros k. rewrite lookup_empty. by intros [? ?].
  - intros i x n acc Hi [H1 H2]. split; [lia|]. intros k. destruct (decide (i = k)) as [->|Hne].
    + lia.
    + rewrite lookup_insert_ne by done. intros Hk. specialize (H2 k Hk). lia.
Qed.

Lemma fresh_ptr_pos {A} (m : gmap Z A) : 1 <= fresh_ptr m.
Proof. apply fresh_ptr_above. Qed.

Lemma fresh_ptr_fresh {A} (m : gmap Z A) : m !! fresh_ptr m = None.
Proof.
  destruct (m !! fresh_ptr m) eqn:E; [|done].
  pose proof (proj2 (fresh_ptr_above m) (fresh_ptr m)) as H. rewrite E in H.
  specialize (H (mk_is_Some _ _ eq_refl)). lia.
Qed.

(** * Little-endian byte strings *)

Fixpoint le_bytes (n : nat) (z : Z) : list Z :=
  match n with O => [] | S n => z mod 256 :: le_bytes n (z / 256) end.

Fixpoint le_value (bs : list Z) : Z :=
  match bs with [] => 0 | b :: bs => b + 256 * le_value bs end.

Lemma length_le_bytes n z : length (le_bytes n z) = n.
Proof. revert z. induction n; intros; simpl; by f_equal. Qed.

Lemma le_value_bytes n z : le_value (le_bytes n z) = z mod 256 ^ Z.of_nat n.
Proof.
  revert z. induction n as [|n IH]; intros z; simpl le_bytes; simpl le_value.
  - by rewrite Z.mod_1_r.
  - rewrite IH, Nat2Z.inj_succ, Z.pow_succ_r by lia.
    rewrite (Z.rem_mul_r z 256 (256 ^ Z.of_nat n)); [lia|lia|]. apply Z.pow_pos_nonneg; lia.
Qed.

Lemma le_bytes_inj n z z' : le_bytes n z = le_bytes n z' ->
  z mod 256 ^ Z.of_nat n = z' mod 256 ^ Z.of_nat n.
Proof. intros E. by rewrite <- !le_value_bytes, E. Qed.

Lemma le_bytes_inj_s32 z z' : is_s32 z -> is_s32 z' -> le_bytes 4 z = le_bytes 4 z' -> z = z'.
Proof.
  intros Hz Hz' E%le_bytes_inj. change (256 ^ Z.of_nat 4) with (2 ^ 32) in E.
  rewrite <- (s32_id z), <- (s32_id z') by done. unfold s32. f_equal.
  by rewrite <- (Zplus_mod_idemp_l z), <- (Zplus_mod_idemp_l z'), E.
Qed.

Lemma le_bytes_inj_u64 z z' : is_u64 z -> is_u64 z' -> le_bytes 8 z = le_bytes 8 z' -> z = z'.
Proof.
  intros Hz Hz' E%le_bytes_inj. change (256 ^ Z.of_nat 8) with (2 ^ 64) in E.
  by rewrite <- (u64_id z), <- (u64_id z').
Qed.

Lemma le_bytes_u64 z : le_bytes 8 (u64 z) = le_bytes 8 z.
Proof.
  assert (G : forall n m x, (n <= m)%nat -> le_bytes n (x mod 256 ^ Z.of_nat m) = le_bytes n x).
  { induction n as [|n IH]; intros m x Hm; [done|]. simpl. destruct m as [|m]; [lia|].
    rewrite Nat2Z.inj_succ, Z.pow_succ_r by lia.
    assert (Hp : 0 < 256 ^ Z.of_nat m) by (apply Z.pow_pos_nonneg; lia).
    rewrite Z.rem_mul_r by lia. f_equal.
    - rewrite Z.mul_comm, Z.mod_add, Z.mod_mod by lia. done.
    - rewrite (Z.mul_comm 256), Z.div_add, (Z.div_small (x mod 256)) by (try apply Z.mod_pos_bound; lia).
      simpl. apply IH. lia. }
  apply (G 8%nat 8%nat z). lia.
Qed.

Lemma le_value_app bs cs : le_value (bs ++ cs) = le_value bs + 256 ^ Z.of_nat (length bs) * le_value cs.
Proof.
  induction bs as [|b bs IH].
  - change (256 ^ Z.of_nat (length (@nil Z))) with 1. simpl le_value. simpl app. lia.
  - simpl app. simpl le_value. rewrite IH. simpl length. rewrite Nat2Z.inj_succ, Z.pow_succ_r by lia. ring.
Qed.

Lemma omap_fmap_comp {A B C} (f : B -> option C) (g : A -> B) (l : list A) :
  omap f (g <$> l) = omap (fun x => f (g x)) l.
Proof. induction l as [|x l IH]; [done|]. rewrite fmap_cons. cbn [omap list_omap]. rewrite <- IH. done. Qed.
