(* ===== verification/Text.v ===== *)
(** Text as the C library makes and reads it: a string is the list of its character
    codes, without the closing zero.

    Printing with [%lx] and [%u], [atoi], and the tokens of [strsep]. *)
From S2P Require Import Prelude.

Abbreviation text := (list Z) (only parsing).

(** The codes of a literal. *)
Definition txt (s : string) : text := (fun c => Z.of_nat (Ascii.nat_of_ascii c)) <$> String.list_ascii_of_string s.

(** * Numbers to text *)

(** [%lx] *)
Definition hex_digit (d : Z) : Z := if d <? 10 then 48 + d else 87 + d.
Fixpoint hex_digits (fuel : nat) (z : Z) (acc : list Z) : list Z :=
  match fuel with
  | O => acc
  | S fuel =>
      let acc := hex_digit (z mod 16) :: acc in
      if z / 16 =? 0 then acc else hex_digits fuel (z / 16) acc
  end.
(** Sixteen digits are enough for 64 bits. *)
Definition print_lx (z : Z) : list Z := hex_digits 16 z [].

(** [%u], [%llu]: twenty digits are enough for 64 bits. *)
Fixpoint dec_digits (fuel : nat) (z : Z) (acc : text) : text :=
  match fuel with
  | O => acc
  | S fuel =>
      let acc := 48 + z mod 10 :: acc in
      if z / 10 =? 0 then acc else dec_digits fuel (z / 10) acc
  end.
Definition print_u (z : Z) : text := dec_digits 20 z [].
(** [%d] *)
Definition print_d (z : Z) : text := if z <? 0 then 45 :: print_u (- z) else print_u z.

(** * Text to numbers *)

(** [isspace] in the C locale, and [isdigit]. *)
Definition isspace (c : Z) : bool := (c =? 32) || ((9 <=? c) && (c <=? 13)).
Definition isdigit (c : Z) : bool := (48 <=? c) && (c <=? 57).

Fixpoint skip_space (s : text) : text :=
  match s with c :: s' => if isspace c then skip_space s' else s | [] => [] end.
Fixpoint read_digits (v : Z) (s : text) : Z :=
  match s with c :: s' => if isdigit c then read_digits (10 * v + (c - 48)) s' else v | [] => v end.

(** [strtol] in base ten, which saturates, and [atoi], its value as an [int]. *)
Definition LONG_MAX : Z := 2 ^ 63 - 1.
Definition LONG_MIN : Z := - 2 ^ 63.
Definition strtol (s : text) : Z :=
  match skip_space s with
  | 45 :: s' => Z.max LONG_MIN (- read_digits 0 s')
  | 43 :: s' => Z.min LONG_MAX (read_digits 0 s')
  | s' => Z.min LONG_MAX (read_digits 0 s')
  end.
Definition atoi (s : text) : Z := s32 (strtol s).

(** * Tokens *)

(** [strsep]: the text up to the first of the given characters, and what is left. *)
Fixpoint strsep (delim : Z -> bool) (s : text) : text * option text :=
  match s with
  | [] => ([], None)
  | c :: s => if delim c then ([], Some s) else let '(tok, rest) := strsep delim s in (c :: tok, rest)
  end.

(** * Printing *)

Lemma hex_digit_inj d d' : 0 <= d < 16 -> 0 <= d' < 16 -> hex_digit d = hex_digit d' -> d = d'.
Proof. unfold hex_digit. intros Hd Hd'. destruct (Z.ltb_spec d 10), (Z.ltb_spec d' 10); lia. Qed.

(** Reading the digits back. *)
Definition hex_value (l : list Z) : Z := foldl (fun v c => 16 * v + (if c <? 58 then c - 48 else c - 87)) 0 l.

Lemma hex_digit_value d : 0 <= d < 16 -> (if hex_digit d <? 58 then hex_digit d - 48 else hex_digit d - 87) = d.
Proof.
  intros Hd. unfold hex_digit. destruct (Z.ltb_spec d 10).
  - destruct (Z.ltb_spec (48 + d) 58); lia.
  - destruct (Z.ltb_spec (87 + d) 58); lia.
Qed.

Lemma hex_digits_value fuel z acc : 0 <= z < 16 ^ Z.of_nat fuel ->
  hex_value (hex_digits fuel z acc) =
    foldl (fun v c => 16 * v + (if c <? 58 then c - 48 else c - 87)) z acc.
Proof.
  revert z acc. induction fuel as [|fuel IH]; intros z acc Hz.
  - simpl in Hz. assert (z = 0) as -> by lia. done.
  - simpl. pose proof (Z.mod_pos_bound z 16 ltac:(lia)) as Hm. pose proof (Z_div_mod_eq_full z 16) as Hdm.
    assert (Hq : 0 <= z / 16 < 16 ^ Z.of_nat fuel).
    { rewrite Nat2Z.inj_succ, Z.pow_succ_r in Hz by lia. split; [apply Z.div_pos; lia|apply Z.div_lt_upper_bound; lia]. }
    destruct (Z.eqb_spec (z / 16) 0) as [E|_].
    + unfold hex_value. simpl. rewrite hex_digit_value by done. f_equal. lia.
    + rewrite IH by done. simpl. rewrite hex_digit_value by done. f_equal. lia.
Qed.

Lemma print_lx_value z : is_u64 z -> hex_value (print_lx z) = z.
Proof. intros Hz. unfold print_lx. rewrite hex_digits_value; [done|]. unfold is_u64 in Hz. simpl. lia. Qed.

Lemma hex_digits_longer fuel : forall z acc, (length acc <= length (hex_digits fuel z acc))%nat.
Proof.
  induction fuel as [|fuel IH]; intros z acc; cbn [hex_digits]; [lia|]. destruct (z / 16 =? 0); [simpl; lia|].
  etransitivity; [|apply IH]. simpl. lia.
Qed.

(** The number of digits tells the size. *)
Lemma hex_digits_length fuel : forall z acc n, 0 <= z < 16 ^ Z.of_nat fuel -> (n < fuel)%nat ->
  (length (hex_digits fuel z acc) <= n + 1 + length acc)%nat <-> z < 16 ^ Z.of_nat (S n).
Proof.
  induction fuel as [|fuel IH]; intros z acc n Hz Hn; [lia|]. cbn [hex_digits].
  rewrite Nat2Z.inj_succ, Z.pow_succ_r in Hz by lia.
  assert (Hq : 0 <= z / 16 < 16 ^ Z.of_nat fuel) by (split; [apply Z.div_pos; lia|apply Z.div_lt_upper_bound; lia]).
  pose proof (Z_div_mod_eq_full z 16) as Hdm. pose proof (Z.mod_pos_bound z 16 ltac:(lia)) as Hm.
  destruct (Z.eqb_spec (z / 16) 0) as [E|Ne].
  - cbn [length]. rewrite Nat2Z.inj_succ, Z.pow_succ_r by lia.
    pose proof (Z.pow_pos_nonneg 16 (Z.of_nat n) ltac:(lia) ltac:(lia)). split; intros; lia.
  - destruct n as [|n].
    + split; intros H; [exfalso|simpl in H; lia]. destruct fuel as [|fuel]; [simpl in Hq; lia|].
      cbn [hex_digits] in H. pose proof (hex_digits_longer fuel (z / 16 / 16) (hex_digit ((z / 16) mod 16) :: hex_digit (z mod 16) :: acc)) as Hp.
      destruct (z / 16 / 16 =? 0); simpl in H, Hp; lia.
    + pose proof (IH (z / 16) (hex_digit (z mod 16) :: acc) n Hq ltac:(lia)) as Hi. cbn [length] in Hi.
      replace (S n + 1 + length acc)%nat with (n + 1 + S (length acc))%nat by lia. rewrite Hi.
      rewrite (Nat2Z.inj_succ (S n)), (Z.pow_succ_r _ (Z.of_nat (S n))) by lia. split; intros; lia.
Qed.

Lemma print_lx_length z n : is_u64 z -> (n < 16)%nat -> (length (print_lx z) <= S n)%nat <-> z < 16 ^ Z.of_nat (S n).
Proof.
  intros Hz Hn. rewrite <- (hex_digits_length 16 z [] n); [|exact Hz|done]. unfold print_lx. simpl length. split; lia.
Qed.

(** ** Decimal *)

Lemma dec_digits_digits fuel : forall z acc, 0 <= z -> Forall (fun c => isdigit c = true) acc ->
  Forall (fun c => isdigit c = true) (dec_digits fuel z acc).
Proof.
  induction fuel as [|fuel IH]; intros z acc Hz Ha; [done|]. cbn [dec_digits].
  pose proof (Z.mod_pos_bound z 10 ltac:(lia)).
  assert (Hd : Forall (fun c => isdigit c = true) (48 + z mod 10 :: acc)).
  { constructor; [|done]. unfold isdigit. apply andb_true_iff. split; apply Z.leb_le; lia. }
  destruct (z / 10 =? 0); [done|]. apply IH; [apply Z.div_pos; lia|done].
Qed.

Lemma read_digits_app v s rest : Forall (fun c => isdigit c = true) s ->
  read_digits v (s ++ rest) = read_digits (read_digits v s) rest.
Proof. intros H. revert v. induction H as [|c s Hc _ IH]; intros v; [done|]. simpl. by rewrite Hc, IH. Qed.

Lemma dec_digits_value fuel : forall z acc, 0 <= z < 10 ^ Z.of_nat fuel -> Forall (fun c => isdigit c = true) acc ->
  read_digits 0 (dec_digits fuel z acc) = read_digits z acc.
Proof.
  induction fuel as [|fuel IH]; intros z acc Hz Ha.
  { simpl in Hz. assert (z = 0) as -> by lia. done. }
  cbn [dec_digits]. rewrite Nat2Z.inj_succ, Z.pow_succ_r in Hz by lia.
  pose proof (Z.mod_pos_bound z 10 ltac:(lia)) as Hm. pose proof (Z_div_mod_eq_full z 10) as Hdm.
  assert (Hq : 0 <= z / 10 < 10 ^ Z.of_nat fuel) by (split; [apply Z.div_pos; lia|apply Z.div_lt_upper_bound; lia]).
  assert (Hd : isdigit (48 + z mod 10) = true) by (unfold isdigit; apply andb_true_iff; split; apply Z.leb_le; lia).
  destruct (Z.eqb_spec (z / 10) 0) as [E|_].
  - cbn [read_digits]. rewrite Hd. f_equal. lia.
  - rewrite IH; [|done|by constructor]. cbn [read_digits]. rewrite Hd. f_equal. lia.
Qed.

Lemma print_u_digits z : 0 <= z -> Forall (fun c => isdigit c = true) (print_u z).
Proof. intros Hz. by apply dec_digits_digits. Qed.

Lemma dec_digits_longer fuel : forall z acc, (length acc <= length (dec_digits fuel z acc))%nat.
Proof.
  induction fuel as [|fuel IH]; intros z acc; cbn [dec_digits]; [lia|]. destruct (z / 10 =? 0); [simpl; lia|].
  etransitivity; [|apply IH]. simpl. lia.
Qed.

Lemma dec_digits_cons fuel z acc : dec_digits (S fuel) z acc <> [].
Proof.
  cbn [dec_digits]. destruct (z / 10 =? 0); [done|]. intros E.
  pose proof (dec_digits_longer fuel (z / 10) (48 + z mod 10 :: acc)) as H. rewrite E in H. simpl in H. lia.
Qed.

Lemma print_u_cons z : 0 <= z -> exists c s, print_u z = c :: s /\ isdigit c = true.
Proof.
  intros Hz. pose proof (print_u_digits z Hz) as H. pose proof (dec_digits_cons 19 z [] : print_u z <> []) as Hne.
  destruct (print_u z) as [|c s]; [done|]. inversion H; subst. by exists c, s.
Qed.

Lemma read_digits_stop v s : (forall c s', s = c :: s' -> isdigit c = false) -> read_digits v s = v.
Proof. intros H. destruct s as [|c s]; [done|]. simpl. by rewrite (H c s). Qed.

Lemma read_print_u z rest : 0 <= z < 2 ^ 64 -> (forall c s, rest = c :: s -> isdigit c = false) ->
  read_digits 0 (print_u z ++ rest) = z.
Proof.
  intros Hz Hr. rewrite read_digits_app by (apply print_u_digits; lia). unfold print_u.
  rewrite dec_digits_value; [simpl; by apply read_digits_stop|simpl; lia|constructor].
Qed.

(** Reading back a number that was printed. *)
Lemma atoi_print z rest : is_s32 z -> (forall c s, rest = c :: s -> isdigit c = false) -> atoi (print_d z ++ rest) = z.
Proof.
  intros Hz Hr. unfold atoi, print_d. enough (E : strtol ((if z <? 0 then 45 :: print_u (- z) else print_u z) ++ rest) = z)
    by (rewrite E; by apply s32_id).
  unfold is_s32 in Hz.
  destruct (Z.ltb_spec z 0) as [Hneg|Hpos].
  - unfold strtol. cbn [app skip_space isspace orb andb Z.eqb Z.leb Z.compare Pos.eqb Pos.compare Pos.compare_cont].
    rewrite read_print_u by (lia || done).
    unfold LONG_MIN. lia.
  - pose proof (read_print_u z rest ltac:(lia) Hr) as Hv. destruct (print_u_cons z Hpos) as (c & s & E & Hc).
    rewrite E in Hv |- *. unfold strtol. cbn [app] in Hv |- *.
    assert (Hc' : 48 <= c <= 57) by (unfold isdigit in Hc; apply andb_true_iff in Hc as [?%Z.leb_le ?%Z.leb_le]; lia).
    assert (Hs : skip_space (c :: s ++ rest) = c :: s ++ rest).
    { cbn [skip_space]. unfold isspace. rewrite (proj2 (Z.eqb_neq c 32)) by lia. rewrite (proj2 (Z.leb_gt c 13)) by lia.
      by rewrite andb_false_r. }
    rewrite Hs. destruct (decide (c = 45)); [lia|]. destruct (decide (c = 43)); [lia|].
    assert (Hm : match c :: s ++ rest with 45 :: s' => Z.max LONG_MIN (- read_digits 0 s')
      | 43 :: s' => Z.min LONG_MAX (read_digits 0 s') | s' => Z.min LONG_MAX (read_digits 0 s') end
      = Z.min LONG_MAX (read_digits 0 (c :: s ++ rest))).
    { repeat (case_match; try done; try lia). }
    rewrite Hm, Hv. unfold LONG_MAX. lia.
Qed.

(** ** Tokens *)

Lemma strsep_token (delim : Z -> bool) tok rest : Forall (fun c => delim c = false) tok ->
  (forall c s, rest = c :: s -> delim c = true) ->
  strsep delim (tok ++ rest) = (tok, match rest with [] => None | _ :: s => Some s end).
Proof.
  intros H Hr. induction H as [|c tok Hc _ IH]; simpl.
  - destruct rest as [|c s]; [done|]. simpl. by rewrite (Hr c s).
  - by rewrite Hc, IH.
Qed.
