(* ===== verification/Config.v ===== *)
(** Build-time configuration: the preprocessor symbols that [configure.ac] and
    the [Makefile.am] files define and the sources test with [#ifdef]. *)
From S2P Require Import Prelude.

Class BuildFlags : Type := {
  CACHE : bool;                          (* ! --enable-ccache *)
  PAGECACHE : bool;                      (* --enable-pagecache *)
  PAGECACHE_ZEROPAGE_OPTIMIZATION : bool;(* --enable-pagecache-zeropageopt *)
  MONITORSTATS : bool;                   (* --enable-monitorstats *)
  THREADED_WRITE_TO_EXTERNRAM : bool;    (* --enable-threadedwrite *)
  THREADED_PREFETCH : bool;              (* --enable-threadedprefetch *)
  THREADED_REINIT : bool;                (* --enable-threadedreinit *)
  ASYNREAD : bool                        (* --enable-asynread *)
}.

(** What [./configure] without options builds. *)
Definition default_build : BuildFlags := {|
  CACHE := true;
  PAGECACHE := false;
  PAGECACHE_ZEROPAGE_OPTIMIZATION := false;
  MONITORSTATS := true;
  THREADED_WRITE_TO_EXTERNRAM := false;
  THREADED_PREFETCH := false;
  THREADED_REINIT := false;
  ASYNREAD := false
|}.

(** [lib/userfault/userfault.h]: the size of the arrays for a multiple read. *)
Definition MAX_MULTI_READ : Z := 200.
