(* ===== verification/Options.v ===== *)
(** The command line of the monitor, [main] of [monitor/monitor.c] lines 605 to 676.

    The first argument is the address of the external memory, the others are options.
    Whether the build has the page cache or the time measurements decides which options
    it knows. *)
From S2P Require Import Prelude Text Config.

Definition MAX_ZK_STRING_LEN : nat := 22.

(** The globals the options set; a byte that was never written is [None]. *)
Record options := Opts {
  o_cache_size : Z;
  o_page_cache_size : Z;
  o_prefetch_size : Z;
  o_enable_prefetch : Z;
  o_test_readahead : Z;
  o_zookeeperConn : list (option Z);
  o_print_info : Z;
  o_exit_on_recoverable_error : Z;
  o_buckets_mask : Z;
  o_max_bucket_slots : Z
}.

(** [strncmp(arg, opt, strlen(opt)) == 0], and [arg + strlen(opt)]. *)
Fixpoint after_prefix (opt arg : text) : option text :=
  match opt, arg with
  | [], _ => Some arg
  | c :: opt, d :: arg => if c =? d then after_prefix opt arg else None
  | _ :: _, [] => None
  end.

(** [strcpy] and [strncpy] into the block; the latter pads with zeros. *)
Definition strcpy (src : text) (block : list (option Z)) : outcome (list (option Z)) :=
  let s := src ++ [0] in
  if decide (length s <= length block)%nat then Ok ((Some <$> s) ++ drop (length s) block) else UB OutOfBounds.
Definition strncpy (n : nat) (src : text) (block : list (option Z)) : outcome (list (option Z)) :=
  let s := take n (src ++ replicate n 0) in
  if decide (n <= length block)%nat then Ok ((Some <$> s) ++ drop n block) else UB OutOfBounds.
(** A block read as a string: to its first zero, if it has one. *)
Fixpoint c_string (block : list (option Z)) : outcome text :=
  match block with
  | [] => UB OutOfBounds
  | None :: _ => UB Uninitialised
  | Some c :: block => if c =? 0 then Ok [] else s ← c_string block; mret (c :: s)
  end.

Section options.
Context `{F : BuildFlags} (TIMING : bool).

Definition set_zookeeper (b : list (option Z)) (o : options) : options :=
  Opts (o_cache_size o) (o_page_cache_size o) (o_prefetch_size o) (o_enable_prefetch o) (o_test_readahead o) b
    (o_print_info o) (o_exit_on_recoverable_error o) (o_buckets_mask o) (o_max_bucket_slots o).

(** One argument: the first option that is a prefix of it. *)
Definition parse_option (arg : text) (o : options) : outcome options :=
  let '(Opts cs pcs ps ep tr zk pi ex bm ms) := o in
  match after_prefix (txt "--cache_size=") arg with
  | Some v => Ok (Opts (atoi v) pcs ps ep tr zk pi ex bm ms)
  | None =>
  match (if PAGECACHE then after_prefix (txt "--page_cache_size=") arg else None) with
  | Some v => Ok (Opts cs (atoi v) ps ep tr zk pi ex bm ms)
  | None =>
  match (if PAGECACHE then after_prefix (txt "--prefetch_size=") arg else None) with
  | Some v => Ok (Opts cs pcs (atoi v) ep tr zk pi ex bm ms)
  | None =>
  match (if PAGECACHE then after_prefix (txt "--enable_prefetch=") arg else None) with
  | Some v => Ok (Opts cs pcs ps (atoi v) tr zk pi ex bm ms)
  | None =>
  match (if PAGECACHE then after_prefix (txt "--test_readahead") arg else None) with
  | Some _ => Ok (Opts cs pcs ps ep 1 zk pi ex bm ms)
  | None =>
  match after_prefix (txt "--zookeeper=") arg with
  | Some v => zk ← strncpy MAX_ZK_STRING_LEN v zk; mret (Opts cs pcs ps ep tr zk pi ex bm ms)
  | None =>
  match after_prefix (txt "--print_info") arg with
  | Some _ => Ok (Opts cs pcs ps ep tr zk 1 ex bm ms)
  | None =>
  match after_prefix (txt "--exit-on-recoverable-error") arg with
  | Some _ => Ok (Opts cs pcs ps ep tr zk pi 1 bm ms)
  | None =>
  match (if TIMING then after_prefix (txt "--buckets_mask=") arg else None) with
  | Some v => Ok (Opts cs pcs ps ep tr zk pi ex (u32 (atoi v)) ms)
  | None =>
  match (if TIMING then after_prefix (txt "--max_bucket_slots=") arg else None) with
  | Some v => Ok (Opts cs pcs ps ep tr zk pi ex bm (u32 (atoi v)))
  | None => Ok o
  end end end end end end end end end end.

Fixpoint parse_options (args : list text) (o : options) : outcome options :=
  match args with [] => Ok o | arg :: args => o ← parse_option arg o; parse_options args o end.

(** [argv] without the name of the program: the address, and the options after the
    default address of ZooKeeper was put into its block.  [None] is the early return. *)
Definition parse_args (argv : list text) (o : options) : outcome (option (text * options)) :=
  match argv with
  | [] => Ok None
  | config :: args =>
      zk ← strcpy (txt "10.0.1.1:2181") (replicate MAX_ZK_STRING_LEN None);
      o ← parse_options args (set_zookeeper zk o);
      mret (Some (config, o))
  end.
End options.

(** * What an argument sets *)

Inductive setting : Type :=
| CacheSize (n : Z) | PageCacheSize (n : Z) | PrefetchSize (n : Z) | EnablePrefetch (n : Z) | TestReadahead
| Zookeeper (address : text) | PrintInfo | ExitOnRecoverableError | BucketsMask (n : Z) | MaxBucketSlots (n : Z).

(** The argument for a setting, as the usage of the monitor has it. *)
Definition argument (s : setting) : text :=
  match s with
  | CacheSize n => txt "--cache_size=" ++ print_d n
  | PageCacheSize n => txt "--page_cache_size=" ++ print_d n
  | PrefetchSize n => txt "--prefetch_size=" ++ print_d n
  | EnablePrefetch n => txt "--enable_prefetch=" ++ print_d n
  | TestReadahead => txt "--test_readahead"
  | Zookeeper a => txt "--zookeeper=" ++ a
  | PrintInfo => txt "--print_info"
  | ExitOnRecoverableError => txt "--exit-on-recoverable-error"
  | BucketsMask n => txt "--buckets_mask=" ++ print_d n
  | MaxBucketSlots n => txt "--max_bucket_slots=" ++ print_d n
  end.

(** The value is an [int], and an address fits its block with the zero at its end. *)
Definition setting_ok (s : setting) : Prop :=
  match s with
  | CacheSize n | PageCacheSize n | PrefetchSize n | EnablePrefetch n | BucketsMask n | MaxBucketSlots n => is_s32 n
  | Zookeeper a => (length a < MAX_ZK_STRING_LEN)%nat /\ Forall (fun c => c <> 0) a
  | _ => True
  end.

(** Whether the build knows the option. *)
Definition known `{BuildFlags} (TIMING : bool) (s : setting) : bool :=
  match s with
  | PageCacheSize _ | PrefetchSize _ | EnablePrefetch _ | TestReadahead => PAGECACHE
  | BucketsMask _ | MaxBucketSlots _ => TIMING
  | _ => true
  end.

Definition zk_block (a : text) : list (option Z) := Some <$> (a ++ replicate (MAX_ZK_STRING_LEN - length a) 0).

Definition apply_setting (o : options) (s : setting) : options :=
  let '(Opts cs pcs ps ep tr zk pi ex bm ms) := o in
  match s with
  | CacheSize n => Opts n pcs ps ep tr zk pi ex bm ms
  | PageCacheSize n => Opts cs n ps ep tr zk pi ex bm ms
  | PrefetchSize n => Opts cs pcs n ep tr zk pi ex bm ms
  | EnablePrefetch n => Opts cs pcs ps n tr zk pi ex bm ms
  | TestReadahead => Opts cs pcs ps ep 1 zk pi ex bm ms
  | Zookeeper a => Opts cs pcs ps ep tr (zk_block a) pi ex bm ms
  | PrintInfo => Opts cs pcs ps ep tr zk 1 ex bm ms
  | ExitOnRecoverableError => Opts cs pcs ps ep tr zk pi 1 bm ms
  | BucketsMask n => Opts cs pcs ps ep tr zk pi ex (u32 n) ms
  | MaxBucketSlots n => Opts cs pcs ps ep tr zk pi ex bm (u32 n)
  end.

Lemma after_prefix_app opt v : after_prefix opt (opt ++ v) = Some v.
Proof. induction opt as [|c opt IH]; [done|]. cbn. by rewrite Z.eqb_refl. Qed.

(** Where two options differ, the one is no prefix of an argument for the other. *)
Fixpoint differ (opt arg : text) : bool :=
  match opt, arg with c :: opt, d :: arg => if c =? d then differ opt arg else true | _, _ => false end.
Lemma after_prefix_differ opt opt' v : differ opt opt' = true -> after_prefix opt (opt' ++ v) = None.
Proof.
  revert opt'. induction opt as [|c opt IH]; intros [|d opt'] H; try done. cbn in *. destruct (c =? d); [by apply IH|done].
Qed.

Lemma after_prefix_self opt : after_prefix opt opt = Some [].
Proof. rewrite <- (app_nil_r opt) at 2. apply after_prefix_app. Qed.
Lemma after_prefix_other opt opt' : differ opt opt' = true -> after_prefix opt opt' = None.
Proof. intros H. rewrite <- (app_nil_r opt'). by apply after_prefix_differ. Qed.

Lemma atoi_print_all n : is_s32 n -> atoi (print_d n) = n.
Proof. intros Hn. pose proof (atoi_print n [] Hn) as H. rewrite app_nil_r in H. by apply H. Qed.

Lemma strncpy_fits a block : (length a < MAX_ZK_STRING_LEN)%nat -> length block = MAX_ZK_STRING_LEN ->
  strncpy MAX_ZK_STRING_LEN a block = Ok (zk_block a).
Proof.
  intros Ha Hb. unfold strncpy. rewrite decide_True by lia. rewrite drop_ge, app_nil_r by lia. unfold zk_block.
  rewrite take_app_ge by lia. by rewrite take_replicate, Nat.min_l by lia.
Qed.

Lemma c_string_block a : (length a < MAX_ZK_STRING_LEN)%nat -> Forall (fun c => c <> 0) a -> c_string (zk_block a) = Ok a.
Proof.
  intros Ha Hn. unfold zk_block. destruct (MAX_ZK_STRING_LEN - length a)%nat as [|k] eqn:E; [lia|]. clear Ha E.
  induction Hn as [|c a Hc _ IH]; [done|]. cbn. rewrite (proj2 (Z.eqb_neq c 0) Hc). cbn in IH. rewrite IH. done.
Qed.

Section settings.
Context `{F : BuildFlags} (TIMING : bool).

Ltac miss := first [rewrite after_prefix_differ by reflexivity | rewrite after_prefix_other by reflexivity].

Lemma parse_option_setting s o : setting_ok s -> length (o_zookeeperConn o) = MAX_ZK_STRING_LEN ->
  parse_option TIMING (argument s) o = Ok (if known TIMING s then apply_setting o s else o).
Proof.
  intros Hs Hz. destruct o as [cs pcs ps ep tr zk pi ex bm ms]. cbn [o_zookeeperConn] in Hz.
  destruct s; cbn [argument known apply_setting setting_ok] in *; unfold parse_option.
  all: destruct PAGECACHE, TIMING; repeat (first [rewrite after_prefix_app | rewrite after_prefix_self | miss]); rewrite ?atoi_print_all by done; try done.
  all: rewrite strncpy_fits by (done || by apply Hs); done.
Qed.

Definition default_block : list (option Z) := (Some <$> (txt "10.0.1.1:2181" ++ [0])) ++ replicate 8 None.
Definition settle (o : options) (s : setting) : options := if known TIMING s then apply_setting o s else o.
(** The address of ZooKeeper: the last one given. *)
Definition last_address (ss : list setting) : text :=
  foldl (fun d s => match s with Zookeeper a => a | _ => d end) (txt "10.0.1.1:2181") ss.

Lemma settle_block o s : setting_ok s -> length (o_zookeeperConn o) = MAX_ZK_STRING_LEN ->
  length (o_zookeeperConn (settle o s)) = MAX_ZK_STRING_LEN.
Proof.
  intros Hs Hz. unfold settle. destruct (known TIMING s); [|done]. destruct o. destruct s; try done. cbn in *. unfold zk_block.
  rewrite length_fmap, length_app, length_replicate. lia.
Qed.

Lemma parse_settings ss : Forall setting_ok ss -> forall o, length (o_zookeeperConn o) = MAX_ZK_STRING_LEN ->
  parse_options TIMING (argument <$> ss) o = Ok (foldl settle o ss).
Proof.
  induction 1 as [|s ss Hs _ IH]; intros o Hz; [done|]. cbn [fmap list_fmap parse_options foldl].
  rewrite parse_option_setting by done. apply (IH (settle o s)). by apply settle_block.
Qed.

Lemma settle_address ss : Forall setting_ok ss -> forall o a, c_string (o_zookeeperConn o) = Ok a ->
  c_string (o_zookeeperConn (foldl settle o ss)) = Ok (foldl (fun d s => match s with Zookeeper a => a | _ => d end) a ss).
Proof.
  induction 1 as [|s ss Hs _ IH]; intros o a Ho; [done|]. cbn [foldl]. apply IH. unfold settle.
  destruct o, s; cbn in *; try (destruct PAGECACHE; done); try (destruct TIMING; done); try done. by apply c_string_block; apply Hs.
Qed.


(** An address of 22 bytes or more fills its block, and the string in it has no end. *)
Lemma zookeeper_unterminated a o : (MAX_ZK_STRING_LEN <= length a)%nat -> Forall (fun c => c <> 0) a ->
  length (o_zookeeperConn o) = MAX_ZK_STRING_LEN ->
  exists o', parse_option TIMING (argument (Zookeeper a)) o = Ok o' /\ c_string (o_zookeeperConn o') = UB OutOfBounds.
Proof.
  intros Ha Hn Hz. destruct o as [cs pcs ps ep tr zk pi ex bm ms]. cbn [o_zookeeperConn] in Hz. cbn [argument]. unfold parse_option.
  exists (Opts cs pcs ps ep tr (Some <$> take MAX_ZK_STRING_LEN a) pi ex bm ms). split.
  - destruct PAGECACHE; repeat (first [rewrite after_prefix_app | miss]); unfold strncpy; rewrite decide_True by lia;
      rewrite take_app_le, drop_ge, app_nil_r by lia; done.
  - cbn [o_zookeeperConn]. assert (Ht : Forall (fun c => c <> 0) (take MAX_ZK_STRING_LEN a)) by by apply Forall_take.
    induction Ht as [|c l Hc _ IH]; [done|]. cbn. rewrite (proj2 (Z.eqb_neq c 0) Hc). cbn in IH. by rewrite IH.
Qed.
End settings.

