(* ===== verification/MonitorStats.v ===== *)
(** The monitor's counters: [lib/monitorstats/monitorstats.h] and
    [monitorstats.c].

    [MonitorStats] is the record the globals [_pstats] points to, its
    [unsigned long] fields at 64 bits.  The mutexes around three of the fields
    protect single reads and writes; an update is one definition here.  The
    hit ratio is computed in binary64, with the operations of [SpecFloat]. *)
From Stdlib Require Import SpecFloat.
From S2P Require Import Prelude.

Inductive StatisticToRetreive : Set :=
| CACHE_HIT | CACHE_MISS | PAGE_FAULTS | PLACED_PAGES | PAGES_EVICTED | ZEROPAGES
| CACHE_HITRATIO | LRU_BUFFERSIZE | LRU_BUFFERCAP | NUM_UFDS | WRITES_AVOIDED
| WRITES_SKIPPED_ZERO | WRITES_SKIPPED_INVALID.

(** [struct timeval]: seconds and microseconds. *)
Definition timeval : Type := Z * Z.

Record MonitorStats := mkStats {
  total_pagefault_count : Z;
  placed_data_pages_count : Z;
  page_eviction_count : Z;
  writes_avoided : Z;
  writes_skipped_zero : Z;
  writes_skipped_invalid : Z;
  page_cache_hits_count : Z;
  page_cache_miss_count : Z;
  LRU_Buffer_size : Z;
  LRU_Buffer_capacity : Z;
  registered_UFD_count : Z;    (* int *)
  last_fault_count : Z;        (* int *)
  last_count_time : timeval;
  last_page_fault : timeval
}.

Definition StatsIncrCacheHit_notlocked (s : MonitorStats) : MonitorStats :=
  let 'mkStats pf pl ev wa wz wi h m sz cp nu lf lt lp := s in
  mkStats pf pl ev wa wz wi (u64 (h + 1)) m sz cp nu lf lt lp.

Definition StatsIncrCacheMiss_notlocked (s : MonitorStats) : MonitorStats :=
  let 'mkStats pf pl ev wa wz wi h m sz cp nu lf lt lp := s in
  mkStats pf pl ev wa wz wi h (u64 (m + 1)) sz cp nu lf lt lp.

Definition StatsIncrWriteAvoided_notlocked (s : MonitorStats) : MonitorStats :=
  let 'mkStats pf pl ev wa wz wi h m sz cp nu lf lt lp := s in
  mkStats pf pl ev (u64 (wa + 1)) wz wi h m sz cp nu lf lt lp.

Definition StatsIncrWriteSkippedZero_notlocked (s : MonitorStats) : MonitorStats :=
  let 'mkStats pf pl ev wa wz wi h m sz cp nu lf lt lp := s in
  mkStats pf pl ev wa (u64 (wz + 1)) wi h m sz cp nu lf lt lp.

Definition StatsIncrWriteSkippedInvalid_notlocked (s : MonitorStats) : MonitorStats :=
  let 'mkStats pf pl ev wa wz wi h m sz cp nu lf lt lp := s in
  mkStats pf pl ev wa wz (u64 (wi + 1)) h m sz cp nu lf lt lp.

Definition StatsSetLRUBufferSize (n : Z) (s : MonitorStats) : MonitorStats :=
  let 'mkStats pf pl ev wa wz wi h m sz cp nu lf lt lp := s in
  mkStats pf pl ev wa wz wi h m (u64 n) cp nu lf lt lp.

Definition StatsIncrLRUBufferSize (s : MonitorStats) : MonitorStats :=
  let 'mkStats pf pl ev wa wz wi h m sz cp nu lf lt lp := s in
  mkStats pf pl ev wa wz wi h m (u64 (sz + 1)) cp nu lf lt lp.

Definition StatsDecrLRUBufferSize (s : MonitorStats) : MonitorStats :=
  let 'mkStats pf pl ev wa wz wi h m sz cp nu lf lt lp := s in
  mkStats pf pl ev wa wz wi h m (u64 (sz - 1)) cp nu lf lt lp.

Definition StatsSetLRUBufferCap (n : Z) (s : MonitorStats) : MonitorStats :=
  let 'mkStats pf pl ev wa wz wi h m sz cp nu lf lt lp := s in
  mkStats pf pl ev wa wz wi h m sz (u64 n) nu lf lt lp.

(** The parameter is an [unsigned long], the field an [int]. *)
Definition StatsSetNumUFDS (n : Z) (s : MonitorStats) : MonitorStats :=
  let 'mkStats pf pl ev wa wz wi h m sz cp nu lf lt lp := s in
  mkStats pf pl ev wa wz wi h m sz cp (s32 (u64 n)) lf lt lp.

Definition StatsIncrPlacedPage_notlocked (s : MonitorStats) : MonitorStats :=
  let 'mkStats pf pl ev wa wz wi h m sz cp nu lf lt lp := s in
  mkStats pf (u64 (pl + 1)) ev wa wz wi h m sz cp nu lf lt lp.

Definition StatsIncrPageFault_notlocked (s : MonitorStats) : MonitorStats :=
  let 'mkStats pf pl ev wa wz wi h m sz cp nu lf lt lp := s in
  mkStats (u64 (pf + 1)) pl ev wa wz wi h m sz cp nu lf lt lp.

Definition StatsIncrPageEvicted_notlocked (s : MonitorStats) : MonitorStats :=
  let 'mkStats pf pl ev wa wz wi h m sz cp nu lf lt lp := s in
  mkStats pf pl (u64 (ev + 1)) wa wz wi h m sz cp nu lf lt lp.

Definition _StatsSetLastFaultCount (s : MonitorStats) : MonitorStats :=
  let 'mkStats pf pl ev wa wz wi h m sz cp nu lf lt lp := s in
  mkStats pf pl ev wa wz wi h m sz cp nu (s32 pf) lt lp.

Definition _StatsSetLastTime (now : timeval) (s : MonitorStats) : MonitorStats :=
  let 'mkStats pf pl ev wa wz wi h m sz cp nu lf lt lp := s in
  mkStats pf pl ev wa wz wi h m sz cp nu lf now lp.

Definition StatsSetLastFaultTime (now : timeval) (s : MonitorStats) : MonitorStats :=
  let 'mkStats pf pl ev wa wz wi h m sz cp nu lf lt lp := s in
  mkStats pf pl ev wa wz wi h m sz cp nu lf lt now.

Definition StatsClear (now : timeval) (s : MonitorStats) : MonitorStats :=
  _StatsSetLastTime now
    (mkStats 0 0 0 0 0 0 0 0 s.(LRU_Buffer_size) s.(LRU_Buffer_capacity)
       s.(registered_UFD_count) 0 s.(last_count_time) (0, 0)).

(** ** Reading the counters *)

(** binary64: 53 bits of precision, exponents up to 1024. *)
Definition double_of_Z (z : Z) : spec_float := binary_normalize 53 1024 z 0 false.
Definition double_div : spec_float -> spec_float -> spec_float := SFdiv 53 1024.
Definition double_mul : spec_float -> spec_float -> spec_float := SFmul 53 1024.

(** [ceil] of a finite double, converted to an integer. *)
Definition double_ceil (f : spec_float) : Z :=
  match f with
  | S754_finite sgn m e =>
      let z := if sgn then Z.neg m else Z.pos m in
      if 0 <=? e then z * 2 ^ e else - ((- z) / 2 ^ (- e))
  | _ => 0
  end.

Definition hit_ratio (hits total : Z) : Z :=
  double_ceil (double_mul (double_of_Z 100)
                 (double_div (double_of_Z hits) (double_of_Z total))).

Definition StatsGetCacheHit_notlocked (s : MonitorStats) : Z := s.(page_cache_hits_count).
Definition StatsGetCacheMiss_notlocked (s : MonitorStats) : Z := s.(page_cache_miss_count).
Definition StatsGetPageFault_notlocked (s : MonitorStats) : Z := s.(total_pagefault_count).
Definition StatsGetPlacedPage_notlocked (s : MonitorStats) : Z := s.(placed_data_pages_count).
Definition StatsGetPageEvicted_notlocked (s : MonitorStats) : Z := s.(page_eviction_count).
Definition StatsGetWriteAvoided_notlocked (s : MonitorStats) : Z := s.(writes_avoided).
Definition StatsGetWriteSkippedZero_notlocked (s : MonitorStats) : Z := s.(writes_skipped_zero).
Definition StatsGetWriteSkippedInvalid_notlocked (s : MonitorStats) : Z := s.(writes_skipped_invalid).
Definition StatsGetLRUBufferSize (s : MonitorStats) : Z := s.(LRU_Buffer_size).
Definition StatsGetLRUBufferCap (s : MonitorStats) : Z := s.(LRU_Buffer_capacity).
Definition StatsGetNumUFDS (s : MonitorStats) : Z := u64 s.(registered_UFD_count).
Definition _StatsGetLastFaultCount (s : MonitorStats) : Z := u64 s.(last_fault_count).
Definition StatsGetLastFaultTime (s : MonitorStats) : timeval := s.(last_page_fault).

Definition StatsGetStat (st : StatisticToRetreive) (s : MonitorStats) : Z :=
  match st with
  | CACHE_HIT => StatsGetCacheHit_notlocked s
  | CACHE_MISS => StatsGetCacheMiss_notlocked s
  | PAGE_FAULTS => StatsGetPageFault_notlocked s
  | PLACED_PAGES => StatsGetPlacedPage_notlocked s
  | PAGES_EVICTED => StatsGetPageEvicted_notlocked s
  | ZEROPAGES => u64 (StatsGetPageFault_notlocked s - StatsGetPlacedPage_notlocked s)
  | CACHE_HITRATIO =>
      let hits := StatsGetCacheHit_notlocked s in
      let total := u64 (hits + StatsGetCacheMiss_notlocked s) in
      if negb (total =? 0) then u64 (hit_ratio hits total) else 0
  | LRU_BUFFERSIZE => StatsGetLRUBufferSize s
  | LRU_BUFFERCAP => StatsGetLRUBufferCap s
  | NUM_UFDS => StatsGetNumUFDS s
  | WRITES_AVOIDED => StatsGetWriteAvoided_notlocked s
  | WRITES_SKIPPED_ZERO => StatsGetWriteSkippedZero_notlocked s
  | WRITES_SKIPPED_INVALID => StatsGetWriteSkippedInvalid_notlocked s
  end.

(** [timersub] of [sys/time.h]: microseconds stay in [0, 10^6). *)
Definition timersub (a b : timeval) : timeval :=
  let sec := a.1 - b.1 in
  let usec := a.2 - b.2 in
  if usec <? 0 then (sec - 1, usec + 1000000) else (sec, usec).

Definition _StatsGetTimeDiff (now : timeval) (s : MonitorStats) : timeval :=
  timersub now s.(last_count_time).

(** [StatsGetRate] divides the number of faults since the last call by the
    elapsed time, given here as the numerator and the elapsed [timeval]. *)
Definition StatsGetRate (now : timeval) (s : MonitorStats) : (Z * timeval) * MonitorStats :=
  let fault_diff := u64 (StatsGetPageFault_notlocked s - _StatsGetLastFaultCount s) in
  ((fault_diff, _StatsGetTimeDiff now s),
   _StatsSetLastTime now (_StatsSetLastFaultCount s)).

(** ** The life of the record *)

(** [MonitorStatsInit]: [block] is what the new memory happens to hold. *)
Definition MonitorStatsInit (now : timeval) (block : MonitorStats) : MonitorStats := StatsClear now block.

(** The mutexes that [StatsInitLocks] makes and [StatsDestroyLocks] takes away again. *)
Inductive stats_lock : Set := last_page_fault_lock | LRU_Buffer_size_lock | LRU_Buffer_capacity_lock | registered_UFD_count_lock.
#[export] Instance stats_lock_dec : EqDecision stats_lock.
Proof. solve_decision. Defined.
Definition StatsInitLocks (locks : list stats_lock) : list stats_lock :=
  locks ++ [last_page_fault_lock; LRU_Buffer_size_lock; LRU_Buffer_capacity_lock; registered_UFD_count_lock].
Definition StatsDestroyLocks (pstats : option MonitorStats) (locks : list stats_lock) : list stats_lock :=
  match pstats with
  | None => locks
  | Some _ => filter (fun l => l ∉ [LRU_Buffer_size_lock; LRU_Buffer_capacity_lock; registered_UFD_count_lock]) locks
  end.
(** [StatsDestroy]: [_pstats] keeps its value, so that a second call frees the block again. *)
Definition StatsDestroy (pstats : option MonitorStats) (freed : bool) (locks : list stats_lock) : outcome (bool * list stats_lock) :=
  match pstats with
  | None => Ok (freed, locks)
  | Some _ => if freed then UB UseAfterFree else Ok (true, StatsDestroyLocks pstats locks)
  end.

(** What the counters have counted: every field at its width. *)
Definition stats_wf (s : MonitorStats) : Prop :=
  is_u64 s.(total_pagefault_count) /\ is_u64 s.(placed_data_pages_count) /\
  is_u64 s.(page_eviction_count) /\ is_u64 s.(writes_avoided) /\
  is_u64 s.(writes_skipped_zero) /\ is_u64 s.(writes_skipped_invalid) /\
  is_u64 s.(page_cache_hits_count) /\ is_u64 s.(page_cache_miss_count) /\
  is_u64 s.(LRU_Buffer_size) /\ is_u64 s.(LRU_Buffer_capacity) /\
  is_s32 s.(registered_UFD_count) /\ is_s32 s.(last_fault_count).

Definition zero_stats : MonitorStats :=
  mkStats 0 0 0 0 0 0 0 0 0 0 0 0 (0, 0) (0, 0).

Example ratio_half : hit_ratio 1 2 = 50.
Proof. vm_compute. reflexivity. Qed.
Example ratio_seven : hit_ratio 7 100 = 8.
Proof. vm_compute. reflexivity. Qed.

(** * Theorems *)

(** Every update of the counters, with the times and sizes it is given. *)
Inductive stats_update (now : timeval) (n : Z) : Set :=
| IncrCacheHit | IncrCacheMiss | IncrWriteAvoided | IncrWriteSkippedZero | IncrWriteSkippedInvalid | SetLRUBufferSize | IncrLRUBufferSize
| DecrLRUBufferSize | SetLRUBufferCap | SetNumUFDS | IncrPlacedPage | IncrPageFault | IncrPageEvicted | SetLastFaultCount | SetLastTime
| SetLastFaultTime | Clear | GetRate.
Definition apply_update {now n} (u : stats_update now n) : MonitorStats -> MonitorStats :=
  match u with
  | IncrCacheHit _ _ => StatsIncrCacheHit_notlocked
  | IncrCacheMiss _ _ => StatsIncrCacheMiss_notlocked
  | IncrWriteAvoided _ _ => StatsIncrWriteAvoided_notlocked
  | IncrWriteSkippedZero _ _ => StatsIncrWriteSkippedZero_notlocked
  | IncrWriteSkippedInvalid _ _ => StatsIncrWriteSkippedInvalid_notlocked
  | SetLRUBufferSize _ _ => StatsSetLRUBufferSize n
  | IncrLRUBufferSize _ _ => StatsIncrLRUBufferSize
  | DecrLRUBufferSize _ _ => StatsDecrLRUBufferSize
  | SetLRUBufferCap _ _ => StatsSetLRUBufferCap n
  | SetNumUFDS _ _ => StatsSetNumUFDS n
  | IncrPlacedPage _ _ => StatsIncrPlacedPage_notlocked
  | IncrPageFault _ _ => StatsIncrPageFault_notlocked
  | IncrPageEvicted _ _ => StatsIncrPageEvicted_notlocked
  | SetLastFaultCount _ _ => _StatsSetLastFaultCount
  | SetLastTime _ _ => _StatsSetLastTime now
  | SetLastFaultTime _ _ => StatsSetLastFaultTime now
  | Clear _ _ => StatsClear now
  | GetRate _ _ => fun s => (StatsGetRate now s).2
  end.

Lemma update_typed now n (u : stats_update now n) s : stats_wf s -> stats_wf (apply_update u s).
Proof.
  destruct s. unfold stats_wf. intros (?&?&?&?&?&?&?&?&?&?&?&?).
  destruct u; cbn -[u64 s32 is_u64 is_s32]; split_and!; first [done|apply u64_range|apply s32_range|unfold is_u64, is_s32; lia].
Qed.

Lemma StatsGetStat_typed l s : stats_wf s -> is_u64 (StatsGetStat l s).
Proof.
  destruct s. unfold stats_wf. intros (?&?&?&?&?&?&?&?&?&?&?&?). destruct l; try done; try apply u64_range.
  cbn -[hit_ratio u64]. case_match; [apply u64_range|unfold is_u64; lia].
Qed.

(** Nothing of the memory the record was allocated in is left once the buffer and the list of descriptors
    are there: what [StatsClear] does not set, their constructors do. *)
Lemma startup_stats_defined now cap block block' :
  StatsSetNumUFDS 0 (StatsSetLRUBufferSize 0 (StatsSetLRUBufferCap cap (MonitorStatsInit now block))) =
  StatsSetNumUFDS 0 (StatsSetLRUBufferSize 0 (StatsSetLRUBufferCap cap (MonitorStatsInit now block'))).
Proof. by destruct block, block'. Qed.

(** One of the four mutexes is never destroyed. *)
Lemma lock_left s : StatsDestroyLocks (Some s) (StatsInitLocks []) = [last_page_fault_lock].
Proof. reflexivity. Qed.

(** The count of faults at the last call is kept in an [int]: with two billion faults and no new
    one the next rate is computed from four billion. *)
Lemma rate_after_two_billion now s : total_pagefault_count s = 2 ^ 31 ->
  (StatsGetRate now (_StatsSetLastFaultCount s)).1.1 = 2 ^ 32.
Proof. destruct s. cbn [total_pagefault_count]. intros ->. reflexivity. Qed.
