(* ===== verification/LruBuffer.v ===== *)
(** The LRU buffer that decides which resident page is evicted:
    [lib/lrubuffer/LRUBufferImpl.{hh,cc}], its C interface
    [LRUBufferWrapper.cc], and the key of a page, [include/pagehash.h].

    [lru_list] wraps a Boost [multi_index_container] with a sequenced index
    (the recency order) and a [hashed_unique] index on [hashcode].  The
    container is third-party code; its documented behaviour is a list without
    two elements of the same [hashcode], front first: [push_front] refuses an
    element whose key is present, [relocate] moves one, [pop_back] and [back]
    need a non-empty container. *)
From S2P Require Import Prelude Config MonitorStats.

(** [include/pagehash.h].  [ufd % PAGE_SIZE] is computed in [unsigned long]
    because [PAGE_SIZE] is one. *)
Definition hash_page_key (key ufd : Z) : Z :=
  u64 (page_of key + u64 ufd mod PAGE_SIZE).

Record cache_node := CacheNode { cn_hashcode : Z; cn_ufd : Z }.

#[export] Instance cache_node_eq_dec : EqDecision cache_node.
Proof. solve_decision. Defined.

(** What incrementing an iterator to an erased element yields, given the
    elements that followed it.  The standard leaves it undefined
    ([stale_undefined]); when the freed node is still intact the iterator
    moves on to the element that followed ([stale_intact]). *)
Class StaleIterator : Type := stale_next : forall {A : Type}, list A -> outcome (list A).

Definition stale_undefined : StaleIterator := fun _ _ => UB UseAfterFree.
Definition stale_intact : StaleIterator := fun _ rest => Ok rest.

Module LruList.

Record lru_list := mkLru {
  il : list cache_node;        (* most recently used first *)
  max_num_items : Z            (* size_t *)
}.

Definition has (k : Z) (l : list cache_node) : bool :=
  bool_decide (k ∈ cn_hashcode <$> l).

Definition without (k : Z) (l : list cache_node) : list cache_node :=
  filter (fun n => cn_hashcode n <> k) l.

(** [lru_list()]: [max_num_items(cache_size)]. *)
Definition new (cache_size : Z) : lru_list := mkLru [] (u64 cache_size).

Definition find (k : Z) (c : lru_list) : option cache_node :=
  list_find (fun n => cn_hashcode n = k) c.(il) ≫= fun p => Some p.2.

(** [push_front], or [relocate] to the front of the element already there:
    a duplicate keeps the old element. *)
Definition insert (item : cache_node) (c : lru_list) : lru_list :=
  match find (cn_hashcode item) c with
  | None => mkLru (item :: c.(il)) c.(max_num_items)
  | Some old => mkLru (old :: without (cn_hashcode item) c.(il)) c.(max_num_items)
  end.

Definition isSizeExceeded (c : lru_list) : bool :=
  c.(max_num_items) <? Z.of_nat (length c.(il)).

Definition back (c : lru_list) : outcome cache_node :=
  match last c.(il) with Some n => Ok n | None => UB EmptyContainer end.

Definition pop_back (c : lru_list) : outcome lru_list :=
  match c.(il) with
  | [] => UB EmptyContainer
  | _ => Ok (mkLru (take (length c.(il) - 1) c.(il)) c.(max_num_items))
  end.

Definition getSize (c : lru_list) : Z := s32 (Z.of_nat (length c.(il))).
Definition setSize (size : Z) (c : lru_list) : Z * lru_list :=
  (s32 (u64 size), mkLru c.(il) (u64 size)).
Definition getMaxSize (c : lru_list) : Z := s32 c.(max_num_items).

Definition erase (k : Z) (c : lru_list) : lru_list :=
  mkLru (without k c.(il)) c.(max_num_items).

End LruList.
Import LruList.

(** The object behind [LRUBuffer *lru]: the list, and the global statistics it
    updates. *)
Record LRUBuffer := mkLRUBuffer { cache : lru_list; lru_stats : MonitorStats }.

Section LRUBufferImpl.
Context `{F : BuildFlags, I : StaleIterator}.

Definition lru_with_stats (f : MonitorStats -> MonitorStats) : M LRUBuffer unit :=
  if MONITORSTATS then mmod (fun b => mkLRUBuffer b.(cache) (f b.(lru_stats))) else mret tt.

Definition newLRUBuffer (cache_size : Z) (st : MonitorStats) : LRUBuffer :=
  let c := LruList.new cache_size in
  mkLRUBuffer c
    (if MONITORSTATS then StatsSetLRUBufferSize 0 (StatsSetLRUBufferCap (getMaxSize c) st)
     else st).

Definition isLRUSizeExceeded : M LRUBuffer Z :=
  mgets (fun b => if isSizeExceeded b.(cache) then 1 else 0).
Definition getLRUBufferSize : M LRUBuffer Z := mgets (fun b => getSize b.(cache)).
Definition getLRUBufferMaxSize : M LRUBuffer Z := mgets (fun b => getMaxSize b.(cache)).

Definition setLRUBufferSize (size : Z) : M LRUBuffer Z :=
  b ← mget;
  let '(ret, c) := setSize size b.(cache) in
  mput (mkLRUBuffer c b.(lru_stats));;
  lru_with_stats (StatsSetLRUBufferCap size);;
  mret ret.

Definition getLRU : M LRUBuffer cache_node :=
  b ← mget; mlift (back b.(cache)).

Definition popLRU : M LRUBuffer cache_node :=
  b ← mget;
  node ← mlift (back b.(cache));
  c ← mlift (pop_back b.(cache));
  mput (mkLRUBuffer c b.(lru_stats));;
  lru_with_stats StatsDecrLRUBufferSize;;
  mret node.

(** [insertCacheNode(key, ufd, evict)]; the null node stands for "nothing to
    evict". *)
Definition insertCacheNode_evict (key uf : Z) (evict : bool) : M LRUBuffer cache_node :=
  let node := CacheNode (hash_page_key key uf) uf in
  mmod (fun b => mkLRUBuffer (insert node b.(cache)) b.(lru_stats));;
  lru_with_stats StatsIncrLRUBufferSize;;
  exceeded ← isLRUSizeExceeded;
  if (evict && negb (exceeded =? 0))%bool then popLRU else mret (CacheNode 0 0).

Definition insertCacheNodeAndEvict (key uf : Z) : M LRUBuffer cache_node :=
  insertCacheNode_evict key uf true.
Definition insertCacheNode (key uf : Z) : M LRUBuffer unit :=
  insertCacheNode_evict key uf false;; mret tt.

(** [referenceCachedNode] dereferences the iterator [find] returned. *)
Definition referenceCachedNode (key uf : Z) : M LRUBuffer unit :=
  b ← mget;
  match find (hash_page_key key uf) b.(cache) with
  | Some n => mput (mkLRUBuffer (insert n b.(cache)) b.(lru_stats))
  | None => mub EmptyContainer
  end.

Fixpoint pop_loop (n : nat) : M LRUBuffer (list cache_node) :=
  match n with
  | O => mret []
  | S n => node ← popLRU; rest ← pop_loop n; mret (node :: rest)
  end.

(** [popNLRU]: the number of nodes popped and the array that holds them. *)
Definition popNLRU (num_pop : Z) : M LRUBuffer (Z * list cache_node) :=
  lru_size ← getLRUBufferSize;
  let num_pop := if lru_size <? num_pop then lru_size else num_pop in
  nodes ← pop_loop (Z.to_nat num_pop);
  mret (num_pop, nodes).

(** The loop of [removeUFDFromLRU]: [itr] is the list from the iterator on. *)
Fixpoint remove_ufd_loop (fuel : nat) (uf : Z) (itr : list cache_node) (c : lru_list)
  : outcome (list Z * lru_list) :=
  match itr with
  | [] => Ok ([], c)
  | n :: rest =>
      match fuel with
      | O => UB OutOfFuel
      | S fuel =>
          if decide (cn_ufd n = uf) then
            let key := page_of (cn_hashcode n) in
            let c := erase (cn_hashcode n) c in
            match stale_next rest with
            | Ok itr' =>
                match remove_ufd_loop fuel uf itr' c with
                | Ok (ks, c) => Ok (key :: ks, c)
                | UB f => UB f
                | Blocked => Blocked
                end
            | UB f => UB f
            | Blocked => Blocked
            end
          else remove_ufd_loop fuel uf rest c
      end
  end.

Definition removeUFDFromLRU (uf : Z) : M LRUBuffer (list Z) :=
  b ← mget;
  '(keys, c) ← mlift (remove_ufd_loop (length b.(cache).(il)) uf b.(cache).(il) b.(cache));
  mput (mkLRUBuffer c b.(lru_stats));;
  lru_with_stats (fun st => StatsSetLRUBufferSize (getSize c) st);;
  mret keys.

End LRUBufferImpl.

(** * Keys *)

Lemma ufd_mod_range uf : 0 <= u64 uf mod PAGE_SIZE < 4096.
Proof. apply Z.mod_pos_bound. unfold PAGE_SIZE. lia. Qed.

Lemma hash_page_key_eq k uf : hash_page_key k uf = page_of k + u64 uf mod PAGE_SIZE.
Proof.
  unfold hash_page_key. apply u64_id.
  pose proof (ufd_mod_range uf). destruct (page_of_aligned k) as [Hk Hm].
  pose proof (Z.div_mod (page_of k) 4096 ltac:(lia)).
  unfold is_u64 in *. change (2 ^ 64) with (4096 * 2 ^ 52) in *. nia.
Qed.

Lemma hash_page_key_page k uf : page_of (hash_page_key k uf) = page_of k.
Proof. rewrite hash_page_key_eq. apply page_of_add; [apply page_of_aligned|apply ufd_mod_range]. Qed.

Lemma hash_page_key_off k uf : hash_page_key k uf mod 4096 = u64 uf mod PAGE_SIZE.
Proof.
  rewrite hash_page_key_eq. destruct (page_of_aligned k) as [_ Hm].
  rewrite <- Z.add_mod_idemp_l, Hm by lia. apply Z.mod_small, ufd_mod_range.
Qed.

Lemma hash_page_key_inj k1 u1 k2 u2 :
  hash_page_key k1 u1 = hash_page_key k2 u2 <->
  page_of k1 = page_of k2 /\ u64 u1 mod PAGE_SIZE = u64 u2 mod PAGE_SIZE.
Proof.
  split.
  - intros Heq. split.
    + by rewrite <- (hash_page_key_page k1 u1), <- (hash_page_key_page k2 u2), Heq.
    + by rewrite <- (hash_page_key_off k1 u1), <- (hash_page_key_off k2 u2), Heq.
  - intros [H1 H2]. by rewrite !hash_page_key_eq, H1, H2.
Qed.

Lemma hash_page_key_nonzero k uf : page_of k <> 0 -> hash_page_key k uf <> 0.
Proof. intros Hk Hh. apply Hk. rewrite <- (hash_page_key_page k uf), Hh. reflexivity. Qed.

(** * The container *)

Module LruFacts.

Definition lru_ok (c : lru_list) : Prop :=
  NoDup (cn_hashcode <$> c.(il)) /\ Z.of_nat (length c.(il)) < 2 ^ 31 - 1 /\
  0 <= c.(max_num_items) < 2 ^ 31.

Lemma find_Some k c n : find k c = Some n -> n ∈ c.(il) /\ cn_hashcode n = k.
Proof.
  unfold find. destruct (list_find _ _) as [[i m]|] eqn:E; [|done]. simpl. intros [= <-].
  apply list_find_Some in E as (Hl & Hk & _). split; [|done]. by eapply list_elem_of_lookup_2.
Qed.

Lemma find_None k c : find k c = None <-> k ∉ cn_hashcode <$> c.(il).
Proof.
  unfold find. destruct (list_find _ _) as [[i m]|] eqn:E; simpl.
  - split; [done|]. apply list_find_Some in E as (Hl & Hk & _). intros Hn. exfalso. apply Hn.
    apply list_elem_of_fmap. exists m. split; [done|]. by eapply list_elem_of_lookup_2.
  - split; [|done]. intros _ (n & Hk & Hn)%list_elem_of_fmap.
    apply list_find_None in E. rewrite Forall_forall in E. eapply E; [exact Hn|done].
Qed.

Lemma without_absent k l : k ∉ cn_hashcode <$> l -> without k l = l.
Proof.
  intros Hk. apply filter_all, Forall_forall. intros n Hn Heq. apply Hk.
  apply list_elem_of_fmap. eauto.
Qed.

Lemma without_keys k l : NoDup (cn_hashcode <$> l) ->
  NoDup (cn_hashcode <$> without k l) /\ k ∉ cn_hashcode <$> without k l.
Proof.
  intros Hnd. split; [by apply NoDup_fmap_filter|].
  intros (n & -> & [Hn _]%list_elem_of_filter)%list_elem_of_fmap. done.
Qed.

Lemma length_without k l n : NoDup (cn_hashcode <$> l) -> n ∈ l -> cn_hashcode n = k ->
  S (length (without k l)) = length l.
Proof.
  induction l as [|m l IH]; [by intros _ ?%elem_of_nil|].
  intros [Hm Hnd]%NoDup_cons Hin Hk. unfold without in *. destruct (decide (cn_hashcode m = k)) as [Hmk|Hmk].
  - rewrite filter_cons_False by auto. change (filter _ l) with (without k l).
    rewrite without_absent; [done|]. by rewrite <- Hmk.
  - rewrite filter_cons_True by done. simpl. rewrite IH; [done|done| |done].
    apply elem_of_cons in Hin as [->|]; [done|done].
Qed.

(** The front element of [insert], whichever of the two cases applies. *)
Definition inserted (item : cache_node) (c : lru_list) : cache_node :=
  default item (find (cn_hashcode item) c).

Lemma insert_il item c :
  il (insert item c) = inserted item c :: without (cn_hashcode item) c.(il).
Proof.
  unfold insert, inserted. destruct (find _ c) as [old|] eqn:E; simpl; [done|].
  apply find_None in E. by rewrite without_absent.
Qed.

Lemma insert_max item c : max_num_items (insert item c) = max_num_items c.
Proof. unfold insert. by destruct (find _ c). Qed.

Lemma inserted_hashcode item c : cn_hashcode (inserted item c) = cn_hashcode item.
Proof.
  unfold inserted. destruct (find _ c) as [n|] eqn:E; [|done]. simpl.
  by apply find_Some in E as [_ ?].
Qed.

Lemma insert_nodup item c : NoDup (cn_hashcode <$> c.(il)) ->
  NoDup (cn_hashcode <$> il (insert item c)).
Proof.
  intros Hnd. rewrite insert_il. simpl. apply NoDup_cons. rewrite inserted_hashcode.
  destruct (without_keys (cn_hashcode item) c.(il) Hnd). done.
Qed.

Lemma insert_length item c : NoDup (cn_hashcode <$> c.(il)) ->
  length (il (insert item c)) =
    if has (cn_hashcode item) c.(il) then length c.(il) else S (length c.(il)).
Proof.
  intros Hnd. rewrite insert_il. simpl. unfold has. case_bool_decide as Hin.
  - apply list_elem_of_fmap in Hin as (n & Hk & Hn). by eapply length_without.
  - by rewrite without_absent.
Qed.

Lemma insert_length_le item c : NoDup (cn_hashcode <$> c.(il)) ->
  (length (il (insert item c)) <= S (length c.(il)))%nat.
Proof. intros. rewrite insert_length by done. destruct (has _ _); lia. Qed.

End LruFacts.
Import LruFacts.

(** * Specification: pages of regions in order of use

    What the buffer promises its callers, without hash codes: a list of
    (page address, userfault descriptor) pairs, most recently used first. *)
Module LruSpec.

Definition entry : Type := Z * Z.

Definition touch (p : entry) (l : list entry) : list entry :=
  p :: filter (fun q => q <> p) l.

Definition insert_evict (cap : Z) (p : entry) (l : list entry) : option entry * list entry :=
  let l' := touch p l in
  if cap <? Z.of_nat (length l') then (last l', take (length l' - 1) l') else (None, l').

Definition pop_n (n : nat) (l : list entry) : list entry * list entry :=
  (reverse (drop (length l - n) l), take (length l - n) l).

Definition remove_ufd (uf : Z) (l : list entry) : list Z * list entry :=
  ((filter (fun q => q.2 = uf) l).*1, filter (fun q => q.2 <> uf) l).

End LruSpec.

Definition abs_node (n : cache_node) : LruSpec.entry := (page_of (cn_hashcode n), cn_ufd n).
Definition lru_abs (c : lru_list) : list LruSpec.entry := abs_node <$> c.(il).

(** A node is the hash of some page of its descriptor; descriptors are below
    4096, where distinct ones get distinct hash codes. *)
Definition node_ok (n : cache_node) : Prop :=
  cn_hashcode n = hash_page_key (page_of (cn_hashcode n)) (cn_ufd n) /\ 0 <= cn_ufd n < 4096.

Definition lru_inv (c : lru_list) : Prop :=
  NoDup (cn_hashcode <$> c.(il)) /\ Forall node_ok c.(il) /\ 0 <= c.(max_num_items) < 2 ^ 31.

#[export] Instance node_ok_dec n : Decision (node_ok n).
Proof. unfold node_ok. apply _. Defined.
#[export] Instance lru_inv_dec c : Decision (lru_inv c).
Proof. unfold lru_inv. apply _. Defined.

Lemma small_ufd uf : 0 <= uf < 4096 -> u64 uf mod PAGE_SIZE = uf.
Proof.
  intros. unfold PAGE_SIZE. rewrite u64_id by (unfold is_u64; lia). apply Z.mod_small. lia.
Qed.

Lemma abs_node_inj n m : node_ok n -> node_ok m ->
  abs_node n = abs_node m <-> cn_hashcode n = cn_hashcode m.
Proof.
  intros [Hn ?] [Hm ?]. unfold abs_node. split.
  - intros [= H1 H2]. rewrite Hn, Hm, H1, H2. done.
  - intros H1. rewrite H1. rewrite Hn, Hm in H1. apply hash_page_key_inj in H1 as [_ H1].
    rewrite !small_ufd in H1 by done. by rewrite H1.
Qed.

Lemma abs_node_full n m : node_ok n -> node_ok m -> abs_node n = abs_node m -> n = m.
Proof.
  intros Hn Hm Heq. pose proof (proj1 (abs_node_inj n m Hn Hm) Heq) as Hh.
  destruct n, m; simpl in *. injection Heq as _ ?. by f_equal.
Qed.

Lemma node_ok_hash key uf : 0 <= uf < 4096 -> node_ok (CacheNode (hash_page_key key uf) uf).
Proof.
  intros. split; [|done]. simpl. apply hash_page_key_inj. by rewrite hash_page_key_page, page_of_idemp.
Qed.

Lemma inserted_ok item c : node_ok item -> Forall node_ok c.(il) -> node_ok (inserted item c).
Proof.
  intros Hi Hc. unfold inserted. destruct (find _ c) as [n|] eqn:E; [|done].
  apply find_Some in E as [Hn _]. rewrite Forall_forall in Hc. by apply Hc.
Qed.

Lemma inserted_eq item c : node_ok item -> Forall node_ok c.(il) -> inserted item c = item.
Proof.
  intros Hi Hc. apply abs_node_full; [by apply inserted_ok|done|].
  apply abs_node_inj; [by apply inserted_ok|done|]. apply inserted_hashcode.
Qed.

Lemma abs_without item l : node_ok item -> Forall node_ok l ->
  abs_node <$> without (cn_hashcode item) l = filter (fun q => q <> abs_node item) (abs_node <$> l).
Proof.
  intros Hi. induction 1 as [|n l Hn Hl IH]; [done|]. unfold without in *.
  rewrite fmap_cons. destruct (decide (cn_hashcode n = cn_hashcode item)) as [He|He].
  - rewrite !filter_cons_False; [done| |tauto].
    intros Hne. apply Hne. by apply abs_node_inj.
  - rewrite !filter_cons_True; [|by rewrite abs_node_inj|done]. by rewrite fmap_cons, IH.
Qed.

Lemma insert_abs item c : node_ok item -> Forall node_ok c.(il) ->
  lru_abs (insert item c) = LruSpec.touch (abs_node item) (lru_abs c).
Proof.
  intros Hi Hc. unfold lru_abs. rewrite insert_il, fmap_cons, inserted_eq, abs_without by done. done.
Qed.

Lemma insert_inv item c : node_ok item -> lru_inv c -> lru_inv (insert item c).
Proof.
  intros Hi (Hnd & Hok & Hm). split_and!.
  - by apply insert_nodup.
  - rewrite insert_il, inserted_eq by done. constructor; [done|].
    by apply Forall_filter_sub.
  - rewrite insert_max; lia.
  - rewrite insert_max; lia.
Qed.

Lemma lru_inv_prefix l k m : lru_inv (mkLru (l ++ k) m) -> lru_inv (mkLru l m).
Proof.
  intros (Hnd & Hok & Hm). simpl in *. rewrite fmap_app in Hnd.
  apply NoDup_app in Hnd as (? & _ & _). apply Forall_app in Hok as [? _]. done.
Qed.

Section ops.
Context `{F : BuildFlags, I : StaleIterator}.

Definition stats_when (f : MonitorStats -> MonitorStats) (st : MonitorStats) : MonitorStats :=
  if MONITORSTATS then f st else st.

Lemma popLRU_snoc l n m st :
  popLRU (mkLRUBuffer (mkLru (l ++ [n]) m) st) =
  Ok (n, mkLRUBuffer (mkLru l m) (stats_when StatsDecrLRUBufferSize st)).
Proof.
  unfold popLRU, back, pop_back, lru_with_stats, stats_when. mrun.
  rewrite last_snoc. destruct (l ++ [n]) as [|x t] eqn:E; [by destruct l|]. rewrite <- E. mrun.
  rewrite length_app, Nat.add_sub, take_app_length. by destruct MONITORSTATS.
Qed.

(** Popping needs an element: [back] and [pop_back] of an empty container
    are undefined. *)
Lemma popLRU_empty m st : popLRU (mkLRUBuffer (mkLru [] m) st) = UB EmptyContainer.
Proof. done. Qed.

Lemma pop_loop_app n l k m st : length k = n ->
  exists st', pop_loop n (mkLRUBuffer (mkLru (l ++ k) m) st) =
    Ok (reverse k, mkLRUBuffer (mkLru l m) st').
Proof.
  revert l k st. induction n as [|n IH]; intros l k st Hk.
  - destruct k; [|done]. exists st. by rewrite app_nil_r.
  - destruct k as [|x k _] using rev_ind; [done|]. rewrite length_app in Hk. simpl in Hk.
    destruct (IH l k (stats_when StatsDecrLRUBufferSize st)) as [st' IH']; [lia|]. exists st'.
    rewrite app_assoc. cbn [pop_loop]. unfold mbind at 1, M_bind at 1. rewrite popLRU_snoc. munfold.
    rewrite IH', reverse_snoc. done.
Qed.

Lemma insert_evict_run key uf evict c st :
  insertCacheNode_evict key uf evict (mkLRUBuffer c st) =
  let c' := insert (CacheNode (hash_page_key key uf) uf) c in
  let st' := stats_when StatsIncrLRUBufferSize st in
  if (evict && isSizeExceeded c')%bool then popLRU (mkLRUBuffer c' st')
  else Ok (CacheNode 0 0, mkLRUBuffer c' st').
Proof.
  unfold insertCacheNode_evict, lru_with_stats, stats_when, isLRUSizeExceeded. mrun.
  destruct MONITORSTATS; simpl; destruct evict, (isSizeExceeded _); done.
Qed.
End ops.

(** * Refinement *)

Section refinement.
Context `{F : BuildFlags, I : StaleIterator}.

Lemma insert_evict_spec key uf c st
  (Hinv : lru_inv c) (Hkey : aligned key) (Huf : 0 <= uf < 4096) :
  exists n c' st',
    insertCacheNodeAndEvict key uf (mkLRUBuffer c st) = Ok (n, mkLRUBuffer c' st') /\
    lru_inv c' /\ max_num_items c' = max_num_items c /\
    (let '(ev, l') := LruSpec.insert_evict (max_num_items c) (key, uf) (lru_abs c) in
     lru_abs c' = l' /\
     match ev with
     | Some e => abs_node n = e /\ node_ok n
     | None => n = CacheNode 0 0
     end).
Proof.
  set (item := CacheNode (hash_page_key key uf) uf).
  assert (Hi : node_ok item) by by apply node_ok_hash.
  assert (Habs : abs_node item = (key, uf)).
  { unfold abs_node; simpl. by rewrite hash_page_key_page, page_of_id. }
  pose proof (insert_inv item c Hi Hinv) as Hinv'.
  assert (Hil : lru_abs (insert item c) = LruSpec.touch (key, uf) (lru_abs c)).
  { rewrite <- Habs. apply insert_abs; [done|apply Hinv]. }
  unfold insertCacheNodeAndEvict. rewrite insert_evict_run. fold item. cbv zeta.
  unfold LruSpec.insert_evict. rewrite <- Hil, <- (insert_max item c).
  unfold lru_abs at 1. rewrite length_fmap. unfold isSizeExceeded. rewrite andb_true_l.
  destruct (Z.ltb_spec (max_num_items (insert item c)) (Z.of_nat (length (il (insert item c)))))
    as [Hlt|Hle].
  - destruct (insert item c) as [l m] eqn:E. simpl in *.
    destruct l as [|n l _] using rev_ind; [destruct Hinv' as (_ & _ & ?); simpl in *; lia|].
    rewrite popLRU_snoc. eexists _, _, _. split_and!; [done| |done| |..].
    + by eapply lru_inv_prefix.
    + unfold lru_abs. simpl. rewrite length_fmap, length_app, Nat.add_sub, fmap_app.
      by rewrite take_app_length' by by rewrite length_fmap.
    + unfold lru_abs. simpl. rewrite fmap_app. change (abs_node <$> [n]) with [abs_node n].
      rewrite last_snoc. split; [done|].
      destruct Hinv' as (_ & Hok & _). simpl in Hok. rewrite Forall_app in Hok.
      destruct Hok as [_ Hok]. by inversion Hok.
  - eexists _, _, _. split_and!; done.
Qed.

(** C20: for page-aligned addresses and descriptors below 4096, inserting into the
    LRU buffer with eviction behaves as the specification says: the page becomes
    the most recent one, the others keep their order, and exactly when the
    capacity is exceeded the least recently used page leaves the buffer and is
    returned; otherwise the null node is returned. *)
Theorem insertCacheNodeAndEvict_refines key uf c st
  (Hinv : lru_inv c) (Hkey : aligned key) (Huf : 0 <= uf < 4096) :
  exists n c' st',
    insertCacheNodeAndEvict key uf (mkLRUBuffer c st) = Ok (n, mkLRUBuffer c' st') /\
    lru_inv c' /\ max_num_items c' = max_num_items c /\
    (let '(ev, l') := LruSpec.insert_evict (max_num_items c) (key, uf) (lru_abs c) in
     lru_abs c' = l' /\
     match ev with
     | Some e => abs_node n = e /\ node_ok n
     | None => n = CacheNode 0 0
     end).
Proof. by apply insert_evict_spec. Qed.

Lemma popNLRU_spec num c st
  (Hinv : lru_inv c) (Hlen : Z.of_nat (length c.(il)) < 2 ^ 31) (Hnum : 0 <= num < 2 ^ 31) :
  exists k nodes c' st',
    popNLRU num (mkLRUBuffer c st) = Ok ((k, nodes), mkLRUBuffer c' st') /\
    k = Z.min num (Z.of_nat (length c.(il))) /\ lru_inv c' /\
    LruSpec.pop_n (Z.to_nat k) (lru_abs c) = (abs_node <$> nodes, lru_abs c').
Proof.
  destruct c as [l m]. simpl in *.
  set (k := Z.min num (Z.of_nat (length l))).
  set (d := (length l - Z.to_nat k)%nat).
  destruct (pop_loop_app (Z.to_nat k) (take d l) (drop d l) m st) as [st' Hpop].
  { rewrite length_drop. subst d k. lia. }
  rewrite take_drop in Hpop.
  exists k, (reverse (drop d l)), (mkLru (take d l) m), st'. split_and!; [|done| |].
  - unfold popNLRU, getLRUBufferSize, getSize. mrun. rewrite s32_id by (unfold is_s32; lia).
    replace (if Z.of_nat (length l) <? num then Z.of_nat (length l) else num) with k.
    { by rewrite Hpop. }
    subst k. destruct (Z.ltb_spec (Z.of_nat (length l)) num); lia.
  - apply (lru_inv_prefix _ (drop d l)). by rewrite take_drop.
  - unfold LruSpec.pop_n, lru_abs. simpl. rewrite length_fmap. fold d.
    by rewrite <- fmap_drop, <- fmap_take, fmap_reverse.
Qed.

(** ** Facts for the callers *)

Lemma lru_abs_NoDup c : lru_inv c -> NoDup (lru_abs c).
Proof.
  intros (Hnd & Hok & _). unfold lru_abs. induction (il c) as [|n l IH]; [constructor|].
  rewrite fmap_cons in *. apply NoDup_cons in Hnd as [Hn Hnd].
  apply Forall_cons in Hok as [Hokn Hok]. apply NoDup_cons. split; [|by apply IH].
  intros (m & Heq & Hm)%list_elem_of_fmap. apply Hn. rewrite Forall_forall in Hok.
  apply abs_node_inj in Heq; [|done|by apply Hok]. rewrite Heq. by apply list_elem_of_fmap_2.
Qed.

Lemma elem_of_touch p q l : q ∈ LruSpec.touch p l <-> q = p \/ q ∈ l.
Proof.
  unfold LruSpec.touch. rewrite elem_of_cons, list_elem_of_filter.
  destruct (decide (q = p)); naive_solver.
Qed.

(** Insertion with eviction: the page is in front, and the node returned, if any,
    was the last one. *)
Lemma insert_evict_abs key uf c st : lru_inv c -> aligned key -> 0 <= uf < 4096 ->
  exists n c' st',
    insertCacheNodeAndEvict key uf (mkLRUBuffer c st) = Ok (n, mkLRUBuffer c' st') /\
    lru_inv c' /\ max_num_items c' = max_num_items c /\
    ((n = CacheNode 0 0 /\ lru_abs c' = LruSpec.touch (key, uf) (lru_abs c) /\
      Z.of_nat (length (lru_abs c')) <= max_num_items c) \/
     (node_ok n /\ LruSpec.touch (key, uf) (lru_abs c) = lru_abs c' ++ [abs_node n] /\
      max_num_items c <= Z.of_nat (length (lru_abs c')))).
Proof.
  intros Hinv Hkey Huf. destruct (insert_evict_spec key uf c st) as (n & c' & st' & E & Hi & Hm & Hs); try done.
  exists n, c', st'. split; [done|]. split; [done|]. split; [done|].
  unfold LruSpec.insert_evict in Hs. set (l := LruSpec.touch (key, uf) (lru_abs c)) in *.
  destruct (Z.ltb_spec (max_num_items c) (Z.of_nat (length l))) as [Hlt|Hle].
  - right. destruct Hs as [Hc Hn]. clearbody l.
    destruct l as [|x l' _] using rev_ind; [destruct Hinv as (_ & _ & ?); simpl in Hlt; lia|].
    rewrite last_snoc in Hn. destruct Hn as [-> Hn].
    rewrite length_app, Nat.add_sub, take_app_length in Hc. rewrite length_app in Hlt. simpl in Hlt.
    rewrite Hc. split; [done|]. split; [done|lia].
  - left. destruct Hs as [-> ->]. done.
Qed.

Lemma insertCacheNode_abs key uf c st : lru_inv c -> aligned key -> 0 <= uf < 4096 ->
  exists c' st', insertCacheNode key uf (mkLRUBuffer c st) = Ok (tt, mkLRUBuffer c' st') /\
    lru_inv c' /\ max_num_items c' = max_num_items c /\
    lru_abs c' = LruSpec.touch (key, uf) (lru_abs c).
Proof.
  intros Hinv Hkey Huf. set (item := CacheNode (hash_page_key key uf) uf).
  assert (Hi : node_ok item) by by apply node_ok_hash.
  exists (insert item c), (stats_when StatsIncrLRUBufferSize st). split.
  - unfold insertCacheNode. mrun. by rewrite insert_evict_run.
  - split; [by apply insert_inv|]. split; [apply insert_max|].
    rewrite insert_abs by (done || apply Hinv). f_equal. unfold abs_node. simpl.
    by rewrite hash_page_key_page, page_of_id.
Qed.

(** Popping [num] of at least as many nodes. *)
Lemma popNLRU_abs num c st : lru_inv c -> 0 <= num <= Z.of_nat (length (il c)) ->
  Z.of_nat (length (il c)) < 2 ^ 31 ->
  exists nodes c' st', popNLRU num (mkLRUBuffer c st) = Ok ((num, nodes), mkLRUBuffer c' st') /\
    lru_inv c' /\ max_num_items c' = max_num_items c /\ Forall node_ok nodes /\
    Z.of_nat (length nodes) = num /\ lru_abs c = lru_abs c' ++ reverse (abs_node <$> nodes).
Proof.
  intros Hinv Hnum Hlen. destruct c as [l m]. simpl in *.
  set (d := (length l - Z.to_nat num)%nat).
  destruct (pop_loop_app (Z.to_nat num) (take d l) (drop d l) m st) as [st' Hpop].
  { rewrite length_drop. subst d. lia. }
  rewrite take_drop in Hpop.
  exists (reverse (drop d l)), (mkLru (take d l) m), st'. split_and!.
  - unfold popNLRU, getLRUBufferSize, getSize. mrun. rewrite s32_id by (unfold is_s32; lia).
    destruct (Z.ltb_spec (Z.of_nat (length l)) num); [lia|]. by rewrite Hpop.
  - apply (lru_inv_prefix _ (drop d l)). by rewrite take_drop.
  - done.
  - apply Forall_reverse, Forall_drop, Hinv.
  - rewrite length_reverse, length_drop. subst d. lia.
  - unfold lru_abs. simpl. by rewrite fmap_reverse, reverse_involutive, <- fmap_app, take_drop.
Qed.

(** Asked for more nodes than there are, it pops them all. *)
Lemma popNLRU_all num c st : Z.of_nat (length (il c)) < 2 ^ 31 -> Z.of_nat (length (il c)) <= num ->
  popNLRU num (mkLRUBuffer c st) = popNLRU (Z.of_nat (length (il c))) (mkLRUBuffer c st).
Proof.
  intros Hlen Hnum. unfold popNLRU, getLRUBufferSize, getSize. mrun. rewrite s32_id by (unfold is_s32; lia).
  rewrite Z.ltb_irrefl. destruct (Z.ltb_spec (Z.of_nat (length (il c))) num); [done|].
  by replace num with (Z.of_nat (length (il c))) by lia.
Qed.

(** [popNLRU n] returns the [n] least recently used pages, the oldest first, and
    keeps the rest in order; asked for more pages than there are it pops and
    reports only those. *)
Theorem popNLRU_refines num c st
  (Hinv : lru_inv c) (Hlen : Z.of_nat (length c.(il)) < 2 ^ 31) (Hnum : 0 <= num < 2 ^ 31) :
  exists k nodes c' st',
    popNLRU num (mkLRUBuffer c st) = Ok ((k, nodes), mkLRUBuffer c' st') /\
    k = Z.min num (Z.of_nat (length c.(il))) /\ lru_inv c' /\
    LruSpec.pop_n (Z.to_nat k) (lru_abs c) = (abs_node <$> nodes, lru_abs c').
Proof. by apply popNLRU_spec. Qed.

End refinement.

Lemma insertCacheNodeAndEvict_refines_witness :
  lru_inv (mkLru [CacheNode (hash_page_key 8192 5) 5] 1) /\
  exists n c' st',
    insertCacheNodeAndEvict (F := default_build) 4096 5
      (mkLRUBuffer (mkLru [CacheNode (hash_page_key 8192 5) 5] 1) zero_stats) =
      Ok (n, mkLRUBuffer c' st') /\
    lru_inv c' /\ max_num_items c' = 1 /\ lru_abs c' = [(4096, 5)] /\
    abs_node n = (8192, 5) /\ node_ok n.
Proof.
  assert (H : lru_inv (mkLru [CacheNode (hash_page_key 8192 5) 5] 1)).
  { by_decide. }
  split; [done|].
  destruct (insertCacheNodeAndEvict_refines (F := default_build) 4096 5 _ zero_stats H)
    as (n & c' & st' & Hrun & Hinv & Hm & Hl); [by_decide|lia|].
  exists n, c', st'.
  assert (E : LruSpec.insert_evict 1 (4096, 5) (lru_abs (mkLru [CacheNode (hash_page_key 8192 5) 5] 1))
              = (Some (8192, 5), [(4096, 5)])) by by vm_compute.
  simpl max_num_items in Hl. rewrite E in Hl. destruct Hl as [Hl [Hn Hok]]. done.
Defined.

Lemma popNLRU_refines_witness :
  exists k nodes c' st',
    popNLRU (F := default_build) 3
      (mkLRUBuffer (mkLru [CacheNode (hash_page_key 8192 5) 5; CacheNode (hash_page_key 4096 6) 6] 4)
         zero_stats) = Ok ((k, nodes), mkLRUBuffer c' st') /\
    k = 2 /\ abs_node <$> nodes = [(4096, 6); (8192, 5)] /\ il c' = [].
Proof.
  set (c := mkLru _ 4).
  assert (H : lru_inv c).
  { by_decide. }
  destruct (popNLRU_refines (F := default_build) 3 c zero_stats H)
    as (k & nodes & c' & st' & Hrun & Hk & _ & Hp); [simpl; lia|lia|].
  exists k, nodes, c', st'. assert (k = 2) as -> by by rewrite Hk.
  assert (E : LruSpec.pop_n (Z.to_nat 2) (lru_abs c) = ([(4096, 6); (8192, 5)], [])) by by vm_compute.
  rewrite E in Hp. injection Hp as Hn Hc. symmetry in Hc. by apply fmap_nil_inv in Hc.
Defined.

(** * Removing a descriptor *)

Lemma without_middle pre n rest : NoDup (cn_hashcode <$> (pre ++ n :: rest)) ->
  without (cn_hashcode n) (pre ++ n :: rest) = pre ++ rest.
Proof.
  rewrite fmap_app, fmap_cons. intros Hnd. unfold without.
  apply NoDup_app in Hnd as (_ & Hdis & [Hn _]%NoDup_cons).
  rewrite filter_app, filter_cons_False by auto. f_equal.
  - apply (without_absent (cn_hashcode n) pre). intros Hin. apply (Hdis _ Hin). constructor.
  - by apply (without_absent (cn_hashcode n) rest).
Qed.

Lemma remove_loop_intact uf m itr pre :
  NoDup (cn_hashcode <$> (pre ++ itr)) ->
  remove_ufd_loop (I := stale_intact) (length itr) uf itr (mkLru (pre ++ itr) m) =
  Ok ((fun n => page_of (cn_hashcode n)) <$> filter (fun n => cn_ufd n = uf) itr,
      mkLru (pre ++ filter (fun n => cn_ufd n <> uf) itr) m).
Proof.
  revert pre. induction itr as [|n rest IH]; intros pre Hnd; [done|].
  cbn [remove_ufd_loop length]. destruct (decide (cn_ufd n = uf)) as [Hu|Hu].
  - unfold erase. simpl il. rewrite without_middle by done. simpl.
    rewrite IH.
    + by rewrite filter_cons_True, filter_cons_False by auto.
    + rewrite fmap_app in *. apply NoDup_app in Hnd as (? & Hdis & [_ ?]%NoDup_cons).
      apply NoDup_app. split_and!; [done| |done]. intros x Hx Hr. apply (Hdis x Hx). by constructor.
  - rewrite filter_cons_False, filter_cons_True by auto.
    specialize (IH (pre ++ [n])). rewrite <- !app_assoc in IH. by apply IH.
Qed.

Lemma remove_loop_undefined uf c itr fuel : (length itr <= fuel)%nat ->
  Exists (fun n => cn_ufd n = uf) itr ->
  remove_ufd_loop (I := stale_undefined) fuel uf itr c = UB UseAfterFree.
Proof.
  revert fuel. induction itr as [|n rest IH]; intros fuel Hf Hex; [by inversion Hex|].
  destruct fuel as [|fuel]; simpl in *; [lia|]. case_decide; [done|].
  apply IH; [lia|]. inversion Hex; naive_solver.
Qed.

(** [removeUFDFromLRU] erases the element an iterator points to and then
    increments that iterator: as soon as the buffer holds one page of the
    descriptor the call is undefined behaviour, and otherwise it changes nothing. *)
Theorem removeUFDFromLRU_undefined `{F : BuildFlags} uf b :
  removeUFDFromLRU (I := stale_undefined) uf b =
  if decide (Exists (fun n => cn_ufd n = uf) b.(cache).(il)) then UB UseAfterFree
  else Ok ([], mkLRUBuffer b.(cache)
                 (stats_when (StatsSetLRUBufferSize (getSize b.(cache))) b.(lru_stats))).
Proof.
  unfold removeUFDFromLRU, lru_with_stats, stats_when. mrun. case_decide as Hex.
  - by rewrite remove_loop_undefined.
  - assert (Hl : forall itr, Forall (fun n => cn_ufd n <> uf) itr ->
      remove_ufd_loop (I := stale_undefined) (length itr) uf itr (cache b) = Ok ([], cache b)).
    { induction 1; [done|]. simpl. by rewrite decide_False. }
    rewrite Hl by (apply not_Exists_Forall; [apply _|done]). by destruct MONITORSTATS.
Qed.

(** Where the links of the erased node are still intact when the iterator
    moves on, [removeUFDFromLRU] returns the page addresses of exactly the
    descriptor's pages, most recent first, and keeps the other descriptors'
    pages in order. *)
Theorem removeUFDFromLRU_intact_refines `{F : BuildFlags} uf c st (Hinv : lru_inv c) :
  exists keys c' st',
    removeUFDFromLRU (I := stale_intact) uf (mkLRUBuffer c st) = Ok (keys, mkLRUBuffer c' st') /\
    lru_inv c' /\ LruSpec.remove_ufd uf (lru_abs c) = (keys, lru_abs c').
Proof.
  destruct c as [l m]. destruct Hinv as (Hnd & Hok & Hm). simpl in *.
  unfold removeUFDFromLRU, lru_with_stats. mrun.
  pose proof (remove_loop_intact uf m l [] Hnd) as Hloop. simpl in Hloop. rewrite Hloop.
  exists ((fun n => page_of (cn_hashcode n)) <$> filter (fun n => cn_ufd n = uf) l),
    (mkLru (filter (fun n => cn_ufd n <> uf) l) m),
    (stats_when (StatsSetLRUBufferSize (s32 (Z.of_nat (length (filter (fun n => cn_ufd n <> uf) l))))) st).
  split_and!.
  - unfold stats_when. by destruct MONITORSTATS.
  - split_and!; simpl; [by apply NoDup_fmap_filter|by apply Forall_filter_sub|lia|lia].
  - unfold LruSpec.remove_ufd, lru_abs. simpl. f_equal.
    + clear. induction l as [|n l IH]; [done|]. rewrite fmap_cons.
      destruct (decide (cn_ufd n = uf)).
      * rewrite !filter_cons_True by done. simpl. by f_equal.
      * by rewrite !filter_cons_False by done.
    + clear. induction l as [|n l IH]; [done|]. rewrite fmap_cons.
      destruct (decide (cn_ufd n = uf)).
      * rewrite !filter_cons_False; [done|tauto|by intros Hx; apply Hx].
      * rewrite !filter_cons_True by done. rewrite fmap_cons. by f_equal.
Qed.

Lemma removeUFDFromLRU_intact_refines_witness :
  exists keys c' st',
    removeUFDFromLRU (F := default_build) (I := stale_intact) 5
      (mkLRUBuffer (mkLru [CacheNode (hash_page_key 8192 5) 5; CacheNode (hash_page_key 4096 6) 6] 4)
         zero_stats) = Ok (keys, mkLRUBuffer c' st') /\
    lru_inv c' /\ keys = [8192] /\ lru_abs c' = [(4096, 6)].
Proof.
  set (c := mkLru _ 4).
  destruct (removeUFDFromLRU_intact_refines (F := default_build) 5 c zero_stats)
    as (keys & c' & st' & Hrun & Hinv & Hp); [by_decide|].
  exists keys, c', st'.
  assert (E : LruSpec.remove_ufd 5 (lru_abs c) = ([8192], [(4096, 6)])) by by vm_compute.
  rewrite E in Hp. by injection Hp as <- <-.
Defined.

(** Two pages share an LRU key exactly when they are the same page and their
    descriptors agree modulo 4096, and masking the key gives the page back; so keys
    are unique below descriptor 4096 and not above. *)
Theorem hash_page_key_spec k1 u1 k2 u2 :
  page_of (hash_page_key k1 u1) = page_of k1 /\
  (hash_page_key k1 u1 = hash_page_key k2 u2 <-> page_of k1 = page_of k2 /\ u1 mod 4096 = u2 mod 4096).
Proof.
  split; [apply hash_page_key_page|]. rewrite hash_page_key_inj. unfold PAGE_SIZE, u64.
  by rewrite !Z.mod_mod_divide by (exists (2 ^ 52); reflexivity).
Qed.
