(* ===== verification/UtHash.v ===== *)
(** The hash tables of [include/uthash.h], as this repository configures them
    (512 initial buckets, the Jenkins hash), at the level of buckets and
    chains: lookup, insertion with bucket expansion, deletion, iteration and
    count.  The descriptor map of [upid.h] and the write and prefetch lists of
    [threaded_io.h] are instances.

    An element is known by its address, a [ptr]; the doubly linked lists that
    run through the elements' handles (insertion order and bucket chains) are
    lists of addresses, and [elts] gives the memory of the elements, so that an
    update through one list is seen through the other.  A table exists while
    its head is not [NULL]. *)
From S2P Require Import Prelude.

(** The bytes of a key, as numbers below 256. *)
Abbreviation bytes := (list Z).

Section jenkins.
Definition HASH_JEN_MIX (abc : Z * Z * Z) : Z * Z * Z :=
  let '(a, b, c) := abc in
  let a := Z.lxor (u32 (a - b - c)) (Z.shiftr c 13) in
  let b := Z.lxor (u32 (b - c - a)) (u32 (Z.shiftl a 8)) in
  let c := Z.lxor (u32 (c - a - b)) (Z.shiftr b 13) in
  let a := Z.lxor (u32 (a - b - c)) (Z.shiftr c 12) in
  let b := Z.lxor (u32 (b - c - a)) (u32 (Z.shiftl a 16)) in
  let c := Z.lxor (u32 (c - a - b)) (Z.shiftr b 5) in
  let a := Z.lxor (u32 (a - b - c)) (Z.shiftr c 3) in
  let b := Z.lxor (u32 (b - c - a)) (u32 (Z.shiftl a 10)) in
  let c := Z.lxor (u32 (c - a - b)) (Z.shiftr b 15) in
  (a, b, c).

(** Byte [i] of the rest of the key, shifted; 0 past its end, where the
    [switch] has no case. *)
Definition kb (key : bytes) (i : nat) (sh : Z) : Z := Z.shiftl (default 0 (key !! i)) sh.

Fixpoint jen_blocks (fuel : nat) (key : bytes) (st : Z * Z * Z) : bytes * (Z * Z * Z) :=
  match fuel with
  | O => (key, st)
  | S fuel =>
      if (12 <=? length key)%nat then
        let '(i, j, h) := st in
        let i := u32 (i + kb key 0 0 + kb key 1 8 + kb key 2 16 + kb key 3 24) in
        let j := u32 (j + kb key 4 0 + kb key 5 8 + kb key 6 16 + kb key 7 24) in
        let h := u32 (h + kb key 8 0 + kb key 9 8 + kb key 10 16 + kb key 11 24) in
        jen_blocks fuel (drop 12 key) (HASH_JEN_MIX (i, j, h))
      else (key, st)
  end.

Definition HASH_JEN (key : bytes) : Z :=
  let len := Z.of_nat (length key) in
  let '(rest, (i, j, h)) :=
    jen_blocks (length key) key (0x9e3779b9, 0x9e3779b9, 0xfeedbeef) in
  let h := u32 (h + len) in
  let h := u32 (h + kb rest 10 24 + kb rest 9 16 + kb rest 8 8) in
  let j := u32 (j + kb rest 7 24 + kb rest 6 16 + kb rest 5 8 + kb rest 4 0) in
  let i := u32 (i + kb rest 3 24 + kb rest 2 16 + kb rest 1 8 + kb rest 0 0) in
  (HASH_JEN_MIX (i, j, h)).2.
End jenkins.

Definition HASH_INITIAL_NUM_BUCKETS : Z := 512.
Definition HASH_INITIAL_NUM_BUCKETS_LOG2 : Z := 5.
Definition HASH_BKT_CAPACITY_THRESH : Z := 10.

(** An element: the handle's [key] and [hashv], and the caller's payload. *)
Record elt (V : Type) := Elt { hh_key : bytes; hh_hashv : Z; payload : V }.
Arguments Elt {V} _ _ _.
Arguments hh_key {V} _.
Arguments hh_hashv {V} _.
Arguments payload {V} _.

Record UT_hash_bucket := Bucket { chain : list ptr; count : Z; expand_mult : Z }.

Record UT_hash_table := Table {
  app_order : list ptr;
  buckets : list UT_hash_bucket;
  num_buckets : Z;
  log2_num_buckets : Z;
  num_items : Z;
  ideal_chain_maxlen : Z;
  nonideal_items : Z;
  ineff_expands : Z;
  noexpand : Z
}.

(** A hash of the program: the memory of its elements, and the table reached
    from the head pointer, if any. *)
Record uthash (V : Type) := UtHash { elts : gmap ptr (elt V); tbl : option UT_hash_table }.
Arguments UtHash {V} _ _.
Arguments elts {V} _.
Arguments tbl {V} _.

Section uthash_ops.
Context {V : Type}.
Implicit Types (h : uthash V) (t : UT_hash_table).

Definition HASH_TO_BKT (hashv num_bkts : Z) : nat :=
  Z.to_nat (Z.land hashv (u32 (num_bkts - 1))).

Definition HASH_MAKE_TABLE (head : ptr) : UT_hash_table :=
  Table [head] (replicate (Z.to_nat HASH_INITIAL_NUM_BUCKETS) (Bucket [] 0 0))
    HASH_INITIAL_NUM_BUCKETS HASH_INITIAL_NUM_BUCKETS_LOG2 0 0 0 0 0.

Definition hashv_of (m : gmap ptr (elt V)) (p : ptr) : Z :=
  match m !! p with Some e => hh_hashv e | None => 0 end.

(** One element moved to its new bucket by [HASH_EXPAND_BUCKETS]. *)
Definition expand_one (m : gmap ptr (elt V)) (nb ideal : Z)
    (acc : list UT_hash_bucket * Z) (p : ptr) : list UT_hash_bucket * Z :=
  let '(bs, ni) := acc in
  let i := HASH_TO_BKT (hashv_of m p) nb in
  match bs !! i with
  | None => acc
  | Some b =>
      let cnt := u32 (b.(count) + 1) in
      if ideal <? cnt then
        (<[i := Bucket (p :: b.(chain)) cnt (cnt / ideal)]> bs, u32 (ni + 1))
      else (<[i := Bucket (p :: b.(chain)) cnt b.(expand_mult)]> bs, ni)
  end.

Definition HASH_EXPAND_BUCKETS (m : gmap ptr (elt V)) (t : UT_hash_table) : UT_hash_table :=
  let nb := u32 (t.(num_buckets) * 2) in
  let ideal :=
    u32 (Z.shiftr t.(num_items) (t.(log2_num_buckets) + 1) +
         if Z.land t.(num_items) (u32 (nb - 1)) =? 0 then 0 else 1) in
  let '(bs, ni) :=
    foldl (expand_one m nb ideal)
      (replicate (Z.to_nat (2 * t.(num_buckets))) (Bucket [] 0 0), 0)
      (concat (chain <$> t.(buckets))) in
  let ineff := if Z.shiftr t.(num_items) 1 <? ni then u32 (t.(ineff_expands) + 1) else 0 in
  Table t.(app_order) bs nb (u32 (t.(log2_num_buckets) + 1)) t.(num_items) ideal ni ineff
    (if 1 <? ineff then 1 else t.(noexpand)).

Definition HASH_ADD_TO_BKT (m : gmap ptr (elt V)) (i : nat) (p : ptr) (t : UT_hash_table)
  : UT_hash_table :=
  match t.(buckets) !! i with
  | None => t
  | Some b =>
      let b' := Bucket (p :: b.(chain)) (u32 (b.(count) + 1)) b.(expand_mult) in
      let t' := Table t.(app_order) (<[i := b']> t.(buckets)) t.(num_buckets)
                  t.(log2_num_buckets) t.(num_items) t.(ideal_chain_maxlen)
                  t.(nonideal_items) t.(ineff_expands) t.(noexpand) in
      if ((u32 (u32 (b'.(expand_mult) + 1) * HASH_BKT_CAPACITY_THRESH) <=? b'.(count))
          && negb (t'.(noexpand) =? 1))%bool
      then HASH_EXPAND_BUCKETS m t' else t'
  end.

(** [HASH_ADD] of the element at [p]; the key is not checked for presence. *)
Definition HASH_ADD (p : ptr) (key : bytes) (v : V) (h : uthash V) : uthash V :=
  let hashv := HASH_JEN key in
  let m := <[p := Elt key hashv v]> h.(elts) in
  let t :=
    match h.(tbl) with
    | None => HASH_MAKE_TABLE p
    | Some t => Table (t.(app_order) ++ [p]) t.(buckets) t.(num_buckets)
                  t.(log2_num_buckets) t.(num_items) t.(ideal_chain_maxlen)
                  t.(nonideal_items) t.(ineff_expands) t.(noexpand)
    end in
  let t := Table t.(app_order) t.(buckets) t.(num_buckets) t.(log2_num_buckets)
             (u32 (t.(num_items) + 1)) t.(ideal_chain_maxlen) t.(nonideal_items)
             t.(ineff_expands) t.(noexpand) in
  UtHash m (Some (HASH_ADD_TO_BKT m (HASH_TO_BKT hashv t.(num_buckets)) p t)).

Fixpoint HASH_FIND_IN_BKT (m : gmap ptr (elt V)) (c : list ptr) (key : bytes) (hashv : Z)
  : option ptr :=
  match c with
  | [] => None
  | p :: c =>
      match m !! p with
      | Some e => if ((hh_hashv e =? hashv) && bool_decide (hh_key e = key))%bool
                  then Some p else HASH_FIND_IN_BKT m c key hashv
      | None => None
      end
  end.

Definition HASH_FIND (key : bytes) (h : uthash V) : option ptr :=
  match h.(tbl) with
  | None => None
  | Some t =>
      let hashv := HASH_JEN key in
      match t.(buckets) !! HASH_TO_BKT hashv t.(num_buckets) with
      | Some b => HASH_FIND_IN_BKT h.(elts) b.(chain) key hashv
      | None => None
      end
  end.

Definition HASH_DEL_IN_BKT (i : nat) (p : ptr) (bs : list UT_hash_bucket) : list UT_hash_bucket :=
  match bs !! i with
  | Some b => <[i := Bucket (filter (fun q => q <> p) b.(chain)) (u32 (b.(count) - 1))
                       b.(expand_mult)]> bs
  | None => bs
  end.

(** [HASH_DELETE] of the element at [p]: the last element takes the table
    with it.  The element's memory stays until the caller frees it. *)
Definition HASH_DELETE (p : ptr) (h : uthash V) : uthash V :=
  match h.(tbl) with
  | None => h
  | Some t =>
      let rest := filter (fun q => q <> p) t.(app_order) in
      match rest with
      | [] => UtHash h.(elts) None
      | _ =>
          let i := HASH_TO_BKT (hashv_of h.(elts) p) t.(num_buckets) in
          UtHash h.(elts)
            (Some (Table rest (HASH_DEL_IN_BKT i p t.(buckets)) t.(num_buckets)
                     t.(log2_num_buckets) (u32 (t.(num_items) - 1)) t.(ideal_chain_maxlen)
                     t.(nonideal_items) t.(ineff_expands) t.(noexpand)))
      end
  end.

(** [free] of an element. *)
Definition free_elt (p : ptr) (h : uthash V) : uthash V :=
  UtHash (delete p h.(elts)) h.(tbl).

(** [HASH_ITER]: the addresses in insertion order.  The macro reads the
    successor before the body runs, so the body may delete the element. *)
Definition HASH_ITER (h : uthash V) : list ptr :=
  match h.(tbl) with Some t => t.(app_order) | None => [] end.

Definition HASH_CNT (h : uthash V) : Z :=
  match h.(tbl) with Some t => t.(num_items) | None => 0 end.

(** Reading and updating an element through its address. *)
Definition deref (p : ptr) (h : uthash V) : outcome (elt V) :=
  match h.(elts) !! p with Some e => Ok e | None => UB UseAfterFree end.
Definition update (p : ptr) (f : V -> V) (h : uthash V) : uthash V :=
  UtHash (alter (fun e => Elt (hh_key e) (hh_hashv e) (f (payload e))) p h.(elts)) h.(tbl).

Definition empty_hash : uthash V := UtHash ∅ None.

End uthash_ops.

(** * Invariant *)

Definition pow2_buckets (nb : Z) : Prop := exists k, 0 <= k <= 31 /\ nb = 2 ^ k.

Record table_ok {V} (m : gmap ptr (elt V)) (t : UT_hash_table) : Prop := {
  ok_nodup : NoDup t.(app_order);
  ok_elts : forall p, p ∈ t.(app_order) ->
    exists e, m !! p = Some e /\ hh_hashv e = HASH_JEN (hh_key e);
  ok_chains : concat (chain <$> t.(buckets)) ≡ₚ t.(app_order);
  ok_place : forall i b p, t.(buckets) !! i = Some b -> p ∈ b.(chain) ->
    HASH_TO_BKT (hashv_of m p) t.(num_buckets) = i;
  ok_len : length t.(buckets) = Z.to_nat t.(num_buckets);
  ok_pow2 : pow2_buckets t.(num_buckets);
  ok_items : t.(num_items) = u32 (Z.of_nat (length t.(app_order)))
}.

Definition hash_ok {V} (h : uthash V) : Prop :=
  match h.(tbl) with Some t => table_ok h.(elts) t | None => True end.

(** The buckets alone: their number, and every element in the bucket its hash
    value selects. *)
Record buckets_ok {V} (m : gmap ptr (elt V)) (nb : Z) (bs : list UT_hash_bucket) : Prop := {
  bk_len : length bs = Z.to_nat nb;
  bk_place : forall i b p, bs !! i = Some b -> p ∈ b.(chain) -> HASH_TO_BKT (hashv_of m p) nb = i
}.

Lemma HASH_TO_BKT_lt hv nb : pow2_buckets nb -> (HASH_TO_BKT hv nb < Z.to_nat nb)%nat.
Proof.
  intros (k & Hk & ->). unfold HASH_TO_BKT, u32.
  assert (0 < 2 ^ k) by (apply Z.pow_pos_nonneg; lia).
  assert (2 ^ k <= 2 ^ 31) by (apply Z.pow_le_mono_r; lia).
  rewrite (Z.mod_small (2 ^ k - 1)) by lia. replace (2 ^ k - 1) with (Z.ones k) by (rewrite Z.ones_equiv; lia). rewrite Z.land_ones by lia.
  pose proof (Z.mod_pos_bound hv (2 ^ k)). lia.
Qed.

Lemma concat_chain_insert bs i b b' p : bs !! i = Some b -> chain b' = p :: chain b ->
  concat (chain <$> <[i := b']> bs) ≡ₚ p :: concat (chain <$> bs).
Proof.
  intros Hi Hc. pose proof (lookup_lt_Some _ _ _ Hi).
  rewrite <- (take_drop_middle bs i b Hi) at 2. rewrite insert_take_drop by done.
  rewrite !fmap_app, !fmap_cons, !concat_app. simpl. rewrite Hc. simpl.
  symmetry. apply Permutation_middle.
Qed.

Lemma buckets_ok_insert {V} (m : gmap ptr (elt V)) nb bs i b b' p :
  buckets_ok m nb bs -> bs !! i = Some b -> chain b' = p :: chain b ->
  HASH_TO_BKT (hashv_of m p) nb = i -> buckets_ok m nb (<[i := b']> bs).
Proof.
  intros [Hl Hp] Hi Hc Hpi. split; [by rewrite length_insert|].
  intros j c q Hj Hq. destruct (decide (i = j)) as [<-|Hne].
  - rewrite list_lookup_insert_eq in Hj by by eapply lookup_lt_Some. injection Hj as <-.
    rewrite Hc in Hq. apply elem_of_cons in Hq as [->|Hq]; [done|]. by eapply Hp.
  - rewrite list_lookup_insert_ne in Hj by done. by eapply Hp.
Qed.

(** Moving the elements of [ps] into the new buckets. *)
Lemma foldl_expand_ok {V} (m : gmap ptr (elt V)) nb ideal ps bs ni : pow2_buckets nb ->
  buckets_ok m nb bs ->
  let r := foldl (expand_one m nb ideal) (bs, ni) ps in
  buckets_ok m nb r.1 /\ concat (chain <$> r.1) ≡ₚ ps ++ concat (chain <$> bs).
Proof.
  intros Hnb. revert bs ni. induction ps as [|p ps IH]; intros bs ni Hok; [done|]. simpl.
  pose proof (HASH_TO_BKT_lt (hashv_of m p) nb Hnb) as Hlt.
  destruct (lookup_lt_is_Some_2 bs (HASH_TO_BKT (hashv_of m p) nb)) as [b Hb].
  { by rewrite (bk_len _ _ _ Hok). }
  rewrite Hb.
  destruct (ideal <? u32 (count b + 1));
    match goal with |- context [foldl _ (?bs', ?ni') _] => destruct (IH bs' ni') as [IH1 IH2] end;
    [by eapply (buckets_ok_insert _ _ _ _ b)| |by eapply (buckets_ok_insert _ _ _ _ b)|];
    (split; [exact IH1|]; rewrite IH2, (concat_chain_insert _ _ b _ p Hb) by done;
     symmetry; apply Permutation_middle).
Qed.

Lemma concat_replicate_nil n : concat (chain <$> replicate n (Bucket [] 0 0)) = [].
Proof. induction n; [done|]. simpl. done. Qed.

Lemma buckets_ok_fresh {V} (m : gmap ptr (elt V)) nb :
  buckets_ok m nb (replicate (Z.to_nat nb) (Bucket [] 0 0)).
Proof.
  split; [by rewrite length_replicate|].
  intros i b p Hb Hp. apply lookup_replicate in Hb as [-> _]. by apply elem_of_nil in Hp.
Qed.

Lemma table_ok_buckets {V} (m : gmap ptr (elt V)) t : table_ok m t -> buckets_ok m t.(num_buckets) t.(buckets).
Proof. intros Ht. split; [apply Ht|apply Ht]. Qed.

(** Expansion keeps the invariant while the bucket count stays within [unsigned]. *)
Lemma HASH_EXPAND_BUCKETS_ok {V} (m : gmap ptr (elt V)) t :
  table_ok m t -> t.(num_buckets) <= 2 ^ 30 ->
  table_ok m (HASH_EXPAND_BUCKETS m t) /\ app_order (HASH_EXPAND_BUCKETS m t) = app_order t.
Proof.
  intros Ht Hmax. destruct (ok_pow2 _ _ Ht) as (k & Hk & Hnb).
  assert (Hk' : k <= 30). { rewrite Hnb in Hmax. apply Z.pow_le_mono_r_iff in Hmax; lia. }
  assert (Hnb2 : u32 (num_buckets t * 2) = 2 ^ (k + 1)).
  { rewrite Hnb. unfold u32. rewrite Z.pow_add_r by lia. change (2 ^ 1) with 2. apply Z.mod_small.
    assert (0 < 2 ^ k) by (apply Z.pow_pos_nonneg; lia).
    assert (2 ^ k <= 2 ^ 30) by (apply Z.pow_le_mono_r; lia). lia. }
  assert (Hp2 : pow2_buckets (u32 (num_buckets t * 2))).
  { rewrite Hnb2. exists (k + 1). split; [lia|done]. }
  unfold HASH_EXPAND_BUCKETS. set (nb := u32 (num_buckets t * 2)) in *.
  set (ideal := u32 _).
  assert (Hfresh : buckets_ok m nb (replicate (Z.to_nat (2 * num_buckets t)) (Bucket [] 0 0))).
  { replace (2 * num_buckets t) with nb.
    - apply buckets_ok_fresh.
    - rewrite Hnb2, Hnb, Z.pow_add_r by lia. change (2 ^ 1) with 2. lia. }
  pose proof (foldl_expand_ok m nb ideal (concat (chain <$> buckets t)) _ 0 Hp2 Hfresh) as [Hb Hc].
  destruct (foldl _ _ _) as [bs ni]. simpl in *. rewrite concat_replicate_nil, app_nil_r in Hc.
  split; [|done]. split; simpl; try apply Ht; try apply Hb; try done.
  by rewrite Hc, (ok_chains _ _ Ht).
Qed.

(** * Lookup *)

Lemma elem_of_concat_chain bs p : p ∈ concat (chain <$> bs) <->
  exists i b, bs !! i = Some b /\ p ∈ chain b.
Proof.
  rewrite list_elem_of_In, in_concat. split.
  - intros (c & Hc%list_elem_of_In & Hp%list_elem_of_In).
    apply list_elem_of_fmap in Hc as (b & -> & [i Hi]%list_elem_of_lookup). eauto.
  - intros (i & b & Hi & Hp). exists (chain b). rewrite <- !list_elem_of_In.
    split; [|done]. apply list_elem_of_fmap_2, (list_elem_of_lookup_2 _ _ _ Hi).
Qed.

Definition key_at {V} (h : uthash V) (p : ptr) : option bytes := hh_key <$> h.(elts) !! p.

Lemma find_in_bkt_Some {V} (m : gmap ptr (elt V)) c key hv p :
  HASH_FIND_IN_BKT m c key hv = Some p -> p ∈ c /\ hh_key <$> m !! p = Some key.
Proof.
  induction c as [|q c IH]; [done|]. simpl. destruct (m !! q) as [e|] eqn:E; [|done].
  destruct ((hh_hashv e =? hv) && bool_decide (hh_key e = key))%bool eqn:B.
  - intros [= <-]. apply andb_true_iff in B as [_ B%bool_decide_eq_true]. rewrite E. simpl.
    split; [constructor|by f_equal].
  - intros [? ?]%IH. split; [by constructor|done].
Qed.

Lemma find_in_bkt_None {V} (m : gmap ptr (elt V)) c key hv :
  (forall q, q ∈ c -> exists e, m !! q = Some e /\ hh_hashv e = HASH_JEN (hh_key e)) ->
  hv = HASH_JEN key -> HASH_FIND_IN_BKT m c key hv = None ->
  forall p, p ∈ c -> hh_key <$> m !! p <> Some key.
Proof.
  intros Hc ->. induction c as [|q c IH]; [by intros _ p ?%elem_of_nil|]. simpl.
  destruct (Hc q) as (e & He & Hh); [constructor|]. rewrite He, Hh. intros Hf p Hp.
  assert (Hk : hh_key e <> key).
  { intros Hk. rewrite Hk in Hf. rewrite Z.eqb_refl, bool_decide_true in Hf by done. done. }
  rewrite bool_decide_false, andb_false_r in Hf by done.
  apply elem_of_cons in Hp as [->|Hp].
  - rewrite He. simpl. congruence.
  - apply IH; [|done|done]. intros r Hr. apply Hc. by constructor.
Qed.

(** Lookup in the bucketed table is lookup in the list of elements. *)
Lemma HASH_FIND_spec {V} (h : uthash V) key (Hok : hash_ok h) :
  match HASH_FIND key h with
  | Some p => p ∈ HASH_ITER h /\ key_at h p = Some key
  | None => forall p, p ∈ HASH_ITER h -> key_at h p <> Some key
  end.
Proof.
  unfold HASH_FIND, HASH_ITER, hash_ok, key_at in *. destruct (tbl h) as [t|].
  2:{ by intros p ?%elem_of_nil. }
  pose proof (HASH_TO_BKT_lt (HASH_JEN key) _ (ok_pow2 _ _ Hok)) as Hlt.
  destruct (lookup_lt_is_Some_2 (buckets t) (HASH_TO_BKT (HASH_JEN key) (num_buckets t))) as [b Hb].
  { by rewrite (ok_len _ _ Hok). }
  rewrite Hb.
  assert (Hsub : forall i b p, buckets t !! i = Some b -> p ∈ chain b -> p ∈ app_order t).
  { intros i c p Hi Hp. rewrite <- (ok_chains _ _ Hok). apply elem_of_concat_chain. eauto. }
  destruct (HASH_FIND_IN_BKT _ _ _ _) as [p|] eqn:E.
  - apply find_in_bkt_Some in E as [Hp Hk]. split; [by eapply Hsub|done].
  - intros p Hp Hk.
    rewrite <- (ok_chains _ _ Hok) in Hp. apply elem_of_concat_chain in Hp as (j & c & Hj & Hp).
    pose proof (ok_place _ _ Hok _ _ _ Hj Hp) as Hpl.
    destruct (ok_elts _ _ Hok p) as (e & He & Hh); [by eapply Hsub|].
    rewrite He in Hk. simpl in Hk. injection Hk as Hk.
    unfold hashv_of in Hpl. rewrite He, Hh, Hk in Hpl. rewrite <- Hpl, Hb in Hj. injection Hj as <-.
    eapply (find_in_bkt_None _ _ key _ _ eq_refl E p Hp). rewrite He. simpl. by rewrite Hk.
  Unshelve. intros q Hq. apply (ok_elts _ _ Hok). by eapply Hsub.
Qed.

(** The keys of a table are distinct: what every caller of [HASH_ADD] ensures by
    looking the key up first. *)
Definition unique_keys {V} (h : uthash V) : Prop :=
  forall p q, p ∈ HASH_ITER h -> q ∈ HASH_ITER h -> key_at h p = key_at h q -> p = q.

Definition hash_wf {V} (h : uthash V) : Prop := hash_ok h /\ unique_keys h.

(** Room for one more doubling of the bucket array. *)
Definition can_grow {V} (h : uthash V) : Prop :=
  match h.(tbl) with Some t => t.(num_buckets) <= 2 ^ 30 | None => True end.

Lemma find_iff {V} (h : uthash V) key p : hash_wf h ->
  HASH_FIND key h = Some p <-> p ∈ HASH_ITER h /\ key_at h p = Some key.
Proof.
  intros [Hok Hu]. pose proof (HASH_FIND_spec h key Hok) as Hf.
  destruct (HASH_FIND key h) as [q|]; split.
  - by intros [= <-].
  - intros [Hp Hk]. f_equal. apply Hu; [apply Hf|done|]. destruct Hf as [_ ->]. done.
  - done.
  - intros [Hp Hk]. by destruct (Hf p Hp).
Qed.

Lemma find_None_iff {V} (h : uthash V) key : hash_wf h ->
  HASH_FIND key h = None <-> (forall p, p ∈ HASH_ITER h -> key_at h p <> Some key).
Proof.
  intros [Hok Hu]. pose proof (HASH_FIND_spec h key Hok) as Hf.
  destruct (HASH_FIND key h) as [q|]; split; try done. intros H. by destruct (H q); apply Hf.
Qed.

(** Two tables that agree on which elements hold which key agree on lookups. *)
Lemma find_ext {V} (h h' : uthash V) k k' : hash_wf h -> hash_wf h' ->
  (forall p, p ∈ HASH_ITER h /\ key_at h p = Some k <-> p ∈ HASH_ITER h' /\ key_at h' p = Some k') ->
  HASH_FIND k h = HASH_FIND k' h'.
Proof. intros Hh Hh' He. apply option_eq. intros p. by rewrite !find_iff. Qed.

(** * Insertion *)

Lemma hashv_of_insert_ne {V} (m : gmap ptr (elt V)) p q e : p <> q ->
  hashv_of (<[p := e]> m) q = hashv_of m q.
Proof. intros. unfold hashv_of. by rewrite lookup_insert_ne. Qed.

Lemma HASH_ADD_TO_BKT_ok {V} (m : gmap ptr (elt V)) t p i :
  buckets_ok m t.(num_buckets) t.(buckets) -> pow2_buckets t.(num_buckets) ->
  t.(num_buckets) <= 2 ^ 30 -> i = HASH_TO_BKT (hashv_of m p) t.(num_buckets) ->
  NoDup t.(app_order) ->
  (forall q, q ∈ t.(app_order) -> exists e, m !! q = Some e /\ hh_hashv e = HASH_JEN (hh_key e)) ->
  t.(app_order) ≡ₚ p :: concat (chain <$> t.(buckets)) ->
  t.(num_items) = u32 (Z.of_nat (length t.(app_order))) ->
  table_ok m (HASH_ADD_TO_BKT m i p t) /\ app_order (HASH_ADD_TO_BKT m i p t) = app_order t.
Proof.
  intros Hb Hp2 Hmax -> Hnd Hel Hperm Hni. unfold HASH_ADD_TO_BKT.
  pose proof (HASH_TO_BKT_lt (hashv_of m p) _ Hp2) as Hlt.
  destruct (lookup_lt_is_Some_2 (buckets t) (HASH_TO_BKT (hashv_of m p) (num_buckets t)))
    as [b Eb]; [by rewrite (bk_len _ _ _ Hb)|]. rewrite Eb.
  set (t' := Table _ (<[_ := _]> _) _ _ _ _ _ _ _).
  assert (Ht' : table_ok m t').
  { assert (Hb' : buckets_ok m (num_buckets t') (buckets t')) by by eapply (buckets_ok_insert _ _ _ _ b).
    split; try done; try apply Hb'. simpl.
    by rewrite (concat_chain_insert _ _ b _ p Eb). }
  destruct (_ && _)%bool; [|done]. exact (HASH_EXPAND_BUCKETS_ok m t' Ht' Hmax).
Qed.

Lemma buckets_ok_frame {V} (m : gmap ptr (elt V)) nb bs p e : buckets_ok m nb bs ->
  p ∉ concat (chain <$> bs) -> buckets_ok (<[p := e]> m) nb bs.
Proof.
  intros [Hl Hp] Hn. split; [done|]. intros i b q Hi Hq.
  rewrite hashv_of_insert_ne; [by eapply Hp|]. intros <-. apply Hn, elem_of_concat_chain. eauto.
Qed.

Lemma HASH_ADD_ok {V} (h : uthash V) p key v : hash_ok h -> can_grow h -> p ∉ HASH_ITER h ->
  hash_ok (HASH_ADD p key v h) /\ HASH_ITER (HASH_ADD p key v h) = HASH_ITER h ++ [p].
Proof.
  intros Hok Hg Hp. unfold HASH_ADD, hash_ok, HASH_ITER, can_grow in *.
  set (m := <[p := Elt key (HASH_JEN key) v]> (elts h)).
  assert (Hmp : m !! p = Some (Elt key (HASH_JEN key) v)) by apply lookup_insert_eq.
  assert (Hhv : hashv_of m p = HASH_JEN key) by (unfold hashv_of; by rewrite Hmp).
  cbn [tbl elts]. destruct (tbl h) as [t|]; simpl.
  - rewrite <- Hhv. apply HASH_ADD_TO_BKT_ok; simpl; try done.
    + apply buckets_ok_frame; [by apply table_ok_buckets|]. by rewrite (ok_chains _ _ Hok).
    + apply Hok.
    + apply NoDup_app. split; [apply Hok|]. split; [|apply NoDup_singleton].
      intros q Hq ->%list_elem_of_singleton. done.
    + intros q [Hq| ->%list_elem_of_singleton]%elem_of_app; [|eauto].
      unfold m. rewrite lookup_insert_ne by (intros ->; done). by apply Hok.
    + by rewrite (ok_chains _ _ Hok), Permutation_app_comm.
    + rewrite (ok_items _ _ Hok), length_app. simpl. unfold u32. rewrite Zplus_mod_idemp_l. f_equal. lia.
  - rewrite <- Hhv. apply HASH_ADD_TO_BKT_ok; simpl; try done.
    + apply (buckets_ok_fresh m HASH_INITIAL_NUM_BUCKETS).
    + exists 9. split; [lia|done].
    + apply NoDup_singleton.
    + intros q ->%list_elem_of_singleton. eauto.
Qed.

Lemma HASH_ADD_key_at {V} (h : uthash V) p key v q :
  key_at (HASH_ADD p key v h) q = if decide (p = q) then Some key else key_at h q.
Proof.
  unfold key_at. simpl. case_decide as E; [subst; by rewrite lookup_insert_eq|by rewrite lookup_insert_ne].
Qed.

Lemma HASH_ADD_wf {V} (h : uthash V) p key v : hash_wf h -> can_grow h -> p ∉ HASH_ITER h ->
  HASH_FIND key h = None -> hash_wf (HASH_ADD p key v h).
Proof.
  intros Hh Hg Hp Hf. destruct (HASH_ADD_ok h p key v) as [Hok Hit]; try done; [apply Hh|].
  split; [done|]. intros q r. rewrite Hit, !elem_of_app, !list_elem_of_singleton, !HASH_ADD_key_at.
  rewrite find_None_iff in Hf by done. destruct Hh as [_ Hu].
  intros [Hq| ->] [Hr| ->]; repeat case_decide; subst; try done; intros He; try by apply Hu.
  - by destruct (Hf q).
  - by destruct (Hf r).
Qed.

(** * Deletion *)

Lemma concat_chain_filter bs i p (P : forall j b, bs !! j = Some b -> p ∈ chain b -> i = j) :
  concat (chain <$> HASH_DEL_IN_BKT i p bs) = filter (fun q => q <> p) (concat (chain <$> bs)).
Proof.
  unfold HASH_DEL_IN_BKT. destruct (bs !! i) as [b|] eqn:Hi.
  - pose proof (lookup_lt_Some _ _ _ Hi).
    assert (Hother : forall l, (forall j c, l !! j = Some c -> p ∉ chain c) ->
      filter (fun q => q <> p) (concat (chain <$> l)) = concat (chain <$> l)).
    { intros l Hl. apply filter_all, Forall_forall. intros q Hq ->.
      apply elem_of_concat_chain in Hq as (j & c & Hj & Hc). by eapply Hl. }
    rewrite <- (take_drop_middle bs i b Hi) at 2. rewrite insert_take_drop by done.
    rewrite !fmap_app, !fmap_cons, !concat_app. simpl. rewrite !filter_app.
    rewrite !Hother; [done| |].
    + intros j c Hj Hp. rewrite lookup_drop in Hj. pose proof (P _ _ Hj Hp). lia.
    + intros j c Hj Hp. apply lookup_take_Some in Hj as [Hj ?]. pose proof (P _ _ Hj Hp). lia.
  - symmetry. apply filter_all, Forall_forall. intros q Hq ->.
    apply elem_of_concat_chain in Hq as (j & c & Hj & Hc). rewrite (P j c Hj Hc) in Hi. congruence.
Qed.

Lemma buckets_ok_delete {V} (m : gmap ptr (elt V)) nb bs i p : buckets_ok m nb bs ->
  buckets_ok m nb (HASH_DEL_IN_BKT i p bs).
Proof.
  intros [Hl Hp]. unfold HASH_DEL_IN_BKT. destruct (bs !! i) as [b|] eqn:Hi; [|done].
  split; [by rewrite length_insert|]. intros j c q Hj Hq. destruct (decide (i = j)) as [<-|Hne].
  - rewrite list_lookup_insert_eq in Hj by by eapply lookup_lt_Some. injection Hj as <-.
    simpl in Hq. apply list_elem_of_filter in Hq as [_ Hq]. by eapply Hp.
  - rewrite list_lookup_insert_ne in Hj by done. by eapply Hp.
Qed.

Lemma NoDup_filter_length (l : list ptr) p : NoDup l -> p ∈ l ->
  length l = S (length (filter (fun q => q <> p) l)).
Proof.
  intros Hnd Hp. apply elem_of_Permutation in Hp as [k Hk]. rewrite Hk in Hnd |- *.
  apply NoDup_cons in Hnd as [Hn _]. rewrite filter_cons_False by auto. simpl. f_equal.
  rewrite filter_all; [done|]. apply Forall_forall. by intros q Hq ->.
Qed.

Lemma HASH_DELETE_ok {V} (h : uthash V) p : hash_ok h -> p ∈ HASH_ITER h ->
  hash_ok (HASH_DELETE p h) /\ HASH_ITER (HASH_DELETE p h) = filter (fun q => q <> p) (HASH_ITER h).
Proof.
  unfold HASH_DELETE, hash_ok, HASH_ITER. destruct (tbl h) as [t|]; [|by intros _ ?%elem_of_nil].
  intros Ht Hp. destruct (filter _ (app_order t)) as [|r rest] eqn:Er; simpl; [done|].
  split; [|done]. rewrite <- Er.
  pose proof (buckets_ok_delete _ _ _ (HASH_TO_BKT (hashv_of (elts h) p) (num_buckets t)) p
                (table_ok_buckets _ _ Ht)) as Hb.
  split; simpl; try apply Hb; try apply Ht.
  - apply NoDup_filter, Ht.
  - intros q [_ Hq]%list_elem_of_filter. by apply Ht.
  - rewrite concat_chain_filter; [|intros j b; apply Ht]. by rewrite (ok_chains _ _ Ht).
  - rewrite (ok_items _ _ Ht), (NoDup_filter_length _ p) by (done || apply Ht).
    unfold u32. rewrite Zminus_mod_idemp_l. f_equal. lia.
Qed.

Lemma HASH_DELETE_key_at {V} (h : uthash V) p q : key_at (HASH_DELETE p h) q = key_at h q.
Proof. unfold key_at, HASH_DELETE. by repeat case_match. Qed.

Lemma HASH_DELETE_wf {V} (h : uthash V) p : hash_wf h -> p ∈ HASH_ITER h -> hash_wf (HASH_DELETE p h).
Proof.
  intros [Hok Hu] Hp. destruct (HASH_DELETE_ok h p Hok Hp) as [Hok' Hit]. split; [done|].
  intros q r. rewrite Hit, !HASH_DELETE_key_at, !list_elem_of_filter. intros [_ ?] [_ ?]. by apply Hu.
Qed.

(** * In-place updates and frees *)

Lemma hash_ok_elts {V W} (h : uthash V) (h' : uthash W) : tbl h' = tbl h ->
  (forall p, p ∈ HASH_ITER h ->
     (fun e => (hh_key e, hh_hashv e)) <$> elts h' !! p =
     (fun e => (hh_key e, hh_hashv e)) <$> elts h !! p) ->
  hash_ok h -> hash_ok h'.
Proof.
  unfold hash_ok, HASH_ITER. intros -> He. destruct (tbl h) as [t|]; [|done]. intros Ht.
  assert (Hhv : forall p, p ∈ app_order t -> hashv_of (elts h') p = hashv_of (elts h) p).
  { intros p Hp. specialize (He p Hp). unfold hashv_of.
    destruct (elts h' !! p), (elts h !! p); simpl in *; congruence. }
  split; try apply Ht.
  - intros p Hp. destruct (ok_elts _ _ Ht p Hp) as (e & Ee & Eh). specialize (He p Hp).
    rewrite Ee in He. destruct (elts h' !! p) as [e'|]; [|done]. simpl in He.
    exists e'. split; [done|]. congruence.
  - intros i b p Hi Hp. rewrite Hhv; [by eapply Ht|].
    rewrite <- (ok_chains _ _ Ht). apply elem_of_concat_chain. eauto.
Qed.

Lemma hash_wf_elts {V W} (h : uthash V) (h' : uthash W) : tbl h' = tbl h ->
  (forall p, p ∈ HASH_ITER h ->
     (fun e => (hh_key e, hh_hashv e)) <$> elts h' !! p =
     (fun e => (hh_key e, hh_hashv e)) <$> elts h !! p) ->
  hash_wf h -> hash_wf h'.
Proof.
  intros Ht He [Hok Hu]. split; [by eapply hash_ok_elts|].
  assert (Hit : HASH_ITER h' = HASH_ITER h) by (unfold HASH_ITER; by rewrite Ht).
  assert (Hk : forall p, p ∈ HASH_ITER h -> key_at h' p = key_at h p).
  { intros p Hp. specialize (He p Hp). unfold key_at.
    destruct (elts h' !! p), (elts h !! p); simpl in *; congruence. }
  intros p q. rewrite Hit. intros Hp Hq. rewrite !Hk by done. by apply Hu.
Qed.

Lemma update_wf {V} (h : uthash V) p f : hash_wf h -> hash_wf (update p f h).
Proof.
  apply hash_wf_elts; [done|]. intros q _. simpl. destruct (decide (p = q)) as [->|Hne].
  - rewrite lookup_alter_eq. by destruct (elts h !! q).
  - by rewrite lookup_alter_ne.
Qed.

Lemma free_wf {V} (h : uthash V) p : hash_wf h -> p ∉ HASH_ITER h -> hash_wf (free_elt p h).
Proof.
  intros Hh Hp. revert Hh. apply hash_wf_elts; [done|]. intros q Hq. simpl.
  rewrite lookup_delete_ne; [done|]. by intros ->.
Qed.

Lemma empty_hash_wf {V} : hash_wf (empty_hash (V := V)).
Proof. split; [done|]. by intros p q ?%elem_of_nil. Qed.

(** * A table is a finite map from keys to elements *)

Lemma HASH_ADD_find {V} (h : uthash V) p key v k : hash_wf h -> can_grow h ->
  p ∉ HASH_ITER h -> HASH_FIND key h = None ->
  HASH_FIND k (HASH_ADD p key v h) = if decide (k = key) then Some p else HASH_FIND k h.
Proof.
  intros Hwf Hgrow Hnew Habsent.
  pose proof (HASH_ADD_wf h p key v Hwf Hgrow Hnew Habsent) as Hwf'.
  destruct (HASH_ADD_ok h p key v (proj1 Hwf) Hgrow Hnew) as [_ Hit].
  apply option_eq. intros q.
  rewrite find_iff, Hit, HASH_ADD_key_at, elem_of_app, list_elem_of_singleton by done.
  rewrite find_None_iff in Habsent by done. destruct (decide (k = key)) as [->|Hk].
  - destruct (decide (p = q)) as [->|Hpq]; [naive_solver|]. split.
    + intros [[Hq|Hq] E]; [by destruct (Habsent q)|by destruct Hpq].
    + by intros [= ->].
  - rewrite find_iff by done. destruct (decide (p = q)) as [->|Hpq]; naive_solver.
Qed.

Lemma HASH_DELETE_find {V} (h : uthash V) p key k : hash_wf h -> HASH_FIND key h = Some p ->
  HASH_FIND k (HASH_DELETE p h) = if decide (k = key) then None else HASH_FIND k h.
Proof.
  intros Hwf Hfound. apply find_iff in Hfound as [Hp Hk]; [|done].
  pose proof (HASH_DELETE_wf h p Hwf Hp) as Hwf'.
  destruct (HASH_DELETE_ok h p (proj1 Hwf) Hp) as [_ Hit].
  apply option_eq. intros q.
  rewrite find_iff, Hit, HASH_DELETE_key_at, list_elem_of_filter by done.
  destruct (decide (k = key)) as [->|E].
  - split; [|done]. intros [[Hne Hq] Hq']. destruct Hne. apply (proj2 Hwf); congruence.
  - rewrite find_iff by done. split; [naive_solver|]. intros [Hq Hq']. split; [|done]. split; [|done].
    intros ->. congruence.
Qed.

Lemma free_elt_find {V} (h : uthash V) p k : hash_wf h -> p ∉ HASH_ITER h ->
  HASH_FIND k (free_elt p h) = HASH_FIND k h.
Proof.
  intros Hwf Hp. apply find_ext; [by apply free_wf|done|]. intros q. unfold HASH_ITER, key_at. simpl.
  fold (HASH_ITER h). split; intros [Hq E]; (split; [done|]); revert E;
    rewrite lookup_delete_ne by (by intros ->); done.
Qed.

(** * Keyed tables

    A table whose elements carry their key in the payload: what the program
    builds, since [HASH_ADD] hashes a field of the structure it links in. *)
Section keyed.
Context {V : Type} (keyof : V -> bytes).
Implicit Types h : uthash V.

(** All element memory belongs to the table, each under the key of its payload. *)
Record keyed (h : uthash V) : Prop := {
  kd_wf : hash_wf h;
  kd_keys : forall p e, elts h !! p = Some e -> p ∈ HASH_ITER h /\ hh_key e = keyof (payload e)
}.

(** The payload under a key, and all payloads in iteration order. *)
Definition get (key : bytes) (h : uthash V) : option V :=
  p ← HASH_FIND key h; payload <$> elts h !! p.
Definition entries (h : uthash V) : list V :=
  omap (fun p => payload <$> elts h !! p) (HASH_ITER h).

Lemma iter_elt h p : hash_ok h -> p ∈ HASH_ITER h -> exists e, elts h !! p = Some e.
Proof.
  unfold hash_ok, HASH_ITER. destruct (tbl h) as [t|]; [|by intros _ ?%elem_of_nil].
  intros Hok Hp. destruct (ok_elts _ _ Hok p Hp) as (e & ? & _). eauto.
Qed.

Lemma iter_NoDup h : hash_ok h -> NoDup (HASH_ITER h).
Proof. unfold hash_ok, HASH_ITER. destruct (tbl h) as [t|]; [|by constructor]. intros Hok. apply Hok. Qed.

Lemma find_elt h key p : keyed h -> HASH_FIND key h = Some p ->
  exists e, elts h !! p = Some e /\ keyof (payload e) = key.
Proof.
  intros Hk [Hp Hkey]%find_iff; [|apply Hk]. destruct (iter_elt h p) as [e He]; [apply Hk|done|].
  exists e. split; [done|]. destruct (kd_keys h Hk p e He) as [_ <-].
  unfold key_at in Hkey. rewrite He in Hkey. by injection Hkey.
Qed.

Lemma get_None h key : keyed h -> get key h = None <-> HASH_FIND key h = None.
Proof.
  intros Hk. unfold get. destruct (HASH_FIND key h) as [p|] eqn:F; [|done].
  destruct (find_elt h key p Hk F) as (e & He & _). simpl. by rewrite He.
Qed.

Lemma get_key h key v : keyed h -> get key h = Some v -> keyof v = key.
Proof.
  intros Hk. unfold get. destruct (HASH_FIND key h) as [p|] eqn:F; [|done].
  destruct (find_elt h key p Hk F) as (e & He & Hkey). simpl. rewrite He. by intros [= <-].
Qed.

Lemma get_find h key p : keyed h -> HASH_FIND key h = Some p ->
  exists e, elts h !! p = Some e /\ get key h = Some (payload e).
Proof.
  intros Hk F. destruct (find_elt h key p Hk F) as (e & He & _). exists e.
  unfold get. rewrite F. simpl. by rewrite He.
Qed.

Lemma elem_of_entries h v : keyed h -> v ∈ entries h <-> get (keyof v) h = Some v.
Proof.
  intros Hk. unfold entries, get. rewrite list_elem_of_omap. split.
  - intros (p & Hp & E). destruct (elts h !! p) as [e|] eqn:He; [|done]. injection E as E.
    destruct (kd_keys h Hk p e He) as [_ Hkey].
    assert (F : HASH_FIND (keyof v) h = Some p).
    { apply find_iff; [apply Hk|]. split; [done|]. unfold key_at. rewrite He. simpl. by rewrite Hkey, E. }
    rewrite F. simpl. rewrite He. simpl. by rewrite E.
  - intros E. destruct (HASH_FIND (keyof v) h) as [p|] eqn:F; [|done]. exists p.
    apply find_iff in F as [? _]; [|apply Hk]. done.
Qed.

(** The keys of the payloads are distinct. *)
Lemma keyed_NoDup h : keyed h -> NoDup (keyof <$> entries h).
Proof.
  intros Hk. pose proof (kd_wf h Hk) as [Hok Hu]. unfold entries.
  assert (Hg : forall ps, NoDup ps -> (forall p, p ∈ ps -> p ∈ HASH_ITER h) ->
    NoDup (keyof <$> omap (fun p => payload <$> elts h !! p) ps)).
  { induction ps as [|p ps IH]; intros Hnd Hin; [by constructor|]. apply NoDup_cons in Hnd as [Hp Hnd].
    assert (IH' := IH Hnd ltac:(set_solver)). cbn [omap list_omap]. destruct (elts h !! p) as [e|] eqn:He; [|done].
    cbn [fmap option_fmap option_map]. apply NoDup_cons. split; [|done].
    intros (v & Hkey & (q & Hq & Eq)%list_elem_of_omap)%list_elem_of_fmap.
    destruct (elts h !! q) as [e'|] eqn:He'; [|done]. injection Eq as <-.
    assert (p = q) as ->; [|done]. apply Hu; [apply Hin; by left|apply Hin; by right|].
    unfold key_at. rewrite He, He'. simpl. destruct (kd_keys h Hk p e He) as [_ ->], (kd_keys h Hk q e' He') as [_ ->]. by rewrite Hkey. }
  apply Hg; [by apply iter_NoDup|done].
Qed.

Lemma fresh_not_iter h : hash_wf h -> fresh_ptr (elts h) ∉ HASH_ITER h.
Proof. intros [Hok _] Hp. destruct (iter_elt h _ Hok Hp) as [e He]. by rewrite fresh_ptr_fresh in He. Qed.

Lemma keyed_add h v : keyed h -> can_grow h -> get (keyof v) h = None ->
  let h' := HASH_ADD (fresh_ptr (elts h)) (keyof v) v h in
  keyed h' /\ (forall k, get k h' = if decide (k = keyof v) then Some v else get k h) /\
  entries h' = entries h ++ [v].
Proof.
  intros Hk Hg Hnone h'. apply get_None in Hnone; [|done].
  pose proof (kd_wf h Hk) as Hwf. pose proof (fresh_not_iter h Hwf) as Hf.
  destruct (HASH_ADD_ok h (fresh_ptr (elts h)) (keyof v) v (proj1 Hwf) Hg Hf) as [_ Hit]. fold h' in Hit.
  assert (Hother : forall p, p ∈ HASH_ITER h -> elts h' !! p = elts h !! p).
  { intros p Hp. unfold h'. simpl. rewrite lookup_insert_ne; [done|]. by intros <-. }
  split; [split; [by apply HASH_ADD_wf|]|split].
  - intros p e. unfold h'. simpl. destruct (decide (p = fresh_ptr (elts h))) as [->|Hne].
    + rewrite lookup_insert_eq. intros [= <-]. simpl. fold h'. rewrite Hit.
      split; [|done]. apply elem_of_app. right. by apply list_elem_of_singleton.
    + rewrite lookup_insert_ne by done. intros He. destruct (kd_keys h Hk p e He) as [? ?].
      fold h'. rewrite Hit. split; [|done]. apply elem_of_app. by left.
  - intros k. unfold get at 1. unfold h'. rewrite HASH_ADD_find by done. fold h'.
    case_decide; [simpl; by rewrite lookup_insert_eq|]. unfold get.
    destruct (HASH_FIND k h) as [p|] eqn:F; [|done]. cbn [mbind option_bind].
    by rewrite Hother by apply (proj1 (find_iff _ _ _ Hwf) F).
  - unfold entries. rewrite Hit, omap_app. f_equal.
    + apply list_omap_ext, Forall_Forall2_diag, Forall_forall. intros p Hp. by rewrite Hother.
    + simpl. by rewrite lookup_insert_eq.
Qed.

Lemma HASH_DELETE_elts h p : elts (HASH_DELETE p h) = elts h.
Proof. unfold HASH_DELETE. by repeat case_match. Qed.

Lemma keyed_drop h key p : keyed h -> HASH_FIND key h = Some p ->
  let h' := free_elt p (HASH_DELETE p h) in
  keyed h' /\ (forall k, get k h' = if decide (k = key) then None else get k h) /\
  HASH_ITER h' = filter (fun q => q <> p) (HASH_ITER h) /\
  (forall q, q <> p -> elts h' !! q = elts h !! q).
Proof.
  intros Hk F h'. pose proof (kd_wf h Hk) as Hwf.
  pose proof (proj1 (find_iff _ _ _ Hwf) F) as [Hp Hkey].
  destruct (HASH_DELETE_ok h p (proj1 Hwf) Hp) as [_ Hit].
  assert (Hit' : HASH_ITER h' = filter (fun q => q <> p) (HASH_ITER h)) by done.
  assert (Hnp : p ∉ HASH_ITER (HASH_DELETE p h)).
  { rewrite Hit. by intros [? _]%list_elem_of_filter. }
  assert (Hother : forall q, q <> p -> elts h' !! q = elts h !! q).
  { intros q Hq. unfold h'. simpl. by rewrite HASH_DELETE_elts, lookup_delete_ne. }
  split; [split; [by apply free_wf; [apply HASH_DELETE_wf|]|]|split; [|done]].
  - intros q e. unfold h' at 1. simpl. rewrite HASH_DELETE_elts. intros [Hne Hq]%lookup_delete_Some.
    destruct (kd_keys h Hk q e Hq) as [Hin ?]. rewrite Hit'. split; [|done].
    apply list_elem_of_filter. split; [by intros ->|done].
  - intros k. unfold get at 1. unfold h'. rewrite free_elt_find by (done || by apply HASH_DELETE_wf).
    rewrite (HASH_DELETE_find h p key) by done. case_decide; [done|]. fold h'. unfold get.
    destruct (HASH_FIND k h) as [q|] eqn:Fq; [|done]. cbn [mbind option_bind].
    rewrite Hother; [done|]. intros ->. apply find_iff in Fq as [_ Fq]; [|done]. congruence.
Qed.

Lemma keyed_update h key p f : keyed h -> HASH_FIND key h = Some p -> (forall v, keyof (f v) = keyof v) ->
  let h' := update p f h in
  keyed h' /\ (forall k, get k h' = if decide (k = key) then f <$> get k h else get k h) /\
  HASH_ITER h' = HASH_ITER h.
Proof.
  intros Hk F Hf h'. pose proof (kd_wf h Hk) as Hwf.
  assert (Hwf' : hash_wf h') by by apply update_wf.
  assert (Hkeys : forall q, key_at h' q = key_at h q).
  { intros q. unfold key_at, h'. simpl. destruct (decide (p = q)) as [<-|Hne].
    - rewrite lookup_alter_eq. by destruct (elts h !! p).
    - by rewrite lookup_alter_ne. }
  split; [split; [done|]|split; [|done]].
  - intros q e. unfold h' at 1. simpl. destruct (decide (p = q)) as [<-|Hne].
    + rewrite lookup_alter_eq. destruct (elts h !! p) as [e0|] eqn:E0; [|done]. intros [= <-]. simpl.
      rewrite Hf. by apply (kd_keys h Hk).
    + rewrite lookup_alter_ne by done. by apply (kd_keys h Hk).
  - intros k. unfold get.
    assert (Ffind : HASH_FIND k h' = HASH_FIND k h).
    { apply find_ext; [done|done|]. intros q. by rewrite Hkeys. }
    rewrite Ffind. destruct (HASH_FIND k h) as [q|] eqn:Fq; [|by case_decide].
    cbn [mbind option_bind]. unfold h'. simpl. destruct (decide (k = key)) as [->|Hne].
    + assert (q = p) as -> by congruence. rewrite lookup_alter_eq. by destruct (elts h !! p).
    + rewrite lookup_alter_ne; [done|]. intros <-.
      apply find_iff in F as [_ F]; [|done]. apply find_iff in Fq as [_ Fq]; [|done]. congruence.
Qed.

Lemma empty_keyed : keyed empty_hash.
Proof. split; [apply empty_hash_wf|]. intros p e. simpl. by rewrite lookup_empty. Qed.
End keyed.

(** C26: insertion of a new element under an absent key keeps the table well
    formed, through bucket expansions, and changes lookups at that key only. *)
Theorem HASH_ADD_refines {V} (h : uthash V) p key v (Hwf : hash_wf h) (Hgrow : can_grow h)
    (Hnew : p ∉ HASH_ITER h) (Habsent : HASH_FIND key h = None) :
  let h' := HASH_ADD p key v h in
  hash_wf h' /\ HASH_ITER h' = HASH_ITER h ++ [p] /\
  forall k, HASH_FIND k h' = if decide (k = key) then Some p else HASH_FIND k h.
Proof.
  split; [by apply HASH_ADD_wf|]. split; [by apply HASH_ADD_ok; [apply Hwf|..]|].
  intros k. by apply HASH_ADD_find.
Qed.

(** C27: deletion of an element of the table keeps the table well formed, and
    removes the element's key from the lookups and nothing else; with the last
    element the table itself goes. *)
Theorem HASH_DELETE_refines {V} (h : uthash V) p key (Hwf : hash_wf h)
    (Hfound : HASH_FIND key h = Some p) :
  let h' := HASH_DELETE p h in
  hash_wf h' /\ (tbl h' = None <-> HASH_ITER h = [p]) /\
  forall k, HASH_FIND k h' = if decide (k = key) then None else HASH_FIND k h.
Proof.
  pose proof (proj1 (find_iff _ _ _ Hwf) Hfound) as [Hp Hk]. simpl.
  split; [by apply HASH_DELETE_wf|]. split; [|intros k; by apply HASH_DELETE_find].
  unfold HASH_DELETE, HASH_ITER in *. destruct Hwf as [Hok _]. unfold hash_ok in Hok.
  destruct (tbl h) as [t|]; [|by apply elem_of_nil in Hp].
  pose proof (NoDup_filter_length _ p (ok_nodup _ _ Hok) Hp) as Hlen.
  destruct (filter _ _) eqn:Ef; simpl; split; try done.
  - intros _. destruct (app_order t) as [|x [|]]; try done. by apply list_elem_of_singleton in Hp as ->.
  - intros E. by rewrite E in Hlen.
Qed.

Definition two_keys : uthash Z := HASH_ADD 2 [6] 20 (HASH_ADD 1 [5] 10 empty_hash).

Lemma one_key_wf : hash_wf (HASH_ADD 1 [5] 10 empty_hash).
Proof. apply HASH_ADD_wf; [apply empty_hash_wf|done|by apply not_elem_of_nil|done]. Qed.

Lemma one_key_grow : can_grow (HASH_ADD 1 [5] 10 empty_hash).
Proof.
  unfold can_grow.
  assert (E : num_buckets <$> tbl (HASH_ADD 1 [5] 10 empty_hash) = Some 512) by by vm_compute.
  destruct (tbl _) as [t|]; [|done]. simpl in E. injection E as ->. lia.
Qed.

Lemma one_key_iter : HASH_ITER (HASH_ADD 1 [5] 10 empty_hash) = [1].
Proof. by vm_compute. Qed.

Lemma two_keys_wf : hash_wf two_keys.
Proof.
  apply HASH_ADD_wf; [apply one_key_wf|apply one_key_grow| |by vm_compute].
  rewrite one_key_iter. by_decide.
Qed.

Lemma HASH_ADD_refines_witness :
  HASH_FIND [6] two_keys = Some 2 /\ HASH_FIND [5] two_keys = Some 1.
Proof.
  destruct (HASH_ADD_refines (HASH_ADD 1 [5] 10 empty_hash) 2 [6] 20 one_key_wf one_key_grow)
    as (_ & _ & Hf).
  - rewrite one_key_iter. by_decide.
  - by vm_compute.
  - unfold two_keys. rewrite !Hf. split; by vm_compute.
Defined.

Lemma HASH_DELETE_refines_witness :
  HASH_FIND [6] (HASH_DELETE 1 two_keys) = Some 2 /\ HASH_FIND [5] (HASH_DELETE 1 two_keys) = None.
Proof.
  destruct (HASH_DELETE_refines two_keys 1 [5] two_keys_wf) as (_ & _ & Hf).
  - by vm_compute.
  - rewrite !Hf. split; by vm_compute.
Defined.

(** * The bucket statistics *)

(** The two initial constants disagree: 512 buckets, base-2 logarithm 5; the
    factor of 16 between them is kept by every expansion. *)
Definition log2_off (t : UT_hash_table) : Prop :=
  0 <= t.(log2_num_buckets) /\ t.(num_buckets) = 16 * 2 ^ t.(log2_num_buckets) /\
  t.(num_buckets) <= 2 ^ 30.

(** The limit above which an element counts as badly placed, described as
    the ceiling of items over buckets, is computed from sixteen times the items,
    because the logarithm of the table starts at 5 instead of 9; and the mismatch
    survives the expansion. *)
Theorem ideal_chain_maxlen_off {V} (m : gmap ptr (elt V)) t (Hoff : log2_off t)
    (Hn : 0 <= t.(num_items) < 2 ^ 32) :
  let t' := HASH_EXPAND_BUCKETS m t in
  ideal_chain_maxlen t' =
    16 * num_items t / num_buckets t' + (if num_items t mod num_buckets t' =? 0 then 0 else 1) /\
  num_buckets t' = 16 * 2 ^ log2_num_buckets t'.
Proof.
  destruct Hoff as (Hl & Hnb & Hmax). set (l := log2_num_buckets t) in *.
  assert (Hpos : 0 < 2 ^ l) by (apply Z.pow_pos_nonneg; lia).
  assert (Hl26 : l <= 26).
  { destruct (Z.le_gt_cases l 26) as [|Hgt]; [done|].
    pose proof (Z.pow_le_mono_r 2 27 l ltac:(lia) ltac:(lia)). lia. }
  assert (Hnb' : u32 (num_buckets t * 2) = 16 * 2 ^ (l + 1)).
  { unfold u32. rewrite Hnb, Z.pow_add_r by lia. change (2 ^ 1) with 2. rewrite Z.mod_small; lia. }
  assert (Hlog : u32 (l + 1) = l + 1) by (unfold u32; apply Z.mod_small; lia).
  unfold HASH_EXPAND_BUCKETS. fold l. destruct (foldl _ _ _) as [bs ni].
  cbn [ideal_chain_maxlen num_buckets log2_num_buckets]. rewrite Hnb', Hlog. split; [|done].
  assert (Hmask : u32 (16 * 2 ^ (l + 1) - 1) = Z.ones (l + 5)).
  { rewrite Z.ones_equiv. replace (l + 5) with (l + 1 + 4) by lia. rewrite (Z.pow_add_r _ _ 4) by lia.
    unfold u32. rewrite Z.mod_small; [lia|]. rewrite Z.pow_add_r by lia. change (2 ^ 1) with 2. lia. }
  rewrite Hmask, Z.land_ones, Z.shiftr_div_pow2 by lia.
  replace (2 ^ (l + 5)) with (16 * 2 ^ (l + 1)).
  2:{ replace (l + 5) with (l + 1 + 4) by lia. rewrite (Z.pow_add_r _ _ 4) by lia. lia. }
  rewrite (Z.mul_comm 16 (2 ^ (l + 1))), (Z.mul_comm 16 (num_items t)), Z.div_mul_cancel_r
    by (try lia; apply Z.pow_nonzero; lia).
  assert (H2 : 2 <= 2 ^ (l + 1)) by (rewrite Z.pow_add_r by lia; change (2 ^ 1) with 2; lia).
  assert (0 <= num_items t / 2 ^ (l + 1) < 2 ^ 31).
  { split; [apply Z.div_pos; lia|]. apply Z.div_lt_upper_bound; [lia|]. nia. }
  unfold u32. rewrite Z.mod_small; [done|]. case_match; lia.
Qed.

Definition thousand_items : UT_hash_table :=
  Table [] (replicate 512 (Bucket [] 0 0)) HASH_INITIAL_NUM_BUCKETS HASH_INITIAL_NUM_BUCKETS_LOG2
    1000 0 0 0 0.

(** A thousand items over 1024 buckets: the limit is 16 where the ceiling is 1. *)
Lemma ideal_chain_maxlen_off_witness :
  ideal_chain_maxlen (HASH_EXPAND_BUCKETS (V := Z) ∅ thousand_items) = 16.
Proof.
  destruct (ideal_chain_maxlen_off (V := Z) ∅ thousand_items) as [E _].
  - split; [|split]; by vm_compute.
  - split; by vm_compute.
  - rewrite E. by vm_compute.
Defined.
