(* ===== verification/UtSort.v ===== *)
(** Two parts of [include/uthash.h] that no other part of the monitor calls: [HASH_SRT], which sorts the
    elements of a table with a merge sort on the list that links them, and the hash functions that can be chosen
    instead of [HASH_JEN].  [jenkins_hash] of [lib/externram/noop/externRAMClientImpl.cc], which
    is used for debugging, is one of these.

    The list of a table is the list of its elements; a pointer into it is the part of
    the list that starts there.  The links of an element are only changed once it has been taken
    off both parts that are being merged, so the parts are what the code reads. *)
From Stdlib Require Import Sorting.Sorted.
From S2P Require Import Prelude UtHash.

(** ** [HASH_SRT] *)

Section sort.
Context {A : Type} (cmpfcn : A -> A -> Z).

(** The [for] loop that looks for the second part: [q] and [psize]. *)
Fixpoint find_q (i : nat) (q : list A) (psize : Z) : list A * Z :=
  match i with
  | O => (q, psize)
  | S i =>
      let psize := u32 (psize + 1) in
      let q := tail q in
      if decide (q = []) then (q, psize) else find_q i q psize
  end.

(** The innermost loop: the elements in the order in which they are linked behind
    [tail], and [q] at the end. *)
Fixpoint merge_loop (fuel : nat) (p : list A) (psize : Z) (q : list A) (qsize : Z) (out : list A) : outcome (list A * list A) :=
  match fuel with
  | O => UB OutOfFuel
  | S fuel =>
      if ((psize >? 0) || ((qsize >? 0) && negb (bool_decide (q = []))))%bool then
        if psize =? 0 then
          match q with e :: q => merge_loop fuel p psize q (u32 (qsize - 1)) (out ++ [e]) | [] => UB NullDeref end
        else if ((qsize =? 0) || bool_decide (q = []))%bool then
          match p with e :: p => merge_loop fuel p (u32 (psize - 1)) q qsize (out ++ [e]) | [] => UB NullDeref end
        else
          match p, q with
          | e :: p', f :: q' =>
              if cmpfcn e f <=? 0 then merge_loop fuel p' (u32 (psize - 1)) q qsize (out ++ [e])
              else merge_loop fuel p psize q' (u32 (qsize - 1)) (out ++ [f])
          | _, _ => UB NullDeref
          end
      else Ok (out, q)
  end.

(** One pass over the list; the result has the number of merges. *)
Fixpoint sort_pass (fuel : nat) (insize : Z) (p : list A) (nmerges : Z) (out : list A) : outcome (list A * Z) :=
  match p with
  | [] => Ok (out, nmerges)
  | _ =>
      match fuel with
      | O => UB OutOfFuel
      | S fuel =>
          let '(q, psize) := find_q (Z.to_nat insize) p 0 in
          '(out, p) ← merge_loop (S (length p)) p psize q insize out;
          sort_pass fuel insize p (u32 (nmerges + 1)) out
      end
  end.

Fixpoint sort_loop (fuel : nat) (insize : Z) (l : list A) : outcome (list A) :=
  match fuel with
  | O => UB OutOfFuel
  | S fuel =>
      '(l, nmerges) ← sort_pass (length l) insize l 0 [];
      if nmerges <=? 1 then Ok l else sort_loop fuel (u32 (insize * 2)) l
  end.
(** The length doubles in each pass, so thirty-two are enough. *)
Definition HASH_SRT (l : list A) : outcome (list A) := if decide (l = []) then Ok l else sort_loop 32 1 l.
End sort.

(** [HASH_SRT] of a table: the elements are read through their addresses, and only their order
    changes. *)
Definition read_elts {V} (h : uthash V) (ps : list ptr) : list (ptr * V) := omap (fun p => (fun e => (p, payload e)) <$> elts h !! p) ps.
Definition HASH_SORT {V} (cmpfcn : V -> V -> Z) (h : uthash V) : outcome (uthash V) :=
  match tbl h with
  | None => Ok h
  | Some t =>
      let l := read_elts h (app_order t) in
      if decide (length l = length (app_order t)) then
        l ← HASH_SRT (fun x y => cmpfcn x.2 y.2) l;
        Ok (UtHash (elts h) (Some (Table l.*1 (buckets t) (num_buckets t) (log2_num_buckets t) (num_items t) (ideal_chain_maxlen t)
          (nonideal_items t) (ineff_expands t) (noexpand t))))
      else UB UseAfterFree
  end.

(** ** The hash functions *)

Definition HASH_BER (key : bytes) : Z := foldl (fun h b => u32 (u32 (Z.shiftl h 5) + h + b)) 0 key.
Definition HASH_SAX (key : bytes) : Z := foldl (fun h b => Z.lxor h (u32 (u32 (Z.shiftl h 5) + Z.shiftr h 2 + b))) 0 key.
Definition HASH_FNV (key : bytes) : Z := foldl (fun h b => u32 (Z.lxor h b * 16777619)) 2166136261 key.

Definition oat_byte (h b : Z) : Z :=
  let h := u32 (h + b) in
  let h := u32 (h + u32 (Z.shiftl h 10)) in
  Z.lxor h (Z.shiftr h 6).
Definition HASH_OAT (key : bytes) : Z :=
  let h := foldl oat_byte 0 key in
  let h := u32 (h + u32 (Z.shiftl h 3)) in
  let h := Z.lxor h (Z.shiftr h 11) in
  u32 (h + u32 (Z.shiftl h 15)).

(** [jenkins_hash(key, len)], which walks over [key] by index. *)
Fixpoint jenkins_loop (len : nat) (key : bytes) (i : nat) (hash : Z) : outcome Z :=
  match len with
  | O => Ok hash
  | S len =>
      match key !! i with
      | None => UB OutOfBounds
      | Some b =>
          let hash := u32 (hash + b) in
          let hash := u32 (hash + u32 (Z.shiftl hash 10)) in
          let hash := Z.lxor hash (Z.shiftr hash 6) in
          jenkins_loop len key (S i) hash
      end
  end.
Definition noop_jenkins_hash (key : bytes) (len : nat) : outcome Z :=
  hash ← jenkins_loop len key 0 0;
  let hash := u32 (hash + u32 (Z.shiftl hash 3)) in
  let hash := Z.lxor hash (Z.shiftr hash 11) in
  let hash := u32 (hash + u32 (Z.shiftl hash 15)) in
  Ok hash.

Definition get16bits (key : bytes) (i : nat) : Z := u32 (Z.shiftl (default 0 (key !! S i)) 8) + default 0 (key !! i).
(** The main loop of [HASH_SFH], four bytes a turn. *)
Fixpoint sfh_blocks (len : nat) (key : bytes) (h : Z) : bytes * Z :=
  match len with
  | O => (key, h)
  | S len =>
      let h := u32 (h + get16bits key 0) in
      let tmp := Z.lxor (u32 (Z.shiftl (get16bits key 2) 11)) h in
      let h := Z.lxor (u32 (Z.shiftl h 16)) tmp in
      let h := u32 (h + Z.shiftr h 11) in
      sfh_blocks len (drop 4 key) h
  end.
Definition sfh_rest (rem : nat) (key : bytes) (h : Z) : Z :=
  match rem with
  | 3%nat =>
      let h := u32 (h + get16bits key 0) in
      let h := Z.lxor h (u32 (Z.shiftl h 16)) in
      let h := Z.lxor h (u32 (Z.shiftl (default 0 (key !! 2%nat)) 18)) in
      u32 (h + Z.shiftr h 11)
  | 2%nat =>
      let h := u32 (h + get16bits key 0) in
      let h := Z.lxor h (u32 (Z.shiftl h 11)) in
      u32 (h + Z.shiftr h 17)
  | 1%nat =>
      let h := u32 (h + default 0 (key !! 0%nat)) in
      let h := Z.lxor h (u32 (Z.shiftl h 10)) in
      u32 (h + Z.shiftr h 1)
  | _ => h
  end.
Definition HASH_SFH (key : bytes) : Z :=
  let '(rest, h) := sfh_blocks (length key / 4) key 0xcafebabe in
  let h := sfh_rest (length key mod 4) rest h in
  let h := Z.lxor h (u32 (Z.shiftl h 3)) in
  let h := u32 (h + Z.shiftr h 5) in
  let h := Z.lxor h (u32 (Z.shiftl h 4)) in
  let h := u32 (h + Z.shiftr h 17) in
  let h := Z.lxor h (u32 (Z.shiftl h 25)) in
  u32 (h + Z.shiftr h 6).

(** * The sort *)

Section merge.
Context {A : Type} (cmpfcn : A -> A -> Z).
Implicit Types (l p q : list A).

(** The merge of two lists, the first one preferred. *)
Fixpoint merged l : list A -> list A :=
  fix merged_r q :=
    match l, q with
    | [], q => q
    | l, [] => l
    | e :: l', f :: q' => if cmpfcn e f <=? 0 then e :: merged l' q else f :: merged_r q'
    end.

Lemma merged_nil_r l : merged l [] = l.
Proof. by destruct l. Qed.
Lemma merged_nil_l q : merged [] q = q.
Proof. by destruct q. Qed.

Lemma merged_cons e l f q : merged (e :: l) (f :: q) = if cmpfcn e f <=? 0 then e :: merged l (f :: q) else f :: merged (e :: l) q.
Proof. reflexivity. Qed.

Lemma merged_perm l q : merged l q ≡ₚ l ++ q.
Proof.
  revert q. induction l as [|e l IH]; intros q; [by rewrite merged_nil_l|].
  induction q as [|f q IHq]; [by rewrite merged_nil_r, app_nil_r|]. cbn [merged]. destruct (cmpfcn e f <=? 0).
  - cbn [app]. f_equiv. apply IH.
  - rewrite <- Permutation_middle. f_equiv. exact IHq.
Qed.

(** ** The code is the reference merge *)

Lemma find_q_run i q psize : q <> [] -> 0 <= psize -> psize + Z.of_nat (length q) < 2 ^ 32 ->
  find_q i q psize = (drop i q, psize + Z.of_nat (Nat.min i (length q))).
Proof.
  revert q psize. induction i as [|i IH]; intros q psize Hq H0 Hl; cbn [find_q]; [cbn; by rewrite Z.add_0_r|].
  destruct q as [|x q]; [done|]. cbn [tail length] in *. unfold u32. rewrite Z.mod_small by lia. cbn [drop Nat.min]. case_decide as E.
  - rewrite E, drop_nil. f_equal. cbn [length]. lia.
  - rewrite IH by (done || lia). f_equal. lia.
Qed.

Lemma merge_loop_run fuel : forall xs p' ys q' out n,
  (length xs + length ys < fuel)%nat -> Z.of_nat (length xs) < 2 ^ 32 -> 0 <= n < 2 ^ 32 -> Z.of_nat (length ys) <= n ->
  (Z.of_nat (length ys) < n -> q' = []) ->
  merge_loop cmpfcn fuel (xs ++ p') (Z.of_nat (length xs)) (ys ++ q') n out = Ok (out ++ merged xs ys, q').
Proof.
  induction fuel as [|fuel IH]; intros xs p' ys q' out n Hf Hx Hn Hy Hq; [lia|]. cbn [merge_loop].
  destruct xs as [|x xs]; cbn [length] in *.
  - replace (Z.of_nat 0) with 0 by lia. cbn [Z.gtb Z.compare orb Z.eqb]. destruct ys as [|y ys].
    + rewrite merged_nil_l, app_nil_r. destruct (Z.gtb_spec n 0) as [H|H]; cbn [andb]; [|done]. rewrite (Hq ltac:(cbn; lia)). done.
    + cbn [length app] in *. replace (n >? 0) with true by lia. rewrite bool_decide_false by done. cbn [andb negb].
      unfold u32. rewrite Z.mod_small by lia. rewrite (IH [] p' ys q'); cbn [length]; try lia; [|intros; apply Hq; lia].
      rewrite merged_nil_l. by rewrite <- app_assoc.
  - assert (Hg : (Z.of_nat (S (length xs)) >? 0) = true) by (apply Z.gtb_lt; lia). rewrite Hg.
    replace (Z.of_nat (S (length xs)) =? 0) with false by lia. cbn [orb].
    assert (Ep : forall (r : list A), u32 (Z.of_nat (S (length xs)) - 1) = Z.of_nat (length xs)) by (intros _; unfold u32; rewrite Z.mod_small; lia).
    destruct ys as [|y ys]; cbn [app length] in *.
    + assert (E : ((n =? 0) || bool_decide (q' = []))%bool = true).
      { destruct (Z.eqb_spec n 0); [done|]. by rewrite (Hq ltac:(lia)). }
      rewrite E, (Ep p'), (IH xs p' [] q'); cbn [length]; try lia; [|done]. by rewrite !merged_nil_r, <- app_assoc.
    + replace (n =? 0) with false by lia. rewrite bool_decide_false by done. cbn [orb merged]. destruct (cmpfcn x y <=? 0).
      * rewrite (Ep p'), (IH xs p' (y :: ys) q'); cbn [length]; try lia; [|done]. by rewrite <- app_assoc.
      * unfold u32. rewrite Z.mod_small by lia. change (x :: xs ++ p') with ((x :: xs) ++ p').
        replace (Z.of_nat (S (length xs))) with (Z.of_nat (length (x :: xs))) by done.
        rewrite (IH (x :: xs) p' ys q'); cbn [length]; try lia; [|intros; apply Hq; lia]. by rewrite <- app_assoc.
Qed.
End merge.

Section sorted.
Context {A : Type} (cmpfcn : A -> A -> Z).
Implicit Types (l p q xs ys : list A).

Definition le_cmp (x y : A) : Prop := cmpfcn x y <= 0.
#[global] Instance le_cmp_dec x y : Decision (le_cmp x y).
Proof. unfold le_cmp. apply _. Defined.
(** [cmpfcn] orders the elements: what [HASH_SRT] asks of it. *)
Record cmp_order : Prop := {
  cmp_total : forall x y, le_cmp x y \/ le_cmp y x;
  cmp_trans : forall x y z, le_cmp x y -> le_cmp y z -> le_cmp x z
}.
Context (Ho : cmp_order).

(** The elements that are equal to [k] for [cmpfcn], in their order. *)
Definition alike (k : A) l : list A := filter (fun x => le_cmp k x /\ le_cmp x k) l.
Notation ordered := (StronglySorted le_cmp).

Lemma merged_sorted xs ys : ordered xs -> ordered ys -> ordered (merged cmpfcn xs ys).
Proof.
  intros Hx. revert ys. induction Hx as [|x xs Hx IH Hxs]; intros ys Hy; [by rewrite merged_nil_l|].
  induction Hy as [|y ys Hy IHy Hys]; [by rewrite merged_nil_r; constructor|]. rewrite merged_cons. destruct (Z.leb_spec (cmpfcn x y) 0) as [H|H].
  - constructor; [apply IH; by constructor|]. rewrite merged_perm. apply Forall_app. split; [done|]. constructor; [done|].
    eapply Forall_impl; [exact Hys|]. intros z Hz. by apply (cmp_trans Ho x y z).
  - constructor; [exact IHy|]. rewrite merged_perm.
    assert (Hyx : le_cmp y x) by (destruct (cmp_total Ho x y) as [E|]; [unfold le_cmp in E; lia|done]).
    apply Forall_app. split; [|done]. constructor; [done|]. eapply Forall_impl; [exact Hxs|]. intros z Hz. by apply (cmp_trans Ho y x z).
Qed.

Lemma merged_alike k xs ys : ordered xs -> alike k (merged cmpfcn xs ys) = alike k xs ++ alike k ys.
Proof.
  unfold alike. intros Hx. revert ys. induction Hx as [|x xs Hx IH Hxs]; intros ys; [by rewrite merged_nil_l|].
  induction ys as [|y ys IHy]; [by rewrite merged_nil_r, filter_nil, app_nil_r|]. rewrite merged_cons. destruct (Z.leb_spec (cmpfcn x y) 0) as [H|H].
  - rewrite !(filter_cons _ x), IH. by case_decide.
  - rewrite (filter_cons _ y (merged _ _ _)), IHy. case_decide as Hk.
    + rewrite (filter_cons_True _ y ys) by done. rewrite (filter_none _ (x :: xs)); [done|].
      assert (Hlt : forall z, z ∈ x :: xs -> ~ le_cmp z y).
      { intros z Hz Hzy. assert (Hxz : le_cmp x z).
        { apply elem_of_cons in Hz as [->|Hz]; [by destruct (cmp_total Ho x x)|]. rewrite Forall_forall in Hxs. by apply Hxs. }
        pose proof (cmp_trans Ho x z y Hxz Hzy) as E. unfold le_cmp in E. lia. }
      apply Forall_forall. intros z Hz [H1 H2]. apply (Hlt z Hz). by apply (cmp_trans Ho z k y H2), Hk.
    + by rewrite (filter_cons_False _ y ys) by done.
Qed.

(** A list made of ordered parts of the length [n], the last one perhaps shorter. *)
Inductive runs (n : nat) : list A -> Prop :=
| runs_nil : runs n []
| runs_cons xs l : ordered xs -> (length xs <= n)%nat -> (l <> [] -> length xs = n) -> runs n l -> runs n (xs ++ l).

Lemma runs_parts n l : (1 <= n)%nat -> runs n l -> ordered (take n l) /\ runs n (drop n l).
Proof.
  intros Hn [|xs l' Hs Hx Hl Hr]; [rewrite take_nil, drop_nil; split; constructor|].
  destruct (decide (l' = [])) as [->|Hne].
  - rewrite app_nil_r, take_ge, drop_ge by done. split; [done|constructor].
  - specialize (Hl Hne). by rewrite take_app_length', drop_app_length'.
Qed.
Lemma runs_one l : runs 1 l.
Proof.
  induction l as [|x l IH]; [constructor|]. change (x :: l) with ([x] ++ l). constructor; [by repeat constructor|done|done|done].
Qed.
(** One merge of a pass. *)
Lemma pass_merge insize l out : 1 <= insize < 2 ^ 32 -> l <> [] -> Z.of_nat (length l) < 2 ^ 32 -> let n := Z.to_nat insize in
  merge_loop cmpfcn (S (length l)) l (Z.of_nat (Nat.min n (length l))) (drop n l) insize out =
    Ok (out ++ merged cmpfcn (take n l) (take n (drop n l)), drop n (drop n l)).
Proof.
  intros Hi Hl Hlen n. pose proof (length_take l n) as H1. pose proof (length_take (drop n l) n) as H2. pose proof (length_drop l n) as H3.
  pose proof (merge_loop_run cmpfcn (S (length l)) (take n l) (drop n l) (take n (drop n l)) (drop n (drop n l)) out insize) as H.
  rewrite !take_drop in H. rewrite H1 in H. apply H; [lia|lia|lia|lia|]. intros Hs. apply drop_ge. lia.
Qed.

Record pass_ok (n : nat) l (m : Z) l' : Prop := {
  po_perm : l' ≡ₚ l;
  po_runs : runs (n + n) l';
  po_alike : forall k, alike k l' = alike k l;
  po_count : 0 <= m <= Z.of_nat (length l);
  po_some : m = 0 -> l = [];
  po_last : m <= 1 -> ordered l';
  po_more : 1 < m -> (n + n < length l)%nat
}.

Lemma pass_step n l m l' : (1 <= n)%nat -> l <> [] -> runs n l -> pass_ok n (drop n (drop n l)) m l' ->
  pass_ok n l (m + 1) (merged cmpfcn (take n l) (take n (drop n l)) ++ l').
Proof.
  intros Hn Hl Hr [Hp Hru Ha Hc Hs Hla Hm]. destruct (runs_parts n l Hn Hr) as [Hs1 Hr1]. destruct (runs_parts n _ Hn Hr1) as [Hs2 _].
  assert (El : l = take n l ++ take n (drop n l) ++ drop n (drop n l)) by by rewrite !take_drop.
  assert (Hml : length (merged cmpfcn (take n l) (take n (drop n l))) = (length (take n l) + length (take n (drop n l)))%nat).
  { rewrite (merged_perm cmpfcn), length_app. done. }
  rewrite !length_take, length_drop in Hml. rewrite !length_drop in *.
  assert (Hl1 : (1 <= length l)%nat) by (destruct l; cbn; [done|lia]). split.
  - rewrite merged_perm, Hp, <- app_assoc. by rewrite <- El.
  - constructor; [by apply merged_sorted|lia| |done]. intros Hne. assert (Hd : drop n (drop n l) <> []).
    { intros E. rewrite E in Hp. by apply Permutation_nil_r in Hp. }
    assert (0 < length (drop n (drop n l)))%nat by (destruct (drop n (drop n l)); [done|cbn; lia]). rewrite !length_drop in *. lia.
  - intros k. rewrite El at 3. unfold alike in *. rewrite !filter_app, Ha.
    pose proof (merged_alike k (take n l) (take n (drop n l)) Hs1) as E. unfold alike in E. rewrite E. by rewrite <- app_assoc.
  - lia.
  - lia.
  - intros H. assert (m = 0) as H0 by lia. specialize (Hs H0). rewrite Hs in Hp. apply Permutation_nil_r in Hp as ->.
    rewrite app_nil_r. by apply merged_sorted.
  - lia.
Qed.

Lemma pass_run insize : forall fuel l nmerges out, (length l <= fuel)%nat -> 1 <= insize < 2 ^ 32 ->
  0 <= nmerges -> nmerges + Z.of_nat (length l) < 2 ^ 32 -> runs (Z.to_nat insize) l ->
  exists m l', sort_pass cmpfcn fuel insize l nmerges out = Ok (out ++ l', nmerges + m) /\ pass_ok (Z.to_nat insize) l m l'.
Proof.
  induction fuel as [|fuel IH]; intros l nmerges out Hf Hi Hm Hlen Hr.
  all: destruct l as [|x l0]; [exists 0, []; cbn; rewrite app_nil_r, Z.add_0_r; split; [done|]; split; cbn; done || (try constructor; lia) || constructor|].
  { cbn in Hf. lia. }
  remember (x :: l0) as l eqn:El. assert (Hne : l <> []) by by subst.
  set (n := Z.to_nat insize) in *. assert (Hl1 : (1 <= length l)%nat) by (subst; cbn; lia).
  destruct (runs_parts n l ltac:(lia) Hr) as [_ Hr1]. destruct (runs_parts n _ ltac:(lia) Hr1) as [_ Hr2].
  destruct (IH (drop n (drop n l)) (nmerges + 1) (out ++ merged cmpfcn (take n l) (take n (drop n l)))) as (m & l' & E & Hok);
    [rewrite !length_drop; lia|done|lia|rewrite !length_drop; lia|done|].
  exists (m + 1), (merged cmpfcn (take n l) (take n (drop n l)) ++ l'). split; [|apply pass_step; done || lia].
  cbn [sort_pass]. rewrite El at 1. cbn match. fold n. rewrite find_q_run by (done || lia). rewrite Z.add_0_l.
  pose proof (pass_merge insize l out Hi Hne ltac:(lia)) as Em. cbn zeta in Em. fold n in Em. rewrite Em. cbn [mbind outcome_bind].
  unfold u32. rewrite Z.mod_small by lia. rewrite E. rewrite <- app_assoc. do 2 f_equal. lia.
Qed.

Lemma loop_run : forall fuel insize l, (0 < fuel)%nat -> 1 <= insize -> Z.of_nat (length l) <= insize * 2 ^ Z.of_nat fuel ->
  insize < 2 ^ 31 -> Z.of_nat (length l) <= 2 ^ 31 -> runs (Z.to_nat insize) l ->
  exists l', sort_loop cmpfcn fuel insize l = Ok l' /\ l' ≡ₚ l /\ ordered l' /\ forall k, alike k l' = alike k l.
Proof.
  induction fuel as [|fuel IH]; intros insize l Hf Hi Hl Hi2 Hlen Hr; [lia|]. cbn [sort_loop].
  destruct (pass_run insize (length l) l 0 []) as (m & l' & E & Hok); [done|lia|lia|lia|done|].
  rewrite E. cbn [mbind outcome_bind]. rewrite Z.add_0_l. cbn [app]. destruct Hok as [Hp Hru Ha Hc Hs Hla Hm].
  destruct (Z.leb_spec m 1) as [H|H]; [exists l'; auto|]. specialize (Hm H).
  rewrite Nat2Z.inj_succ, Z.pow_succ_r in Hl by lia. assert (Hfu : (0 < fuel)%nat) by (destruct fuel; [cbn in Hl; lia|lia]).
  unfold u32. rewrite Z.mod_small by lia.
  destruct (IH (insize * 2) l') as (l2 & E2 & Hp2 & Hs2 & Ha2); [done|lia|rewrite Hp; lia|lia|rewrite Hp; lia| |].
  { replace (Z.to_nat (insize * 2)) with (Z.to_nat insize + Z.to_nat insize)%nat by lia. done. }
  exists l2. split; [done|]. split; [by rewrite Hp2|]. split; [done|]. intros k. by rewrite Ha2.
Qed.

Lemma srt_run l : Z.of_nat (length l) <= 2 ^ 31 ->
  exists l', HASH_SRT cmpfcn l = Ok l' /\ l' ≡ₚ l /\ ordered l' /\ forall k, alike k l' = alike k l.
Proof.
  intros Hlen. unfold HASH_SRT. case_decide as E; [subst; exists []; split; [done|]; split; [done|]; split; [constructor|done]|].
  apply loop_run; [lia|lia| |lia|done|apply runs_one]. lia.
Qed.

(** [HASH_SRT] is a stable sort.  For every order of the elements and every list of up to
    two billion of them the macro ends and leaves the same elements, each not greater than
    the ones after it, and elements that are equal for the order as they were. *)
Theorem HASH_SRT_sorts l (Hlen : Z.of_nat (length l) <= 2 ^ 31) :
  exists l', HASH_SRT cmpfcn l = Ok l' /\ l' ≡ₚ l /\ ordered l' /\ forall k, alike k l' = alike k l.
Proof. by apply srt_run. Qed.
End sorted.

Lemma read_elts_all {V} (h : uthash V) ps : (forall p, p ∈ ps -> exists e, elts h !! p = Some e) ->
  (read_elts h ps).*1 = ps /\ (read_elts h ps).*2 = omap (fun p => payload <$> elts h !! p) ps.
Proof.
  induction ps as [|p ps IH]; intros H; [done|]. destruct (H p) as [e Ee]; [by left|]. unfold read_elts in *. cbn. rewrite Ee. cbn.
  destruct IH as [I1 I2]; [intros q Hq; apply H; by right|]. by rewrite I1, I2.
Qed.

(** [HASH_SORT] of a table: the table stays well formed, its elements are the same, and an iteration meets their values in
    the order of [cmpfcn]. *)
Lemma HASH_SORT_table {V} (cmpfcn : V -> V -> Z) (h : uthash V) (Hok : hash_ok h) (Hlen : Z.of_nat (length (HASH_ITER h)) <= 2 ^ 31)
    (Ho : cmp_order cmpfcn) :
  exists h', HASH_SORT cmpfcn h = Ok h' /\ hash_ok h' /\ elts h' = elts h /\ HASH_ITER h' ≡ₚ HASH_ITER h /\
    StronglySorted (le_cmp cmpfcn) (omap (fun p => payload <$> elts h' !! p) (HASH_ITER h')).
Proof.
  unfold HASH_SORT, HASH_ITER, hash_ok in *. destruct (tbl h) as [t|] eqn:Et; [|exists h; rewrite Et; repeat split; constructor].
  destruct (read_elts_all h (app_order t)) as [H1 _]; [intros p Hp; destruct (ok_elts _ _ Hok p Hp) as (e & ? & _); eauto|].
  assert (Hl : length (read_elts h (app_order t)) = length (app_order t)) by (rewrite <- H1 at 2; by rewrite length_fmap).
  rewrite decide_True by done.
  assert (Ho' : cmp_order (fun x y : ptr * V => cmpfcn x.2 y.2)).
  { split; [intros x y; apply (cmp_total _ Ho)|intros x y z; apply (cmp_trans _ Ho)]. }
  destruct (srt_run _ Ho' (read_elts h (app_order t))) as (l & -> & Hp & Hs & _); [by rewrite Hl|]. cbn [mbind outcome_bind].
  eexists. split; [reflexivity|]. cbn [tbl elts app_order].
  assert (Hp1 : l.*1 ≡ₚ app_order t) by by rewrite Hp, H1.
  assert (Hin : forall x, x ∈ l -> payload <$> elts h !! x.1 = Some x.2).
  { intros [p v] Hx. rewrite Hp in Hx. unfold read_elts in Hx. apply list_elem_of_omap in Hx as (q & _ & Hx).
    destruct (elts h !! q) as [e|] eqn:Ee; [|done]. injection Hx as <- <-. cbn. by rewrite Ee. }
  split; [|split; [done|split; [done|]]].
  - destruct Hok as [O1 O2 O3 O4 O5 O6 O7]. split; cbn; [by rewrite Hp1|intros p; rewrite Hp1; apply O2|by rewrite Hp1|done|done|done|by rewrite Hp1].
  - clear - Hs Hin. induction Hs as [|x l Hs IH Hx]; [constructor|]. cbn. rewrite (Hin x) by by left.
    constructor; [apply IH; intros y Hy; apply Hin; by right|]. apply Forall_forall. intros v (p & Hp & Hv)%list_elem_of_omap.
    apply list_elem_of_fmap in Hp as (y & -> & Hy). rewrite (Hin y) in Hv by by right. injection Hv as <-.
    rewrite Forall_forall in Hx. by apply (Hx y).
Qed.

(** * The hash functions *)

(** [HASH_BER] is the value of the key as a number in base 33. *)
Lemma HASH_BER_value key : HASH_BER key = u32 (foldl (fun v b => 33 * v + b) 0 key).
Proof.
  unfold HASH_BER. change 0 with (u32 0) at 1. generalize 0 as v. induction key as [|b key IH]; intros v; [done|].
  cbn [foldl]. rewrite <- IH. f_equal. unfold u32. rewrite Z.shiftl_mul_pow2 by lia. change (2 ^ 5) with 32.
  rewrite <- !Z.add_assoc, Zplus_mod_idemp_l. replace (v mod 2 ^ 32 * 32 + (v mod 2 ^ 32 + b)) with (33 * (v mod 2 ^ 32) + b) by lia.
  by rewrite <- Zplus_mod_idemp_l, Zmult_mod_idemp_r, Zplus_mod_idemp_l.
Qed.

(** The debugging hash of the store without a server is [HASH_OAT] when it gets the length of the key. *)
Lemma jenkins_is_OAT key : noop_jenkins_hash key (length key) = Ok (HASH_OAT key).
Proof.
  assert (H : forall rest pre h, key = pre ++ rest -> jenkins_loop (length rest) key (length pre) h = Ok (foldl oat_byte h rest)).
  { induction rest as [|b rest IH]; intros pre h E; [done|]. cbn [jenkins_loop length foldl].
    rewrite E, list_lookup_middle by done. rewrite <- E. specialize (IH (pre ++ [b]) (oat_byte h b)). rewrite length_app in IH. cbn [length] in IH.
    rewrite Nat.add_1_r in IH. apply IH. by rewrite <- app_assoc. }
  pose proof (H key [] 0 eq_refl) as E. cbn [length] in E. unfold noop_jenkins_hash. rewrite E. reflexivity.
Qed.

(** * A run *)

Definition by_first (x y : Z * Z) : Z := x.1 - y.1.
Lemma by_first_order : cmp_order by_first.
Proof. split; unfold le_cmp, by_first; intros; lia. Qed.

Lemma HASH_SRT_sorts_witness : HASH_SRT by_first [(5, 1); (2, 2); (5, 3); (1, 4); (2, 5)] = Ok [(1, 4); (2, 2); (2, 5); (5, 1); (5, 3)] /\
  StronglySorted (le_cmp by_first) [(1, 4); (2, 2); (2, 5); (5, 1); (5, 3)].
Proof.
  assert (E : HASH_SRT by_first [(5, 1); (2, 2); (5, 3); (1, 4); (2, 5)] = Ok [(1, 4); (2, 2); (2, 5); (5, 1); (5, 3)]) by (vm_compute; reflexivity).
  destruct (HASH_SRT_sorts by_first by_first_order [(5, 1); (2, 2); (5, 3); (1, 4); (2, 5)]) as (l & E' & _ & Hs & _); [cbn; lia|].
  rewrite E in E'. injection E' as <-. done.
Defined.
