(* ===== verification/Affinity.v ===== *)
(** The placement of the threads on processors, [include/affinity.h]: the monitor's own set of processors
    is read once, and each thread goes to the one with its number in that set.

    The number of processors and the answers of the system calls are arguments.  The build with
    [HWLOC] is not written yet in the source and is left out. *)
From S2P Require Import Prelude.

Definition CPU_SETSIZE : Z := 1024.

(** The thread goes on, or [handle_error_en] ends the program. *)
Inductive placing (A : Type) : Type := Placed (x : A) | Exits.
Arguments Placed {A} _.
Arguments Exits {A}.

Definition CPU_FOR_UI_THREAD : Z := 3.
Definition CPU_FOR_MAIN_THREAD : Z := 3.
Definition CPU_FOR_NEW_UFD_HANDLER_THREAD : Z := 3.
Definition CPU_FOR_REAPER_THREAD : Z := 3.
Definition CPU_FOR_POLLING_THREAD : Z := 1.
Definition CPU_FOR_PREFETCH_THREAD : Z := 4.
Definition CPU_FOR_WRITE_THREAD : Z := 2.
Definition CPU_FOR_REINIT_READPAGE_THREAD : Z := 4.
Definition CPU_FOR_REINIT_EVICTPAGE_THREAD : Z := 2.
Definition cpu_indices : list Z :=
  [CPU_FOR_UI_THREAD; CPU_FOR_MAIN_THREAD; CPU_FOR_NEW_UFD_HANDLER_THREAD; CPU_FOR_REAPER_THREAD; CPU_FOR_POLLING_THREAD;
   CPU_FOR_PREFETCH_THREAD; CPU_FOR_WRITE_THREAD; CPU_FOR_REINIT_READPAGE_THREAD; CPU_FOR_REINIT_EVICTPAGE_THREAD].

(** [CPU_SET] and [CPU_ISSET]: numbers past the end of the set are ignored. *)
Definition CPU_SET (j : Z) (cpuset : gset Z) : gset Z := if decide (0 <= j < CPU_SETSIZE) then {[j]} ∪ cpuset else cpuset.
Definition CPU_ISSET (j : Z) (cpuset : gset Z) : bool := bool_decide (0 <= j < CPU_SETSIZE /\ j ∈ cpuset).

(** The loop of [getNthInCpuSet] from [i] on, with [todo] processors to go. *)
Fixpoint nth_loop (todo : nat) (container_cpuset : gset Z) (n i count : Z) : Z :=
  match todo with
  | O => i
  | S todo =>
      let count := if CPU_ISSET i container_cpuset then count + 1 else count in
      if count >=? n then i else nth_loop todo container_cpuset n (i + 1) count
  end.
Definition getNthInCpuSet (nCores : Z) (container_cpuset : gset Z) (n : Z) : placing Z :=
  if n =? 0 then Exits else Placed (nth_loop (Z.to_nat nCores) container_cpuset n 0 0).

(** [setAffinity], for the answers of [pthread_setaffinity_np] to a set and of
    [pthread_getaffinity_np]; the result is the set of the thread. *)
Fixpoint cpu_range (start : Z) (len : nat) : gset Z :=
  match len with O => ∅ | S len => CPU_SET start (cpu_range (start + 1) len) end.
Definition setAffinity (set_affinity : gset Z -> Z) (get_affinity : Z) (start end_ : Z) : placing (gset Z) :=
  let cpuset := cpu_range start (Z.to_nat (end_ - start)) in
  if negb (set_affinity cpuset =? 0) then Exits
  else if negb (get_affinity =? 0) then Exits
  else Placed cpuset.

Definition setThreadCPUAffinity (ENABLE_AFFINITY : bool) (set_affinity : gset Z -> Z) (get_affinity nCores : Z) (container_cpuset : gset Z)
    (cpu_index : Z) : placing (option (gset Z)) :=
  if ENABLE_AFFINITY then
    match getNthInCpuSet nCores container_cpuset cpu_index with
    | Exits => Exits
    | Placed cpu =>
        match setAffinity set_affinity get_affinity cpu (cpu + 1) with Exits => Exits | Placed s => Placed (Some s) end
    end
  else Placed None.

(** [initTopology], for what [sched_getaffinity] answers. *)
Definition initTopology (getaffinity : Z) (own : gset Z) : placing (gset Z) :=
  if negb (getaffinity =? 0) then Exits else Placed own.

(** * Where a thread goes *)

(** The processors of the set among those with a number from [i] to [i + len - 1], in order. *)
Definition in_order (i : Z) (len : nat) (cpus : gset Z) : list Z := filter (fun j => CPU_ISSET j cpus = true) (seqZ i (Z.of_nat len)).

Lemma in_order_S i len cpus : in_order i (S len) cpus = (if CPU_ISSET i cpus then [i] else []) ++ in_order (i + 1) len cpus.
Proof.
  unfold in_order. rewrite (seqZ_cons i) by lia. replace (Z.pred (Z.of_nat (S len))) with (Z.of_nat len) by lia. rewrite <- Z.add_1_r.
  destruct (CPU_ISSET i cpus) eqn:E; [by rewrite filter_cons_True|]. rewrite filter_cons_False; [done|by rewrite E].
Qed.

Lemma nth_loop_ref len cpus n : forall i count, count < n ->
  nth_loop len cpus n i count = default (i + Z.of_nat len) (in_order i len cpus !! Z.to_nat (n - count - 1)).
Proof.
  induction len as [|len IH]; intros i count Hc; cbn [nth_loop].
  { unfold in_order. rewrite seqZ_nil, filter_nil, lookup_nil by lia. cbn. lia. }
  rewrite in_order_S.
  destruct (CPU_ISSET i cpus); cbn [app].
  - destruct (Z.geb_spec (count + 1) n) as [H|H].
    + by replace (Z.to_nat (n - count - 1)) with 0%nat by lia.
    + rewrite IH by lia. replace (Z.to_nat (n - count - 1)) with (S (Z.to_nat (n - (count + 1) - 1))) by lia. cbn. f_equal. lia.
  - destruct (Z.geb_spec count n); [lia|]. rewrite IH by lia. f_equal. lia.
Qed.

Lemma nth_is_ref nCores cpus n : 0 <= nCores -> 1 <= n ->
  getNthInCpuSet nCores cpus n = Placed (default nCores (in_order 0 (Z.to_nat nCores) cpus !! Z.to_nat (n - 1))).
Proof.
  intros Hc Hn. unfold getNthInCpuSet. replace (n =? 0) with false by lia. rewrite nth_loop_ref by lia.
  by replace (n - 0 - 1) with (n - 1) by lia; replace (0 + Z.of_nat (Z.to_nat nCores)) with nCores by lia.
Qed.

Lemma in_order_lookup nCores cpus k cpu : in_order 0 (Z.to_nat nCores) cpus !! k = Some cpu -> 0 <= cpu < nCores /\ CPU_ISSET cpu cpus = true.
Proof.
  intros H%list_elem_of_lookup_2. unfold in_order in H. apply list_elem_of_filter in H as [H [? ?]%elem_of_seqZ]. split; [lia|done].
Qed.

Section placement.
Context (nCores : Z) (cpus : gset Z) (set_affinity : gset Z -> Z).

(** What the kernel documents: a set is refused exactly when none of its processors is one the
    process may use. *)
Definition affinity_law : Prop := forall s, set_affinity s = 0 <-> exists j, j ∈ s /\ j ∈ cpus.

(** The monitor's threads and their processors.  A thread with the number [n] runs on the [n]-th processor of
    the set the monitor was started with, counted among the first [nCores]; and if the set has
    fewer than [n] of them there the program ends when the thread starts, unless the processor with
    the number [nCores] happens to be in the set. *)
Theorem thread_placed n (Hn : 1 <= n) (Hc : 0 <= nCores < CPU_SETSIZE) (Hs : affinity_law) :
  setThreadCPUAffinity true set_affinity 0 nCores cpus n =
    match in_order 0 (Z.to_nat nCores) cpus !! Z.to_nat (n - 1) with
    | Some cpu => Placed (Some {[cpu]})
    | None => if decide (nCores ∈ cpus) then Placed (Some {[nCores]}) else Exits
    end.
Proof.
  unfold setThreadCPUAffinity. rewrite nth_is_ref by lia.
  assert (Hset : forall cpu, 0 <= cpu < CPU_SETSIZE -> cpu_range cpu (Z.to_nat (cpu + 1 - cpu)) = {[cpu]}).
  { intros cpu H. replace (cpu + 1 - cpu) with 1 by lia. change (Z.to_nat 1) with 1%nat. cbn [cpu_range].
    unfold CPU_SET. rewrite decide_True by done. set_solver. }
  assert (Hrun : forall cpu, 0 <= cpu < CPU_SETSIZE -> setAffinity set_affinity 0 cpu (cpu + 1) = if decide (cpu ∈ cpus) then Placed {[cpu]} else Exits).
  { intros cpu H. unfold setAffinity. rewrite Hset by done. cbn [Z.eqb negb]. specialize (Hs {[cpu]}).
    destruct (Z.eqb_spec (set_affinity {[cpu]}) 0) as [E|E]; cbn [negb].
    - apply Hs in E as (j & ->%elem_of_singleton & Hj). by rewrite decide_True.
    - rewrite decide_False; [done|]. intros Hin. apply E, Hs. exists cpu. by rewrite elem_of_singleton. }
  destruct (in_order _ _ _ !! _) as [cpu|] eqn:E; cbn [from_option]; unfold id.
  - apply in_order_lookup in E as [Hr [_ Hi]%bool_decide_eq_true]. rewrite (Hrun cpu) by lia. by case_decide.
  - rewrite Hrun by lia. by case_decide.
Qed.
End placement.

(** Every thread of the monitor has a place when the set has four processors. *)
Lemma four_are_enough nCores cpus n : 0 <= nCores -> (4 <= length (in_order 0 (Z.to_nat nCores) cpus))%nat -> n ∈ cpu_indices ->
  exists cpu, getNthInCpuSet nCores cpus n = Placed cpu /\ cpu < nCores /\ CPU_ISSET cpu cpus = true.
Proof.
  intros Hc Hl Hn. assert (Hr : 1 <= n <= 4).
  { revert Hn. unfold cpu_indices. rewrite !elem_of_cons, elem_of_nil. vm_compute; intuition (subst; done). }
  destruct (lookup_lt_is_Some_2 (in_order 0 (Z.to_nat nCores) cpus) (Z.to_nat (n - 1))) as [cpu E]; [lia|].
  exists cpu. rewrite nth_is_ref, E by lia. apply in_order_lookup in E as [? ?]. split; [done|]. split; [lia|done].
Qed.

Definition kernel_affinity (own s : gset Z) : Z := if decide (s ∩ own = ∅) then 22 else 0.
Lemma kernel_affinity_law own : affinity_law own (kernel_affinity own).
Proof.
  intros s. unfold kernel_affinity. case_decide as E; [set_solver|]. split; [|done]. intros _.
  destruct (set_choose_L _ E) as [j Hj]. exists j. set_solver.
Qed.

Lemma thread_placed_witness : setThreadCPUAffinity true (kernel_affinity {[2; 5; 7]}) 0 8 {[2; 5; 7]} CPU_FOR_UI_THREAD = Placed (Some {[7]}) /\
  setThreadCPUAffinity true (kernel_affinity {[2; 5; 7]}) 0 8 {[2; 5; 7]} CPU_FOR_PREFETCH_THREAD = Exits.
Proof.
  split; (rewrite (thread_placed 8 {[2; 5; 7]} (kernel_affinity {[2; 5; 7]})); [|by vm_compute|by vm_compute|apply kernel_affinity_law]);
    vm_compute; reflexivity.
Defined.
