(* ===== verification/Os.v ===== *)
(** The operating system and the diagnostics the monitor is written against.

    [OS] is the interface to the kernel and the C allocator: the memory of the
    monitor process at page granularity, the pages resident in the regions
    registered with each userfault descriptor, and the system calls of the
    sources.  [OSLaws] states the documented behaviour of those calls that the
    theorems use; [SimOs] has a concrete kernel that satisfies the laws.

    [Dbg] models [include/dbg.h]: an error is reported by recording the first
    [errno] and raising [SIGINT]. *)
From S2P Require Import Prelude Config MonitorStats.

Definition ENOENT : Z := 2.
Definition ESRCH : Z := 3.
Definition EAGAIN : Z := 11.
Definition EBUSY : Z := 16.
Definition EEXIST : Z := 17.
Definition EINVAL : Z := 22.

(** Direction and flags of [UFFDIO_REMAP]. *)
Record remap_mode := RemapMode {
  DONTWAKE : bool;
  ALLOW_SRC_HOLES : bool;
  DIRECTION_IN : bool
}.

(** Result of a system call: the return value, and [errno] if it failed. *)
Record sysret := SysRet { rc : Z; sys_errno : Z }.

Class OS := {
  os : Type;
  (** The page resident at an address of a registered region. *)
  app_page : os -> Z -> Z -> option page;
  (** A page-sized buffer of the monitor process. *)
  buf_page : os -> ptr -> option page;
  (** The start of a block of the C heap. *)
  heap_block : os -> ptr -> bool;
  mmap_page : os -> ptr * os;
  munmap_page : ptr -> os -> sysret * os;
  malloc_page : os -> ptr * os;
  free_block : ptr -> os -> os;
  (** A store into a buffer. *)
  poke : ptr -> page -> os -> os;
  (** [UFFDIO_COPY]: result, the [copy] field, new state. *)
  uffdio_copy : Z -> Z -> ptr -> os -> (sysret * Z) * os;
  uffdio_zeropage : Z -> Z -> os -> sysret * os;
  (** [UFFDIO_REMAP] of one page: descriptor, mode, destination, source. *)
  uffdio_remap : Z -> remap_mode -> Z -> Z -> os -> sysret * os;
  uffdio_wake : Z -> Z -> Z -> os -> sysret * os;
  getpgid : Z -> os -> Z;
  (** The bytes of [/etc/machine-id], if it can be opened. *)
  machine_id : os -> option (list Z);
  gettimeofday : os -> timeval
}.

Section effects.
Context `{O : OS}.

(** Two states with the same region contents. *)
Definition same_app (o o' : os) : Prop := forall u a, app_page o' u a = app_page o u a.
(** The same monitor memory, but for the buffers of [ps]. *)
Definition same_buf_but (ps : gset ptr) (o o' : os) : Prop :=
  forall p, p ∉ ps -> buf_page o' p = buf_page o p /\ heap_block o' p = heap_block o p.
Definition same_buf (o o' : os) : Prop := same_buf_but ∅ o o'.
(** The same regions, but for one page. *)
Definition same_app_but (u a : Z) (o o' : os) : Prop :=
  forall u' a', (u', a') <> (u, a) -> app_page o' u' a' = app_page o u' a'.
End effects.

(** Documented behaviour of the calls. *)
Class OSLaws `(O : OS) : Prop := {
  failed_unmapped : forall o, buf_page o MAP_FAILED = None;
  mmap_fail : forall o p o', mmap_page o = (p, o') -> p = MAP_FAILED -> same_app o o' /\ same_buf o o';
  mmap_ok : forall o p o', mmap_page o = (p, o') -> p <> MAP_FAILED ->
    p <> NULL /\ buf_page o p = None /\ buf_page o' p = Some zero_page /\ heap_block o' p = false /\
    same_app o o' /\ same_buf_but {[p]} o o';
  munmap_app : forall p o r o', munmap_page p o = (r, o') -> same_app o o' /\ same_buf_but {[p]} o o';
  munmap_ok : forall p o r o', munmap_page p o = (r, o') -> rc r = 0 -> buf_page o' p = None;
  munmap_fail : forall p o r o', munmap_page p o = (r, o') -> rc r <> 0 -> same_buf o o';
  malloc_ok : forall o p o', malloc_page o = (p, o') -> p <> NULL ->
    buf_page o p = None /\ is_Some (buf_page o' p) /\ heap_block o' p = true /\
    same_app o o' /\ same_buf_but {[p]} o o';
  malloc_fail : forall o p o', malloc_page o = (p, o') -> p = NULL -> same_app o o' /\ same_buf o o';
  free_ok : forall p o, same_app o (free_block p o) /\ same_buf_but {[p]} o (free_block p o) /\
    buf_page (free_block p o) p = None /\ heap_block (free_block p o) p = false;
  poke_ok : forall p pg o, same_app o (poke p pg o) /\ same_buf_but {[p]} o (poke p pg o) /\
    heap_block (poke p pg o) p = heap_block o p /\
    (is_Some (buf_page o p) -> buf_page (poke p pg o) p = Some pg);
  copy_ok : forall u dst src o r c o' pg, uffdio_copy u dst src o = (r, c, o') -> rc r = 0 ->
    buf_page o src = Some pg ->
    app_page o u dst = None /\ app_page o' u dst = Some pg /\ same_app_but u dst o o' /\ same_buf o o';
  copy_fail : forall u dst src o r c o', uffdio_copy u dst src o = (r, c, o') -> rc r <> 0 ->
    same_app o o' /\ same_buf o o';
  (** The [copy] field then holds the negated error number. *)
  copy_field : forall u dst src o r c o', uffdio_copy u dst src o = (r, c, o') -> rc r <> 0 -> c < 0;
  zeropage_ok : forall u dst o r o', uffdio_zeropage u dst o = (r, o') -> rc r = 0 ->
    app_page o u dst = None /\ app_page o' u dst = Some zero_page /\ same_app_but u dst o o' /\
    same_buf o o';
  zeropage_fail : forall u dst o r o', uffdio_zeropage u dst o = (r, o') -> rc r <> 0 ->
    same_app o o' /\ same_buf o o';
  (** Moving a page out of a region; a hole leaves the destination untouched. *)
  remap_out_ok : forall u m dst src o r o', uffdio_remap u m dst src o = (r, o') -> rc r = 0 ->
    DIRECTION_IN m = false ->
    is_Some (buf_page o dst) /\ app_page o' u src = None /\ same_app_but u src o o' /\ same_buf_but {[dst]} o o' /\
    heap_block o' dst = heap_block o dst /\
    buf_page o' dst = match app_page o u src with Some pg => Some pg | None => buf_page o dst end;
  (** Moving a page into a region. *)
  remap_in_ok : forall u m dst src o r o' pg, uffdio_remap u m dst src o = (r, o') -> rc r = 0 ->
    DIRECTION_IN m = true -> buf_page o src = Some pg ->
    app_page o u dst = None /\ app_page o' u dst = Some pg /\ same_app_but u dst o o' /\
    same_buf_but {[src]} o o';
  remap_fail : forall u m dst src o r o', uffdio_remap u m dst src o = (r, o') -> rc r <> 0 ->
    same_app o o' /\ same_buf o o';
  (** Error numbers are between 1 and 4095. *)
  remap_errno : forall u m dst src o r o', uffdio_remap u m dst src o = (r, o') -> rc r <> 0 ->
    0 < sys_errno r < 4096;
  wake_ok : forall u a l o r o', uffdio_wake u a l o = (r, o') -> same_app o o' /\ same_buf o o'
}.

(** * Diagnostics *)

Record dbg := Dbg {
  errno : Z;
  return_val : Z;
  sigint : nat;                      (** [SIGINT]s raised so far *)
  exit_on_recoverable_error : Z
}.

Definition set_errno (e : Z) : M dbg unit :=
  mmod (fun d => Dbg e (return_val d) (sigint d) (exit_on_recoverable_error d)).

(** [exit_with_errno]: only the first error number is kept. *)
Definition exit_with_errno (errnum : Z) : M dbg unit :=
  mmod (fun d => Dbg (errno d) (if return_val d =? 0 then errnum else return_val d)
                   (S (sigint d)) (exit_on_recoverable_error d)).

Definition log_err : M dbg unit := d ← mget; exit_with_errno (errno d).
Definition log_recoverable_err : M dbg unit :=
  d ← mget; mwhen (exit_on_recoverable_error d =? 1) log_err.

(** What every component sees of the process: the kernel and memory, the error
    state and the statistics. *)
Record sys `{OS} := Sys { s_os : os; s_dbg : dbg; s_stats : MonitorStats }.
Arguments Sys {_} _ _ _.

Section sys.
Context `{O : OS} `{F : BuildFlags}.

Definition on_dbg {A} (m : M dbg A) : M sys A :=
  zoom s_dbg (fun d s => Sys (s_os s) d (s_stats s)) m.

Definition sys_log_err : M sys unit := on_dbg log_err.
Definition sys_log_recoverable_err : M sys unit := on_dbg log_recoverable_err.

Definition with_stats (f : MonitorStats -> MonitorStats) : M sys unit :=
  if MONITORSTATS then mmod (fun s => Sys (s_os s) (s_dbg s) (f (s_stats s))) else mret tt.

(** A system call: its effect on the kernel, and [errno] on failure. *)
Definition syscall {A} (f : os -> (sysret * A) * os) : M sys (Z * A) := fun s =>
  let '((r, a), o) := f (s_os s) in
  let d := s_dbg s in
  let d := if rc r =? 0 then d
           else Dbg (sys_errno r) (return_val d) (sigint d) (exit_on_recoverable_error d) in
  Ok ((rc r, a), Sys o d (s_stats s)).
Definition syscall0 (f : os -> sysret * os) : M sys Z :=
  '(r, _) ← syscall (fun o => let '(r, o) := f o in ((r, tt), o)); mret r.

(** [mmap] of one anonymous page; [malloc] and [free] of one page. *)
Definition sys_mmap : M sys ptr := fun s =>
  let '(p, o) := mmap_page (s_os s) in Ok (p, Sys o (s_dbg s) (s_stats s)).
Definition sys_munmap (p : ptr) : M sys Z := syscall0 (munmap_page p).
Definition sys_malloc : M sys ptr := fun s =>
  let '(p, o) := malloc_page (s_os s) in Ok (p, Sys o (s_dbg s) (s_stats s)).
(** [free(NULL)] does nothing; freeing anything but a live block is undefined. *)
Definition sys_free (p : ptr) : M sys unit := fun s =>
  if decide (p = NULL) then Ok (tt, s)
  else if heap_block (s_os s) p then Ok (tt, Sys (free_block p (s_os s)) (s_dbg s) (s_stats s))
  else UB UseAfterFree.
(** Reading and writing a whole page of the monitor's memory. *)
Definition sys_load (p : ptr) : M sys page := fun s =>
  match buf_page (s_os s) p with Some pg => Ok (pg, s) | None => UB OutOfBounds end.
Definition sys_store (p : ptr) (pg : page) : M sys unit := fun s =>
  match buf_page (s_os s) p with
  | Some _ => Ok (tt, Sys (poke p pg (s_os s)) (s_dbg s) (s_stats s))
  | None => UB OutOfBounds
  end.
End sys.
