(* ===== verification/TimingStats.v ===== *)
(** The latency measurements of the [TIMING] build, [lib/monitorstats/timingstats.h]: for each
    kind of operation a ring of samples in shared memory, with a running mean of the
    samples that were overwritten.

    Samples are binary32 and means binary64 numbers, computed with the operations of
    [SpecFloat].  A bucket's mutex protects one call of [store_bucket], which is one
    definition here.  The results of [ftok], [shmget] and [shmat] are arguments, and so is
    [qsort].  What is printed is a value, not a text. *)
From Stdlib Require Import SpecFloat.
From S2P Require Import Prelude MonitorStats Config Os.

Definition NUM_BUCKETS : nat := 26.
Definition MAX_BUCKET_SLOTS : Z := 8192.

Inductive BucketType : Set :=
| HANDLE_USERFAULT_COPY | HANDLE_USERFAULT_COPY_EVICT | HANDLE_USERFAULT_ZERO | HANDLE_USERFAULT_ZERO_EVICT
| HANDLE_USERFAULT_MOVE | HANDLE_USERFAULT_MOVE_EVICT | HANDLE_USERFAULT_ASYN_EVICT | HANDLE_USERFAULT_ALL
| EVICT_TO_EXTERNRAM | READ_FROM_EXTERNRAM | READ_PAGES | READ_PAGE | WRITE_PAGES | WRITE_PAGE
| UFFD_ZEROPAGE | UFFD_COPY | UFFD_REMAP | INSERT_LRU_CACHE_NODE | INSERT_PAGE_HASH_NODE | UPDATE_PAGE_CACHE
| READ_VIA_PAGE_CACHE | STORE_PAGES_IN_PAGE_CACHE | ZEROPAGE_COMPARE | KVREAD | KVWRITE | KVCOPY.

Definition all_buckets : list BucketType :=
  [HANDLE_USERFAULT_COPY; HANDLE_USERFAULT_COPY_EVICT; HANDLE_USERFAULT_ZERO; HANDLE_USERFAULT_ZERO_EVICT;
   HANDLE_USERFAULT_MOVE; HANDLE_USERFAULT_MOVE_EVICT; HANDLE_USERFAULT_ASYN_EVICT; HANDLE_USERFAULT_ALL;
   EVICT_TO_EXTERNRAM; READ_FROM_EXTERNRAM; READ_PAGES; READ_PAGE; WRITE_PAGES; WRITE_PAGE;
   UFFD_ZEROPAGE; UFFD_COPY; UFFD_REMAP; INSERT_LRU_CACHE_NODE; INSERT_PAGE_HASH_NODE; UPDATE_PAGE_CACHE;
   READ_VIA_PAGE_CACHE; STORE_PAGES_IN_PAGE_CACHE; ZEROPAGE_COMPARE; KVREAD; KVWRITE; KVCOPY].

#[export] Instance BucketType_eq_dec : EqDecision BucketType.
Proof. solve_decision. Defined.

(** The value of the enumeration constant. *)
Definition bucket_nr (b : BucketType) : nat :=
  match list_find (fun b' => b' = b) all_buckets with Some (i, _) => i | None => O end.

(** ** Numbers *)

Abbreviation float := spec_float (only parsing).
Abbreviation double := spec_float (only parsing).

(** Conversion to another precision, rounding to nearest. *)
Definition cast (prec emax : Z) (x : spec_float) : spec_float :=
  match x with S754_finite s m e => binary_round prec emax s m e | x => x end.
Definition to_float : spec_float -> spec_float := cast 24 128.
Definition to_double : spec_float -> spec_float := cast 53 1024.
Definition float_of_Z (z : Z) : spec_float := binary_normalize 24 128 z 0 false.
Definition double_add : spec_float -> spec_float -> spec_float := SFadd 53 1024.
Definition float_add : spec_float -> spec_float -> spec_float := SFadd 24 128.
Definition float_sub : spec_float -> spec_float -> spec_float := SFsub 24 128.
Definition float_div : spec_float -> spec_float -> spec_float := SFdiv 24 128.
Definition zero : spec_float := S754_zero false.

(** A finite number converted to an [int], towards zero. *)
Definition int_of_float (f : spec_float) : Z :=
  match f with
  | S754_finite sgn m e =>
      let a := if 0 <=? e then Z.pos m * 2 ^ e else Z.pos m / 2 ^ (- e) in if sgn then - a else a
  | _ => 0
  end.

(** [dbg.h], [stop_timing]: cycles of the clock as microseconds. *)
Definition elapsed (E S : Z) (cpu_freq_mhz : spec_float) : spec_float :=
  to_float (double_div (double_of_Z (u64 (E - S))) (to_double cpu_freq_mhz)).

(** ** The buckets *)

(** [values] is [None] for a null pointer. *)
Record TimingBucket := mkBucket {
  values : option (list spec_float);
  num_items : Z;
  overflow : Z;
  last_mean : spec_float
}.

Record timing := Timing {
  max_bucket_slots : Z;
  buckets_mask : Z;
  timing_buckets : list TimingBucket;
  reverse_buckets : list (option string)
}.

Definition set_buckets (bs : list TimingBucket) (t : timing) : timing :=
  Timing (max_bucket_slots t) (buckets_mask t) bs (reverse_buckets t).

(** [((1<<i) & buckets_mask) != 0] *)
Definition bucket_on (i : nat) (t : timing) : bool :=
  negb (Z.land (Z.shiftl 1 (Z.of_nat i)) (buckets_mask t) =? 0).

Definition get_bucket (i : nat) : M timing TimingBucket := fun t =>
  match timing_buckets t !! i with Some b => Ok (b, t) | None => UB OutOfBounds end.
Definition put_bucket (i : nat) (b : TimingBucket) : M timing unit :=
  mmod (fun t => set_buckets (<[i := b]> (timing_buckets t)) t).
Definition the_values (b : TimingBucket) : outcome (list spec_float) :=
  match values b with Some vs => Ok vs | None => UB NullDeref end.

Definition TimingStatsInitGlobals (t : timing) : timing :=
  Timing MAX_BUCKET_SLOTS (u32 (Z.shiftl 1 (Z.of_nat NUM_BUCKETS) - 1)) (timing_buckets t) (reverse_buckets t).

(** ** Start and end *)

(** Which of [ftok], [shmget] and [shmat] succeed for a region. *)
Record shm_ret := ShmRet { ftok_ok : bool; shmget_ok : bool; shmat_ok : bool }.

Abbreviation tds := (timing * dbg)%type (only parsing).
Definition on_timing {A} (m : M timing A) : M tds A := zoom fst (fun t s => (t, s.2)) m.
Definition t_log_err : M tds unit := zoom snd (fun d s => (s.1, d)) log_err.

(** Every call is tried although one before it has failed; writing through the result of a
    [shmat] that failed is undefined. *)
Definition attach (r : shm_ret) : M tds unit :=
  mwhen (negb (ftok_ok r)) t_log_err;;
  mwhen (negb (shmget_ok r)) t_log_err;;
  mwhen (negb (shmat_ok r)) t_log_err;;
  if shmat_ok r then mret tt else mub OutOfBounds.

Definition _TimingStatsAttachShm (rs : shm_ret * shm_ret) : M tds unit :=
  attach rs.1;;
  on_timing (mmod (set_buckets (replicate NUM_BUCKETS (mkBucket None 0 0 zero))));;
  attach rs.2;;
  on_timing (mmod (fun t => Timing (max_bucket_slots t) (buckets_mask t) (timing_buckets t) (replicate NUM_BUCKETS None))).

(** One name is spelled differently from its constant. *)
Definition bucket_name (b : BucketType) : string :=
  match b with
  | HANDLE_USERFAULT_COPY => "HANDLE_USERFAULT_COPY" | HANDLE_USERFAULT_COPY_EVICT => "HANDLE_USERFAULT_COPY_EVICT"
  | HANDLE_USERFAULT_ZERO => "HANDLE_USERFAULT_ZERO" | HANDLE_USERFAULT_ZERO_EVICT => "HANDLE_USERFAULT_ZERO_EVICT"
  | HANDLE_USERFAULT_MOVE => "HANDLE_USERFAULT_MOVE" | HANDLE_USERFAULT_MOVE_EVICT => "HANDLE_USERFAULT_MOVE_EVICT"
  | HANDLE_USERFAULT_ASYN_EVICT => "HANDLE_USERFAULT_ASYN_EVICT" | HANDLE_USERFAULT_ALL => "HANDLE_USERFAULT_ALL"
  | EVICT_TO_EXTERNRAM => "EVICT_TO_EXTENRAM" | READ_FROM_EXTERNRAM => "READ_FROM_EXTERNRAM"
  | READ_PAGES => "READ_PAGES" | READ_PAGE => "READ_PAGE" | WRITE_PAGES => "WRITE_PAGES" | WRITE_PAGE => "WRITE_PAGE"
  | UFFD_ZEROPAGE => "UFFD_ZEROPAGE" | UFFD_COPY => "UFFD_COPY" | UFFD_REMAP => "UFFD_REMAP"
  | INSERT_LRU_CACHE_NODE => "INSERT_LRU_CACHE_NODE" | INSERT_PAGE_HASH_NODE => "INSERT_PAGE_HASH_NODE"
  | UPDATE_PAGE_CACHE => "UPDATE_PAGE_CACHE" | READ_VIA_PAGE_CACHE => "READ_VIA_PAGE_CACHE"
  | STORE_PAGES_IN_PAGE_CACHE => "STORE_PAGES_IN_PAGE_CACHE" | ZEROPAGE_COMPARE => "ZEROPAGE_COMPARE"
  | KVREAD => "KVREAD" | KVWRITE => "KVWRITE" | KVCOPY => "KVCOPY"
  end%string.
Definition _TimingStatsInitReverseBuckets : M timing unit :=
  miter (fun b => mmod (fun t => Timing (max_bucket_slots t) (buckets_mask t) (timing_buckets t)
                                   (<[bucket_nr b := Some (bucket_name b)]> (reverse_buckets t)))) all_buckets.

Definition _InitBucket (r : shm_ret) (i : nat) : M tds unit :=
  attach r;;
  n ← mgets (fun s => max_bucket_slots s.1);
  on_timing (put_bucket i (mkBucket (Some (replicate (Z.to_nat n) zero)) 0 0 zero)).

Definition _TimingStatsInitBuckets (rs : nat -> shm_ret) : M tds unit :=
  miter (fun i => t ← mgets fst; if bucket_on i t then _InitBucket (rs i) i else mret tt) (seq 0 NUM_BUCKETS).

Definition TimingStatsInit (rs : shm_ret * shm_ret) (rs' : nat -> shm_ret) : M tds unit :=
  _TimingStatsAttachShm rs;;
  on_timing _TimingStatsInitReverseBuckets;;
  _TimingStatsInitBuckets rs'.

(** The names are freed and the regions removed. *)
Definition DestroyBuckets : M timing unit :=
  miter (fun i =>
    mmod (fun t => Timing (max_bucket_slots t) (buckets_mask t) (timing_buckets t) (<[i := None]> (reverse_buckets t)));;
    t ← mget;
    if bucket_on i t then b ← get_bucket i; put_bucket i (mkBucket None (num_items b) (overflow b) (last_mean b))
    else mret tt) (seq 0 NUM_BUCKETS);;
  mmod (fun t => Timing (max_bucket_slots t) (buckets_mask t) [] []).

(** ** A sample *)

(** The sum over the used part of the ring. *)
Definition StatsGetBucketSum (b : TimingBucket) : outcome spec_float :=
  match the_values b with
  | Ok vs => if decide (num_items b <= Z.of_nat (length vs))
             then Ok (foldl (fun sum v => double_add sum (to_double v)) zero (take (Z.to_nat (num_items b)) vs))
             else UB OutOfBounds
  | UB f => UB f
  | Blocked => Blocked
  end.

(** The ring is full: the mean takes in its samples, and it starts from the beginning. *)
Definition wrap_bucket (slots : Z) (b : TimingBucket) : outcome TimingBucket :=
  match StatsGetBucketSum b with
  | Ok current_sum =>
      let old_num_samples := u32 (overflow b * slots) in
      let lost := ((old_num_samples <? overflow b) && (old_num_samples <? slots))%bool in
      let old_num_samples := if lost then 0 else old_num_samples in
      let ov := if lost then 0 else overflow b in
      let mean := if lost then zero else last_mean b in
      let new_num_samples := u64 (old_num_samples + num_items b) in
      let mean := double_div (double_add (double_mul mean (double_of_Z old_num_samples)) current_sum) (double_of_Z new_num_samples) in
      (** [if (overflow++ != UINT32_MAX) overflow++] *)
      let ov' := u32 (ov + 1) in
      Ok (mkBucket (values b) 0 (if ov =? 2 ^ 32 - 1 then ov' else u32 (ov' + 1)) mean)
  | UB f => UB f
  | Blocked => Blocked
  end.

Definition store_bucket (bucket : BucketType) (v : spec_float) : M timing unit :=
  let i := bucket_nr bucket in
  t ← mget;
  if negb (bucket_on i t) then mret tt
  else
    b ← get_bucket i;
    b ← (if num_items b =? max_bucket_slots t then mlift (wrap_bucket (max_bucket_slots t) b) else mret b);
    vs ← mlift (the_values b);
    if decide (num_items b < Z.of_nat (length vs)) then
      put_bucket i (mkBucket (Some (<[Z.to_nat (num_items b) := v]> vs)) (u64 (num_items b + 1)) (overflow b) (last_mean b))
    else mub OutOfBounds.

(** ** Reading the buckets *)

Definition StatsGetBucketMean (slots : Z) (b : TimingBucket) : outcome spec_float :=
  match StatsGetBucketSum b with
  | Ok sum =>
      let old_num_samples := s32 (u32 (overflow b * slots)) in
      let new_num_samples := s32 (u64 (old_num_samples + num_items b)) in
      Ok (to_float (double_div (double_add (double_mul (last_mean b) (double_of_Z old_num_samples)) (to_double (to_float sum)))
                      (double_of_Z new_num_samples)))
  | UB f => UB f
  | Blocked => Blocked
  end.

Definition cmpfunc (a b : spec_float) : Z := int_of_float (float_sub a b).

(** Which part of a ring is shown: the index to start at and the number of items. *)
Definition shown (slots : Z) (b : TimingBucket) : option (Z * Z) :=
  if ((overflow b =? 0) && negb (num_items b =? 0))%bool then Some (0, u32 (num_items b))
  else if 0 <? overflow b then Some (u32 (num_items b), slots)
  else None.

(** The samples, from [start_item] on and then, if the ring has wrapped, from its
    beginning. *)
Definition StatsPrintSingleBucket (b : TimingBucket) (start_item max_item : Z) : outcome (list spec_float) :=
  match the_values b with
  | Ok vs =>
      if decide (max_item <= Z.of_nat (length vs)) then
        Ok (take (Z.to_nat (max_item - start_item)) (drop (Z.to_nat start_item) vs) ++
            (if 0 <? overflow b then take (Z.to_nat start_item) vs else []))
      else UB OutOfBounds
  | UB f => UB f
  | Blocked => Blocked
  end.

(** The order of the columns; the array has room for two more, which are zero. *)
Definition dump_order : list BucketType :=
  [ZEROPAGE_COMPARE; UPDATE_PAGE_CACHE; INSERT_PAGE_HASH_NODE; INSERT_LRU_CACHE_NODE; STORE_PAGES_IN_PAGE_CACHE;
   UFFD_ZEROPAGE; HANDLE_USERFAULT_ZERO; UFFD_REMAP; UFFD_COPY; READ_PAGE; READ_VIA_PAGE_CACHE;
   HANDLE_USERFAULT_COPY; HANDLE_USERFAULT_MOVE; WRITE_PAGE; EVICT_TO_EXTERNRAM; READ_FROM_EXTERNRAM;
   HANDLE_USERFAULT_COPY_EVICT; HANDLE_USERFAULT_MOVE_EVICT; HANDLE_USERFAULT_ASYN_EVICT;
   READ_PAGES; WRITE_PAGES; KVREAD; KVWRITE; KVCOPY].

(** Only the first nineteen are printed. *)
Definition dump_row (bt : BucketType) : M timing (list (list spec_float)) :=
  let i := bucket_nr bt in
  t ← mget;
  if negb (bucket_on i t) then mret []
  else
    b ← get_bucket i;
    match shown (max_bucket_slots t) b with
    | None => mret []
    | Some (start_item, max_item) => row ← mlift (StatsPrintSingleBucket b start_item max_item); mret [row]
    end.
Definition StatsDumpBuckets : M timing (list string * list (list spec_float)) :=
  let shown_buckets := take 19 dump_order in
  names ← mmapM (fun bt =>
    t ← mget;
    if negb (bucket_on (bucket_nr bt) t) then mret []
    else match reverse_buckets t !! bucket_nr bt with Some (Some s) => mret [s] | _ => mub NullDeref end) shown_buckets;
  rows ← mmapM dump_row shown_buckets;
  mret (concat names, concat rows).

Section sorting.
Context (qsort : (spec_float -> spec_float -> Z) -> list spec_float -> list spec_float).
(** The bytes of a number of which only some were cleared. *)
Context (clear_bytes : nat -> spec_float -> spec_float).

(** The array is sorted in place; the results are the median, the least and the
    greatest. *)
Definition StatsGetBucketMedian (vs : list spec_float) (length : Z) : outcome ((spec_float * spec_float * spec_float) * list spec_float) :=
  if decide (0 < length <= Z.of_nat (List.length vs)) then
    let a := qsort cmpfunc (take (Z.to_nat length) vs) in
    let at_ i := default zero (a !! Z.to_nat i) in
    let median := if length mod 2 =? 0 then float_div (float_add (at_ (length / 2 - 1)) (at_ (length / 2))) (float_of_Z 2)
                  else at_ ((length + 1) / 2 - 1) in
    Ok ((median, at_ 0, at_ (length - 1)), a ++ drop (Z.to_nat length) vs)
  else UB OutOfBounds.

(** One line for each bucket in use: its name, size, mean, median, least and greatest. *)
Definition print_bucket (bt : BucketType) : M timing (list (string * Z * (spec_float * spec_float * spec_float * spec_float))) :=
  let i := bucket_nr bt in
  t ← mget;
  if negb (bucket_on i t) then mret []
  else
    b ← get_bucket i;
    match shown (max_bucket_slots t) b with
    | None => mret []
    | Some (_, max_item) =>
        vs ← mlift (the_values b);
        '((median, lo, hi), vs) ← mlift (StatsGetBucketMedian vs max_item);
        let b := mkBucket (Some vs) (num_items b) (overflow b) (last_mean b) in
        put_bucket i b;;
        name ← match reverse_buckets t !! i with Some (Some s) => mret s | _ => mub NullDeref end;
        mean ← mlift (StatsGetBucketMean (max_bucket_slots t) b);
        mret [(name, max_item, (mean, median, lo, hi))]
    end.
Definition StatsPrintBuckets : M timing (list (string * Z * (spec_float * spec_float * spec_float * spec_float))) :=
  rows ← mmapM print_bucket all_buckets; mret (concat rows).

(** [memset(values, 0, max_bucket_slots)]: so many bytes, a quarter of the numbers. *)
Definition clear_prefix (bytes : Z) (vs : list spec_float) : list spec_float :=
  let n := Z.to_nat (bytes / 4) in
  let k := Z.to_nat (bytes mod 4) in
  replicate (Nat.min n (length vs)) zero ++
  match drop n vs with [] => [] | v :: vs => (if decide (k = O) then v else clear_bytes k v) :: vs end.
Definition StatsClearBuckets : M timing unit :=
  miter (fun i =>
    t ← mget;
    if bucket_on i t then
      b ← get_bucket i;
      vs ← mlift (the_values b);
      put_bucket i (mkBucket (Some (clear_prefix (max_bucket_slots t) vs)) 0 0 zero)
    else mret tt) (seq 0 NUM_BUCKETS).
End sorting.

(** * Every operation keeps the buckets well formed *)

Lemma bucket_nr_at b : all_buckets !! bucket_nr b = Some b.
Proof. by destruct b. Qed.
Lemma bucket_nr_inj b b' : bucket_nr b = bucket_nr b' -> b = b'.
Proof. intros E. pose proof (bucket_nr_at b) as H. rewrite E, bucket_nr_at in H. by injection H. Qed.
Lemma bucket_nr_lt b : (bucket_nr b < NUM_BUCKETS)%nat.
Proof. destruct b; by_decide. Qed.

Record bucket_wf (slots : Z) (b : TimingBucket) : Prop := {
  bw_values : exists vs, values b = Some vs /\ Z.of_nat (length vs) = slots;
  bw_items : 0 <= num_items b <= slots;
  bw_overflow : 0 <= overflow b < 2 ^ 32
}.

Record timing_wf (t : timing) : Prop := {
  tw_slots : 0 < max_bucket_slots t < 2 ^ 31;
  tw_length : length (timing_buckets t) = NUM_BUCKETS;
  tw_names : forall i, (i < NUM_BUCKETS)%nat -> exists s, reverse_buckets t !! i = Some (Some s);
  tw_buckets : forall i b, timing_buckets t !! i = Some b -> bucket_on i t = true -> bucket_wf (max_bucket_slots t) b
}.

(** What stays the same. *)
Definition same_setup (t t' : timing) : Prop :=
  max_bucket_slots t' = max_bucket_slots t /\ buckets_mask t' = buckets_mask t /\ reverse_buckets t' = reverse_buckets t.

(** [m] returns in every well-formed state, and the state after it is well formed. *)
Definition typed {A} (m : M timing A) : Prop :=
  forall t, timing_wf t -> exists x t', m t = Ok (x, t') /\ timing_wf t' /\ same_setup t t'.

Lemma same_setup_refl t : same_setup t t.
Proof. done. Qed.
Lemma same_setup_trans t1 t2 t3 : same_setup t1 t2 -> same_setup t2 t3 -> same_setup t1 t3.
Proof. intros (? & ? & ?) (? & ? & ?). repeat split; congruence. Qed.

Lemma typed_ret {A} (x : A) : typed (mret x).
Proof. intros t Ht. exists x, t. done. Qed.

Lemma typed_bind {A B} (m : M timing A) (k : A -> M timing B) : typed m -> (forall x, typed (k x)) -> typed (m ≫= k).
Proof.
  intros Hm Hk t Ht. destruct (Hm t Ht) as (x & t1 & E & Ht1 & Hs1). destruct (Hk x t1 Ht1) as (y & t2 & E2 & Ht2 & Hs2).
  exists y, t2. unfold mbind, M_bind. rewrite E. split; [done|]. split; [done|]. by eapply same_setup_trans.
Qed.

Lemma typed_iter {A} (f : A -> M timing unit) l : (forall x, x ∈ l -> typed (f x)) -> typed (miter f l).
Proof.
  induction l as [|x l IH]; intros H; [apply typed_ret|]. cbn [miter]. apply typed_bind; [apply H; by left|].
  intros _. apply IH. intros y Hy. apply H. by right.
Qed.
Lemma typed_mapM {A B} (f : A -> M timing B) l : (forall x, typed (f x)) -> typed (mmapM f l).
Proof.
  intros H. induction l as [|x l IH]; [apply typed_ret|]. cbn [mmapM]. apply typed_bind; [apply H|]. intros y.
  apply typed_bind; [exact IH|]. intros ys. apply typed_ret.
Qed.

Create HintDb timing discriminated.
#[local] Hint Resolve typed_ret typed_mapM same_setup_refl : timing.

(** The common shape: a bucket that is in use is looked at and replaced. *)
Definition on_bucket {A} (i : nat) (t : timing) (f : TimingBucket -> outcome (A * TimingBucket)) : outcome (A * timing) :=
  match timing_buckets t !! i with
  | Some b => match f b with
              | Ok (x, b') => Ok (x, set_buckets (<[i := b']> (timing_buckets t)) t)
              | UB e => UB e
              | Blocked => Blocked
              end
  | None => UB OutOfBounds
  end.

Lemma on_bucket_wf {A} i t (f : TimingBucket -> outcome (A * TimingBucket)) : timing_wf t -> (i < NUM_BUCKETS)%nat -> bucket_on i t = true ->
  (forall b, bucket_wf (max_bucket_slots t) b -> exists x b', f b = Ok (x, b') /\ bucket_wf (max_bucket_slots t) b') ->
  exists x t', on_bucket i t f = Ok (x, t') /\ timing_wf t' /\ same_setup t t'.
Proof.
  intros Ht Hi Hon Hf. destruct (lookup_lt_is_Some_2 (timing_buckets t) i) as [b Hb]; [by rewrite (tw_length t Ht)|].
  destruct (Hf b (tw_buckets t Ht i b Hb Hon)) as (x & b' & E & Hb'). unfold on_bucket. rewrite Hb, E. eexists _, _.
  split; [reflexivity|]. split; [|done]. destruct Ht as [H1 H2 H3 H4]. split; cbn.
  - done.
  - by rewrite length_insert.
  - done.
  - intros j b2 Hj Hon2. destruct (decide (j = i)) as [->|Hne].
    + rewrite list_lookup_insert_eq in Hj by (by rewrite H2). by injection Hj as <-.
    + rewrite list_lookup_insert_ne in Hj by done. by apply (H4 j).
Qed.

Lemma sum_ok slots b : bucket_wf slots b -> exists s, StatsGetBucketSum b = Ok s.
Proof.
  intros [(vs & Ev & Hl) Hn _]. unfold StatsGetBucketSum, the_values. rewrite Ev, decide_True by lia. by eexists.
Qed.

Lemma wrap_wf slots b : 0 < slots < 2 ^ 31 -> bucket_wf slots b -> exists b', wrap_bucket slots b = Ok b' /\ bucket_wf slots b' /\
  num_items b' = 0 /\ values b' = values b.
Proof.
  intros Hs Hb. destruct (sum_ok slots b Hb) as [s Es]. unfold wrap_bucket. rewrite Es. eexists. split; [reflexivity|].
  split; [|done]. destruct Hb as [Hv _ _]. split; cbn [values num_items overflow]; [done|lia|].
  assert (Hu : forall z, 0 <= u32 z < 2 ^ 32) by (intros z; apply Z.mod_pos_bound; lia). by case_match.
Qed.

(** The sample goes to the next slot. *)
Definition put_sample (slots : Z) (v : spec_float) (b : TimingBucket) : outcome (unit * TimingBucket) :=
  match (if num_items b =? slots then wrap_bucket slots b else Ok b) with
  | Ok b =>
      match the_values b with
      | Ok vs => if decide (num_items b < Z.of_nat (length vs)) then
                   Ok (tt, mkBucket (Some (<[Z.to_nat (num_items b) := v]> vs)) (u64 (num_items b + 1)) (overflow b) (last_mean b))
                 else UB OutOfBounds
      | UB f => UB f
      | Blocked => Blocked
      end
  | UB f => UB f
  | Blocked => Blocked
  end.

Lemma store_bucket_eq bt v t : store_bucket bt v t =
  if bucket_on (bucket_nr bt) t then on_bucket (bucket_nr bt) t (put_sample (max_bucket_slots t) v) else Ok (tt, t).
Proof.
  unfold store_bucket, on_bucket, put_sample, mbind, M_bind, mget, get_bucket. destruct (bucket_on _ t); [|done]. cbn [negb].
  destruct (timing_buckets t !! bucket_nr bt) as [b|]; [|done].
  destruct (num_items b =? max_bucket_slots t); unfold mlift, mret, M_ret.
  - destruct (wrap_bucket _ b) as [b'| |]; [|done|done]. destruct (the_values b'); [|done|done]. by case_decide.
  - destruct (the_values b); [|done|done]. by case_decide.
Qed.

Lemma put_sample_wf slots v b : 0 < slots < 2 ^ 31 -> bucket_wf slots b -> exists x b', put_sample slots v b = Ok (x, b') /\ bucket_wf slots b'.
Proof.
  intros Hs Hb. unfold put_sample.
  assert (Hw : exists b1, (if num_items b =? slots then wrap_bucket slots b else Ok b) = Ok b1 /\ bucket_wf slots b1 /\ num_items b1 < slots).
  { destruct (Z.eqb_spec (num_items b) slots) as [E|E].
    - destruct (wrap_wf slots b Hs Hb) as (b1 & -> & H1 & H2 & _). exists b1. split; [done|]. split; [done|lia].
    - exists b. split; [done|]. split; [done|]. pose proof (bw_items _ _ Hb). lia. }
  destruct Hw as (b1 & -> & [(vs & Ev & Hl) Hn Ho] & Hlt). unfold the_values. rewrite Ev, decide_True by lia.
  eexists _, _. split; [reflexivity|]. split; cbn [values num_items overflow]; [|unfold u64; rewrite Z.mod_small; lia|done].
  eexists. split; [reflexivity|]. by rewrite length_insert.
Qed.

Lemma store_bucket_typed bt v : typed (store_bucket bt v).
Proof.
  intros t Ht. rewrite store_bucket_eq. destruct (bucket_on _ t) eqn:Hon; [|by exists tt, t].
  apply on_bucket_wf; [done|apply bucket_nr_lt|done|]. intros b. apply put_sample_wf, Ht.
Qed.

Lemma typed_names bt : typed (t ← mget; if negb (bucket_on (bucket_nr bt) t) then mret []
    else match reverse_buckets t !! bucket_nr bt with Some (Some s) => mret [s] | _ => mub NullDeref end).
Proof.
  intros t Ht. unfold mbind, M_bind, mget. destruct (negb _); [by exists [], t|].
  destruct (tw_names t Ht (bucket_nr bt) (bucket_nr_lt bt)) as [s ->]. by exists [s], t.
Qed.

(** What is shown is inside the ring. *)
Lemma shown_range slots b : 0 < slots < 2 ^ 31 -> bucket_wf slots b -> forall start max_item, shown slots b = Some (start, max_item) ->
  0 <= start <= max_item /\ 0 < max_item <= slots.
Proof.
  intros Hs [_ Hn Ho] start max_item. unfold shown, u32. rewrite Z.mod_small by lia.
  destruct (Z.eqb_spec (overflow b) 0), (Z.eqb_spec (num_items b) 0), (Z.ltb_spec 0 (overflow b)); cbn [andb negb]; intros E; simplify_eq; lia.
Qed.

Lemma dump_row_typed bt : typed (dump_row bt).
Proof.
  intros t Ht. unfold dump_row, mbind, M_bind, mget, get_bucket. destruct (bucket_on _ t) eqn:Hon; [|by exists [], t]. cbn [negb].
  destruct (lookup_lt_is_Some_2 (timing_buckets t) (bucket_nr bt)) as [b Hb]; [rewrite (tw_length t Ht); apply bucket_nr_lt|]. rewrite Hb.
  pose proof (tw_buckets t Ht _ b Hb Hon) as Hbw. destruct (shown _ b) as [[start max_item]|] eqn:E; [|by exists [], t].
  pose proof (shown_range _ b (tw_slots t Ht) Hbw _ _ E). destruct Hbw as [(vs & Ev & Hl) _ _].
  unfold mlift, StatsPrintSingleBucket, the_values. rewrite Ev, decide_True by lia. by eexists _, t.
Qed.

Lemma StatsDumpBuckets_typed : typed StatsDumpBuckets.
Proof.
  unfold StatsDumpBuckets. apply typed_bind; [apply typed_mapM, typed_names|]. intros names.
  apply typed_bind; [apply typed_mapM, dump_row_typed|]. intros rows. apply typed_ret.
Qed.

Section sorted.
Context (qsort : (spec_float -> spec_float -> Z) -> list spec_float -> list spec_float) (clear_bytes : nat -> spec_float -> spec_float).
(** [qsort] puts the elements of the array into another order. *)
Context (qsort_perm : forall cmp l, Permutation (qsort cmp l) l).

Lemma median_ok slots vs n : Z.of_nat (length vs) = slots -> 0 < n <= slots ->
  exists r vs', StatsGetBucketMedian qsort vs n = Ok (r, vs') /\ Z.of_nat (length vs') = slots.
Proof.
  intros Hl Hn. unfold StatsGetBucketMedian. rewrite decide_True by lia. eexists _, _. split; [reflexivity|].
  rewrite length_app, (Permutation_length (qsort_perm _ _)), length_take, length_drop. lia.
Qed.

Lemma print_bucket_typed bt : typed (print_bucket qsort bt).
Proof.
  intros t Ht. unfold print_bucket, mbind at 1, M_bind at 1, mget. destruct (bucket_on (bucket_nr bt) t) eqn:Hon; [|by exists [], t]. cbn [negb].
  pose proof (on_bucket_wf (bucket_nr bt) t (fun b => match shown (max_bucket_slots t) b with None => Ok ([], b) | Some (_, max_item) =>
    match the_values b with Ok vs => match StatsGetBucketMedian qsort vs max_item with Ok ((median, lo, hi), vs) =>
      let b := mkBucket (Some vs) (num_items b) (overflow b) (last_mean b) in
      match reverse_buckets t !! bucket_nr bt with Some (Some s) =>
        match StatsGetBucketMean (max_bucket_slots t) b with Ok mean => Ok ([(s, max_item, (mean, median, lo, hi))], b) | UB f => UB f | Blocked => Blocked end
      | _ => UB NullDeref end
      | UB f => UB f | Blocked => Blocked end | UB f => UB f | Blocked => Blocked end end) Ht (bucket_nr_lt bt) Hon) as H.
  destruct H as (x & t' & E & Ht' & Hs').
  { intros b Hb. destruct (shown _ b) as [[start max_item]|] eqn:Es; [|by eexists _, b].
    pose proof (shown_range _ b (tw_slots t Ht) Hb _ _ Es) as [_ Hr]. destruct Hb as [(vs & Ev & Hl) Hn Ho]. unfold the_values. rewrite Ev.
    destruct (median_ok _ vs max_item Hl Hr) as ([[median lo] hi] & vs' & -> & Hl').
    destruct (tw_names t Ht (bucket_nr bt) (bucket_nr_lt bt)) as [s ->].
    assert (Hb' : bucket_wf (max_bucket_slots t) (mkBucket (Some vs') (num_items b) (overflow b) (last_mean b))) by (split; cbn; [by exists vs'|done|done]).
    destruct (sum_ok _ _ Hb') as [sm Esm]. unfold StatsGetBucketMean. cbv zeta. rewrite Esm. by eexists _, _. }
  exists x, t'. split; [|done]. rewrite <- E. unfold on_bucket, get_bucket, mbind, M_bind.
  destruct (timing_buckets t !! bucket_nr bt) as [b|] eqn:Eb; [|done].
  destruct (shown (max_bucket_slots t) b) as [[start max_item]|].
  2:{ rewrite list_insert_id by done. by destruct t. }
  unfold mlift. destruct (the_values b) as [vs| |]; [|done|done].
  destruct (StatsGetBucketMedian qsort vs max_item) as [[[[median lo] hi] vs']| |]; [|done|done]. unfold put_bucket, mmod.
  destruct (reverse_buckets t !! bucket_nr bt) as [[s|]|]; [|done|done]. unfold mret, M_ret. by destruct (StatsGetBucketMean _ _).
Qed.

Lemma length_clear_prefix n vs : 0 <= n -> n <= Z.of_nat (length vs) -> length (clear_prefix clear_bytes n vs) = length vs.
Proof.
  intros H0 Hn. unfold clear_prefix. rewrite length_app, length_replicate.
  pose proof (Z.div_le_upper_bound n 4 n ltac:(lia) ltac:(lia)). pose proof (Z.div_pos n 4 H0 ltac:(lia)).
  assert (Hd : length (match drop (Z.to_nat (n / 4)) vs with [] => [] | v :: vs0 => (if decide (Z.to_nat (n mod 4) = O) then v else clear_bytes (Z.to_nat (n mod 4)) v) :: vs0 end)
    = length (drop (Z.to_nat (n / 4)) vs)) by (by destruct (drop _ vs)).
  rewrite Hd, length_drop. lia.
Qed.

Lemma StatsClearBuckets_typed : typed (StatsClearBuckets clear_bytes).
Proof.
  apply typed_iter. intros i Hi t Ht. apply elem_of_seq in Hi as [_ Hi]. unfold mbind at 1, M_bind at 1, mget.
  destruct (bucket_on i t) eqn:Hon; [|by exists tt, t].
  destruct (on_bucket_wf i t (fun b => match the_values b with Ok vs => Ok (tt, mkBucket (Some (clear_prefix clear_bytes (max_bucket_slots t) vs)) 0 0 zero)
    | UB f => UB f | Blocked => Blocked end) Ht ltac:(lia) Hon) as (x & t' & E & Ht' & Hs').
  { intros b [(vs & Ev & Hl) Hn Ho]. unfold the_values. rewrite Ev. pose proof (tw_slots t Ht). eexists _, _. split; [reflexivity|].
    split; cbn; [|lia|lia]. eexists. split; [reflexivity|]. rewrite length_clear_prefix by lia. done. }
  exists x, t'. split; [|done]. rewrite <- E. unfold on_bucket, mbind, M_bind, get_bucket, mlift, put_bucket, mmod.
  destruct (timing_buckets t !! i) as [b|]; [|done]. by destruct (the_values b).
Qed.

(** ** Any use of the buckets *)

Inductive timing_op : Type := Store (bt : BucketType) (v : spec_float) | Clear | PrintAll | Dump.
Definition run_op (o : timing_op) : M timing unit :=
  match o with
  | Store bt v => store_bucket bt v
  | Clear => StatsClearBuckets clear_bytes
  | PrintAll => StatsPrintBuckets qsort;; mret tt
  | Dump => StatsDumpBuckets;; mret tt
  end.

Lemma run_op_typed o : typed (run_op o).
Proof.
  destruct o as [bt v| | |]; cbn [run_op].
  - apply store_bucket_typed.
  - apply StatsClearBuckets_typed.
  - apply typed_bind; [|intros _; apply typed_ret]. unfold StatsPrintBuckets. apply typed_bind; [|intros rows; apply typed_ret].
    apply typed_mapM, print_bucket_typed.
  - apply typed_bind; [apply StatsDumpBuckets_typed|]. intros _. apply typed_ret.
Qed.
End sorted.

(** ** The start *)

Definition shm_fine (r : shm_ret) : Prop := ftok_ok r = true /\ shmget_ok r = true /\ shmat_ok r = true.
Lemma attach_fine r s : shm_fine r -> attach r s = Ok (tt, s).
Proof. intros (H1 & H2 & H3). unfold attach. rewrite H1, H2, H3. done. Qed.

Definition fresh_bucket (slots : Z) : TimingBucket := mkBucket (Some (replicate (Z.to_nat slots) zero)) 0 0 zero.

Lemma init_reverse_run m k bs : _TimingStatsInitReverseBuckets (Timing m k bs (replicate NUM_BUCKETS None)) =
  Ok (tt, Timing m k bs ((fun b => Some (bucket_name b)) <$> all_buckets)).
Proof. reflexivity. Qed.

Lemma init_loop_run rs d l : (forall i, shm_fine (rs i)) -> forall t, (forall i, i ∈ l -> (i < length (timing_buckets t))%nat) ->
  exists t', miter (fun i => t ← mgets fst; if bucket_on i t then _InitBucket (rs i) i else mret tt) l (t, d) = Ok (tt, (t', d)) /\
    same_setup t t' /\ length (timing_buckets t') = length (timing_buckets t) /\
    forall j, timing_buckets t' !! j = if decide (j ∈ l /\ bucket_on j t = true) then Some (fresh_bucket (max_bucket_slots t)) else timing_buckets t !! j.
Proof.
  intros Hrs. induction l as [|i l IH]; intros t Hl.
  - exists t. split; [done|]. split; [done|]. split; [done|]. intros j. rewrite decide_False; [done|]. by intros [?%elem_of_nil _].
  - cbn [miter]. unfold mbind at 1, M_bind at 1, mbind at 1, M_bind at 1, mgets at 1. cbn [fst].
    set (t1 := if bucket_on i t then set_buckets (<[i := fresh_bucket (max_bucket_slots t)]> (timing_buckets t)) t else t).
    assert (E1 : (if bucket_on i t then _InitBucket (rs i) i else mret tt) (t, d) = Ok (tt, (t1, d))).
    { unfold t1. destruct (bucket_on i t); [|done]. unfold _InitBucket, mbind at 1, M_bind at 1. rewrite attach_fine by apply Hrs. done. }
    rewrite E1. assert (Hs1 : same_setup t t1) by (unfold t1; by destruct (bucket_on i t)).
    assert (Hlen1 : length (timing_buckets t1) = length (timing_buckets t)) by (unfold t1; destruct (bucket_on i t); [apply length_insert|done]).
    destruct (IH t1) as (t' & E & Hs & Hlen & Hj); [intros j Hj'; rewrite Hlen1; apply Hl; by right|].
    exists t'. split; [exact E|]. split; [by eapply same_setup_trans|]. split; [congruence|]. intros j. rewrite Hj.
    destruct Hs1 as (S1 & S2 & S3). assert (Hon : forall k, bucket_on k t1 = bucket_on k t) by (intros k; unfold bucket_on; by rewrite S2).
    rewrite Hon, S1. destruct (decide (j ∈ l /\ bucket_on j t = true)) as [[Hjl Hjo]|Hn].
    { by rewrite decide_True by (split; [by right|done]). }
    destruct (decide (j = i)) as [->|Hne].
    + unfold t1. destruct (bucket_on i t) eqn:Hoi.
      * rewrite decide_True by (split; [by left|done]). cbn. apply list_lookup_insert_eq, Hl. by left.
      * by rewrite decide_False by (intros [_ ?]; done).
    + rewrite decide_False by (intros [[?|?]%elem_of_cons ?]; [done|by apply Hn]).
      unfold t1. destruct (bucket_on i t); [|done]. cbn. by rewrite list_lookup_insert_ne.
Qed.

(** After a start that succeeds every bucket in use is empty. *)
Lemma TimingStatsInit_run rs rs' t d : shm_fine rs.1 -> shm_fine rs.2 -> (forall i, shm_fine (rs' i)) ->
  0 < max_bucket_slots t < 2 ^ 31 ->
  exists t', TimingStatsInit rs rs' (t, d) = Ok (tt, (t', d)) /\ timing_wf t' /\
    same_setup (Timing (max_bucket_slots t) (buckets_mask t) [] ((fun b => Some (bucket_name b)) <$> all_buckets)) t' /\
    (forall i, (i < NUM_BUCKETS)%nat -> bucket_on i t = true -> timing_buckets t' !! i = Some (fresh_bucket (max_bucket_slots t))).
Proof.
  intros H1 H2 H3 Hs. set (t1 := Timing (max_bucket_slots t) (buckets_mask t) (replicate NUM_BUCKETS (mkBucket None 0 0 zero))
    ((fun b => Some (bucket_name b)) <$> all_buckets)).
  destruct (init_loop_run rs' d (seq 0 NUM_BUCKETS) H3 t1) as (t' & E & Hsm & Hlen & Hj).
  { intros i [_ Hi]%elem_of_seq. exact Hi. }
  exists t'. split.
  { unfold TimingStatsInit, _TimingStatsAttachShm, mbind, M_bind, on_timing, zoom, mmod. rewrite attach_fine by done. cbn [fst snd].
    rewrite attach_fine by done. cbn [fst snd set_buckets max_bucket_slots buckets_mask timing_buckets reverse_buckets].
    rewrite init_reverse_run. exact E. }
  destruct Hsm as (S1 & S2 & S3). assert (Hon : forall k, bucket_on k t' = bucket_on k t) by (intros k; unfold bucket_on; by rewrite S2).
  assert (Hon1 : forall k, bucket_on k t1 = bucket_on k t) by done.
  split; [|split; [done|]].
  - split.
    + rewrite S1. done.
    + exact Hlen.
    + intros i Hi. rewrite S3. cbn [reverse_buckets t1]. rewrite list_lookup_fmap.
      destruct (lookup_lt_is_Some_2 all_buckets i Hi) as [b ->]. by eexists.
    + intros i b Hb Ho. rewrite S1. pose proof (lookup_lt_Some _ _ _ Hb) as Hi. rewrite Hj, decide_True in Hb.
      * injection Hb as <-. split; cbn; [|lia|lia]. eexists. split; [reflexivity|]. rewrite length_replicate. lia.
      * rewrite Hon in Ho. split; [|by rewrite Hon1]. apply elem_of_seq. split; [lia|]. rewrite Hlen in Hi. exact Hi.
  - intros i Hi Ho. rewrite Hj, decide_True; [done|]. split; [|done]. apply elem_of_seq. lia.
Qed.


Definition shm_good : shm_ret := ShmRet true true true.


(** ** What the dump shows *)

(** The last [n] elements of a list. *)
Definition lastn {A} (n : nat) (xs : list A) : list A := drop (length xs - n) xs.

Definition samples (bt : BucketType) (l : list (BucketType * spec_float)) : list spec_float :=
  (filter (fun p => p.1 = bt) l).*2.

Lemma tail_of_drop {A} n (xs : list A) : tail (drop n xs) = drop (S n) xs.
Proof. revert xs. induction n as [|n IH]; intros [|x xs]; try done. cbn. apply IH. Qed.
Lemma lastn_snoc {A} n (xs : list A) x : (0 < n)%nat -> (n <= length xs)%nat -> lastn n (xs ++ [x]) = tail (lastn n xs) ++ [x].
Proof.
  intros Hn Hl. unfold lastn. rewrite length_app. cbn [length]. rewrite drop_app_le by lia. f_equal.
  rewrite tail_of_drop. f_equal. lia.
Qed.

(** [b] has been given the samples [xs]: it holds them all, or it has wrapped around and holds the last. *)
Record ring (slots : Z) (xs : list spec_float) (b : TimingBucket) : Prop := {
  ring_overflow : 0 <= overflow b <= 2 * Z.of_nat (length xs);
  ring_values : exists vs, values b = Some vs /\ Z.of_nat (length vs) = slots /\
    ((overflow b = 0 /\ num_items b = Z.of_nat (length xs) /\ Z.of_nat (length xs) <= slots /\ take (length xs) vs = xs) \/
     (0 < overflow b /\ 0 <= num_items b <= slots /\ slots <= Z.of_nat (length xs) /\
      drop (Z.to_nat (num_items b)) vs ++ take (Z.to_nat (num_items b)) vs = lastn (Z.to_nat slots) xs))
}.

Lemma fresh_ring slots : 0 < slots -> ring slots [] (fresh_bucket slots).
Proof.
  intros Hs. split; cbn; [lia|]. eexists. split; [reflexivity|]. rewrite length_replicate. split; [lia|]. left. split; [done|]. split; [done|]. split; [lia|done].
Qed.

Lemma wrap_ring slots xs b b' : 0 < slots < 2 ^ 31 -> Z.of_nat (length xs) + 1 < 2 ^ 31 -> ring slots xs b -> num_items b = slots ->
  wrap_bucket slots b = Ok b' -> num_items b' = 0 /\ 0 < overflow b' <= 2 * Z.of_nat (length xs) + 2 /\ values b' = values b.
Proof.
  intros Hs Hx [Ho _] Hn E. unfold wrap_bucket in E. destruct (StatsGetBucketSum b) as [sum| |]; [|done|done]. injection E as <-.
  cbn [num_items overflow values]. split; [done|]. split; [|done].
  set (lost := (_ && _)%bool). destruct lost.
  - change (0 < 2 <= 2 * Z.of_nat (length xs) + 2). lia.
  - rewrite (proj2 (Z.eqb_neq (overflow b) (2 ^ 32 - 1))) by lia. unfold u32. rewrite (Z.mod_small (overflow b + 1)), Z.mod_small by lia. lia.
Qed.

Lemma ring_put slots n (vs : list spec_float) v xs : (n < length vs)%nat -> Z.of_nat (length vs) = slots -> slots <= Z.of_nat (length xs) ->
  drop n vs ++ take n vs = lastn (Z.to_nat slots) xs ->
  drop (S n) (<[n := v]> vs) ++ take (S n) (<[n := v]> vs) = lastn (Z.to_nat slots) (xs ++ [v]).
Proof.
  intros Hn Hl Hx E. rewrite lastn_snoc by lia. rewrite <- E. rewrite drop_insert_lt by lia.
  rewrite (take_S_r _ n v) by (by apply list_lookup_insert_eq). rewrite take_insert_ge by lia.
  destruct (lookup_lt_is_Some_2 vs n Hn) as [w Hw]. rewrite (drop_S vs w n Hw). cbn [app tail]. by rewrite app_assoc.
Qed.

Lemma put_sample_ring slots xs b v : 0 < slots < 2 ^ 31 -> Z.of_nat (length xs) + 1 < 2 ^ 31 -> ring slots xs b ->
  exists b', put_sample slots v b = Ok (tt, b') /\ ring slots (xs ++ [v]) b'.
Proof.
  intros Hs Hx Hr. assert (Hlen : Z.of_nat (length (xs ++ [v])) = Z.of_nat (length xs) + 1) by (rewrite length_app; cbn; lia).
  pose proof Hr as [Ho (vs & Ev & Hl & Hc)]. unfold put_sample. destruct (Z.eqb_spec (num_items b) slots) as [En|En].
  - destruct (wrap_bucket slots b) as [b1| |] eqn:Ew;
      [|exfalso; unfold wrap_bucket, StatsGetBucketSum, the_values in Ew; rewrite Ev, decide_True in Ew by lia; done..].
    destruct (wrap_ring _ _ _ _ Hs Hx Hr En Ew) as (E1 & E2 & E3). unfold the_values. rewrite E3, Ev, E1, decide_True by lia.
    eexists. split; [reflexivity|]. split; cbn [overflow num_items values]; [lia|]. eexists. split; [reflexivity|].
    rewrite length_insert. split; [done|]. right. split; [lia|]. split; [by change (u64 (0 + 1)) with 1; lia|].
    assert (Hxs : slots <= Z.of_nat (length xs)) by (destruct Hc as [(_ & H & _)|(_ & _ & H & _)]; lia). split; [lia|].
    change (Z.to_nat (u64 (0 + 1))) with 1%nat. apply ring_put; [cbn; lia|done|done|].
    rewrite drop_0, take_0, app_nil_r. destruct Hc as [(_ & Hn & _ & Ht)|(_ & _ & _ & Ht)].
    + unfold lastn. replace (length xs - Z.to_nat slots)%nat with O by lia. rewrite drop_0. rewrite take_ge in Ht by lia. done.
    + rewrite En, drop_ge, take_ge in Ht by lia. done.
  - assert (Hn : 0 <= num_items b < slots) by (destruct Hc as [(_ & H & H' & _)|(_ & H & _)]; lia).
    unfold the_values. rewrite Ev, decide_True by lia. eexists. split; [reflexivity|].
    assert (Eu : u64 (num_items b + 1) = num_items b + 1) by (unfold u64; rewrite Z.mod_small; lia).
    split; cbn [overflow num_items values]; [lia|]. rewrite Eu. eexists. split; [reflexivity|]. rewrite length_insert. split; [done|].
    destruct Hc as [(H0 & Hn' & H1 & Ht)|(H0 & _ & H1 & Ht)]; [left|right]; (split; [done|]); (split; [lia|]); (split; [lia|]).
    + rewrite length_app. cbn [length]. replace (length xs + 1)%nat with (S (length xs)) by lia. rewrite Hn', Nat2Z.id.
      rewrite (take_S_r _ _ v) by (apply list_lookup_insert_eq; lia). rewrite take_insert_ge by lia. by rewrite Ht.
    + replace (Z.to_nat (num_items b + 1)) with (S (Z.to_nat (num_items b))) by lia. apply ring_put; [lia|done|done|done].
Qed.

(** The samples since the buckets were last cleared. *)
Definition history (ops : list timing_op) : list (BucketType * spec_float) :=
  foldl (fun h o => match o with Store bt v => h ++ [(bt, v)] | Clear => [] | _ => h end) [] ops.

Lemma samples_snoc bt h bt' v : samples bt (h ++ [(bt', v)]) = samples bt h ++ (if decide (bt' = bt) then [v] else []).
Proof. unfold samples. rewrite filter_app, fmap_app. f_equal. rewrite filter_cons. cbn. by case_decide. Qed.
Lemma length_samples bt h : (length (samples bt h) <= length h)%nat.
Proof. unfold samples. rewrite length_fmap. apply length_filter. Qed.

Record rings (h : list (BucketType * spec_float)) (t : timing) : Prop := {
  rings_wf : timing_wf t;
  rings_at : forall bt, bucket_on (bucket_nr bt) t = true ->
    exists b, timing_buckets t !! bucket_nr bt = Some b /\ ring (max_bucket_slots t) (samples bt h) b
}.

Lemma store_rings h t bt v : rings h t -> Z.of_nat (length h) + 1 < 2 ^ 31 ->
  exists t', store_bucket bt v t = Ok (tt, t') /\ rings (h ++ [(bt, v)]) t' /\ same_setup t t'.
Proof.
  intros [Hw Hr] Hh. destruct (store_bucket_typed bt v t Hw) as ([] & t' & E & Hw' & Hs). exists t'. split; [done|]. split; [|done].
  split; [done|]. intros bt' Hon'. destruct Hs as (S1 & S2 & _).
  assert (Hon : bucket_on (bucket_nr bt') t = true) by (unfold bucket_on in *; by rewrite <- S2). rewrite samples_snoc, S1.
  destruct (Hr bt' Hon) as (b & Hb & Hring). rewrite store_bucket_eq in E.
  destruct (bucket_on (bucket_nr bt) t) eqn:Ho.
  2:{ injection E as <-. rewrite decide_False, app_nil_r by (intros ->; congruence). by exists b. }
  unfold on_bucket in E. destruct (decide (bt = bt')) as [<-|Hne].
  - rewrite Hb in E. pose proof (length_samples bt h).
    destruct (put_sample_ring _ (samples bt h) b v (tw_slots t Hw) ltac:(lia) Hring) as (b' & Ep & Hring').
    rewrite Ep in E. injection E as <-. exists b'. split; [|done]. cbn. apply list_lookup_insert_eq. by eapply lookup_lt_Some.
  - rewrite app_nil_r. destruct (timing_buckets t !! bucket_nr bt) as [b0|]; [|done].
    destruct (put_sample _ v b0) as [[[] b0']| |]; [|done|done]. injection E as <-. exists b. split; [|done]. cbn.
    rewrite list_lookup_insert_ne; [done|]. intros Hnr%bucket_nr_inj. done.
Qed.

Lemma clear_step clear_bytes i t : timing_wf t -> (i < NUM_BUCKETS)%nat -> bucket_on i t = true ->
  exists vs, (b ← get_bucket i; vs ← mlift (the_values b);
     put_bucket i (mkBucket (Some (clear_prefix clear_bytes (max_bucket_slots t) vs)) 0 0 zero)) t =
    Ok (tt, set_buckets (<[i := mkBucket (Some vs) 0 0 zero]> (timing_buckets t)) t) /\ Z.of_nat (length vs) = max_bucket_slots t.
Proof.
  intros Ht Hi Hon. destruct (lookup_lt_is_Some_2 (timing_buckets t) i) as [b Hb]; [by rewrite (tw_length t Ht)|].
  destruct (tw_buckets t Ht i b Hb Hon) as [(vs & Ev & Hl) _ _]. unfold mbind, M_bind, get_bucket, mlift, the_values. rewrite Hb, Ev.
  eexists. split; [reflexivity|]. pose proof (tw_slots t Ht). rewrite length_clear_prefix by lia. done.
Qed.

(** What holds of the buckets of [l] after they were cleared holds of a bucket without samples. *)
Lemma clear_loop clear_bytes l : (forall i, i ∈ l -> (i < NUM_BUCKETS)%nat) -> forall t t', timing_wf t ->
  miter (fun i => t ← mget; if bucket_on i t then
      b ← get_bucket i; vs ← mlift (the_values b); put_bucket i (mkBucket (Some (clear_prefix clear_bytes (max_bucket_slots t) vs)) 0 0 zero)
    else mret tt) l t = Ok (tt, t') ->
  forall i, bucket_on i t = true -> (i ∈ l \/ exists vs, timing_buckets t !! i = Some (mkBucket (Some vs) 0 0 zero)) ->
  exists vs, timing_buckets t' !! i = Some (mkBucket (Some vs) 0 0 zero).
Proof.
  induction l as [|k l IH]; intros Hl t t' Ht E i Hon Hi.
  { injection E as <-. destruct Hi as [Hi|Hi]; [by apply elem_of_nil in Hi|done]. }
  cbn [miter] in E. unfold mbind at 1, M_bind at 1, mbind at 1, M_bind at 1, mget at 1 in E.
  destruct (bucket_on k t) eqn:Hk.
  - destruct (clear_step clear_bytes k t Ht (Hl k ltac:(by left)) Hk) as (vs & E1 & Hvs). rewrite E1 in E.
    eapply IH in E; [exact E|intros j Hj; apply Hl; by right| |exact Hon|].
    + destruct Ht as [H1 H2 H3 H4]. split; cbn; [done|by rewrite length_insert|done|]. intros j b Hj Hj'.
      destruct (decide (j = k)) as [->|Hne].
      * rewrite list_lookup_insert_eq in Hj by (rewrite H2; apply Hl; by left). injection Hj as <-. split; cbn; [by exists vs|lia|lia].
      * rewrite list_lookup_insert_ne in Hj by done. by apply (H4 j).
    + destruct (decide (i = k)) as [->|Hne].
      * right. exists vs. cbn. apply list_lookup_insert_eq. rewrite (tw_length t Ht). apply Hl. by left.
      * destruct Hi as [[->|Hi]%elem_of_cons|Hi]; [done|by left|]. right. cbn. by rewrite list_lookup_insert_ne.
  - eapply IH in E; [exact E|intros j Hj; apply Hl; by right|exact Ht|exact Hon|].
    destruct Hi as [[->|Hi]%elem_of_cons|Hi]; [congruence|by left|by right].
Qed.

Lemma clear_rings clear_bytes h t : rings h t -> exists t', StatsClearBuckets clear_bytes t = Ok (tt, t') /\ rings [] t' /\ same_setup t t'.
Proof.
  intros [Hw _]. destruct (StatsClearBuckets_typed clear_bytes t Hw) as ([] & t' & E & Hw' & Hs). exists t'. split; [done|]. split; [|done].
  split; [done|]. intros bt Hon. pose proof Hs as (S1 & S2 & _).
  assert (Hon0 : bucket_on (bucket_nr bt) t = true) by (unfold bucket_on in *; by rewrite <- S2).
  destruct (clear_loop clear_bytes (seq 0 NUM_BUCKETS) ltac:(intros i [_ Hi]%elem_of_seq; lia) t t' Hw E (bucket_nr bt) Hon0) as [vs Hvs].
  { left. apply elem_of_seq. pose proof (bucket_nr_lt bt). lia. }
  destruct (tw_buckets t' Hw' _ _ Hvs Hon) as [(vs' & [= <-] & Hl) _ _].
  eexists. split; [exact Hvs|]. pose proof (tw_slots t' Hw'). split; cbn; [lia|]. exists vs. split; [done|]. split; [done|]. left.
  split; [done|]. split; [done|]. split; [lia|done].
Qed.

(** The columns of the dump, and the samples of a column. *)
Definition columns (t : timing) : list BucketType := filter (fun bt => bucket_on (bucket_nr bt) t = true) (take 19 dump_order).
Definition column (slots : Z) (h : list (BucketType * spec_float)) (bt : BucketType) : list spec_float :=
  lastn (Z.to_nat slots) (samples bt h).

Lemma ring_shown slots xs b : 0 < slots < 2 ^ 31 -> ring slots xs b ->
  match shown slots b with
  | None => lastn (Z.to_nat slots) xs = []
  | Some (start, max_item) => StatsPrintSingleBucket b start max_item = Ok (lastn (Z.to_nat slots) xs) /\ lastn (Z.to_nat slots) xs <> []
  end.
Proof.
  intros Hs [Ho (vs & Ev & Hl & Hc)]. unfold shown, u32.
  destruct Hc as [(H0 & Hn & Hle & Ht)|(H0 & Hn & Hle & Ht)].
  - rewrite H0, Hn. cbn [Z.eqb Z.ltb Z.compare andb]. rewrite Z.mod_small by lia.
    assert (El : lastn (Z.to_nat slots) xs = xs) by (unfold lastn; replace (length xs - Z.to_nat slots)%nat with O by lia; done). rewrite El.
    destruct (Z.eqb_spec (Z.of_nat (length xs)) 0) as [E|E]; cbn [negb]; [destruct xs; done|].
    split; [|by intros ->]. unfold StatsPrintSingleBucket, the_values. rewrite Ev, decide_True, H0 by lia. cbn [Z.ltb Z.compare].
    rewrite app_nil_r, Z.sub_0_r, Nat2Z.id. change (Z.to_nat 0) with O. by rewrite drop_0, Ht.
  - rewrite (proj2 (Z.eqb_neq (overflow b) 0)) by lia. cbn [andb]. rewrite (proj2 (Z.ltb_lt 0 (overflow b))) by lia.
    rewrite Z.mod_small by lia. split.
    + unfold StatsPrintSingleBucket, the_values. rewrite Ev, decide_True by lia. rewrite (proj2 (Z.ltb_lt 0 (overflow b))) by lia.
      rewrite <- Ht. do 2 f_equal. apply take_ge. rewrite length_drop. lia.
    + intros E%(f_equal length). unfold lastn in E. rewrite length_drop in E. cbn in E. lia.
Qed.

Lemma dump_row_run h t bt : rings h t ->
  dump_row bt t = Ok (if bucket_on (bucket_nr bt) t then filter (.≠ []) [column (max_bucket_slots t) h bt] else [], t).
Proof.
  intros [Hw Hr]. unfold dump_row, mbind at 1, M_bind at 1, mget. destruct (bucket_on _ t) eqn:Hon; [|done]. cbn [negb].
  destruct (Hr bt Hon) as (b & Hb & Hring). unfold mbind at 1, M_bind at 1, get_bucket. rewrite Hb.
  pose proof (ring_shown _ _ b (tw_slots t Hw) Hring) as Hsh. rewrite filter_cons. unfold column.
  destruct (shown _ b) as [[start max_item]|].
  - destruct Hsh as [E Hne]. rewrite decide_True by done. unfold mbind, M_bind, mlift. by rewrite E.
  - by rewrite decide_False by (intros H; done).
Qed.

Lemma mmapM_run {S A B} (f : A -> M S B) (g : A -> B) s l : (forall x, f x s = Ok (g x, s)) -> mmapM f l s = Ok (g <$> l, s).
Proof. intros H. induction l as [|x l IH]; [done|]. cbn [mmapM]. unfold mbind, M_bind. by rewrite H, IH. Qed.
Lemma concat_filter {A B} (p : A -> bool) (g : A -> list B) l :
  concat ((fun x => if p x then g x else []) <$> l) = concat (g <$> filter (fun x => p x = true) l).
Proof. induction l as [|x l IH]; [done|]. rewrite filter_cons. cbn [fmap list_fmap concat]. rewrite IH. destruct (p x) eqn:E; by case_decide. Qed.

Definition has_names (t : timing) : Prop := reverse_buckets t = (fun b => Some (bucket_name b)) <$> all_buckets.

Lemma StatsDumpBuckets_run h t : rings h t -> has_names t ->
  StatsDumpBuckets t = Ok ((bucket_name <$> columns t, filter (.≠ []) (column (max_bucket_slots t) h <$> columns t)), t).
Proof.
  intros Hr Hn. unfold StatsDumpBuckets. unfold mbind at 1, M_bind at 1.
  rewrite (mmapM_run _ (fun bt => if bucket_on (bucket_nr bt) t then [bucket_name bt] else []) t).
  2:{ intros bt. unfold mbind, M_bind, mget. destruct (bucket_on _ t); [|done]. cbn [negb]. rewrite Hn, list_lookup_fmap, bucket_nr_at. done. }
  unfold mbind, M_bind.
  rewrite (mmapM_run _ (fun bt => if bucket_on (bucket_nr bt) t then filter (.≠ []) [column (max_bucket_slots t) h bt] else []) t)
    by (intros bt; by apply dump_row_run).
  unfold mret, M_ret. do 3 f_equal; rewrite concat_filter; fold (columns t).
  - generalize (columns t). intros l. induction l as [|x l IH]; [done|]. cbn. by f_equal.
  - generalize (columns t). intros l. induction l as [|x l IH]; [done|]. cbn [fmap list_fmap concat]. rewrite IH, !filter_cons. by case_decide.
Qed.

Lemma run_op_rings qsort clear_bytes h t o : rings h t -> Z.of_nat (length h) + 1 < 2 ^ 31 -> o <> PrintAll -> has_names t ->
  exists t', run_op qsort clear_bytes o t = Ok (tt, t') /\
    rings (match o with Store bt v => h ++ [(bt, v)] | Clear => [] | _ => h end) t' /\ same_setup t t'.
Proof.
  intros Hr Hh Ho Hn. destruct o as [bt v| | |]; cbn [run_op]; [by apply store_rings|by eapply clear_rings|done|].
  exists t. unfold mbind, M_bind. rewrite (StatsDumpBuckets_run h t Hr Hn). done.
Qed.

Lemma run_ops_rings qsort clear_bytes ops : PrintAll ∉ ops -> forall h t, rings h t -> has_names t -> Z.of_nat (length h) + Z.of_nat (length ops) < 2 ^ 31 ->
  exists t', miter (run_op qsort clear_bytes) ops t = Ok (tt, t') /\
    rings (foldl (fun h o => match o with Store bt v => h ++ [(bt, v)] | Clear => [] | _ => h end) h ops) t' /\ same_setup t t'.
Proof.
  induction ops as [|o ops IH]; intros Hp h t Hr Hn Hh; [by exists t|]. apply not_elem_of_cons in Hp as [Ho Hp]. cbn [length] in Hh.
  destruct (run_op_rings qsort clear_bytes h t o Hr ltac:(lia) ltac:(done) Hn) as (t1 & E1 & Hr1 & Hs1). pose proof Hs1 as (_ & _ & S3).
  destruct (IH Hp _ t1 Hr1) as (t' & E & Hr' & Hs'); [by unfold has_names; rewrite S3| |].
  { destruct o; rewrite ?length_app; cbn [length]; lia. }
  exists t'. cbn [miter foldl]. unfold mbind, M_bind. rewrite E1. split; [exact E|]. split; [exact Hr'|]. by eapply same_setup_trans.
Qed.

(** C24: the dump shows the latest samples, oldest first.  After a successful start and any
    stores, clears and dumps, fewer than 2^31 of them, there is one name for each of the first nineteen columns whose
    bucket is in use, and one row for each of these that has samples since the last clear:
    the last of them, at most as many as there are slots, in the order in which they were
    stored, although the ring behind the bucket has wrapped around any number of times. *)
Theorem dump_last_samples qsort clear_bytes rs rs' t d ops
    (H1 : shm_fine rs.1) (H2 : shm_fine rs.2) (H3 : forall i, shm_fine (rs' i)) (Hs : 0 < max_bucket_slots t < 2 ^ 31)
    (Hp : PrintAll ∉ ops) (Hl : Z.of_nat (length ops) < 2 ^ 31) :
  exists t' t'', TimingStatsInit rs rs' (t, d) = Ok (tt, (t', d)) /\
    miter (run_op qsort clear_bytes) ops t' = Ok (tt, t'') /\
    StatsDumpBuckets t'' =
      Ok ((bucket_name <$> columns t, filter (.≠ []) (column (max_bucket_slots t) (history ops) <$> columns t)), t'').
Proof.
  destruct (TimingStatsInit_run rs rs' t d H1 H2 H3 Hs) as (t' & E & Ht' & (S1 & S2 & S3) & Hb). cbn in S1, S2, S3.
  destruct (run_ops_rings qsort clear_bytes ops Hp [] t') as (t'' & E2 & Hr & (S1' & S2' & S3')); [|done|done|].
  { split; [done|]. intros bt Hon. exists (fresh_bucket (max_bucket_slots t)). rewrite S1. split; [|apply fresh_ring; lia].
    apply Hb; [apply bucket_nr_lt|]. unfold bucket_on in *. by rewrite <- S2. }
  exists t', t''. split; [done|]. split; [done|]. rewrite (StatsDumpBuckets_run _ t'' Hr) by (unfold has_names; by rewrite S3').
  assert (Hc : columns t'' = columns t) by (unfold columns, bucket_on; by rewrite S2', S2). rewrite Hc, S1', S1. done.
Qed.

Definition one : spec_float := float_of_Z 1.
Definition two : spec_float := float_of_Z 2.
Definition three : spec_float := float_of_Z 3.

Lemma dump_last_samples_witness : exists t' t'', TimingStatsInit (shm_good, shm_good) (fun _ => shm_good)
    (Timing 2 (Z.shiftl 1 (Z.of_nat (bucket_nr READ_PAGE))) [] [], Dbg 0 0 0 0) = Ok (tt, (t', Dbg 0 0 0 0)) /\
  miter (run_op (fun _ l => l) (fun _ x => x)) [Store READ_PAGE one; Store KVREAD one; Store READ_PAGE two; Store READ_PAGE three] t' = Ok (tt, t'') /\
  StatsDumpBuckets t'' = Ok ((["READ_PAGE"%string], [[two; three]]), t'').
Proof.
  apply (dump_last_samples (fun _ l => l) (fun _ x => x) (shm_good, shm_good) (fun _ => shm_good)
    (Timing 2 (Z.shiftl 1 (Z.of_nat (bucket_nr READ_PAGE))) [] []) (Dbg 0 0 0 0)
    [Store READ_PAGE one; Store KVREAD one; Store READ_PAGE two; Store READ_PAGE three]); [repeat split..|intros i; repeat split|simpl; lia| |simpl; lia].
  rewrite !elem_of_cons, elem_of_nil. intros [H|[H|[H|[H|H]]]]; done.
Defined.

(** ** Where the figures are wrong *)

(** The mean of a bucket after the samples [xs]. *)
Definition mean_after (slots : Z) (xs : list spec_float) : outcome spec_float :=
  match foldl (fun o v => match o with Ok b => match put_sample slots v b with Ok (_, b) => Ok b | UB f => UB f | Blocked => Blocked end | o => o end)
          (Ok (fresh_bucket slots)) xs with
  | Ok b => StatsGetBucketMean slots b
  | UB f => UB f
  | Blocked => Blocked
  end.

(** A ring that wraps counts its samples twice: with one slot, the mean of 0 and 3 is
    given as 1. *)
Example mean_after_wrap : mean_after 1 [zero; three] = Ok one.
Proof. vm_compute. reflexivity. Qed.

(** Differences below one are rounded to zero, so that the comparison is not transitive,
    and a sort that keeps equal elements in their order puts 1 before 1/2: the least value
    printed is greater than the greatest. *)
Definition insert_by (cmp : spec_float -> spec_float -> Z) : spec_float -> list spec_float -> list spec_float :=
  fix go x l := match l with [] => [x] | y :: l' => if 0 <? cmp x y then y :: go x l' else x :: l end.
Definition insertion_sort (cmp : spec_float -> spec_float -> Z) (l : list spec_float) : list spec_float := foldr (insert_by cmp) [] l.
Definition half : spec_float := float_div one two.

Example cmpfunc_not_transitive : cmpfunc zero half = 0 /\ cmpfunc half one = 0 /\ cmpfunc zero one = -1.
Proof. vm_compute. done. Qed.
Example least_above_greatest : StatsGetBucketMedian insertion_sort [one; half] 2 =
  Ok ((float_div (float_add one half) two, one, half), [one; half]).
Proof. vm_compute. reflexivity. Qed.

(** Without slots the first sample is written past the end of the ring. *)
Lemma store_no_slots bt v t b : max_bucket_slots t = 0 -> bucket_on (bucket_nr bt) t = true ->
  timing_buckets t !! bucket_nr bt = Some b -> values b = Some [] -> num_items b = 0 -> store_bucket bt v t = UB OutOfBounds.
Proof.
  intros Hs Hon Hb Hv Hn. rewrite store_bucket_eq, Hon. unfold on_bucket, put_sample. rewrite Hb, Hs, Hn. cbn [Z.eqb].
  unfold wrap_bucket, StatsGetBucketSum, the_values. rewrite Hv, Hn. cbn [length Z.of_nat Z.to_nat take foldl].
  rewrite decide_True by lia. reflexivity.
Qed.
