(* ===== verification/Cpufreq.v ===== *)
(** The rate of the clock, [include/cpufreq.h]: the number that the kernel gives in
    [/proc/cpuinfo], read through a pipe.  The buffer takes seven characters, so of a
    rate above a gigahertz the last digit is cut off. *)
From Stdlib Require Import SpecFloat.
From S2P Require Import Prelude Text MonitorStats Os TimingStats.

(** The digits in front of a character that is none, and the rest. *)
Fixpoint span_digits (s : text) : text * text :=
  match s with
  | c :: s' => if isdigit c then let '(d, r) := span_digits s' in (c :: d, r) else ([], s)
  | [] => ([], [])
  end.

(** [sscanf] with [%f] of a number without sign and exponent, the only kind the kernel
    prints: digits, a point, digits, rounded to the nearest [float]. *)
Definition scan_float (s : text) : option spec_float :=
  let '(whole, r) := span_digits (skip_space s) in
  let frac := match r with 46 :: r => (span_digits r).1 | _ => [] end in
  if bool_decide (whole ++ frac = []) then None
  else Some (float_div (float_of_Z (read_digits 0 (whole ++ frac))) (float_of_Z (10 ^ Z.of_nat (length frac)))).

(** [cmd] is what the command prints, [None] if it cannot be run. *)
Definition cpufreq (cmd : option text) : spec_float :=
  let failed := float_of_Z (-1) in
  match cmd with
  | None => failed
  | Some out =>
      let buff := take 7 out in
      if (length buff <=? 0)%nat then failed else default failed (scan_float buff)
  end.

(** * What the kernel prints: megahertz with three decimals, and the end of the line *)
Definition cpuinfo (khz : Z) : text :=
  print_u (khz / 1000) ++ [46; 48 + khz / 100 mod 10; 48 + khz / 10 mod 10; 48 + khz mod 10; 10].

Lemma digit_char d : isdigit (48 + d mod 10) = true.
Proof. unfold isdigit. pose proof (Z.mod_pos_bound d 10 ltac:(lia)). lia. Qed.

Lemma span_digits_app d c s : Forall (fun c => isdigit c = true) d -> isdigit c = false -> span_digits (d ++ c :: s) = (d, c :: s).
Proof. intros Hd Hc. induction Hd as [|x d Hx _ IH]; cbn [span_digits app]; [by rewrite Hc|]. by rewrite Hx, IH. Qed.
Lemma span_digits_all d : Forall (fun c => isdigit c = true) d -> span_digits d = (d, []).
Proof. induction 1 as [|x d Hx _ IH]; cbn [span_digits]; [done|]. by rewrite Hx, IH. Qed.

(** Digits, a point and digits are scanned as the number they write. *)
Lemma scan_decimal whole frac : whole <> [] -> Forall (fun c => isdigit c = true) whole -> Forall (fun c => isdigit c = true) frac ->
  scan_float (whole ++ 46 :: frac) =
  Some (float_div (float_of_Z (read_digits 0 (whole ++ frac))) (float_of_Z (10 ^ Z.of_nat (length frac)))).
Proof.
  intros Hne Hw Hf. unfold scan_float.
  assert (Hs : skip_space (whole ++ 46 :: frac) = whole ++ 46 :: frac).
  { destruct Hw as [|c w Hc _]; [done|]. cbn [app skip_space]. replace (isspace c) with false; [done|].
    unfold isdigit, isspace in *. lia. }
  rewrite Hs, span_digits_app by done. cbn match. rewrite span_digits_all by done. cbn [fst].
  rewrite bool_decide_eq_false_2; [done|]. intros E. by apply app_eq_nil in E as [? _].
Qed.

Lemma read_digits_snoc s : forall v d, Forall (fun c => isdigit c = true) s -> 0 <= d < 10 -> read_digits v (s ++ [48 + d]) = 10 * read_digits v s + d.
Proof.
  induction s as [|c s IH]; intros v d Hs Hd; cbn [app read_digits].
  - replace (isdigit (48 + d)) with true by (unfold isdigit; lia). lia.
  - apply Forall_cons in Hs as [-> Hs]. by apply IH.
Qed.

Lemma print_u_read z : 0 <= z < 2 ^ 64 -> read_digits 0 (print_u z) = z.
Proof. intros Hz. pose proof (read_print_u z [] Hz ltac:(done)) as H. by rewrite app_nil_r in H. Qed.

Lemma dec_digits_end f z acc : 0 <= z < 10 -> dec_digits (S f) z acc = 48 + z mod 10 :: acc.
Proof. intros Hz. cbn [dec_digits]. by rewrite Z.div_small. Qed.
Lemma dec_digits_more f z acc : 10 <= z -> dec_digits (S f) z acc = dec_digits f (z / 10) (48 + z mod 10 :: acc).
Proof. intros Hz. cbn [dec_digits]. replace (z / 10 =? 0) with false; [done|]. assert (1 <= z / 10) by (apply Z.div_le_lower_bound; lia). lia. Qed.

Lemma print_u_length z n : 10 ^ Z.of_nat n <= z < 10 ^ Z.of_nat (S n) -> (n < 20)%nat -> length (print_u z) = S n.
Proof.
  intros Hz Hn. unfold print_u.
  assert (H : forall n f z acc, (n < f)%nat -> 10 ^ Z.of_nat n <= z < 10 ^ Z.of_nat (S n) -> length (dec_digits f z acc) = (S n + length acc)%nat).
  { clear. induction n as [|n IH]; intros [|f] z acc Hf Hz; try lia; [rewrite dec_digits_end by (cbn in Hz; lia); done|].
    rewrite (Nat2Z.inj_succ (S n)), (Nat2Z.inj_succ n), !Z.pow_succ_r in Hz by lia.
    pose proof (Z.pow_pos_nonneg 10 (Z.of_nat n) ltac:(lia) ltac:(lia)).
    rewrite dec_digits_more by lia. rewrite IH; [cbn; lia|lia|]. rewrite (Nat2Z.inj_succ n), Z.pow_succ_r by lia.
    split; [apply Z.div_le_lower_bound; lia|apply Z.div_lt_upper_bound; lia]. }
  rewrite (H n) by done. cbn [length]. lia.
Qed.

Lemma snoc2 {A} (s : list A) a b : s ++ [a; b] = (s ++ [a]) ++ [b].
Proof. by rewrite <- app_assoc. Qed.
Lemma snoc3 {A} (s : list A) a b c : s ++ [a; b; c] = ((s ++ [a]) ++ [b]) ++ [c].
Proof. by rewrite <- !app_assoc. Qed.

(** The rate in use: below a gigahertz as the kernel gives it, above it to a hundredth of a
    megahertz, rounded down and then to the nearest [float]. *)
Lemma cpufreq_of_kernel khz :
  (100000 <= khz < 1000000 -> cpufreq (Some (cpuinfo khz)) = float_div (float_of_Z khz) (float_of_Z 1000)) /\
  (1000000 <= khz < 10000000 -> cpufreq (Some (cpuinfo khz)) = float_div (float_of_Z (khz / 10)) (float_of_Z 100)).
Proof.
  assert (Hd : forall d, 0 <= d mod 10 < 10) by (intros d; apply Z.mod_pos_bound; lia).
  pose proof (Z.div_mod khz 10 ltac:(lia)). pose proof (Z.div_mod (khz / 10) 10 ltac:(lia)). pose proof (Z.div_mod (khz / 100) 10 ltac:(lia)).
  assert (E1 : khz / 10 / 10 = khz / 100) by (rewrite Z.div_div; [done|lia..]).
  assert (E2 : khz / 100 / 10 = khz / 1000) by (rewrite Z.div_div; [done|lia..]).
  split; intros Hk; unfold cpufreq, cpuinfo.
  - assert (Hz : 100 <= khz / 1000 < 1000) by (split; [apply Z.div_le_lower_bound; lia|apply Z.div_lt_upper_bound; lia]).
    pose proof (print_u_digits (khz / 1000) ltac:(lia)) as Hp. pose proof (print_u_length (khz / 1000) 2 ltac:(cbn; lia) ltac:(lia)) as Hl.
    rewrite take_app_ge, Hl, length_app, Hl by lia. cbn [Nat.sub take length Nat.add Nat.leb].
    rewrite scan_decimal; [|by destruct (print_u _)|done|repeat constructor; apply digit_char]. cbn [default from_option id length].
    rewrite snoc3.
    rewrite !read_digits_snoc, print_u_read by (repeat (apply Forall_app; split); try done; try lia; repeat constructor; apply digit_char).
    f_equal. f_equal. lia.
  - assert (Hz : 1000 <= khz / 1000 < 10000) by (split; [apply Z.div_le_lower_bound; lia|apply Z.div_lt_upper_bound; lia]).
    pose proof (print_u_digits (khz / 1000) ltac:(lia)) as Hp. pose proof (print_u_length (khz / 1000) 3 ltac:(cbn; lia) ltac:(lia)) as Hl.
    rewrite take_app_ge, Hl, length_app, Hl by lia. cbn [Nat.sub take length Nat.add Nat.leb].
    rewrite scan_decimal; [|by destruct (print_u _)|done|repeat constructor; apply digit_char]. cbn [default from_option id length].
    rewrite snoc2.
    rewrite !read_digits_snoc, print_u_read by (repeat (apply Forall_app; split); try done; try lia; repeat constructor; apply digit_char).
    f_equal. f_equal. lia.
Qed.

(** The last digit is lost; no output and no number are minus one. *)
Lemma cpufreq_example : cpufreq (Some (cpuinfo 2400009)) = float_of_Z 2400 /\ cpufreq (Some []) = float_of_Z (-1) /\ cpufreq (Some (txt "MHz")) = float_of_Z (-1).
Proof. vm_compute. done. Qed.
