(* ===== verification/SimOs.v ===== *)
(** A concrete kernel that satisfies [OSLaws]: regions, monitor memory and the
    C heap as finite maps, with the error returns of the userfault calls the
    sources distinguish.  Concrete executions and witnesses run on it. *)
From S2P Require Import Prelude Config MonitorStats Os.

Record sim := Sim {
  sim_app : gmap (Z * Z) page;          (** resident pages *)
  sim_zero : gset (Z * Z);              (** those still backed by the zero page *)
  sim_buf : gmap Z page;                (** buffers of the monitor *)
  sim_heap : gset Z;                    (** those that are heap blocks *)
  sim_ufds : gset Z;                    (** open userfault descriptors *)
  sim_pids : gset Z;                    (** live processes *)
  sim_again : nat                       (** remaps that will report [EAGAIN] *)
}.

Definition sim_ok : sysret := SysRet 0 0.
Definition sim_err (e : Z) : sysret := SysRet (-1) e.
Definition EFAULT : Z := 14.

(** The buffer at an address; [MAP_FAILED] is never one. *)
Definition sim_at (s : sim) (p : ptr) : option page :=
  if decide (p = MAP_FAILED) then None else sim_buf s !! p.

Definition sim_alloc (heap : bool) (s : sim) : ptr * sim :=
  let p := fresh_ptr (sim_buf s) in
  if decide (p < 2 ^ 63) then
    (p, Sim (sim_app s) (sim_zero s) (<[p := zero_page]> (sim_buf s))
          (if heap then {[p]} ∪ sim_heap s else sim_heap s ∖ {[p]}) (sim_ufds s) (sim_pids s) (sim_again s))
  else (if heap then NULL else MAP_FAILED, s).

Definition sim_with_buf (b : gmap Z page) (hp : gset Z) (s : sim) : sim :=
  Sim (sim_app s) (sim_zero s) b hp (sim_ufds s) (sim_pids s) (sim_again s).
Definition sim_with_app (a : gmap (Z * Z) page) (z : gset (Z * Z)) (b : gmap Z page) (s : sim) : sim :=
  Sim a z b (sim_heap s) (sim_ufds s) (sim_pids s) (sim_again s).

Definition sim_munmap (p : ptr) (s : sim) : sysret * sim :=
  match sim_at s p with
  | Some _ => (sim_ok, sim_with_buf (delete p (sim_buf s)) (sim_heap s ∖ {[p]}) s)
  | None => (sim_err EINVAL, s)
  end.

Definition sim_copy (u dst : Z) (src : ptr) (s : sim) : (sysret * Z) * sim :=
  if decide (u ∉ sim_ufds s) then ((sim_err ESRCH, - ESRCH), s)
  else match sim_app s !! (u, dst), sim_at s src with
       | None, Some pg =>
           ((sim_ok, PAGE_SIZE),
             sim_with_app (<[(u, dst) := pg]> (sim_app s)) (sim_zero s ∖ {[(u, dst)]}) (sim_buf s) s)
       | Some _, _ => ((sim_err EEXIST, - EEXIST), s)
       | None, None => ((sim_err EFAULT, - EFAULT), s)
       end.

Definition sim_zeropage (u dst : Z) (s : sim) : sysret * sim :=
  if decide (u ∉ sim_ufds s) then (sim_err ESRCH, s)
  else match sim_app s !! (u, dst) with
       | None => (sim_ok, sim_with_app (<[(u, dst) := zero_page]> (sim_app s))
                            ({[(u, dst)]} ∪ sim_zero s) (sim_buf s) s)
       | Some _ => (sim_err EEXIST, s)
       end.

Definition sim_remap (u : Z) (m : remap_mode) (dst src : Z) (s : sim) : sysret * sim :=
  if decide (u ∉ sim_ufds s) then (sim_err ESRCH, s)
  else if DIRECTION_IN m then
    match sim_app s !! (u, dst), sim_at s src with
    | None, Some pg =>
        (sim_ok, sim_with_app (<[(u, dst) := pg]> (sim_app s)) (sim_zero s ∖ {[(u, dst)]})
                   (<[src := zero_page]> (sim_buf s)) s)
    | Some _, _ => (sim_err EEXIST, s)
    | None, None => (sim_err EFAULT, s)
    end
  else
    match sim_again s with
    | S n => (sim_err EAGAIN, Sim (sim_app s) (sim_zero s) (sim_buf s) (sim_heap s) (sim_ufds s)
                                (sim_pids s) n)
    | O =>
        if decide ((u, src) ∈ sim_zero s) then (sim_err EBUSY, s)
        else match sim_app s !! (u, src), sim_at s dst with
             | _, None => (sim_err EFAULT, s)
             | Some pg, Some _ =>
                 (sim_ok, sim_with_app (delete (u, src) (sim_app s)) (sim_zero s)
                            (<[dst := pg]> (sim_buf s)) s)
             | None, Some _ => if ALLOW_SRC_HOLES m then (sim_ok, s) else (sim_err ENOENT, s)
             end
    end.

#[export] Instance SimOS : OS := {
  os := sim;
  app_page s u a := sim_app s !! (u, a);
  buf_page := sim_at;
  heap_block s p := bool_decide (p ∈ sim_heap s);
  mmap_page := sim_alloc false;
  munmap_page := sim_munmap;
  malloc_page := sim_alloc true;
  free_block p s := sim_with_buf (delete p (sim_buf s)) (sim_heap s ∖ {[p]}) s;
  poke p pg s := match sim_at s p with
                 | Some _ => sim_with_buf (<[p := pg]> (sim_buf s)) (sim_heap s) s
                 | None => s
                 end;
  uffdio_copy := sim_copy;
  uffdio_zeropage := sim_zeropage;
  uffdio_remap := sim_remap;
  uffdio_wake _ _ _ s := (sim_ok, s);
  getpgid pid s := if decide (pid ∈ sim_pids s) then pid else -1;
  machine_id _ := Some [49; 50; 51; 10];
  gettimeofday _ := (0, 0)
}.

Lemma same_app_refl (s : sim) : same_app s s.
Proof. by intros u a. Qed.
Lemma same_buf_refl (s : sim) : same_buf s s.
Proof. by intros p _. Qed.

Lemma sim_at_Some s p pg : sim_at s p = Some pg -> p <> MAP_FAILED /\ sim_buf s !! p = Some pg.
Proof. unfold sim_at. by case_decide. Qed.

Lemma sim_at_insert s p pg q z a : p <> MAP_FAILED ->
  sim_at (sim_with_app a z (<[p := pg]> (sim_buf s)) s) q = if decide (p = q) then Some pg else sim_at s q.
Proof.
  intros Hp. unfold sim_at. simpl. destruct (decide (p = q)) as [<-|Hne].
  - by rewrite decide_False, lookup_insert_eq by done.
  - case_decide; [done|]. by rewrite lookup_insert_ne.
Qed.

(** A change of the memory map at one address. *)
Lemma sim_buf_frame (s : sim) (b : gmap Z page) (hp : gset Z) p :
  (forall q, q <> p -> b !! q = sim_buf s !! q) -> (forall q, q <> p -> q ∈ hp <-> q ∈ sim_heap s) ->
  same_app s (sim_with_buf b hp s) /\ same_buf_but {[p]} s (sim_with_buf b hp s).
Proof.
  intros Hb Hh. split; [by intros u a|]. intros q Hq%not_elem_of_singleton. simpl.
  split; [unfold sim_at; simpl; case_decide; [done|by apply Hb]|]. by apply bool_decide_ext, Hh.
Qed.

Lemma sim_app_frame (s : sim) u a v z b : same_app_but u a s (sim_with_app (<[(u, a) := v]> (sim_app s)) z b s).
Proof. intros u' a' Hne. simpl. by rewrite lookup_insert_ne. Qed.

Ltac sim_same := split; [by intros ? ?|by intros ? _].

Lemma sim_alloc_ok heap s p s' : sim_alloc heap s = (p, s') -> p <> NULL -> p <> MAP_FAILED ->
  sim_at s p = None /\ sim_at s' p = Some zero_page /\ bool_decide (p ∈ sim_heap s') = heap /\
  same_app s s' /\ same_buf_but {[p]} s s'.
Proof.
  unfold sim_alloc. intros E Hn Hm. case_decide; [|destruct heap; simplify_eq/=; done].
  injection E as <- <-. unfold sim_at. rewrite !decide_False by done. simpl.
  split; [apply fresh_ptr_fresh|]. split; [by rewrite lookup_insert_eq|]. split.
  { destruct heap; [apply bool_decide_true|apply bool_decide_false]; set_solver. }
  apply (sim_buf_frame s).
  - intros q Hq. by rewrite lookup_insert_ne.
  - intros q Hq. destruct heap; set_solver.
Qed.

Lemma sim_alloc_fail heap s p s' : sim_alloc heap s = (p, s') -> p = NULL \/ p = MAP_FAILED ->
  same_app s s' /\ same_buf s s'.
Proof.
  unfold sim_alloc, NULL, MAP_FAILED. pose proof (fresh_ptr_pos (sim_buf s)).
  case_decide; intros [= <- <-]; [lia|]. intros _. sim_same.
Qed.

Lemma sim_alloc_kind heap s p s' : sim_alloc heap s = (p, s') ->
  if heap then p <> MAP_FAILED else p <> NULL.
Proof.
  unfold sim_alloc, NULL, MAP_FAILED. pose proof (fresh_ptr_pos (sim_buf s)).
  case_decide; intros [= <- <-]; destruct heap; lia.
Qed.

Lemma sim_remap_out_ok u m dst src s r s' : sim_remap u m dst src s = (r, s') -> rc r = 0 ->
  DIRECTION_IN m = false ->
  is_Some (sim_at s dst) /\ sim_app s' !! (u, src) = None /\ same_app_but u src s s' /\
  same_buf_but {[dst]} s s' /\ heap_block s' dst = heap_block s dst /\
  sim_at s' dst = match sim_app s !! (u, src) with Some pg => Some pg | None => sim_at s dst end.
Proof.
  intros E Hr Hm. unfold sim_remap in E. rewrite Hm in E. split_in E; simplify_eq/=.
  - destruct (sim_at_Some _ _ _ Heqo0) as [Hd _]. split; [eauto|]. split; [by rewrite lookup_delete_eq|]. split.
    { intros u' a' Hne. simpl. by rewrite lookup_delete_ne. }
    split; [|split; [done|by rewrite sim_at_insert, decide_True]].
    intros q Hq%not_elem_of_singleton. cbn [buf_page SimOS]. by rewrite sim_at_insert, decide_False.
  - split; [eauto|]. split; [done|]. split; [done|]. split; [by intros q _|]. done.
Qed.

Lemma sim_remap_in_ok u m dst src s r s' pg : sim_remap u m dst src s = (r, s') -> rc r = 0 ->
  DIRECTION_IN m = true -> sim_at s src = Some pg ->
  sim_app s !! (u, dst) = None /\ sim_app s' !! (u, dst) = Some pg /\ same_app_but u dst s s' /\
  same_buf_but {[src]} s s'.
Proof.
  intros E Hr Hm Hpg. unfold sim_remap in E. rewrite Hm in E. split_in E; simplify_eq/=.
  destruct (sim_at_Some _ _ _ Heqo0) as [Hd _].
  split; [done|]. split; [by rewrite lookup_insert_eq|]. split; [apply sim_app_frame|].
  intros q Hq%not_elem_of_singleton. cbn [buf_page SimOS]. by rewrite sim_at_insert, decide_False.
Qed.

Lemma sim_munmap_spec p s r s' : sim_munmap p s = (r, s') ->
  same_app s s' /\ same_buf_but {[p]} s s' /\ (rc r = 0 -> sim_at s' p = None) /\
  (rc r <> 0 -> same_buf s s').
Proof.
  unfold sim_munmap. destruct (sim_at s p) eqn:E; intros [= <- <-].
  - destruct (sim_buf_frame s (delete p (sim_buf s)) (sim_heap s ∖ {[p]}) p) as [? ?];
      [intros; by rewrite lookup_delete_ne|set_solver|].
    split; [done|]. split; [done|]. split; [|done]. intros _. unfold sim_at. simpl.
    case_decide; [done|]. by rewrite lookup_delete_eq.
  - split; [by intros ? ?|]. split; [by intros ? _|]. split; [done|]. by intros _ ? _.
Qed.

#[export] Instance sim_laws : OSLaws SimOS.
Proof.
  split; simpl.
  - intros o. by unfold sim_at.
  - intros o p o' E Hp. eapply sim_alloc_fail; eauto.
  - intros o p o' E Hp. pose proof (sim_alloc_kind _ _ _ _ E) as Hn.
    destruct (sim_alloc_ok _ _ _ _ E Hn Hp) as (? & ? & ? & ? & ?). done.
  - intros p o r o' E. by destruct (sim_munmap_spec _ _ _ _ E) as (? & ? & _).
  - intros p o r o' E. by destruct (sim_munmap_spec _ _ _ _ E) as (_ & _ & ? & _).
  - intros p o r o' E. by destruct (sim_munmap_spec _ _ _ _ E) as (_ & _ & _ & ?).
  - intros o p o' E Hp. pose proof (sim_alloc_kind _ _ _ _ E) as Hm.
    destruct (sim_alloc_ok _ _ _ _ E Hp Hm) as (? & E' & ? & ? & ?). rewrite E'. eauto 10.
  - intros o p o' E Hp. eapply sim_alloc_fail; eauto.
  - intros p o. destruct (sim_buf_frame o (delete p (sim_buf o)) (sim_heap o ∖ {[p]}) p) as [? ?];
      [intros; by rewrite lookup_delete_ne|set_solver|].
    split; [done|]. split; [done|]. split; [|apply bool_decide_false; set_solver].
    unfold sim_at. simpl. case_decide; [done|]. by rewrite lookup_delete_eq.
  - intros p pg o. destruct (sim_at o p) eqn:E.
    + destruct (sim_at_Some _ _ _ E) as [Hp _].
      destruct (sim_buf_frame o (<[p := pg]> (sim_buf o)) (sim_heap o) p) as [? ?];
        [intros; by rewrite lookup_insert_ne|done|].
      split; [done|]. split; [done|]. split; [done|]. intros _. unfold sim_at. simpl.
      by rewrite decide_False, lookup_insert_eq.
    + split; [by intros ? ?|]. split; [by intros q _|]. split; [done|]. intros [? ?]. congruence.
  - intros u dst src o r c o' pg E Hr Hpg. unfold sim_copy in E. split_in E; simplify_eq/=.
    split; [done|]. split; [by rewrite lookup_insert_eq|]. split; [apply sim_app_frame|by intros q _].
  - intros u dst src o r c o' E Hr. unfold sim_copy in E. split_in E; simplify_eq/=; sim_same.
  - intros u dst src o r c o' E Hr. unfold sim_copy in E. split_in E; simplify_eq/=; done.
  - intros u dst o r o' E Hr. unfold sim_zeropage in E. split_in E; simplify_eq/=.
    split; [done|]. split; [by rewrite lookup_insert_eq|]. split; [apply sim_app_frame|by intros q _].
  - intros u dst o r o' E Hr. unfold sim_zeropage in E. split_in E; simplify_eq/=; sim_same.
  - apply sim_remap_out_ok.
  - apply sim_remap_in_ok.
  - intros u m dst src o r o' E Hr. unfold sim_remap in E. split_in E; simplify_eq/=; sim_same.
  - intros u m dst src o r o' E Hr. unfold sim_remap in E. split_in E; simplify_eq/=; done.
  - intros u a l o r o' [= <- <-]. sim_same.
Qed.
