(* ===== verification/ExternRam.v ===== *)
(** The external memory: the abstract class [externRAMClient] of
    [lib/externram/externRAMClient.hh], the C wrapper of
    [externRAMClientWrapper.cc] over it, and the contract its users rely on.

    A [void **] argument through which the callee may replace the caller's
    buffer is an argument with the current pointer and a result with the new
    one; an out-parameter is a result. *)
From S2P Require Import Prelude Config MonitorStats Os.

(** [ServerUsage] of [include/usage.h]. *)
Record ServerUsage := Usage { usage_size : Z; usage_used : Z; usage_free : Z }.

(** The class: a backend's private state, and its virtual methods. *)
Class ExternRAM `{O : OS} := {
  ext : Type;
  create : string -> Z -> M (ext * sys) ptr;
  (** [write(key, &value, size, &err)]: the buffer to free, and [err]. *)
  write : ptr -> Z -> ptr -> Z -> M (ext * sys) (ptr * Z);
  (** [multiWrite]: whether buffers are to be freed, [err], the new [data]. *)
  multiWrite : ptr -> list (Z * ptr * Z) -> M (ext * sys) (bool * Z * list ptr);
  (** [read(key, &value)]: the length, and the new [value]. *)
  read : ptr -> Z -> ptr -> M (ext * sys) (Z * ptr);
  (** [multiRead]: per key the new buffer and its length. *)
  multiRead : ptr -> list (Z * ptr * Z) -> M (ext * sys) (Z * list (ptr * Z));
  read_top : ptr -> Z -> ptr -> M (ext * sys) unit;
  read_bottom : ptr -> Z -> ptr -> M (ext * sys) (Z * ptr);
  multiRead_top : ptr -> list (Z * ptr * Z) -> M (ext * sys) (list (ptr * Z));
  multiRead_bottom : ptr -> list (Z * ptr * Z) -> M (ext * sys) (Z * list (ptr * Z));
  remove : ptr -> Z -> M (ext * sys) Z;
  isFull : ptr -> Z -> M (ext * sys) bool;
  isFullAll : ptr -> M (ext * sys) bool;
  getUsage : ptr -> M (ext * sys) (list ServerUsage)
}.

Definition NUM_ERRORS_TO_CHECK_ISFULL : Z := 10.

(** * The C wrapper *)

Section wrapper.
Context `{X : ExternRAM}.

(** Every tenth refusal the wrapper asks whether the memory is full, and reports it. *)
Definition report_full (cnt : Z) (full : M (ext * sys) bool) : M (ext * sys) unit :=
  if cnt mod NUM_ERRORS_TO_CHECK_ISFULL =? 0 then
    b ← full; mwhen b (zoom snd (fun s p => (p.1, s)) sys_log_recoverable_err)
  else mret tt.

(** The retry loop of [writePage]; [fuel] bounds the number of attempts. *)
Fixpoint writePage_loop (fuel : nat) (cnt : Z) (c : ptr) (key : Z) (value : ptr)
  : M (ext * sys) ptr :=
  match fuel with
  | O => mub OutOfFuel
  | S fuel =>
      '(ret, err) ← write c key value PAGE_SIZE;
      if err <? 0 then
        report_full cnt (isFull c key);;
        writePage_loop fuel (s32 (cnt + 1)) c key value
      else mret ret
  end.

Definition writePage (fuel : nat) (c : ptr) (key : Z) (value : ptr) : M (ext * sys) ptr :=
  writePage_loop fuel 0 c key value.

(** [writePages]: the loop passes the array the previous attempt left. *)
Fixpoint writePages_loop (fuel : nat) (cnt : Z) (c : ptr) (pages : list (Z * ptr * Z))
  : M (ext * sys) (bool * list ptr) :=
  match fuel with
  | O => mub OutOfFuel
  | S fuel =>
      '(ret, err, data) ← multiWrite c pages;
      if err <? 0 then
        report_full cnt (isFullAll c);;
        writePages_loop fuel (s32 (cnt + 1)) c
          (zip_with (fun kpl p => (kpl.1.1, p, kpl.2)) pages data)
      else mret (ret, data)
  end.

Definition writePages (fuel : nat) (c : ptr) (pages : list (Z * ptr * Z))
  : M (ext * sys) (bool * list ptr) := writePages_loop fuel 0 c pages.

Definition removePage (c : ptr) (key : Z) : M (ext * sys) Z := remove c key.
Definition readPage (c : ptr) (key : Z) (buf : ptr) : M (ext * sys) (Z * ptr) := read c key buf.
Definition readPages (c : ptr) (pages : list (Z * ptr * Z)) : M (ext * sys) (list (ptr * Z)) :=
  '(_, bufs) ← multiRead c pages; mret bufs.
Definition readPage_top (c : ptr) (key : Z) (buf : ptr) : M (ext * sys) unit := read_top c key buf.
Definition readPage_bottom (c : ptr) (key : Z) (buf : ptr) : M (ext * sys) (Z * ptr) :=
  read_bottom c key buf.
Definition readPages_top (c : ptr) (pages : list (Z * ptr * Z)) : M (ext * sys) (list (ptr * Z)) :=
  multiRead_top c pages.
Definition readPages_bottom (c : ptr) (pages : list (Z * ptr * Z)) : M (ext * sys) (list (ptr * Z)) :=
  '(_, bufs) ← multiRead_bottom c pages; mret bufs.
Definition newExternRAMClient (config : string) (upid : Z) : M (ext * sys) ptr := create config upid.
End wrapper.

(** * Contract *)

Class ExternRAMLaws `(X : ExternRAM) := {
  (** The page a client has under a key. *)
  stored : ext -> os -> ptr -> Z -> option page;
  (** Buffers of the monitor that now belong to the backend. *)
  owned : ext -> gset ptr;
  clients : ext -> gset ptr;
  (** Writes that will be refused before one is accepted. *)
  write_debt : ext -> nat;
  ext_ok : ext -> os -> Prop;
  (** Reads copy into the caller's buffer (or replace it by the backend's). *)
  copies_out : bool;

  (** The contents depend on the backend's own buffers only. *)
  ext_frame : forall e o o', ext_ok e o ->
    (forall p, p ∈ owned e -> buf_page o' p = buf_page o p) ->
    ext_ok e o' /\ forall c k, stored e o' c k = stored e o c k;
  owned_mapped : forall e o p, ext_ok e o -> p ∈ owned e -> is_Some (buf_page o p) /\ p <> NULL;

  (** A new client may find data under its identifier; the others keep theirs. *)
  create_law : forall config upid e s, ext_ok e (s_os s) ->
    exists c e' s', create config upid (e, s) = Ok (c, (e', s')) /\ ext_ok e' (s_os s') /\
      same_app (s_os s) (s_os s') /\ same_buf (s_os s) (s_os s') /\ owned e' = owned e /\
      (sigint (s_dbg s) <= sigint (s_dbg s'))%nat /\
      (forall c' k, c' <> c -> stored e' (s_os s') c' k = stored e (s_os s) c' k) /\
      (c = NULL -> clients e' = clients e) /\
      (c <> NULL -> (c ∉ clients e) /\ clients e' = {[c]} ∪ clients e);

  write_law : forall c key v e s pg, ext_ok e (s_os s) -> c ∈ clients e ->
    buf_page (s_os s) v = Some pg -> v ∉ owned e -> v <> NULL ->
    exists ret err e' s', write c key v PAGE_SIZE (e, s) = Ok ((ret, err), (e', s')) /\
      ext_ok e' (s_os s') /\ clients e' = clients e /\
      same_app (s_os s) (s_os s') /\ same_buf (s_os s) (s_os s') /\ s_stats s' = s_stats s /\
      (sigint (s_dbg s) <= sigint (s_dbg s'))%nat /\
      (err < 0 -> (forall c k, stored e' (s_os s') c k = stored e (s_os s) c k) /\
                  owned e' = owned e /\ (write_debt e' < write_debt e)%nat) /\
      (0 <= err -> (forall c' k, stored e' (s_os s') c' k =
                      if decide (c' = c /\ k = key) then Some pg else stored e (s_os s) c' k) /\
                   owned e' ⊆ (({[v]} : gset ptr) ∪ owned e) /\ s_dbg s' = s_dbg s /\
                   (ret <> NULL -> (ret ∉ owned e') /\ ret ∈ ({[v]} ∪ owned e)));
  read_law : forall c key v e s, ext_ok e (s_os s) -> c ∈ clients e ->
    (copies_out = true -> is_Some (buf_page (s_os s) v) /\ v ∉ owned e) ->
    exists len v' e' s', read c key v (e, s) = Ok ((len, v'), (e', s')) /\
      ext_ok e' (s_os s') /\ clients e' = clients e /\ owned e' = owned e /\
      (forall c k, stored e' (s_os s') c k = stored e (s_os s) c k) /\
      same_app (s_os s) (s_os s') /\
      same_buf_but (if copies_out then {[v]} else ∅) (s_os s) (s_os s') /\
      s_stats s' = s_stats s /\ s_dbg s' = s_dbg s /\
      (copies_out = true -> v' = v /\ is_Some (buf_page (s_os s') v)) /\
      match stored e (s_os s) c key with
      | Some pg => len = PAGE_SIZE /\ buf_page (s_os s') v' = Some pg
      | None => len = 0
      end;
  remove_law : forall c key e s, ext_ok e (s_os s) -> c ∈ clients e ->
    exists r e' s', remove c key (e, s) = Ok (r, (e', s')) /\
      ext_ok e' (s_os s') /\ clients e' = clients e /\ owned e' ⊆ owned e /\
      (forall c' k, stored e' (s_os s') c' k =
         if decide (c' = c /\ k = key) then None else stored e (s_os s) c' k) /\
      same_app (s_os s) (s_os s') /\
      same_buf_but (owned e ∖ owned e') (s_os s) (s_os s') /\
      (r = 1 <-> is_Some (stored e (s_os s) c key));
  isFull_law : forall c key e s, ext_ok e (s_os s) -> c ∈ clients e ->
    exists b e' s', isFull c key (e, s) = Ok (b, (e', s')) /\
      ext_ok e' (s_os s') /\ clients e' = clients e /\ owned e' = owned e /\
      write_debt e' = write_debt e /\
      (forall c k, stored e' (s_os s') c k = stored e (s_os s) c k) /\
      same_app (s_os s) (s_os s') /\ same_buf (s_os s) (s_os s') /\ s_stats s' = s_stats s /\
      (sigint (s_dbg s) <= sigint (s_dbg s'))%nat
}.

Section frame.
Context `{O : OS}.

Lemma same_buf_trans (o o1 o2 : os) : same_buf o o1 -> same_buf o1 o2 -> same_buf o o2.
Proof. intros H1 H2 p Hp. destruct (H1 p Hp), (H2 p Hp). split; congruence. Qed.
Lemma same_app_trans (o o1 o2 : os) : same_app o o1 -> same_app o1 o2 -> same_app o o2.
Proof. intros H1 H2 u a. by rewrite H2. Qed.
Lemma same_buf_at (o o' : os) p : same_buf o o' -> buf_page o' p = buf_page o p.
Proof. intros H. apply H. set_solver. Qed.
End frame.

Section wrapper_spec.
Context `{X : ExternRAM} `{L : !ExternRAMLaws X}.

(** What an accepted write has done: the key holds the page, every other key is
    as before, the monitor's memory is untouched, and the buffer returned, if any,
    is one the backend no longer uses. *)
Record page_written (c : ptr) (key : Z) (v : ptr) (pg : page) (e : ext) (s : sys)
    (ret : ptr) (e' : ext) (s' : sys) : Prop := {
  pw_ok : ext_ok e' (s_os s');
  pw_clients : clients e' = clients e;
  pw_app : same_app (s_os s) (s_os s');
  pw_buf : same_buf (s_os s) (s_os s');
  pw_stats : s_stats s' = s_stats s;
  pw_dbg : (sigint (s_dbg s) <= sigint (s_dbg s'))%nat;
  pw_stored : forall c' k, stored e' (s_os s') c' k =
    if decide (c' = c /\ k = key) then Some pg else stored e (s_os s) c' k;
  pw_owned : owned e' ⊆ (({[v]} : gset ptr) ∪ owned e);
  pw_ret : ret <> NULL -> (ret ∉ owned e') /\ ret ∈ ({[v]} ∪ owned e)
}.

(** A state in which refused writes have left nothing behind. *)
Record same_ext (e : ext) (s : sys) (e' : ext) (s' : sys) : Prop := {
  se_ok : ext_ok e' (s_os s');
  se_clients : clients e' = clients e;
  se_owned : owned e' = owned e;
  se_stored : forall c k, stored e' (s_os s') c k = stored e (s_os s) c k;
  se_app : same_app (s_os s) (s_os s');
  se_buf : same_buf (s_os s) (s_os s');
  se_stats : s_stats s' = s_stats s;
  se_dbg : (sigint (s_dbg s) <= sigint (s_dbg s'))%nat
}.

Lemma page_written_after c key v pg e s e1 s1 ret e' s' : same_ext e s e1 s1 ->
  page_written c key v pg e1 s1 ret e' s' -> page_written c key v pg e s ret e' s'.
Proof.
  intros S W. split; try apply W.
  - by rewrite (pw_clients _ _ _ _ _ _ _ _ _ W), (se_clients _ _ _ _ S).
  - eapply same_app_trans; [apply S|apply W].
  - eapply same_buf_trans; [apply S|apply W].
  - by rewrite (pw_stats _ _ _ _ _ _ _ _ _ W), (se_stats _ _ _ _ S).
  - pose proof (pw_dbg _ _ _ _ _ _ _ _ _ W). pose proof (se_dbg _ _ _ _ S). lia.
  - intros c' k. by rewrite (pw_stored _ _ _ _ _ _ _ _ _ W), (se_stored _ _ _ _ S).
  - rewrite <- (se_owned _ _ _ _ S). apply W.
  - rewrite <- (se_owned _ _ _ _ S). apply W.
Qed.

Lemma same_ext_trans e s e1 s1 e2 s2 : same_ext e s e1 s1 -> same_ext e1 s1 e2 s2 -> same_ext e s e2 s2.
Proof.
  intros S1 S2. split.
  - apply S2.
  - by rewrite (se_clients _ _ _ _ S2), (se_clients _ _ _ _ S1).
  - by rewrite (se_owned _ _ _ _ S2), (se_owned _ _ _ _ S1).
  - intros c k. by rewrite (se_stored _ _ _ _ S2), (se_stored _ _ _ _ S1).
  - eapply same_app_trans; [apply S1|apply S2].
  - eapply same_buf_trans; [apply S1|apply S2].
  - by rewrite (se_stats _ _ _ _ S2), (se_stats _ _ _ _ S1).
  - pose proof (se_dbg _ _ _ _ S1). pose proof (se_dbg _ _ _ _ S2). lia.
Qed.

(** One attempt: accepted, or refused with one refusal less to come. *)
Lemma write_attempt c key v e s pg : ext_ok e (s_os s) -> c ∈ clients e ->
  buf_page (s_os s) v = Some pg -> v ∉ owned e -> v <> NULL ->
  exists ret err e' s', write c key v PAGE_SIZE (e, s) = Ok ((ret, err), (e', s')) /\
    (err < 0 -> same_ext e s e' s' /\ (write_debt e' < write_debt e)%nat) /\
    (0 <= err -> page_written c key v pg e s ret e' s').
Proof.
  intros Hok Hc Hv Hown Hnull.
  destruct (write_law c key v e s pg) as
    (ret & err & e1 & s1 & E & Hok1 & Hcl1 & Happ1 & Hbuf1 & Hst1 & Hd1 & Hneg & Hpos); try done.
  exists ret, err, e1, s1. split; [done|]. split; intros Herr.
  - destruct (Hneg Herr) as (? & ? & ?). by split.
  - destruct (Hpos Herr) as (? & ? & ? & ?). by split.
Qed.

Lemma same_ext_refl e s : ext_ok e (s_os s) -> same_ext e s e s.
Proof. intros H. split; try done. Qed.

(** Reporting a full memory changes nothing the retry loop depends on. *)
Lemma report_full_run cnt c key e s : ext_ok e (s_os s) -> c ∈ clients e ->
  exists e' s', report_full cnt (isFull c key) (e, s) = Ok (tt, (e', s')) /\
    same_ext e s e' s' /\ write_debt e' = write_debt e.
Proof.
  intros Hok Hc. unfold report_full. destruct (cnt mod NUM_ERRORS_TO_CHECK_ISFULL =? 0).
  2:{ exists e, s. split; [done|]. split; [by apply same_ext_refl|done]. }
  destruct (isFull_law c key e s) as (b & e2 & s2 & E2 & Hok2 & Hcl2 & Hown2 & Hd2 & Hsto2 & Happ2 & Hbuf2 & Hst2 & Hdb2);
    [done|done|]. unfold mbind, M_bind. rewrite E2. destruct b; cbn [mwhen].
  2:{ exists e2, s2. split; [done|]. by split. }
  unfold zoom, sys_log_recoverable_err, on_dbg, zoom, log_recoverable_err. mrun.
  destruct (exit_on_recoverable_error (s_dbg s2) =? 1); simpl; eexists _, _; (split; [reflexivity|]); (split; [|done]);
    split; try done; simpl; lia.
Qed.

Lemma writePage_loop_spec fuel cnt c key v e s pg : ext_ok e (s_os s) -> c ∈ clients e ->
  buf_page (s_os s) v = Some pg -> v ∉ owned e -> v <> NULL -> (write_debt e < fuel)%nat ->
  exists ret e' s', writePage_loop fuel cnt c key v (e, s) = Ok (ret, (e', s')) /\
    page_written c key v pg e s ret e' s'.
Proof.
  revert cnt e s. induction fuel as [|fuel IH]; intros cnt e s Hok Hc Hv Hown Hnull Hfuel; [lia|].
  destruct (write_attempt c key v e s pg) as (ret & err & e1 & s1 & E & Hneg & Hpos); try done.
  simpl. unfold mbind, M_bind. rewrite E. destruct (Z.ltb_spec err 0) as [Hlt|Hge].
  2:{ exists ret, e1, s1. split; [done|]. by apply Hpos. }
  destruct (Hneg Hlt) as [S1 Hdebt]. clear Hneg Hpos.
  assert (Hnext : forall e2 s2, same_ext e s e2 s2 -> (write_debt e2 < write_debt e)%nat ->
    exists ret e' s', writePage_loop fuel (s32 (cnt + 1)) c key v (e2, s2) = Ok (ret, (e', s')) /\
      page_written c key v pg e s ret e' s').
  { intros e2 s2 S2 Hd2. destruct (IH (s32 (cnt + 1)) e2 s2) as (r & e3 & s3 & E3 & W); try apply S2; try done.
    - by rewrite (se_clients _ _ _ _ S2).
    - by rewrite (same_buf_at _ _ _ (se_buf _ _ _ _ S2)).
    - by rewrite (se_owned _ _ _ _ S2).
    - lia.
    - exists r, e3, s3. split; [done|]. by eapply page_written_after. }
  destruct (report_full_run cnt c key e1 s1) as (e2 & s2 & E2 & S2 & Hd2); [apply S1|by rewrite (se_clients _ _ _ _ S1)|].
  rewrite E2. apply Hnext; [by eapply same_ext_trans|lia].
Qed.

End wrapper_spec.

(** * Writing several pages *)

(** The arguments of [multiWrite] and [multiRead]: keys, buffers and lengths. *)
Abbreviation request := (Z * ptr * Z)%type (only parsing).
Definition req_key (r : request) : Z := r.1.1.
Definition req_buf (r : request) : ptr := r.1.2.

Section batches.
Context `{X : ExternRAM} `{L : !ExternRAMLaws X}.
(** Where a backend that hands out its own buffers has a page. *)
Variable rests : ext -> ptr -> Z -> option ptr.

(** Whole pages under distinct keys, in distinct buffers that belong to the caller. *)
Record batch_ok (pages : list request) (e : ext) (o : os) : Prop := {
  bo_keys : NoDup (req_key <$> pages);
  bo_bufs : NoDup (req_buf <$> pages);
  bo_each : forall r, r ∈ pages ->
    r.2 = PAGE_SIZE /\ req_buf r <> NULL /\ (req_buf r ∉ owned e) /\ is_Some (buf_page o (req_buf r))
}.

(** Nothing outside the keys of the batch has changed. *)
Record batch_tried (c : ptr) (pages : list request) (e : ext) (s : sys) (e' : ext) (s' : sys) : Prop := {
  bt_ok : ext_ok e' (s_os s');
  bt_clients : clients e' = clients e;
  bt_app : same_app (s_os s) (s_os s');
  bt_buf : same_buf (s_os s) (s_os s');
  bt_stats : s_stats s' = s_stats s;
  bt_dbg : (sigint (s_dbg s) <= sigint (s_dbg s'))%nat;
  bt_other : forall c' k, ~ (c' = c /\ k ∈ req_key <$> pages) ->
    stored e' (s_os s') c' k = stored e (s_os s) c' k /\ rests e' c' k = rests e c' k
}.

(** Every page of the batch is stored; a buffer the caller is to free is not in use. *)
Record batch_written (c : ptr) (pages : list request) (e : ext) (s : sys) (free_values : bool)
    (data : list ptr) (e' : ext) (s' : sys) : Prop := {
  bw_tried : batch_tried c pages e s e' s';
  bw_stored : forall r, r ∈ pages -> stored e' (s_os s') c (req_key r) = buf_page (s_os s) (req_buf r);
  bw_owned : owned e' ⊆ list_to_set (req_buf <$> pages) ∪ owned e;
  bw_len : length data = length pages;
  bw_free : free_values = true -> NoDup (filter (fun q => q <> NULL) data) /\
    forall q, q ∈ data -> q <> NULL -> (q ∉ owned e') /\ (q ∈ req_buf <$> pages \/ q ∈ owned e)
}.
End batches.

(** What the write thread relies on, beyond [ExternRAMLaws]. *)
Class BatchLaws `{X : ExternRAM} (L : ExternRAMLaws X) := {
  at_rest : ext -> ptr -> Z -> option ptr;
  at_rest_owned : forall e o c k p, ext_ok e o -> at_rest e c k = Some p -> p ∈ owned e;
  (** A read that does not copy returns the buffer in which the page rests. *)
  read_at_rest : forall c key v e s len v' e' s', ext_ok e (s_os s) -> c ∈ clients e ->
    read c key v (e, s) = Ok ((len, v'), (e', s')) ->
    (forall c' k, at_rest e' c' k = at_rest e c' k) /\
    (copies_out = false -> len <> 0 -> at_rest e c key = Some v');
  multiWrite_law : forall c pages e s, ext_ok e (s_os s) -> c ∈ clients e -> batch_ok pages e (s_os s) ->
    exists sf err data e' s', multiWrite c pages (e, s) = Ok ((sf, err, data), (e', s')) /\
      (err < 0 -> batch_tried at_rest c pages e s e' s' /\ data = (req_buf <$> pages) /\ owned e' = owned e /\
                  (write_debt e' < write_debt e)%nat) /\
      (0 <= err -> batch_written at_rest c pages e s sf data e' s');
  isFullAll_law : forall c e s, ext_ok e (s_os s) -> c ∈ clients e ->
    exists b e' s', isFullAll c (e, s) = Ok (b, (e', s')) /\ same_ext e s e' s' /\
      write_debt e' = write_debt e /\ forall c' k, at_rest e' c' k = at_rest e c' k
}.

Section batch_spec.
Context `{X : ExternRAM} `{L : !ExternRAMLaws X} `{B : !BatchLaws L}.

Lemma batch_tried_trans c pages e s e1 s1 e2 s2 : batch_tried at_rest c pages e s e1 s1 ->
  batch_tried at_rest c pages e1 s1 e2 s2 -> batch_tried at_rest c pages e s e2 s2.
Proof.
  intros T1 T2. split; try apply T2.
  - by rewrite (bt_clients _ _ _ _ _ _ _ T2), (bt_clients _ _ _ _ _ _ _ T1).
  - eapply same_app_trans; [apply T1|apply T2].
  - eapply same_buf_trans; [apply T1|apply T2].
  - by rewrite (bt_stats _ _ _ _ _ _ _ T2), (bt_stats _ _ _ _ _ _ _ T1).
  - pose proof (bt_dbg _ _ _ _ _ _ _ T1). pose proof (bt_dbg _ _ _ _ _ _ _ T2). lia.
  - intros c' k Hn. destruct (bt_other _ _ _ _ _ _ _ T1 c' k Hn), (bt_other _ _ _ _ _ _ _ T2 c' k Hn).
    split; congruence.
Qed.

Lemma batch_written_after c pages e s e1 s1 sf data e' s' : batch_tried at_rest c pages e s e1 s1 ->
  owned e1 = owned e -> batch_written at_rest c pages e1 s1 sf data e' s' ->
  batch_written at_rest c pages e s sf data e' s'.
Proof.
  intros T Ho W. split; try apply W.
  - eapply batch_tried_trans; [done|apply W].
  - intros r Hr. rewrite (bw_stored _ _ _ _ _ _ _ _ _ W) by done. apply same_buf_at, T.
  - rewrite <- Ho. apply W.
  - rewrite <- Ho. apply W.
Qed.

Lemma report_full_all cnt c e s : ext_ok e (s_os s) -> c ∈ clients e ->
  exists e' s', report_full cnt (isFullAll c) (e, s) = Ok (tt, (e', s')) /\ same_ext e s e' s' /\
    write_debt e' = write_debt e /\ forall c' k, at_rest e' c' k = at_rest e c' k.
Proof.
  intros Hok Hc. unfold report_full. destruct (cnt mod NUM_ERRORS_TO_CHECK_ISFULL =? 0).
  2:{ exists e, s. split; [done|]. split; [by apply same_ext_refl|done]. }
  destruct (isFullAll_law c e s Hok Hc) as (b & e2 & s2 & E2 & S & Hd & Hr). unfold mbind, M_bind. rewrite E2.
  destruct b; cbn [mwhen]; [|by exists e2, s2].
  unfold zoom, sys_log_recoverable_err, on_dbg, zoom, log_recoverable_err. mrun.
  destruct (exit_on_recoverable_error (s_dbg s2) =? 1); simpl; eexists _, _; (split; [reflexivity|]);
    (split; [|done]); destruct S as [S1 S2 S3 S4 S5 S6 S7 S8]; split; try done; simpl; lia.
Qed.

Lemma same_requests (pages : list request) :
  zip_with (fun kpl p => (kpl.1.1, p, kpl.2)) pages (req_buf <$> pages) = pages.
Proof. induction pages as [|[[k p] l] pages IH]; [done|]. simpl. by f_equal. Qed.

Lemma batch_ok_tried c pages e s e' s' : batch_ok pages e (s_os s) -> batch_tried at_rest c pages e s e' s' ->
  owned e' = owned e -> batch_ok pages e' (s_os s').
Proof.
  intros [Hk Hb He] T Ho. split; [done|done|]. intros r Hr. destruct (He r Hr) as (? & ? & ? & ?).
  rewrite Ho. split; [done|]. split; [done|]. split; [done|]. by rewrite (same_buf_at _ _ _ (bt_buf _ _ _ _ _ _ _ T)).
Qed.

Lemma same_ext_tried c pages e s e' s' : same_ext e s e' s' -> (forall c' k, at_rest e' c' k = at_rest e c' k) ->
  batch_tried at_rest c pages e s e' s'.
Proof. intros [] Hr. by split. Qed.

(** The retry loop of [writePages] returns once the backend has accepted the batch. *)
Lemma writePages_loop_spec fuel cnt c pages e s : ext_ok e (s_os s) -> c ∈ clients e -> batch_ok pages e (s_os s) ->
  (write_debt e < fuel)%nat ->
  exists sf data e' s', writePages_loop fuel cnt c pages (e, s) = Ok ((sf, data), (e', s')) /\
    batch_written at_rest c pages e s sf data e' s'.
Proof.
  revert cnt e s. induction fuel as [|fuel IH]; intros cnt e s Hok Hc Hp Hf; [lia|].
  destruct (multiWrite_law c pages e s Hok Hc Hp) as (sf & err & data & e1 & s1 & E & Hneg & Hpos).
  cbn [writePages_loop]. unfold mbind, M_bind. rewrite E. destruct (Z.ltb_spec err 0) as [Hlt|Hge].
  2:{ exists sf, data, e1, s1. split; [done|by apply Hpos]. }
  destruct (Hneg Hlt) as (T1 & -> & Ho1 & Hd1).
  destruct (report_full_all cnt c e1 s1) as (e2 & s2 & E2 & S2 & Hd2 & Hr2);
    [apply T1|by rewrite (bt_clients _ _ _ _ _ _ _ T1)|].
  assert (T2 : batch_tried at_rest c pages e s e2 s2) by (eapply batch_tried_trans; [done|by apply same_ext_tried]).
  assert (Ho2 : owned e2 = owned e) by (rewrite (se_owned _ _ _ _ S2); done).
  rewrite E2, same_requests.
  destruct (IH (s32 (cnt + 1)) e2 s2) as (sf' & data & e' & s' & E3 & W);
    [apply T2|by rewrite (bt_clients _ _ _ _ _ _ _ T2)|by eapply batch_ok_tried|lia|].
  exists sf', data, e', s'. split; [done|by eapply batch_written_after].
Qed.
End batch_spec.
