(* ===== verification/Noop.v ===== *)
(** The no-op backend, [lib/externram/noop/externRAMClientImpl.cc]: every client
    holds a map from page addresses to buffers of the monitor process itself.  A
    write hands the buffer over and returns the one it replaces; a read replaces
    the caller's pointer by the stored one. *)
From S2P Require Import Prelude Config MonitorStats Os ExternRam.

(** The heap objects [newExternRAMClient] made, each with its [kv]. *)
Abbreviation kvStore := (gmap Z ptr) (only parsing).
Abbreviation noop := (gmap ptr (gmap Z ptr)) (only parsing).

Section externRAMClientImpl.
Context `{O : OS}.

(** A call through a client pointer. *)
Definition on_client {A} (c : ptr) (f : kvStore -> M sys (A * kvStore)) : M (noop * sys) A :=
  fun es =>
    match es.1 !! c with
    | None => UB NullDeref
    | Some kv =>
        match f kv es.2 with
        | Ok ((a, kv'), s) => Ok (a, (<[c := kv']> es.1, s))
        | UB x => UB x
        | Blocked => Blocked
        end
    end.

Definition noop_create (config : string) (upid_val : Z) : M (noop * sys) ptr := fun es =>
  let c := fresh_ptr es.1 in Ok (c, (<[c := ∅]> es.1, es.2)).

Definition noop_write (key : Z) (value : ptr) (size : Z) (kv : kvStore)
  : M sys (ptr * Z * kvStore) :=
  match kv !! key with
  | Some old => mret ((old, 0), <[key := value]> kv)
  | None => mret ((NULL, 0), <[key := value]> kv)
  end.

Definition noop_read (key : Z) (value : ptr) (kv : kvStore) : M sys (Z * ptr * kvStore) :=
  match kv !! key with
  | Some p => mret ((PAGE_SIZE, p), kv)
  | None => mret ((0, value), kv)
  end.

(** The loops of [multiRead] and [multiWrite] over the parallel arrays. *)
Fixpoint noop_multiRead (pages : list (Z * ptr * Z)) (kv : kvStore)
  : M sys (Z * list (ptr * Z) * kvStore) :=
  match pages with
  | [] => mret ((0, []), kv)
  | (key, buf, _) :: pages =>
      '((len, buf'), kv) ← noop_read key buf kv;
      '((n, bufs), kv) ← noop_multiRead pages kv;
      mret ((n + (if len <=? 0 then 0 else 1), (buf', len) :: bufs), kv)
  end.

Fixpoint noop_multiWrite (pages : list (Z * ptr * Z)) (kv : kvStore)
  : M sys (bool * Z * list ptr * kvStore) :=
  match pages with
  | [] => mret ((false, 0, []), kv)
  | (key, buf, len) :: pages =>
      '((ret, read_err), kv) ← noop_write key buf len kv;
      '((should_free, err, data), kv) ← noop_multiWrite pages kv;
      mret (((negb (bool_decide (ret = NULL)) || should_free)%bool,
             if (err =? 0) && (read_err <? 0) then read_err else err, ret :: data), kv)
  end.

Definition noop_remove (key : Z) (kv : kvStore) : M sys (Z * kvStore) :=
  match kv !! key with
  | Some p => sys_munmap p;; mret (1, delete key kv)
  | None => mret (0, kv)
  end.

#[export] Instance Noop : ExternRAM := {
  ext := noop;
  create := noop_create;
  write c key v size := on_client c (noop_write key v size);
  multiWrite c pages := on_client c (noop_multiWrite pages);
  read c key v := on_client c (noop_read key v);
  multiRead c pages := on_client c (noop_multiRead pages);
(** [read_top] and [multiRead_top] do nothing. *)
  read_top c key v := on_client c (fun kv => mret (tt, kv));
  read_bottom c key v := on_client c (noop_read key v);
  multiRead_top c pages :=
    on_client c (fun kv => mret ((fun kpl => (kpl.1.2, kpl.2)) <$> pages, kv));
  multiRead_bottom c pages := on_client c (noop_multiRead pages);
  remove c key := on_client c (noop_remove key);
(** Not overridden: the methods of the base class.  [getUsage] has an empty
      body and a result type. *)
  isFull c key := on_client c (fun kv => mret (false, kv));
  isFullAll c := on_client c (fun kv => mret (false, kv));
  getUsage c := on_client c (fun kv => mub MissingReturn)
}.
End externRAMClientImpl.

(** * The contract *)

Section laws.
Context `{O : OS} {OL : OSLaws O}.

Definition noop_at (e : noop) (c : ptr) (k : Z) : option ptr := kv ← e !! c; kv !! k.

Definition noop_stored (e : noop) (o : os) (c : ptr) (k : Z) : option page :=
  p ← noop_at e c k; buf_page o p.

(** All buffers of all stores. *)
Definition kv_ptrs (kv : kvStore) : gset ptr := map_to_set (fun _ p => p) kv.
Definition noop_owned (e : noop) : gset ptr := ⋃ (kv_ptrs <$> (map_to_list e).*2).

(** Stored buffers are mapped, and no buffer is stored twice. *)
Record noop_ok (e : noop) (o : os) : Prop := {
  no_mapped : forall c k p, noop_at e c k = Some p -> is_Some (buf_page o p) /\ p <> NULL;
  no_inj : forall c k c' k' p, noop_at e c k = Some p -> noop_at e c' k' = Some p -> c = c' /\ k = k'
}.

Lemma elem_of_noop_owned (e : noop) p : p ∈ noop_owned e <-> exists c k, noop_at e c k = Some p.
Proof.
  unfold noop_owned, noop_at, kv_ptrs. rewrite elem_of_union_list. split.
  - intros (X & HX & Hp). apply list_elem_of_fmap in HX as (kv & -> & Hkv).
    apply list_elem_of_fmap in Hkv as ([c kv'] & -> & Hc). apply elem_of_map_to_list in Hc.
    apply elem_of_map_to_set in Hp as (k & q & Hk & <-). exists c, k. simpl in Hc. by rewrite Hc.
  - intros (c & k & E). destruct (e !! c) as [kv|] eqn:Ec; [|done]. simpl in E.
    exists (map_to_set (fun _ p => p) kv). split.
    + apply list_elem_of_fmap. exists kv. split; [done|]. apply list_elem_of_fmap. exists (c, kv).
      split; [done|]. by apply elem_of_map_to_list.
    + apply elem_of_map_to_set. eauto.
Qed.

Lemma noop_at_insert (e : noop) c kv c' k :
  noop_at (<[c := kv]> e) c' k = if decide (c = c') then kv !! k else noop_at e c' k.
Proof.
  unfold noop_at. case_decide as E; [subst; by rewrite lookup_insert_eq|by rewrite lookup_insert_ne].
Qed.

Lemma noop_at_client (e : noop) c kv k : e !! c = Some kv -> noop_at e c k = kv !! k.
Proof. unfold noop_at. by intros ->. Qed.

(** Storing a buffer at a key. *)
Lemma noop_at_put (e : noop) c kv key v c' k : e !! c = Some kv ->
  noop_at (<[c := <[key := v]> kv]> e) c' k =
  if decide (c' = c /\ k = key) then Some v else noop_at e c' k.
Proof.
  intros Hc. rewrite noop_at_insert. destruct (decide (c = c')) as [<-|Hne].
  - rewrite (noop_at_client e c kv) by done. destruct (decide (k = key)) as [->|Hk].
    + by rewrite lookup_insert_eq, decide_True.
    + rewrite lookup_insert_ne, decide_False by (done || by intros [??]). done.
  - by rewrite decide_False by (intros [-> ?]; done).
Qed.

Lemma noop_at_delete (e : noop) c kv key c' k : e !! c = Some kv ->
  noop_at (<[c := delete key kv]> e) c' k =
  if decide (c' = c /\ k = key) then None else noop_at e c' k.
Proof.
  intros Hc. rewrite noop_at_insert. destruct (decide (c = c')) as [<-|Hne].
  - rewrite (noop_at_client e c kv) by done. destruct (decide (k = key)) as [->|Hk].
    + by rewrite lookup_delete_eq, decide_True.
    + rewrite lookup_delete_ne, decide_False by (done || by intros [??]). done.
  - by rewrite decide_False by (intros [-> ?]; done).
Qed.

Lemma noop_stored_ext (e e' : noop) (o o' : os) c k :
  noop_at e' c k = noop_at e c k ->
  (forall p, noop_at e c k = Some p -> buf_page o' p = buf_page o p) ->
  noop_stored e' o' c k = noop_stored e o c k.
Proof.
  intros Ha Hb. unfold noop_stored. rewrite Ha. destruct (noop_at e c k) as [p|] eqn:E; [|done].
  simpl. by apply Hb.
Qed.

Lemma noop_frame (e : noop) (o o' : os) : noop_ok e o ->
  (forall p, p ∈ noop_owned e -> buf_page o' p = buf_page o p) ->
  noop_ok e o' /\ forall c k, noop_stored e o' c k = noop_stored e o c k.
Proof.
  intros Hok Hf.
  assert (Hf' : forall c k p, noop_at e c k = Some p -> buf_page o' p = buf_page o p).
  { intros c k p Hp. apply Hf, elem_of_noop_owned. eauto. }
  split; [split|].
  - intros c k p Hp. rewrite (Hf' c k p Hp). by eapply Hok.
  - apply Hok.
  - intros c k. apply noop_stored_ext; [done|]. intros p. apply Hf'.
Qed.

(** Handing a fresh buffer over. *)
Lemma noop_put_ok (e : noop) (o : os) c kv key v pg : noop_ok e o -> e !! c = Some kv ->
  buf_page o v = Some pg -> v ∉ noop_owned e -> v <> NULL ->
  let e' := <[c := <[key := v]> kv]> e in
  noop_ok e' o /\
  (forall c' k, noop_stored e' o c' k = if decide (c' = c /\ k = key) then Some pg else noop_stored e o c' k) /\
  noop_owned e' ⊆ ({[v]} ∪ noop_owned e) /\
  (forall old, kv !! key = Some old -> (old ∉ noop_owned e') /\ old ∈ noop_owned e).
Proof.
  intros Hok Hc Hv Hn Hnull e'.
  assert (Hat : forall c' k, noop_at e' c' k = if decide (c' = c /\ k = key) then Some v else noop_at e c' k).
  { intros. by apply noop_at_put. }
  assert (Hnv : forall c k, noop_at e c k <> Some v).
  { intros c' k E. apply Hn, elem_of_noop_owned. eauto. }
  split; [split|split; [|split]].
  - intros c' k p. rewrite Hat. case_decide; [|by apply Hok]. intros [= <-]. eauto.
  - intros c1 k1 c2 k2 p. rewrite !Hat. repeat case_decide; destruct_and?; subst; try done.
    + by intros [= <-] ?%Hnv.
    + intros ? [= <-]. by destruct (Hnv c1 k1).
    + by apply Hok.
  - intros c' k. unfold noop_stored. rewrite Hat. by case_decide.
  - intros p (c' & k & E)%elem_of_noop_owned. rewrite Hat in E.
    case_decide; [set_solver|]. apply elem_of_union. right. apply elem_of_noop_owned. eauto.
  - intros old Hold. assert (Ho : noop_at e c key = Some old) by by rewrite (noop_at_client e c kv).
    split; [|apply elem_of_noop_owned; eauto].
    intros (c' & k & E)%elem_of_noop_owned. rewrite Hat in E. case_decide as D.
    + injection E as ->. by apply (Hnv c key).
    + destruct (no_inj _ _ Hok _ _ _ _ _ E Ho). by destruct D.
Qed.

Lemma noop_remove_ok (e : noop) (o o' : os) c kv key p : noop_ok e o -> e !! c = Some kv ->
  kv !! key = Some p -> same_buf_but {[p]} o o' ->
  let e' := <[c := delete key kv]> e in
  noop_ok e' o' /\ noop_owned e' ⊆ noop_owned e /\
  (forall c' k, noop_stored e' o' c' k = if decide (c' = c /\ k = key) then None else noop_stored e o c' k) /\
  (p ∉ noop_owned e') /\ p ∈ noop_owned e.
Proof.
  intros Hok Hc Hp Hb e'.
  assert (Hat : forall c' k, noop_at e' c' k = if decide (c' = c /\ k = key) then None else noop_at e c' k).
  { intros. by apply noop_at_delete. }
  assert (Ho : noop_at e c key = Some p) by by rewrite (noop_at_client e c kv).
  assert (Hne : forall c' k q, ~ (c' = c /\ k = key) -> noop_at e c' k = Some q -> q <> p).
  { intros c' k q D Hq ->. by destruct D, (no_inj _ _ Hok _ _ _ _ _ Hq Ho). }
  assert (Hq : forall c' k q, ~ (c' = c /\ k = key) -> noop_at e c' k = Some q -> buf_page o' q = buf_page o q).
  { intros c' k q D E. apply Hb. apply not_elem_of_singleton. by eapply Hne. }
  split; [split|split; [|split; [|split]]].
  - intros c' k q. rewrite Hat. case_decide as D; [done|]. intros E. rewrite (Hq _ _ _ D E). by eapply Hok.
  - intros c1 k1 c2 k2 q. rewrite !Hat. repeat case_decide; try done. by apply Hok.
  - intros q (c' & k & E)%elem_of_noop_owned. rewrite Hat in E. case_decide; [done|].
    apply elem_of_noop_owned. eauto.
  - intros c' k. case_decide as D; unfold noop_stored at 1; rewrite Hat.
    + by rewrite decide_True.
    + rewrite decide_False by done. unfold noop_stored. destruct (noop_at e c' k) as [q|] eqn:E; [|done].
      simpl. by apply (Hq c' k).
  - intros (c' & k & E)%elem_of_noop_owned. rewrite Hat in E. case_decide as D; [done|]. by apply (Hne c' k p).
  - apply elem_of_noop_owned. eauto.
Qed.

Lemma elem_of_clients (e : noop) c : c ∈ dom e -> exists kv, e !! c = Some kv.
Proof. intros [kv ?]%elem_of_dom. by exists kv. Qed.

Lemma noop_create_ok (e : noop) (s : sys) : noop_ok e (s_os s) ->
  let c := fresh_ptr e in let e' := <[c := ∅]> e in
  noop_ok e' (s_os s) /\ same_app (s_os s) (s_os s) /\ same_buf (s_os s) (s_os s) /\
  noop_owned e' = noop_owned e /\ (sigint (s_dbg s) <= sigint (s_dbg s))%nat /\
  (forall c' k, c' <> c -> noop_stored e' (s_os s) c' k = noop_stored e (s_os s) c' k) /\
  (c = NULL -> dom e' = dom e) /\ (c <> NULL -> (c ∉ dom e) /\ dom e' = {[c]} ∪ dom e).
Proof.
  intros Hok c e'. pose proof (fresh_ptr_fresh e) as Hf. pose proof (fresh_ptr_pos e) as Hp. fold c in Hf, Hp.
  assert (Hat : forall c' k, noop_at e' c' k = noop_at e c' k).
  { intros c' k. unfold e'. rewrite noop_at_insert. case_decide as E; [|done]. subst c'.
    unfold noop_at. rewrite Hf. by rewrite lookup_empty. }
  split; [split|split; [by intros ? ?|split; [by intros ? _|split; [|split; [lia|split; [|split]]]]]].
  - intros c' k p. rewrite Hat. by apply Hok.
  - intros c1 k1 c2 k2 p. rewrite !Hat. by apply Hok.
  - apply set_eq. intros p. rewrite !elem_of_noop_owned. by setoid_rewrite Hat.
  - intros c' k _. unfold noop_stored. by rewrite Hat.
  - unfold NULL. lia.
  - intros _. split; [by apply not_elem_of_dom|apply dom_insert_L].
Qed.

#[export] Instance noop_laws : ExternRAMLaws Noop.
Proof.
  refine {| stored := noop_stored; owned := noop_owned; clients := (fun e : noop => dom e);
            write_debt := (fun _ => 0%nat); ext_ok := noop_ok; copies_out := false |}.
  - apply noop_frame.
  - intros e o p Hok (c & k & E)%elem_of_noop_owned. by eapply Hok.
  - intros config upid e s Hok. exists (fresh_ptr e). eexists _, s. split; [reflexivity|]. by apply noop_create_ok.
  - intros c key v e s pg Hok [kv Hc]%elem_of_clients Hv Hn Hnull.
    destruct (noop_put_ok e (s_os s) c kv key v pg) as (Hok' & Hst & Hown & Hold); try done.
    simpl. unfold on_client, noop_write. simpl. rewrite Hc.
    destruct (kv !! key) as [old|] eqn:Ek; eexists _, _, _, s; (split; [reflexivity|]); simpl.
    all: split; [done|]; split; [by rewrite dom_insert_L, subseteq_union_1_L by
           (apply singleton_subseteq_l, elem_of_dom; eauto)|].
    all: split; [by intros u a|]; split; [by intros p _|]; split; [done|]; split; [lia|]; split; [lia|]; intros _.
    all: split; [done|]; split; [done|]; split; [done|]; try done.
    intros _. destruct (Hold old eq_refl). set_solver.
  - intros c key v e s Hok [kv Hc]%elem_of_clients _.
    simpl. unfold on_client, noop_read. simpl. rewrite Hc.
    destruct (kv !! key) as [p|] eqn:Ek; eexists _, _, _, s; (split; [reflexivity|]); simpl;
      rewrite (insert_id e c kv) by done.
    all: split; [done|]; split; [done|]; split; [done|]; split; [done|]; split; [by intros u a|].
    all: split; [by intros q _|]; split; [done|]; split; [done|]; split; [done|].
    all: unfold noop_stored; rewrite (noop_at_client e c kv), Ek by done; simpl; try done.
    destruct (no_mapped _ _ Hok c key p) as [[pg Hpg] _]; [by rewrite (noop_at_client e c kv)|].
    by rewrite Hpg.
  - intros c key e s Hok [kv Hc]%elem_of_clients.
    simpl. unfold on_client, noop_remove. simpl. rewrite Hc.
    destruct (kv !! key) as [p|] eqn:Ek.
    + unfold sys_munmap, syscall0, syscall. mrun. destruct (munmap_page p (s_os s)) as [r o'] eqn:Em.
      destruct (munmap_app _ _ _ _ Em) as [Happ Hbuf].
      destruct (noop_remove_ok e (s_os s) o' c kv key p) as (Hok' & Hown & Hst & Hp & Hp'); try done.
      eexists _, _, _. split; [reflexivity|]. simpl. split; [done|].
      split; [by rewrite dom_insert_L, subseteq_union_1_L by
           (apply singleton_subseteq_l, elem_of_dom; eauto)|].
      split; [done|]. split; [done|]. split; [done|]. split.
      * intros q Hq. apply Hbuf. set_solver.
      * split; [|done]. intros _. unfold noop_stored. rewrite (noop_at_client e c kv), Ek by done. simpl.
        apply (no_mapped _ _ Hok c key). by rewrite (noop_at_client e c kv).
    + eexists _, _, s. split; [reflexivity|]. simpl. rewrite (insert_id e c kv) by done.
      split; [done|]. split; [done|]. split; [done|]. split.
      * intros c' k. case_decide as D; [|done]. destruct D as [-> ->]. unfold noop_stored.
        by rewrite (noop_at_client e c kv), Ek.
      * split; [by intros u a|]. split; [by intros q _|]. split; [done|].
        unfold noop_stored. rewrite (noop_at_client e c kv), Ek by done. by intros [? ?].
  - intros c key e s Hok [kv Hc]%elem_of_clients. simpl. unfold on_client. simpl. rewrite Hc.
    eexists _, _, s. split; [reflexivity|]. simpl. rewrite (insert_id e c kv) by done.
    split; [done|]. split; [done|]. split; [done|]. split; [done|]. split; [done|].
    split; [by intros u a|]. split; [by intros q _|]. split; [done|lia].
Defined.
End laws.

(** * Batches *)

Section batch_laws.
Context `{O : OS} {OL : OSLaws O}.
Local Existing Instance noop_laws.

(** The buffers a batch leaves to its caller are not in use, whether or not it asks
    for them to be freed. *)
Definition released (pages : list request) (e e' : noop) (data : list ptr) : Prop :=
  NoDup (filter (fun q => q <> NULL) data) /\
  forall q, q ∈ data -> q <> NULL -> (q ∉ noop_owned e') /\ (q ∈ req_buf <$> pages \/ q ∈ noop_owned e).

Lemma batch_ok_cons r pages (e e1 : noop) (o : os) : batch_ok (r :: pages) e o ->
  noop_owned e1 ⊆ {[req_buf r]} ∪ noop_owned e -> batch_ok pages e1 o.
Proof.
  intros [Hk Hb He] Ho. rewrite fmap_cons in Hk. rewrite fmap_cons in Hb.
  apply NoDup_cons in Hk as [_ Hk]. apply NoDup_cons in Hb as [Hr Hb]. split; [done|done|].
  intros x Hx. destruct (He x) as (H1 & H2 & H3 & H4); [by right|]. split; [done|]. split; [done|]. split; [|done].
  intros [H|H]%Ho%elem_of_union; [|done]. apply elem_of_singleton in H. apply Hr. rewrite <- H.
  by apply list_elem_of_fmap_2.
Qed.

(** The first write of a batch, then the others. *)
Lemma batch_written_cons c key v l pages kv (e : noop) s data e' ret : noop_ok e (s_os s) -> e !! c = Some kv ->
  ret = default NULL (kv !! key) -> batch_ok ((key, v, l) :: pages) e (s_os s) ->
  let e1 := <[c := <[key := v]> kv]> e in
  batch_written noop_at c pages e1 s false data e' s -> released pages e1 e' data ->
  batch_written noop_at c ((key, v, l) :: pages) e s false (ret :: data) e' s /\
  released ((key, v, l) :: pages) e e' (ret :: data).
Proof.
  intros Hok Hc -> Hb e1 W [Hnd Hrel]. pose proof Hb as [Hk Hbufs Heach].
  destruct (Heach (key, v, l)) as (_ & Hnull & Hown & [pg Hpg]); [by left|].
  destruct (noop_put_ok e (s_os s) c kv key v pg) as (Hok1 & Hst1 & Ho1 & Hold); try done. fold e1 in Hok1, Hst1, Ho1, Hold.
  rewrite fmap_cons in Hk. rewrite fmap_cons in Hbufs. apply NoDup_cons in Hk as [Hkn Hk]. apply NoDup_cons in Hbufs as [Hvn Hbn].
  pose proof (bw_tried _ _ _ _ _ _ _ _ _ W) as T. pose proof (bw_owned _ _ _ _ _ _ _ _ _ W) as Ho.
  assert (Hoth : forall q, q ∈ noop_owned e -> q ∉ req_buf <$> pages).
  { intros q Hq (r & -> & Hr)%list_elem_of_fmap. destruct (Heach r) as (_ & _ & H & _); [by right|done]. }
  assert (Hgone : forall old, kv !! key = Some old -> (old ∉ noop_owned e') /\ old ∉ data \/ old = NULL).
  { intros old Eo. destruct (decide (old = NULL)); [by right|left]. destruct (Hold old Eo) as [H1 H2]. split.
    - intros [H|H]%Ho%elem_of_union; [apply elem_of_list_to_set in H; by apply (Hoth old)|done].
    - intros Hd. destruct (Hrel old Hd) as [_ [H|H]]; [done|by apply (Hoth old)|done]. }
  split; [split|split].
  - split; try apply T.
    + rewrite (bt_clients _ _ _ _ _ _ _ T). change (dom e1 = dom e). unfold e1. rewrite dom_insert_L, subseteq_union_1_L; [done|].
      apply singleton_subseteq_l, elem_of_dom. eauto.
    + intros c' k Hn. destruct (bt_other _ _ _ _ _ _ _ T c' k) as [H1 H2]; [rewrite fmap_cons in Hn; set_solver|].
      rewrite H1, H2. simpl. rewrite Hst1. unfold e1. rewrite noop_at_put by done.
      rewrite !decide_False by (intros [-> ->]; apply Hn; split; [done|by left]). done.
  - intros r [->|Hr]%elem_of_cons; [|by apply (bw_stored _ _ _ _ _ _ _ _ _ W)].
    destruct (bt_other _ _ _ _ _ _ _ T c key) as [H1 _]; [by intros [_ ?]|].
    simpl in H1 |- *. unfold req_key. simpl. by rewrite H1, Hst1, decide_True, Hpg.
  - intros q [H|H]%Ho%elem_of_union; [apply elem_of_union_l; set_solver +H|].
    apply Ho1 in H. apply elem_of_union in H as [H|H]; [apply elem_of_union_l; set_solver +H|by apply elem_of_union_r].
  - simpl. f_equal. apply W.
  - done.
  - destruct (decide (default NULL (kv !! key) = NULL)) as [En|En].
    { by rewrite filter_cons_False by tauto. }
    rewrite filter_cons_True by done. apply NoDup_cons. split; [|done]. intros [_ Hd]%list_elem_of_filter.
    destruct (kv !! key) as [old|] eqn:Eo; [|done]. simpl in *. by destruct (Hgone old eq_refl) as [[_ ?]|?].
  - intros q [->|Hq]%elem_of_cons Hqn.
    + destruct (kv !! key) as [old|] eqn:Eo; [|done]. simpl in *. destruct (Hgone old eq_refl) as [[? _]|?]; [|done].
      split; [done|]. right. by apply (Hold old).
    + destruct (Hrel q Hq Hqn) as [H1 H2]. split; [done|]. rewrite fmap_cons. clear -H2 Ho1. set_solver.
Qed.

Lemma noop_multiWrite_spec c pages : forall kv (e : noop) (s : sys), noop_ok e (s_os s) -> e !! c = Some kv ->
  batch_ok pages e (s_os s) ->
  exists sf data kv', noop_multiWrite pages kv s = Ok (((sf, 0, data), kv'), s) /\
    batch_written noop_at c pages e s false data (<[c := kv']> e) s /\
    released pages e (<[c := kv']> e) data.
Proof.
  induction pages as [|[[key v] l] pages IH]; intros kv e s Hok Hc Hb.
  - exists false, [], kv. split; [done|]. rewrite insert_id by done. split; [|split; [by constructor|set_solver]].
    split; [|set_solver|simpl; set_solver|done|done]. by split.
  - pose proof Hb as [_ _ He]. destruct (He (key, v, l)) as (_ & Hnull & Hown & [pg Hpg]); [by left|].
    destruct (noop_put_ok e (s_os s) c kv key v pg) as (Hok1 & Hst1 & Ho1 & Hold); try done.
    set (e1 := <[c := <[key := v]> kv]> e) in *.
    destruct (IH (<[key := v]> kv) e1 s Hok1) as (sf & data & kv' & E & W & R).
    { apply lookup_insert_eq. }
    { by eapply batch_ok_cons. }
    unfold e1 in W, R. rewrite insert_insert_eq in W, R.
    destruct (batch_written_cons c key v l pages kv e s data (<[c := kv']> e) _ Hok Hc eq_refl Hb W R) as [W' R'].
    exists (negb (bool_decide (default NULL (kv !! key) = NULL)) || sf)%bool. eexists _, kv'. split; [|by split].
    cbn [noop_multiWrite]. unfold noop_write. destruct (kv !! key); unfold mbind, M_bind, mret, M_ret; rewrite E; done.
Qed.

#[export] Instance noop_batch_laws : BatchLaws noop_laws.
Proof.
  refine {| at_rest := noop_at |}.
  - intros e o c k p _ E. apply elem_of_noop_owned. eauto.
  - intros c key v e s len v' e' s' Hok [kv Hc]%elem_of_clients. simpl. unfold on_client, noop_read. simpl. rewrite Hc.
    destruct (kv !! key) as [p|] eqn:Ek; unfold mret, M_ret; intros [= <- <- <- <-]; rewrite (insert_id e c kv) by done;
      (split; [done|]); [|done]. intros _ _. by rewrite (noop_at_client e c kv).
  - intros c pages e s Hok [kv Hc]%elem_of_clients Hb.
    destruct (noop_multiWrite_spec c pages kv e s Hok Hc Hb) as (sf & data & kv' & E & W & R).
    exists sf, 0, data, (<[c := kv']> e), s. split; [|split; [lia|intros _]].
    + simpl. unfold on_client. simpl. by rewrite Hc, E.
    + destruct W as [W1 W2 W3 W4 _]. by split.
  - intros c e s Hok [kv Hc]%elem_of_clients. exists false, e, s. split; [|split; [|done]].
    + simpl. unfold on_client. simpl. rewrite Hc. simpl. by rewrite (insert_id e c kv).
    + by apply same_ext_refl.
Defined.
End batch_laws.
