(* ===== verification/Memcached.v ===== *)
(** The memcached backend, [lib/externram/memcached/externRAMClientImpl.cc]: pages are
    stored under the hexadecimal text of their address, in a namespace of their process.

    The library libmemcached, with the servers behind it, is a parameter; [MemcachedLaws]
    states what the theorems use of its documentation.  A block the library allocates and
    the method frees is a value here.  The waits between attempts are left out. *)
From S2P Require Import Prelude Text Config MonitorStats Os ExternRam.

Definition KEYSTR_LEN : nat := 12.

Inductive memcached_return_t : Set :=
| MEMCACHED_SUCCESS
| MEMCACHED_NOTFOUND
| MEMCACHED_SERVER_MEMORY_ALLOCATION_FAILURE
| MEMCACHED_SERVER_TEMPORARILY_DISABLED
| MEMCACHED_OTHER (code : Z).
#[export] Instance memcached_return_eq_dec : EqDecision memcached_return_t.
Proof. solve_decision. Defined.

Abbreviation value := (list Byte.byte) (only parsing).

Class Libmemcached := {
  mc : Type;
  memcached_pool : text -> mc -> ptr * mc;
  memcached_pool_pop : ptr -> mc -> (ptr * memcached_return_t) * mc;
  memcached_pool_push : ptr -> ptr -> mc -> mc;
  memcached_pool_destroy : ptr -> mc -> mc;
  memcached_set : ptr -> text -> value -> mc -> memcached_return_t * mc;
  (** The value, [None] for a null pointer. *)
  memcached_get : ptr -> text -> mc -> (option value * memcached_return_t) * mc;
  memcached_mget : ptr -> list text -> mc -> memcached_return_t * mc;
  (** The next value of the last [memcached_mget], with its key. *)
  memcached_fetch : ptr -> mc -> (option (text * value) * memcached_return_t) * mc;
  memcached_delete : ptr -> text -> mc -> memcached_return_t * mc
}.

(** An object of the class.  A byte of a block of [hashcodeStrings] that was never
    written is [None]. *)
Record mc_client := McClient {
  myClient : ptr;
  myClient_write : ptr;
  myClient_multiread : ptr;
  hashcodeStrings : list (list (option Z))
}.

(** The globals of the file, the objects, and the library. *)
Record mc_state `{Libmemcached} := McState {
  mc_lib : mc;
  locator : text;
  pool : ptr;
  pool_write : ptr;
  pool_multiread : ptr;
  mc_objs : gmap ptr mc_client
}.
Arguments McState {_} _ _ _ _ _ _.

(** [sprintf(block, "%lx", hashcode)]: the digits and a zero. *)
Definition sprintf_block (hashcode : Z) (block : list (option Z)) : outcome (list (option Z)) :=
  let s := print_lx hashcode ++ [0] in
  if decide (length s <= length block)%nat then Ok ((Some <$> s) ++ drop (length s) block) else UB OutOfBounds.
(** The first [KEYSTR_LEN] bytes of a block, as a key of [key_lengths]. *)
Definition block_key (block : list (option Z)) : outcome text :=
  match mapM id (take KEYSTR_LEN block) with Some s => Ok s | None => UB Uninitialised end.
(** [sprintf] into an array of [room] characters. *)
Definition key_text (room : nat) (hashcode : Z) : outcome text :=
  let s := print_lx hashcode in if decide (length s < room)%nat then Ok s else UB OutOfBounds.

Section externRAMClientImpl.
Context `{OSI : OS} `{LM : Libmemcached} `{F : BuildFlags}.

Abbreviation mcs := (mc_state * sys)%type (only parsing).

Definition lib {A} (f : mc -> A * mc) : M mcs A := fun es =>
  let '(a, l) := f (mc_lib es.1) in
  Ok (a, (McState l (locator es.1) (pool es.1) (pool_write es.1) (pool_multiread es.1) (mc_objs es.1), es.2)).
Definition mc_sys {A} (m : M sys A) : M mcs A := zoom snd (fun s es => (es.1, s)) m.
Definition obj (c : ptr) : M mcs mc_client := fun es =>
  match mc_objs es.1 !! c with Some o => Ok (o, es) | None => UB NullDeref end.
Definition set_obj (c : ptr) (o : mc_client) : M mcs unit := mmod (fun es =>
  (McState (mc_lib es.1) (locator es.1) (pool es.1) (pool_write es.1) (pool_multiread es.1) (<[c := o]> (mc_objs es.1)), es.2)).

(** ** Construction and destruction *)

(** [locatorStr] has room for 200 bytes. *)
Definition locator_of (config : text) (upid : Z) : text :=
  take 199 (config ++ txt " --HASH-WITH-NAMESPACE --NAMESPACE=" ++ [34] ++ print_u upid ++ [34]).

(** A connection from a new pool. *)
Definition connect_pool : M mcs (ptr * ptr) :=
  l ← mgets (fun es => locator es.1);
  p ← lib (memcached_pool l);
  '(c, rc) ← lib (memcached_pool_pop p);
  mwhen (negb (bool_decide (rc = MEMCACHED_SUCCESS))) (mc_sys sys_log_err);;
  mret (p, c).

Definition mc_create (config : string) (upid : Z) : M mcs ptr :=
  mmod (fun es => (McState (mc_lib es.1) (locator_of (txt config) upid) (pool es.1) (pool_write es.1)
                     (pool_multiread es.1) (mc_objs es.1), es.2));;
  '(p, c) ← connect_pool;
  '(pw, cw) ← (if THREADED_WRITE_TO_EXTERNRAM then connect_pool else mgets (fun es => (pool_write es.1, NULL)));
  '(pm, cm) ← (if THREADED_PREFETCH then connect_pool else mgets (fun es => (pool_multiread es.1, NULL)));
  this ← mgets (fun es => fresh_ptr (mc_objs es.1));
  mmod (fun es =>
    (McState (mc_lib es.1) (locator es.1) p pw pm
       (<[this := McClient c cw cm (replicate (Z.to_nat MAX_MULTI_READ) (replicate (KEYSTR_LEN + 1) None))]> (mc_objs es.1)), es.2));;
  mret this.

(** The destructor: every connection goes back to [pool]. *)
Definition mc_destroy (c : ptr) : M mcs unit :=
  o ← obj c;
  p ← mgets (fun es => pool es.1);
  lib (fun l => (tt, memcached_pool_push p (myClient o) l));;
  mwhen THREADED_WRITE_TO_EXTERNRAM (lib (fun l => (tt, memcached_pool_push p (myClient_write o) l)));;
  mwhen THREADED_PREFETCH (lib (fun l => (tt, memcached_pool_push p (myClient_multiread o) l)));;
  lib (fun l => (tt, memcached_pool_destroy p l));;
  pw ← mgets (fun es => pool_write es.1);
  mwhen THREADED_WRITE_TO_EXTERNRAM (lib (fun l => (tt, memcached_pool_destroy pw l)));;
  pm ← mgets (fun es => pool_multiread es.1);
  mwhen THREADED_PREFETCH (lib (fun l => (tt, memcached_pool_destroy pm l)));;
  mmod (fun es => (McState (mc_lib es.1) (locator es.1) (pool es.1) (pool_write es.1) (pool_multiread es.1)
                     (delete c (mc_objs es.1)), es.2)).

(** ** One page *)

(** [size] bytes of the buffer. *)
Definition load_bytes (p : ptr) (size : Z) : M mcs value :=
  pg ← mc_sys (sys_load p);
  if decide (size <= Z.of_nat (length pg)) then mret (take (Z.to_nat size) pg) else mub OutOfBounds.
(** [memcpy] to the start of the buffer. *)
Definition store_bytes (p : ptr) (v : value) : M mcs unit :=
  if decide (v = []) then mret tt
  else
    pg ← mc_sys (sys_load p);
    if decide (length v <= length pg)%nat then mc_sys (sys_store p (v ++ drop (length v) pg)) else mub OutOfBounds.

(** [write]: a server that is full or down is asked again. *)
Fixpoint mc_write_loop (fuel : nat) (client : ptr) (key : text) (v : value) (data : ptr) : M mcs (ptr * Z) :=
  rc ← lib (memcached_set client key v);
  match rc with
  | MEMCACHED_SERVER_MEMORY_ALLOCATION_FAILURE | MEMCACHED_SERVER_TEMPORARILY_DISABLED =>
      match fuel with O => mub OutOfFuel | S fuel => mc_write_loop fuel client key v data end
  | MEMCACHED_SUCCESS => mret (data, 0)
  | _ => mc_sys sys_log_err;; mret (NULL, -1)
  end.
Definition mc_write (fuel : nat) (c : ptr) (hashcode : Z) (data : ptr) (size : Z) : M mcs (ptr * Z) :=
  o ← obj c;
  let client := if THREADED_WRITE_TO_EXTERNRAM then myClient_write o else myClient o in
  key ← mlift (key_text (KEYSTR_LEN + 1) hashcode);
  v ← load_bytes data size;
  mc_write_loop fuel client key v data.

Definition mc_read (c : ptr) (hashcode : Z) (recvBuf : ptr) : M mcs (Z * ptr) :=
  o ← obj c;
  key ← mlift (key_text 20 hashcode);
  '(buf, error) ← lib (memcached_get (myClient o) key);
  let v := default [] buf in
  mwhen (bool_decide (error = MEMCACHED_SUCCESS)) (store_bytes recvBuf v);;
  mret (s32 (Z.of_nat (length v)), recvBuf).

(** [remove] ends without a [return]. *)
Fixpoint mc_remove_loop (fuel : nat) (client : ptr) (key : text) : M mcs unit :=
  rc ← lib (memcached_delete client key);
  match rc with
  | MEMCACHED_SERVER_MEMORY_ALLOCATION_FAILURE | MEMCACHED_SERVER_TEMPORARILY_DISABLED =>
      match fuel with O => mub OutOfFuel | S fuel => mc_remove_loop fuel client key end
  | MEMCACHED_SUCCESS => mret tt
  | _ => mc_sys sys_log_err
  end.
Definition mc_remove (fuel : nat) (c : ptr) (hashcode : Z) : M mcs Z :=
  o ← obj c;
  key ← mlift (key_text 20 hashcode);
  mc_remove_loop fuel (myClient o) key;;
  mub MissingReturn.

(** ** Several pages *)

Fixpoint mc_multiWrite (fuel : nat) (c : ptr) (pages : list (Z * ptr * Z)) : M mcs (bool * Z * list ptr) :=
  match pages with
  | [] => mret (false, 0, [])
  | (key, data, len) :: pages =>
      '(ret_addr, read_err) ← mc_write fuel c key data len;
      '(should_free, err, datas) ← mc_multiWrite fuel c pages;
      (** a later error overwrites an earlier one *)
      mret ((negb (bool_decide (ret_addr = NULL)) || should_free)%bool,
            (if (err =? 0) && (read_err <? 0) then read_err else err), data :: datas)
  end.

(** [buildHashStrings]: the first blocks, one for each key. *)
Fixpoint buildHashStrings (hashcodes : list Z) (blocks : list (list (option Z))) : outcome (list (list (option Z))) :=
  match hashcodes, blocks with
  | [], _ => Ok blocks
  | _ :: _, [] => UB OutOfBounds
  | h :: hs, b :: bs =>
      match sprintf_block h b with
      | Ok b => match buildHashStrings hs bs with Ok bs => Ok (b :: bs) | UB f => UB f | Blocked => Blocked end
      | UB f => UB f
      | Blocked => Blocked
      end
  end.
Fixpoint block_keys (blocks : list (list (option Z))) : outcome (list text) :=
  match blocks with
  | [] => Ok []
  | b :: bs =>
      match block_key b, block_keys bs with
      | Ok k, Ok ks => Ok (k :: ks)
      | UB f, _ => UB f
      | _, UB f => UB f
      | _, _ => Blocked
      end
  end.

Definition mread_client (o : mc_client) : ptr := if THREADED_PREFETCH then myClient_multiread o else myClient o.

Definition mc_multiRead_top (c : ptr) (hashcodes : list Z) : M mcs unit :=
  o ← obj c;
  blocks ← mlift (buildHashStrings hashcodes (hashcodeStrings o));
  set_obj c (McClient (myClient o) (myClient_write o) (myClient_multiread o) blocks);;
  keys ← mlift (block_keys (take (length hashcodes) blocks));
  error ← lib (memcached_mget (mread_client o) keys);
  mwhen (negb (bool_decide (error = MEMCACHED_SUCCESS))) (mc_sys sys_log_err).

(** The loop of [multiRead_bottom]: the next value goes to the next buffer, whatever
    its key. *)
Fixpoint mread_loop (fuel : nat) (o : mc_client) (recvBufs : list ptr) (i : nat) (lengths : list Z) : M mcs (list Z) :=
  '(r, rc) ← lib (memcached_fetch (mread_client o));
  match r with
  | None => mret lengths
  | Some (return_key, v) =>
      if decide (rc = MEMCACHED_SUCCESS) then
        match recvBufs !! i with
        | None => mc_sys sys_log_err;; mret lengths
        | Some buf =>
            let expected := take (length return_key) (default [] (hashcodeStrings o !! i)) in
            mwhen (negb (bool_decide (expected = Some <$> return_key))) (mc_sys sys_log_err);;
            let len := s32 (Z.of_nat (length v)) in
            store_bytes buf v;;
            match fuel with O => mub OutOfFuel | S fuel => mread_loop fuel o recvBufs (S i) (<[i := len]> lengths) end
        end
      else
        mc_sys sys_log_err;;
        match fuel with O => mub OutOfFuel | S fuel => mread_loop fuel o recvBufs (S i) lengths end
  end.
Definition mc_multiRead_bottom (fuel : nat) (c : ptr) (recvBufs : list ptr) : M mcs (list Z) :=
  o ← obj c;
  mread_loop fuel o recvBufs 0 (replicate (length recvBufs) 0).

Definition mc_multiRead (fuel : nat) (c : ptr) (pages : list (Z * ptr * Z)) : M mcs (Z * list (ptr * Z)) :=
  recvBufs ← mmapM (fun _ => mc_sys sys_malloc) pages;
  mc_multiRead_top c (req_key <$> pages);;
  lengths ← mc_multiRead_bottom fuel c recvBufs;
  mret (0, zip recvBufs lengths).

#[local] Instance Memcached (fuel : nat) : ExternRAM := {
  ext := mc_state;
  create := mc_create;
  write := mc_write fuel;
  multiWrite := mc_multiWrite fuel;
  read := mc_read;
  multiRead := mc_multiRead fuel;
  read_top c key v := mc_multiRead_top c [key];
  read_bottom c key v := lengths ← mc_multiRead_bottom fuel c [v]; mret (default 0 (head lengths), v);
  multiRead_top c pages := mc_multiRead_top c (req_key <$> pages);; mret ((fun kpl => (kpl.1.2, kpl.2)) <$> pages);
  multiRead_bottom c pages :=
    lengths ← mc_multiRead_bottom fuel c (req_buf <$> pages);
    mret (0, zip (req_buf <$> pages) lengths);
  remove := mc_remove fuel;
  (** Not overridden: the methods of the base class. *)
  isFull c key := o ← obj c; mret false;
  isFullAll c := o ← obj c; mret false;
  getUsage c := o ← obj c; mub MissingReturn
}.
End externRAMClientImpl.

(** * The library's documentation *)

Definition temporary (rc : memcached_return_t) : bool :=
  bool_decide (rc = MEMCACHED_SERVER_MEMORY_ALLOCATION_FAILURE \/ rc = MEMCACHED_SERVER_TEMPORARILY_DISABLED).

Class MemcachedLaws (LM : Libmemcached) := {
  (** The value in a namespace under a key, and the namespace of a connection. *)
  mc_value : mc -> text -> text -> option value;
  mc_conn : mc -> ptr -> option text;
  (** Temporary failures to come. *)
  mc_busy : mc -> nat;
  (** A value that was refused may or may not have replaced the old one. *)
  set_law : forall c ns k v l rc l', mc_conn l c = Some ns -> memcached_set c k v l = (rc, l') ->
    (forall c', mc_conn l' c' = mc_conn l c') /\
    (forall ns' k', (ns', k') <> (ns, k) -> mc_value l' ns' k' = mc_value l ns' k') /\
    (rc = MEMCACHED_SUCCESS -> mc_value l' ns k = Some v) /\
    (temporary rc = true -> (mc_busy l' < mc_busy l)%nat);
  get_law : forall c ns k l r rc l', mc_conn l c = Some ns -> memcached_get c k l = (r, rc, l') ->
    (forall c', mc_conn l' c' = mc_conn l c') /\ (forall ns' k', mc_value l' ns' k' = mc_value l ns' k') /\
    (rc = MEMCACHED_SUCCESS -> is_Some r /\ r = mc_value l ns k) /\
    (rc = MEMCACHED_NOTFOUND -> mc_value l ns k = None) /\
    (rc <> MEMCACHED_SUCCESS -> r = None)
}.

Section spec.
Context `{OSI : OS} {OL : OSLaws OSI} `{LM : Libmemcached} {ML : MemcachedLaws LM} `{F : BuildFlags}.
Implicit Types (e : mc_state) (s : sys).

(** An object whose connections are to one namespace. *)
Definition client_ok e (c : ptr) (ns : text) : Prop :=
  exists o, mc_objs e !! c = Some o /\ mc_conn (mc_lib e) (myClient o) = Some ns /\
    (THREADED_WRITE_TO_EXTERNRAM = true -> mc_conn (mc_lib e) (myClient_write o) = Some ns).

(** The page stored for an address. *)
Definition page_at e (ns : text) (key : Z) : option page := mc_value (mc_lib e) ns (print_lx key).

(** Addresses below [2 ^ 48] fit the array on the stack. *)
Lemma key_text_ok key : 0 <= key < 2 ^ 48 -> key_text (KEYSTR_LEN + 1) key = Ok (print_lx key).
Proof.
  intros Hk. unfold key_text. rewrite decide_True; [done|].
  pose proof (proj2 (print_lx_length key 11 ltac:(unfold is_u64; lia) ltac:(lia))) as H. change (16 ^ Z.of_nat 12) with (2 ^ 48) in H.
  specialize (H ltac:(lia)). unfold KEYSTR_LEN. lia.
Qed.

Lemma key_text_20 key : is_u64 key -> key_text 20 key = Ok (print_lx key).
Proof.
  intros Hk. unfold key_text. rewrite decide_True; [done|].
  pose proof (proj2 (print_lx_length key 15 Hk ltac:(lia))) as H. change (16 ^ Z.of_nat 16) with (2 ^ 64) in H.
  unfold is_u64 in Hk. specialize (H ltac:(lia)). lia.
Qed.

Lemma print_lx_inj k k' : is_u64 k -> is_u64 k' -> print_lx k = print_lx k' -> k = k'.
Proof. intros Hk Hk' E. by rewrite <- (print_lx_value k Hk), <- (print_lx_value k' Hk'), E. Qed.

Definition with_lib e (l : mc) : mc_state := McState l (locator e) (pool e) (pool_write e) (pool_multiread e) (mc_objs e).

(** The outcome of a write: accepted, or refused for good with an error report. *)
Record mc_written (ns : text) (key : text) (data : ptr) (v : value) e s (ret : ptr) (err : Z) e' s' : Prop := {
  mw_lib : exists l', e' = with_lib e l';
  mw_conn : forall c, mc_conn (mc_lib e') c = mc_conn (mc_lib e) c;
  mw_os : s_os s' = s_os s;
  mw_others : forall ns' k', (ns', k') <> (ns, key) -> mc_value (mc_lib e') ns' k' = mc_value (mc_lib e) ns' k';
  mw_result : (err = 0 /\ ret = data /\ s' = s /\ mc_value (mc_lib e') ns key = Some v) \/
              (err = -1 /\ ret = NULL /\ sigint (s_dbg s') = S (sigint (s_dbg s)))
}.

Lemma mc_write_loop_run fuel client ns key v data : forall e s, mc_conn (mc_lib e) client = Some ns ->
  (mc_busy (mc_lib e) <= fuel)%nat ->
  exists ret err e' s', mc_write_loop fuel client key v data (e, s) = Ok ((ret, err), (e', s')) /\
    mc_written ns key data v e s ret err e' s'.
Proof.
  induction fuel as [|fuel IH]; intros e s Hc Hb; cbn [mc_write_loop]; unfold mbind, M_bind, lib; cbn [fst snd];
    destruct (memcached_set client key v (mc_lib e)) as [rc l'] eqn:E;
    destruct (set_law client ns key v (mc_lib e) rc l' Hc E) as (Hconn & Ho & Hs & Ht).
  - destruct rc; try (specialize (Ht eq_refl); lia); eexists _, _, _, _; (split; [reflexivity|]);
      (split; [by exists l'|done|done|done|]); simpl; auto 6.
  - assert (Hagain : (mc_busy l' < mc_busy (mc_lib e))%nat -> exists ret err e' s',
      mc_write_loop fuel client key v data (with_lib e l', s) = Ok ((ret, err), (e', s')) /\ mc_written ns key data v e s ret err e' s').
    { intros Hlt. destruct (IH (with_lib e l') s) as (ret & err & e' & s' & E' & [[l2 ->] W2 W3 W4 W5]); [simpl; by rewrite Hconn|simpl; lia|].
      exists ret, err, (with_lib e l2), s'. split; [exact E'|]. split; [by exists l2| |done| |done].
      - intros c. simpl in *. by rewrite W2, Hconn.
      - intros ns' k' Hne. simpl in *. rewrite W4 by done. by apply Ho. }
    destruct rc; try (apply Hagain, Ht; done); eexists _, _, _, _; (split; [reflexivity|]);
      (split; [by exists l'|done|done|done|]); simpl; auto 6.
Qed.

Lemma client_ok_lib e c ns l' : client_ok e c ns -> (forall x, mc_conn l' x = mc_conn (mc_lib e) x) ->
  client_ok (with_lib e l') c ns.
Proof.
  intros (o & Ho & H1 & H2) Hl. exists o. split; [done|]. simpl. rewrite !Hl. by split.
Qed.


Lemma store_bytes_run v (b : value) pg e s : buf_page (s_os s) v = Some pg -> (0 < length b <= length pg)%nat ->
  exists s', store_bytes v b (e, s) = Ok (tt, (e, s')) /\ buf_page (s_os s') v = Some (b ++ drop (length b) pg) /\
    s_dbg s' = s_dbg s /\ same_app (s_os s) (s_os s') /\ same_buf_but {[v]} (s_os s) (s_os s').
Proof.
  intros Hv Hl. unfold store_bytes. rewrite decide_False by (intros ->; simpl in Hl; lia).
  unfold mbind, M_bind, mc_sys, zoom, sys_load. cbn [snd]. rewrite Hv. rewrite decide_True by lia.
  unfold sys_store. cbn [snd]. rewrite Hv. eexists. split; [reflexivity|]. simpl.
  destruct (poke_ok v (b ++ drop (length b) pg) (s_os s)) as (Ha & Hb & _ & Hp). split; [apply Hp; by eexists|]. by split.
Qed.

(** C35: a page stored in memcached comes back as it was.  A read of its address either
    returns its length and puts the page into the buffer, or, if the library could not
    get it, returns the length zero and leaves the buffer. *)
Theorem memcached_read_back c ns key v old pg e s (Hc : client_ok e c ns) (Hk : is_u64 key)
    (Hpg : page_at e ns key = Some pg) (Hlen : Z.of_nat (length pg) = PAGE_SIZE)
    (Hv : buf_page (s_os s) v = Some old) (Hold : length old = length pg) :
  exists len e' s', mc_read c key v (e, s) = Ok ((len, v), (e', s')) /\ client_ok e' c ns /\
    (forall ns' key', page_at e' ns' key' = page_at e ns' key') /\ s_dbg s' = s_dbg s /\
    ((len = PAGE_SIZE /\ buf_page (s_os s') v = Some pg /\ same_buf_but {[v]} (s_os s) (s_os s')) \/
     (len = 0 /\ s' = s)).
Proof.
  pose proof Hc as (o & Ho & H1 & _). destruct (memcached_get (myClient o) (print_lx key) (mc_lib e)) as [[r rc] l'] eqn:E.
  destruct (get_law _ ns _ _ r rc l' H1 E) as (G1 & G2 & G3 & _ & G5).
  assert (Hrun : forall k, mc_read c key v (e, s) = k -> (mwhen (bool_decide (rc = MEMCACHED_SUCCESS)) (store_bytes v (default [] r));;
    mret (s32 (Z.of_nat (length (default [] r))), v)) (with_lib e l', s) = k).
  { intros k <-. unfold mc_read, mbind at 2, M_bind at 2, obj. cbn [fst]. rewrite Ho. unfold mbind at 2, M_bind at 2, mlift.
    rewrite key_text_20 by done. unfold mbind at 2, M_bind at 2, lib. cbn [fst snd]. by rewrite E. }
  specialize (Hrun _ eq_refl).
  destruct (decide (rc = MEMCACHED_SUCCESS)) as [Hs|Hs].
  - destruct (G3 Hs) as [_ Hr]. unfold page_at in Hpg. rewrite Hpg in Hr. subst r rc.
    unfold PAGE_SIZE in *. destruct (store_bytes_run v pg old (with_lib e l') s Hv ltac:(lia)) as (s' & E' & Hb & Hd & _ & Hsb).
    exists 4096, (with_lib e l'), s'. rewrite <- Hrun. change (default [] (Some pg)) with pg.
    unfold mbind, M_bind, mwhen. rewrite bool_decide_eq_true_2 by done. rewrite E'.
    split; [unfold mret, M_ret; rewrite Hlen; done|]. split; [by apply client_ok_lib|]. split; [intros; apply G2|].
    split; [done|]. left. rewrite drop_ge, app_nil_r in Hb by lia. done.
  - exists 0, (with_lib e l'), s. rewrite <- Hrun, (G5 Hs). unfold mwhen. rewrite bool_decide_eq_false_2 by done.
    split; [done|]. split; [by apply client_ok_lib|]. split; [intros; apply G2|]. split; [done|]. by right.
Qed.

(** A read that fails looks like a page that was never written.  Whatever the error
    the library reports, the method returns the length zero, without an error report, as
    it does for an address with nothing stored; the fault handler then fills the page
    with zeros although the page is still stored. *)
Theorem memcached_read_failure_hidden c ns key v pg e s r rc l' (Hc : client_ok e c ns) (Hk : is_u64 key)
    (Hpg : page_at e ns key = Some pg) (Hget : forall o, mc_objs e !! c = Some o -> memcached_get (myClient o) (print_lx key) (mc_lib e) = (r, rc, l'))
    (Hfail : rc <> MEMCACHED_SUCCESS) :
  exists e', mc_read c key v (e, s) = Ok ((0, v), (e', s)) /\ page_at e' ns key = Some pg.
Proof.
  destruct Hc as (o & Ho & H1 & _). specialize (Hget o Ho). destruct (get_law _ ns _ _ r rc l' H1 Hget) as (_ & G2 & _ & _ & G5).
  exists (with_lib e l'). split; [|unfold page_at; simpl; by rewrite G2].
  unfold mc_read, mbind, M_bind, obj. cbn [fst]. rewrite Ho. unfold mlift. rewrite key_text_20 by done.
  unfold lib. cbn [fst snd]. rewrite Hget, (G5 Hfail). unfold mwhen. by rewrite bool_decide_eq_false_2 by done.
Qed.

(** Removing a page from memcached never returns: the method runs off its end without
    a [return], whatever the library answers. *)
Theorem memcached_remove_undefined fuel c key es r es' : mc_remove fuel c key es <> Ok (r, es').
Proof.
  unfold mc_remove, mbind, M_bind. destruct (obj c es) as [[o es1]| |]; [|done|done].
  destruct (mlift (key_text 20 key) es1) as [[k es2]| |]; [|done|done].
  by destruct (mc_remove_loop fuel (myClient o) k es2) as [[[] es3]| |].
Qed.

(** Values of a multiple read are placed by position, not by key.  If the first of two
    keys is not stored, the library delivers only the value of the second, and it is
    put into the first buffer with its length, while the second is reported as
    absent; the mismatch is only logged. *)
Theorem memcached_values_shift fuel c o k2 p1 p2 old pg e s l1 rc l2 (Ho : mc_objs e !! c = Some o)
    (Hlen : Z.of_nat (length pg) = PAGE_SIZE) (Hp1 : buf_page (s_os s) p1 = Some old) (Hold : length old = length pg)
    (Hne : take (length k2) (default [] (hashcodeStrings o !! 0%nat)) <> Some <$> k2)
    (Hfirst : memcached_fetch (mread_client o) (mc_lib e) = (Some (k2, pg), MEMCACHED_SUCCESS, l1))
    (Hlast : memcached_fetch (mread_client o) l1 = (None, rc, l2)) :
  exists e' s', mc_multiRead_bottom (S fuel) c [p1; p2] (e, s) = Ok ([PAGE_SIZE; 0], (e', s')) /\
    buf_page (s_os s') p1 = Some pg /\ sigint (s_dbg s') = S (sigint (s_dbg s)).
Proof.
  unfold mc_multiRead_bottom, mbind, M_bind, obj. cbn [fst]. rewrite Ho.
  cbn [mread_loop]. unfold mbind, M_bind, lib. cbn [fst snd]. rewrite Hfirst. rewrite decide_True by done.
  change ([p1; p2] !! 0%nat) with (Some p1). unfold mwhen. rewrite bool_decide_eq_false_2 by done. cbn [negb].
  unfold mc_sys at 1, zoom, sys_log_err, on_dbg, zoom, log_err, mbind, M_bind, mget, exit_with_errno, mmod. cbn [fst snd].
  unfold PAGE_SIZE in *.
  match goal with |- context [store_bytes p1 pg (?e1, ?s1)] =>
    destruct (store_bytes_run p1 pg old e1 s1 Hp1 ltac:(lia)) as (s' & -> & Hb & Hd & _) end.
  rewrite drop_ge, app_nil_r in Hb by lia. simpl in Hd.
  exists (with_lib e l2), s'. split; [|split; [exact Hb|by rewrite Hd]].
  destruct fuel; cbn [mread_loop]; unfold mbind, M_bind, lib; cbn [fst snd mc_lib]; rewrite Hlast, Hlen; done.
Qed.
End spec.

(** * A concrete library *)

(** One server: its values, the namespaces of the connections, the values still to be
    fetched, the number of requests it will refuse for now, and whether it is out of
    reach for reads. *)
Record sim_mc := SimMc {
  sm_values : gmap (text * text) value;
  sm_conns : gmap ptr text;
  sm_pending : list (text * value);
  sm_down : nat;
  sm_broken : bool
}.

(** A pool is the address its connection will have. *)
#[export] Instance SimMemcached : Libmemcached := {
  mc := sim_mc;
  memcached_pool ns l :=
    let p := fresh_ptr (sm_conns l) in (p, SimMc (sm_values l) (<[p := ns]> (sm_conns l)) (sm_pending l) (sm_down l) (sm_broken l));
  memcached_pool_pop p l := (p, MEMCACHED_SUCCESS, l);
  memcached_pool_push p c l := l;
  memcached_pool_destroy p l := SimMc (sm_values l) (delete p (sm_conns l)) (sm_pending l) (sm_down l) (sm_broken l);
  memcached_set c k v l :=
    match sm_conns l !! c with
    | None => (MEMCACHED_OTHER 1, l)
    | Some ns =>
        match sm_down l with
        | S n => (MEMCACHED_SERVER_TEMPORARILY_DISABLED, SimMc (sm_values l) (sm_conns l) (sm_pending l) n (sm_broken l))
        | O => (MEMCACHED_SUCCESS, SimMc (<[(ns, k) := v]> (sm_values l)) (sm_conns l) (sm_pending l) O (sm_broken l))
        end
    end;
  memcached_get c k l :=
    match sm_conns l !! c with
    | None => (None, MEMCACHED_OTHER 1, l)
    | Some ns =>
        if sm_broken l then (None, MEMCACHED_OTHER 3, l)
        else match sm_values l !! (ns, k) with
             | Some v => (Some v, MEMCACHED_SUCCESS, l)
             | None => (None, MEMCACHED_NOTFOUND, l)
             end
    end;
  memcached_mget c ks l :=
    match sm_conns l !! c with
    | None => (MEMCACHED_OTHER 1, l)
    | Some ns =>
        (MEMCACHED_SUCCESS, SimMc (sm_values l) (sm_conns l)
           (omap (fun k => (fun v => (k, v)) <$> sm_values l !! (ns, k)) ks) (sm_down l) (sm_broken l))
    end;
  memcached_fetch c l :=
    match sm_pending l with
    | [] => (None, MEMCACHED_NOTFOUND, l)
    | kv :: kvs => (Some kv, MEMCACHED_SUCCESS, SimMc (sm_values l) (sm_conns l) kvs (sm_down l) (sm_broken l))
    end;
  memcached_delete c k l :=
    match sm_conns l !! c with
    | None => (MEMCACHED_OTHER 1, l)
    | Some ns => (MEMCACHED_SUCCESS, SimMc (delete (ns, k) (sm_values l)) (sm_conns l) (sm_pending l) (sm_down l) (sm_broken l))
    end
}.

#[export] Program Instance sim_memcached_laws : MemcachedLaws SimMemcached := {|
  mc_value (l : @mc SimMemcached) ns k := sm_values l !! (ns, k);
  mc_conn (l : @mc SimMemcached) c := sm_conns l !! c;
  mc_busy (l : @mc SimMemcached) := sm_down l
|}.
Next Obligation.
  intros c ns k v l rc l' Hc. unfold memcached_set, SimMemcached. rewrite Hc. destruct (sm_down l) as [|n] eqn:Ed; intros [= <- <-].
  + split; [done|]. split; [|split; [|done]].
    * intros ns' k' Hne. simpl. by rewrite lookup_insert_ne.
    * intros _. simpl. by rewrite lookup_insert_eq.
  + split; [done|]. split; [done|]. split; [done|]. intros _. simpl. lia.
Qed.
Next Obligation.
  intros c ns k l r rc l' Hc. unfold memcached_get, SimMemcached. rewrite Hc. destruct (sm_broken l); [by intros [= <- <- <-]|].
  destruct (sm_values l !! (ns, k)) as [v|] eqn:E; intros [= <- <- <-]; (do 2 (split; [done|])); (split; [|by split]); done.
Qed.
