(* ===== verification/RamCloud.v ===== *)
(** The RAMCloud backend, [lib/externram/ramcloud/externRAMClientImpl.cc]: pages are
    objects of a table of their process, under the eight bytes of their address.

    The RAMCloud client library, with the servers behind it, is a parameter.  A [Buffer]
    of the library is the list of its chunks, each an address and a length, in memory
    of the process that belongs to the library. *)
From S2P Require Import Prelude Text Config MonitorStats Os ExternRam.

Definition MAX_NUMBER_OF_RAMCLOUD_SERVERS : nat := 20.

(** [RAMCloud::ClientException] with its [status], and [RAMCloud::Exception] with its
    [errNo]. *)
Inductive rc_exn : Set := ClientException (status : Z) | RcException (errNo : Z).

Abbreviation chunk := (Z * Z)%type (only parsing).
Abbreviation object := (list Byte.byte) (only parsing).

(** [PerfStats]: [logSizeBytes], [logUsedBytes], [logFreeBytes]. *)
Record PerfStats := Perf { logSizeBytes : Z; logUsedBytes : Z; logFreeBytes : Z }.

Class LibRamCloud `{OSI : OS} := {
  ramcloud : Type;
  (** Codes of [Status]. *)
  STATUS_OK : Z;
  STATUS_OBJECT_DOESNT_EXIST : Z;
  rc_new : text -> ramcloud -> ptr * ramcloud;
  rc_delete : ptr -> ramcloud -> ramcloud;
  rc_getTableId : ptr -> text -> ramcloud -> (Z + rc_exn) * ramcloud;
  rc_createTable : ptr -> text -> ramcloud -> (Z + rc_exn) * ramcloud;
  rc_dropTable : ptr -> text -> ramcloud -> option rc_exn * ramcloud;
  rc_write : ptr -> Z -> list Z -> object -> ramcloud -> option rc_exn * ramcloud;
  (** For each request its status. *)
  rc_multiWrite : ptr -> list (Z * list Z * object) -> ramcloud -> (list Z + rc_exn) * ramcloud;
  rc_remove : ptr -> Z -> list Z -> ramcloud -> option rc_exn * ramcloud;
  (** The object is put into the [Buffer] at the given address, whose former chunks are
      released. *)
  rc_read : ptr -> Z -> list Z -> list chunk -> ramcloud * os -> (list chunk + rc_exn) * (ramcloud * os);
  (** For each request its status and the value, [None] for a null pointer. *)
  rc_multiRead : ptr -> list (Z * list Z) -> ramcloud * os -> (list (Z * option chunk) + rc_exn) * (ramcloud * os);
  (** Asynchronous requests: started, polled, and waited for. *)
  rpc : Type;
  rc_read_start : ptr -> Z -> list Z -> ramcloud -> (rpc + rc_exn) * ramcloud;
  rc_mread_start : ptr -> list (Z * list Z) -> ramcloud -> (rpc + rc_exn) * ramcloud;
  rc_isReady : rpc -> ramcloud -> bool * ramcloud;
  rc_poll : ramcloud -> ramcloud;
  rc_read_wait : rpc -> list chunk -> ramcloud * os -> (list chunk + rc_exn) * (ramcloud * os);
  rc_mread_wait : rpc -> ramcloud * os -> (list (Z * option chunk) + rc_exn) * (ramcloud * os);
  rc_perf : ptr -> Z -> list Z -> ramcloud -> (PerfStats + rc_exn) * ramcloud;
  rc_perf_all : ptr -> ramcloud -> (list PerfStats + rc_exn) * ramcloud
}.

(** The pointers to requests under way: never set, set, or deleted. *)
Inductive rpc_ptr `{LibRamCloud} : Type := RpcUnset | RpcLive (r : rpc) | RpcDeleted.
Arguments RpcUnset {_ _}.
Arguments RpcLive {_ _} r.
Arguments RpcDeleted {_ _}.

Record rc_client `{LibRamCloud} := RcClient {
  rcClient : ptr;
  rcClient_write : ptr;
  rcClient_multiread : ptr;
  tableId : Z;
  tableId_write : Z;
  tableId_multiread : Z;
  RCBuf : list chunk;
  buf_for_asynread : list chunk;
  read_for_asynread : rpc_ptr;
  read_for_asynmread : rpc_ptr
}.
Arguments RcClient {_ _} _ _ _ _ _ _ _ _ _ _.

Record rc_state `{LibRamCloud} := RcState { rc_lib : ramcloud; rc_objs : gmap ptr rc_client }.
Arguments RcState {_ _} _ _.

Section externRAMClientImpl.
Context `{OSI : OS} `{LR : !LibRamCloud} `{F : BuildFlags}.

Abbreviation rcs := (rc_state * sys)%type (only parsing).

Definition rlib {A} (f : ramcloud -> A * ramcloud) : M rcs A := fun es =>
  let '(a, l) := f (rc_lib es.1) in Ok (a, (RcState l (rc_objs es.1), es.2)).
Definition rlib_os {A} (f : ramcloud * os -> A * (ramcloud * os)) : M rcs A := fun es =>
  let '(a, (l, o)) := f (rc_lib es.1, s_os es.2) in
  Ok (a, (RcState l (rc_objs es.1), Sys o (s_dbg es.2) (s_stats es.2))).
Definition rc_sys {A} (m : M sys A) : M rcs A := zoom snd (fun s es => (es.1, s)) m.
Definition robj (c : ptr) : M rcs rc_client := fun es =>
  match rc_objs es.1 !! c with Some o => Ok (o, es) | None => UB NullDeref end.
Definition put_obj (c : ptr) (o : rc_client) : M rcs unit :=
  mmod (fun es => (RcState (rc_lib es.1) (<[c := o]> (rc_objs es.1)), es.2)).
(** An exception nobody catches ends the process. *)
Definition uncaught {A} (r : A + rc_exn) : M rcs A := match r with inl a => mret a | inr _ => mub AssertFail end.

Definition set_RCBuf (b : list chunk) (o : rc_client) : rc_client :=
  RcClient (rcClient o) (rcClient_write o) (rcClient_multiread o) (tableId o) (tableId_write o) (tableId_multiread o)
    b (buf_for_asynread o) (read_for_asynread o) (read_for_asynmread o).
Definition set_asynread (b : list chunk) (r : rpc_ptr) (o : rc_client) : rc_client :=
  RcClient (rcClient o) (rcClient_write o) (rcClient_multiread o) (tableId o) (tableId_write o) (tableId_multiread o)
    (RCBuf o) b r (read_for_asynmread o).
Definition set_asynmread (r : rpc_ptr) (o : rc_client) : rc_client :=
  RcClient (rcClient o) (rcClient_write o) (rcClient_multiread o) (tableId o) (tableId_write o) (tableId_multiread o)
    (RCBuf o) (buf_for_asynread o) (read_for_asynread o) r.

Definition rc_key (hashcode : Z) : list Z := le_bytes 8 hashcode.

(** ** Tables, construction and destruction *)

Definition createTable (c : ptr) (tag : text) : M rcs Z :=
  r ← rlib (rc_getTableId c tag);
  match r with
  | inl t => mret t
  | inr (ClientException _) => r ← rlib (rc_createTable c tag); uncaught r
  | inr (RcException _) => mub AssertFail
  end.

Definition dropTable (c : ptr) (tag : text) : M rcs unit :=
  r ← rlib (rc_dropTable c tag);
  match r with
  | None => mret tt
  | Some (ClientException _) => rc_sys sys_log_err
  | Some (RcException _) => mub AssertFail
  end.

(** [create] and the constructor; the process identifier is the name of the table. *)
Definition rc_create (config : string) (upid : Z) : M rcs ptr :=
  let locator := txt config in
  c ← rlib (rc_new locator);
  cw ← (if THREADED_WRITE_TO_EXTERNRAM then rlib (rc_new locator) else mret NULL);
  cm ← (if (THREADED_PREFETCH || ASYNREAD)%bool then rlib (rc_new locator) else mret NULL);
  let clientId := print_u upid in
  t ← createTable c clientId;
  tw ← (if THREADED_WRITE_TO_EXTERNRAM then r ← rlib (rc_getTableId cw clientId); uncaught r else mret 0);
  tm ← (if (THREADED_PREFETCH || ASYNREAD)%bool then r ← rlib (rc_getTableId cm clientId); uncaught r else mret 0);
  this ← mgets (fun es => fresh_ptr (rc_objs es.1));
  put_obj this (RcClient c cw cm t tw tm [] [] RpcUnset RpcUnset);;
  mret this.

(** [myClient_multiread] is deleted in fewer builds than it is made in. *)
Definition rc_destroy (c : ptr) : M rcs unit :=
  o ← robj c;
  rlib (fun l => (tt, rc_delete (rcClient o) l));;
  mwhen THREADED_WRITE_TO_EXTERNRAM (rlib (fun l => (tt, rc_delete (rcClient_write o) l)));;
  mwhen THREADED_PREFETCH (rlib (fun l => (tt, rc_delete (rcClient_multiread o) l)));;
  mmod (fun es => (RcState (rc_lib es.1) (delete c (rc_objs es.1)), es.2)).

(** ** Writing and removing *)

Definition write_target (o : rc_client) : ptr * Z :=
  if THREADED_WRITE_TO_EXTERNRAM then (rcClient_write o, tableId_write o) else (rcClient o, tableId o).

(** [size] bytes of the buffer. *)
Definition rc_load (p : ptr) (size : Z) : M rcs object :=
  pg ← rc_sys (sys_load p);
  if decide (size <= Z.of_nat (length pg)) then mret (take (Z.to_nat size) pg) else mub OutOfBounds.

(** The code of an exception becomes [*err]. *)
Definition exn_code (e : rc_exn) : Z := match e with ClientException st => st | RcException n => n end.

Definition rcw_write (c : ptr) (hashcode : Z) (data : ptr) (size : Z) : M rcs (ptr * Z) :=
  o ← robj c;
  let '(client, tid) := write_target o in
  v ← rc_load data size;
  r ← rlib (rc_write client tid (rc_key hashcode) v);
  match r with
  | None => mret (data, 0)
  | Some e => rc_sys sys_log_err;; mret (NULL, exn_code e)
  end.

Definition rcw_multiWrite (c : ptr) (pages : list (Z * ptr * Z)) : M rcs (bool * Z * list ptr) :=
  o ← robj c;
  let '(client, tid) := write_target o in
  reqs ← mmapM (fun r => v ← rc_load (req_buf r) r.2; mret (tid, rc_key (req_key r), v)) pages;
  r ← rlib (rc_multiWrite client reqs);
  (** the status of each request is not looked at *)
  err ← match r with inl _ => mret 0 | inr e => rc_sys sys_log_err;; mret (exn_code e) end;
  mret (true, err, req_buf <$> pages).

Definition rcw_remove (c : ptr) (hashcode : Z) : M rcs Z :=
  o ← robj c;
  r ← rlib (rc_remove (rcClient o) (tableId o) (rc_key hashcode));
  match r with None => mret 1 | Some _ => rc_sys sys_log_err;; mret 0 end.

(** ** Reading *)

(** [Buffer::copy] to the start of a buffer of the monitor: what the chunks hold, at most
    a page. *)
Fixpoint chunk_bytes (chunks : list chunk) : M rcs object :=
  match chunks with
  | [] => mret []
  | (p, len) :: chunks => v ← rc_load p len; vs ← chunk_bytes chunks; mret (v ++ vs)
  end.
Definition buffer_copy (chunks : list chunk) (dst : ptr) : M rcs Z :=
  v ← chunk_bytes chunks;
  let v := take (Z.to_nat PAGE_SIZE) v in
  pg ← rc_sys (sys_load dst);
  if decide (length v <= length pg)%nat then
    rc_sys (sys_store dst (v ++ drop (length v) pg));; mret (Z.of_nat (length v))
  else mub OutOfBounds.
(** [Buffer::peek] at the start: the caller's pointer becomes the address of the chunk. *)
Definition buffer_peek (chunks : list chunk) : Z * ptr :=
  match chunks with (p, len) :: _ => (len, p) | [] => (0, NULL) end.

(** How many chunks there are is asked of [counted], the rest of [chunks]. *)
Definition take_buffer (counted chunks : list chunk) (recvBuf : ptr) : M rcs (Z * ptr) :=
  if (1 <? length counted)%nat then length ← buffer_copy chunks recvBuf; mret (length, recvBuf)
  else mret (buffer_peek chunks).

(** An exception is reported, unless the object does not exist. *)
Definition read_failed (e : rc_exn) : M rcs unit :=
  match e with
  | ClientException st => mwhen (negb (st =? STATUS_OBJECT_DOESNT_EXIST)) (rc_sys sys_log_err)
  | RcException _ => rc_sys sys_log_err
  end.

Definition rcw_read (c : ptr) (hashcode : Z) (recvBuf : ptr) : M rcs (Z * ptr) :=
  o ← robj c;
  r ← rlib_os (rc_read (rcClient o) (tableId o) (rc_key hashcode) (RCBuf o));
  match r with
  | inl chunks => put_obj c (set_RCBuf chunks o);; take_buffer chunks chunks recvBuf
  | inr e => read_failed e;; mret (0, recvBuf)
  end.

(** The results of a multiple read go to the arrays of the caller; an entry whose status
    is not [STATUS_OK] keeps what it had.  In [multiRead] the message of such an entry has one
    argument less than conversions. *)
Fixpoint take_values (short_message : bool) (rs : list (Z * option chunk)) (old : list (ptr * Z)) : M rcs (list (ptr * Z)) :=
  match rs, old with
  | (st, v) :: rs, (p, l) :: old =>
      new ← (if st =? STATUS_OK then
               match v with
               | Some (q, len) => mret (q, s32 len)
               | None => rc_sys sys_log_err;; mret (NULL, 0)
               end
             else if short_message then mub BadFormat
             else rc_sys sys_log_err;; mret (p, l));
      news ← take_values short_message rs old;
      mret (new :: news)
  | _, _ => mret []
  end.

Definition rcw_multiRead (c : ptr) (pages : list (Z * ptr * Z)) : M rcs (Z * list (ptr * Z)) :=
  o ← robj c;
  let '(client, tid) := if (THREADED_PREFETCH || ASYNREAD)%bool then (rcClient_multiread o, tableId_multiread o)
                        else (rcClient o, tableId o) in
  let old := (fun r => (req_buf r, r.2)) <$> pages in
  r ← rlib_os (rc_multiRead client ((fun r => (tid, rc_key (req_key r))) <$> pages));
  match r with
  | inl rs => bufs ← take_values true rs old; mret (0, bufs)
  | inr _ => rc_sys sys_log_err;; mret (0, old)
  end.

(** ** Asynchronous reads *)

Definition rcw_read_top (c : ptr) (hashcode : Z) : M rcs unit :=
  o ← robj c;
  r ← rlib (rc_read_start (rcClient o) (tableId o) (rc_key hashcode));
  match r with
  | inl r => put_obj c (set_asynread (buf_for_asynread o) (RpcLive r) o)
  | inr e => read_failed e
  end.

(** [while (!isReady()) poll()] *)
Fixpoint poll_until_ready (fuel : nat) (r : rpc) : M rcs unit :=
  ready ← rlib (rc_isReady r);
  if ready : bool then mret tt
  else
    rlib (fun l => (tt, rc_poll l));;
    match fuel with O => mub OutOfFuel | S fuel => poll_until_ready fuel r end.

Definition live_rpc (r : rpc_ptr) : M rcs rpc :=
  match r with RpcLive r => mret r | RpcUnset => mub Uninitialised | RpcDeleted => mub UseAfterFree end.

(** The number of chunks is asked of [RCBuf]; the request is deleted and its pointer
    kept. *)
Definition rcw_read_bottom (fuel : nat) (c : ptr) (recvBuf : ptr) : M rcs (Z * ptr) :=
  o ← robj c;
  rq ← live_rpc (read_for_asynread o);
  poll_until_ready fuel rq;;
  r ← rlib_os (rc_read_wait rq (buf_for_asynread o));
  res ← match r with
        | inl chunks => put_obj c (set_asynread chunks (RpcLive rq) o);; take_buffer (RCBuf o) chunks recvBuf
        | inr e => read_failed e;; mret (0, recvBuf)
        end;
  o ← robj c;
  put_obj c (set_asynread (buf_for_asynread o) RpcDeleted o);;
  mret res.

Definition rcw_multiRead_top (c : ptr) (pages : list (Z * ptr * Z)) : M rcs unit :=
  o ← robj c;
  if decide (Z.of_nat (length pages) <= MAX_MULTI_READ) then
    r ← rlib (rc_mread_start (rcClient_multiread o) ((fun r => (tableId_multiread o, rc_key (req_key r))) <$> pages));
    match r with
    | inl r => put_obj c (set_asynmread (RpcLive r) o)
    | inr _ => rc_sys sys_log_err
    end
  else mub OutOfBounds.

Definition rcw_multiRead_bottom (fuel : nat) (c : ptr) (pages : list (Z * ptr * Z)) : M rcs (Z * list (ptr * Z)) :=
  o ← robj c;
  let old := (fun r => (req_buf r, r.2)) <$> pages in
  rq ← live_rpc (read_for_asynmread o);
  poll_until_ready fuel rq;;
  r ← rlib_os (rc_mread_wait rq);
  bufs ← match r with
         | inl rs => take_values false rs old
         | inr _ => rc_sys sys_log_err;; mret old
         end;
  put_obj c (set_asynmread RpcDeleted o);;
  mret (0, bufs).

(** ** How full the servers are *)

Definition rcw_isFull (c : ptr) (hashcode : Z) : M rcs bool :=
  o ← robj c;
  r ← rlib (rc_perf (rcClient o) (tableId o) (rc_key hashcode));
  st ← uncaught r;
  mret (logSizeBytes st <=? logUsedBytes st).

(** [getPerfStats] writes one entry for each server into an array of twenty. *)
Definition getPerfStats (c : ptr) : M rcs (list PerfStats) :=
  o ← robj c;
  r ← rlib (rc_perf_all (rcClient o));
  sts ← uncaught r;
  if decide (length sts <= MAX_NUMBER_OF_RAMCLOUD_SERVERS)%nat
  then mret (sts ++ replicate (MAX_NUMBER_OF_RAMCLOUD_SERVERS - length sts) (Perf 0 0 0)) else mub OutOfBounds.

(** The loop stops at the first entry without a size. *)
Fixpoint any_full (sts : list PerfStats) : bool :=
  match sts with
  | [] => false
  | st :: sts => if logSizeBytes st =? 0 then false else (logSizeBytes st <=? logUsedBytes st) || any_full sts
  end.
Definition rcw_isFullAll (c : ptr) : M rcs bool := sts ← getPerfStats c; mret (any_full sts).

(** [getUsage] skips such entries. *)
Definition usage_of (st : PerfStats) : ServerUsage :=
  let mb := 1024 * 1024 in Usage (logSizeBytes st / mb) (logUsedBytes st / mb) (logFreeBytes st / mb).
Definition rcw_getUsage (c : ptr) : M rcs (list ServerUsage) :=
  sts ← getPerfStats c; mret (usage_of <$> filter (fun st => logSizeBytes st <> 0) sts).

#[local] Instance RamCloud (fuel : nat) : ExternRAM := {
  ext := rc_state;
  create := rc_create;
  write := rcw_write;
  multiWrite := rcw_multiWrite;
  read := rcw_read;
  multiRead := rcw_multiRead;
  read_top c key v := rcw_read_top c key;
  read_bottom c key v := rcw_read_bottom fuel c v;
  multiRead_top c pages := rcw_multiRead_top c pages;; mret ((fun r => (req_buf r, r.2)) <$> pages);
  multiRead_bottom := rcw_multiRead_bottom fuel;
  remove := rcw_remove;
  isFull := rcw_isFull;
  isFullAll := rcw_isFullAll;
  getUsage := rcw_getUsage
}.
End externRAMClientImpl.

(** * The library's documentation *)

(** What a list of chunks holds. *)
Definition chunk_holds `{OS} (o : os) (c : chunk) (u : object) : Prop :=
  exists pg, buf_page o c.1 = Some pg /\ c.2 = Z.of_nat (length u) /\ take (length u) pg = u.
Definition chunks_hold `{OS} (o : os) (chunks : list chunk) (v : object) : Prop :=
  exists us, v = concat us /\ Forall2 (chunk_holds o) chunks us.

Class RamCloudLaws `(LR : LibRamCloud) := {
  rc_value : ramcloud -> Z -> list Z -> option object;
  (** Memory of the process the library uses. *)
  rc_mem : ramcloud -> gset ptr;
  (** A write that throws has not happened; the codes of [Status] and [errno] are not
      negative. *)
  rwrite_law : forall c t k v l r l', rc_write c t k v l = (r, l') ->
    rc_mem l' = rc_mem l /\
    match r with
    | None => forall t' k', rc_value l' t' k' = if decide ((t', k') = (t, k)) then Some v else rc_value l t' k'
    | Some e => 0 <= exn_code e /\ forall t' k', rc_value l' t' k' = rc_value l t' k'
    end;
  (** A read into a [Buffer] releases what was in it, and touches no memory but the
      library's. *)
  rread_law : forall c t k b l o r l' o', rc_read c t k b (l, o) = (r, (l', o')) ->
    (forall p len, (p, len) ∈ b -> p ∈ rc_mem l /\ is_Some (buf_page o p)) ->
    (forall t' k', rc_value l' t' k' = rc_value l t' k') /\ same_app o o' /\
    (forall p, p ∉ rc_mem l -> is_Some (buf_page o p) -> p ∉ rc_mem l' /\ buf_page o' p = buf_page o p) /\
    match r with
    | inl chunks => (exists v, rc_value l t k = Some v /\ chunks_hold o' chunks v) /\ chunks <> [] /\
        (forall p len, (p, len) ∈ chunks -> p ∈ rc_mem l') /\
        (forall p len, (p, len) ∈ b -> buf_page o' p = None)
    | inr e => e = ClientException STATUS_OBJECT_DOESNT_EXIST -> rc_value l t k = None
    end
}.

Section spec.
Context {OSI : OS} {OL : OSLaws OSI} {LR : LibRamCloud} {RL : RamCloudLaws LR} {F : BuildFlags}.
Implicit Types (e : rc_state) (s : sys).

(** The chunks of a [Buffer] are in the library's memory. *)
Definition buffer_ok e (o : os) (b : list chunk) : Prop :=
  forall p len, (p, len) ∈ b -> p ∈ rc_mem (rc_lib e) /\ is_Some (buf_page o p).
Definition object_at e (t key : Z) : option object := rc_value (rc_lib e) t (rc_key key).

Lemma rc_load_page e s p pg : buf_page (s_os s) p = Some pg -> Z.of_nat (length pg) = PAGE_SIZE ->
  rc_load p PAGE_SIZE (e, s) = Ok (pg, (e, s)).
Proof.
  intros Hp Hl. unfold rc_load, mbind, M_bind, rc_sys, zoom, sys_load. cbn [snd]. rewrite Hp, decide_True by lia.
  unfold mret, M_ret. by rewrite take_ge by lia.
Qed.

(** One call of [write]. *)
Lemma rcw_write_run c o key v pg e s r l' : rc_objs e !! c = Some o -> buf_page (s_os s) v = Some pg ->
  Z.of_nat (length pg) = PAGE_SIZE ->
  rc_write (write_target o).1 (write_target o).2 (rc_key key) pg (rc_lib e) = (r, l') ->
  rcw_write c key v PAGE_SIZE (e, s) =
    match r with
    | None => Ok ((v, 0), (RcState l' (rc_objs e), s))
    | Some ex => Ok ((NULL, exn_code ex), (RcState l' (rc_objs e),
        Sys (s_os s) (Dbg (errno (s_dbg s)) (if return_val (s_dbg s) =? 0 then errno (s_dbg s) else return_val (s_dbg s))
                        (S (sigint (s_dbg s))) (exit_on_recoverable_error (s_dbg s))) (s_stats s)))
    end.
Proof.
  intros Ho Hv Hl E. unfold rcw_write, mbind, M_bind, robj. cbn [fst]. rewrite Ho. destruct (write_target o) as [client tid].
  rewrite rc_load_page with (pg := pg) by done. unfold rlib. cbn [fst snd] in *. rewrite E. by destruct r.
Qed.

(** RAMCloud stores a page under its address: a write that succeeds leaves the object
    of this address equal to the page and every other object unchanged, and hands the
    buffer back. *)
Theorem ramcloud_write_stores c o key v pg e s l' (Ho : rc_objs e !! c = Some o) (Hk : is_u64 key)
    (Hv : buf_page (s_os s) v = Some pg) (Hl : Z.of_nat (length pg) = PAGE_SIZE)
    (Hw : rc_write (write_target o).1 (write_target o).2 (rc_key key) pg (rc_lib e) = (None, l')) :
  exists e', rcw_write c key v PAGE_SIZE (e, s) = Ok ((v, 0), (e', s)) /\ rc_objs e' = rc_objs e /\
    forall t key', is_u64 key' -> object_at e' t key' =
      if decide (t = (write_target o).2 /\ key' = key) then Some pg else object_at e t key'.
Proof.
  exists (RcState l' (rc_objs e)). rewrite (rcw_write_run c o key v pg e s None l') by done.
  split; [done|]. split; [done|]. intros t key' Hk'. unfold object_at. cbn [rc_lib].
  destruct (rwrite_law _ _ _ _ _ _ _ Hw) as [_ ->]. destruct (decide (t = (write_target o).2 /\ key' = key)) as [[-> ->]|Hne].
  - by rewrite decide_True.
  - rewrite decide_False; [done|]. intros [-> E]%pair_equal_spec. apply Hne. split; [done|]. by apply le_bytes_inj_u64.
Qed.

(** A write that RAMCloud refuses is taken for done.  The code of the exception, which
    is not negative, becomes the result, and [writePage] only tries again on a negative
    one: it returns after the first attempt, with nothing stored and the buffer not
    handed back. *)
Theorem ramcloud_refused_write_lost fuel polls c o key v pg e s ex l' (Ho : rc_objs e !! c = Some o)
    (Hv : buf_page (s_os s) v = Some pg) (Hl : Z.of_nat (length pg) = PAGE_SIZE)
    (Hw : rc_write (write_target o).1 (write_target o).2 (rc_key key) pg (rc_lib e) = (Some ex, l')) :
  exists e' s', writePage (X := RamCloud polls) (S fuel) c key v (e, s) = Ok (NULL, (e', s')) /\
    (forall t key', object_at e' t key' = object_at e t key') /\ sigint (s_dbg s') = S (sigint (s_dbg s)).
Proof.
  destruct (rwrite_law _ _ _ _ _ _ _ Hw) as [_ [Hpos Hsame]].
  unfold writePage. cbn [writePage_loop]. unfold mbind at 1, M_bind at 1. cbn [write RamCloud].
  rewrite (rcw_write_run c o key v pg e s (Some ex) l') by done. cbn beta iota.
  rewrite (proj2 (Z.ltb_ge (exn_code ex) 0)) by done.
  eexists _, _. split; [reflexivity|]. split; [intros; apply Hsame|done].
Qed.

Lemma chunk_bytes_run e s chunks us : Forall2 (chunk_holds (s_os s)) chunks us -> chunk_bytes chunks (e, s) = Ok (concat us, (e, s)).
Proof.
  induction 1 as [|[p len] u chunks us (pg & Hp & Hlen & Hu) _ IH]; [done|]. cbn [chunk_bytes fst snd] in *.
  assert (Hl : (length u <= length pg)%nat) by (rewrite <- Hu; rewrite length_take; lia).
  unfold rc_load, mbind, M_bind, rc_sys, zoom, sys_load. cbn [snd]. rewrite Hp, decide_True by lia.
  unfold mret, M_ret. cbn [fst]. rewrite IH. replace (Z.to_nat len) with (length u) by lia. by rewrite Hu.
Qed.

(** The library's part of a read. *)
Lemma rcw_read_run c o key v e s chunks l' o' : rc_objs e !! c = Some o ->
  rc_read (rcClient o) (tableId o) (rc_key key) (RCBuf o) (rc_lib e, s_os s) = (inl chunks, (l', o')) ->
  rcw_read c key v (e, s) = take_buffer chunks chunks v
    (RcState l' (<[c := set_RCBuf chunks o]> (rc_objs e)), Sys o' (s_dbg s) (s_stats s)).
Proof.
  intros Ho E. unfold rcw_read, mbind at 1, M_bind at 1, robj. cbn [fst]. rewrite Ho.
  unfold mbind, M_bind, rlib_os. cbn [fst snd]. by rewrite E.
Qed.

(** C36: a page stored in RAMCloud comes back as it was, whether the library keeps it in
    one piece, whose address replaces the buffer of the caller, or in several, which are
    copied into it. *)
Theorem ramcloud_read_back c o key v old pg e s chunks l' o' (Ho : rc_objs e !! c = Some o)
    (Hpg : object_at e (tableId o) key = Some pg) (Hl : Z.of_nat (length pg) = PAGE_SIZE)
    (Hv : buf_page (s_os s) v = Some old) (Hold : length old = length pg) (Hown : v ∉ rc_mem (rc_lib e)) (Hbuf : buffer_ok e (s_os s) (RCBuf o))
    (Hread : rc_read (rcClient o) (tableId o) (rc_key key) (RCBuf o) (rc_lib e, s_os s) = (inl chunks, (l', o'))) :
  exists v' e' s' pg', rcw_read c key v (e, s) = Ok ((PAGE_SIZE, v'), (e', s')) /\
    buf_page (s_os s') v' = Some pg' /\ take (Z.to_nat PAGE_SIZE) pg' = pg /\ s_dbg s' = s_dbg s /\
    forall t key', object_at e' t key' = object_at e t key'.
Proof.
  destruct (rread_law _ _ _ _ _ _ _ _ _ Hread Hbuf) as (Hsame & _ & Hmem & (pg1 & Hpg1 & us & -> & Hus) & Hne & _ & _).
  unfold object_at in Hpg. rewrite Hpg in Hpg1. injection Hpg1 as ->.
  rewrite (rcw_read_run c o key v e s chunks l' o') by done. unfold take_buffer.
  destruct Hus as [|[p len] u chunks us (pg' & Hp & Hlen & Hu) Hus]; [done|]. destruct Hus as [|c2 u2 chunks us Hc2 Hus].
  - cbn [concat] in *. rewrite app_nil_r in *. simpl in Hlen, Hp. subst len. rewrite Hl. cbn [length Nat.ltb Nat.leb].
    eexists p, _, _, pg'. split; [reflexivity|]. split; [exact Hp|]. split; [by rewrite <- Hl, Nat2Z.id|].
    split; [done|]. intros; apply Hsame.
  - cbn [length Nat.ltb Nat.leb]. unfold buffer_copy, mbind, M_bind. rewrite chunk_bytes_run with (us := u :: u2 :: us).
    2:{ constructor; [by exists pg'|]. by constructor. }
    set (pg := concat (u :: u2 :: us)) in *. rewrite (take_ge pg) by lia. unfold PAGE_SIZE in *.
    destruct (Hmem v Hown) as [_ Hvv]; [by eexists|]. unfold rc_sys, zoom, sys_load. cbn [snd s_os]. rewrite Hvv, Hv, decide_True by lia.
    unfold sys_store. cbn [fst snd s_os]. rewrite Hvv, Hv, Hl. destruct (poke_ok v (pg ++ drop (length pg) old) o') as (_ & _ & _ & Hpk).
    eexists v, _, _, (pg ++ drop (length pg) old). split; [reflexivity|].
    split; [simpl; apply Hpk; rewrite Hvv, Hv; by eexists|]. split; [rewrite drop_ge, app_nil_r by lia; apply take_ge; lia|].
    split; [done|]. intros; apply Hsame.
Qed.

(** The buffer of the fault handler is lost after the first page in one piece.  A read
    that gets the page in one piece leaves the caller with the address of memory of the
    library, which the next read releases; if that one gets its page in several pieces
    it copies them into memory that is gone. *)
Theorem ramcloud_stale_buffer c o k1 k2 v p len c1 c2 cs e s l1 o1 l2 o2 (Ho : rc_objs e !! c = Some o)
    (Hbuf : buffer_ok e (s_os s) (RCBuf o))
    (H1 : rc_read (rcClient o) (tableId o) (rc_key k1) (RCBuf o) (rc_lib e, s_os s) = (inl [(p, len)], (l1, o1)))
    (H2 : rc_read (rcClient o) (tableId o) (rc_key k2) [(p, len)] (l1, o1) = (inl (c1 :: c2 :: cs), (l2, o2))) :
  exists es1, rcw_read c k1 v (e, s) = Ok ((len, p), es1) /\ rcw_read c k2 p es1 = UB OutOfBounds.
Proof.
  rewrite (rcw_read_run c o k1 v e s [(p, len)] l1 o1) by done. eexists. split; [reflexivity|].
  destruct (rread_law _ _ _ _ _ _ _ _ _ H1 Hbuf) as (_ & _ & _ & (pg0 & _ & us0 & _ & Hh0) & _ & Hin & _).
  assert (Hb1 : forall q n, (q, n) ∈ [(p, len)] -> q ∈ rc_mem l1 /\ is_Some (buf_page o1 q)).
  { intros q n Hq. split; [by apply (Hin q n)|]. apply list_elem_of_singleton in Hq as [= -> ->].
    destruct us0 as [|u0 us0]; [by apply Forall2_length in Hh0|]. apply Forall2_cons in Hh0 as [(pg & Hp & _) _]. by eexists. }
  destruct (rread_law _ _ _ _ _ _ _ _ _ H2 Hb1) as (_ & _ & _ & (pg & _ & us & -> & Hus) & _ & _ & Hgone).
  rewrite (rcw_read_run c (set_RCBuf [(p, len)] o) k2 p _ _ (c1 :: c2 :: cs) l2 o2).
  - unfold take_buffer. cbn [length Nat.ltb Nat.leb]. unfold buffer_copy, mbind, M_bind.
    rewrite chunk_bytes_run with (us := us) by done. unfold rc_sys, zoom, sys_load. cbn [snd s_os].
    by rewrite (Hgone p len) by by left.
  - simpl. by rewrite lookup_insert_eq.
  - exact H2.
Qed.
End spec.
