(* ===== verification/BackendScenario.v ===== *)
(** Concrete memcached and RAMCloud clients: the theorems on the two backends applied to
    them. *)
From S2P Require Import Prelude Text Config MonitorStats Os SimOs ExternRam Memcached RamCloud.

#[local] Existing Instance default_build.

(** * A RAMCloud server *)

(** Its objects, the memory the client library uses, whether it refuses writes, and
    whether the next object arrives in two pieces. *)
Record sim_rc := SimRc {
  sr_objects : gmap (Z * list Z) (list Byte.byte);
  sr_mem : gset ptr;
  sr_refuse : bool;
  sr_split : bool
}.

Definition half_page : nat := Z.to_nat 2048.
Definition drop_chunks (b : list (Z * Z)) (m : gmap Z page) : gmap Z page := foldr (fun c m => delete c.1 m) m b.

Definition sim_rc_read (t : Z) (k : list Z) (b : list (Z * Z)) (lo : sim_rc * sim) : (list (Z * Z) + rc_exn) * (sim_rc * sim) :=
  let '(l, o) := lo in
  match sr_objects l !! (t, k) with
  | None => (inr (ClientException 3), (l, o))
  | Some v =>
      let p := fresh_ptr (sim_buf o) in
      if decide (p + 1 < 2 ^ 63) then
        let bufs := drop_chunks b (sim_buf o) in
        let mem := sr_mem l ∖ list_to_set b.*1 in
        if sr_split l then
          (inl [(p, Z.of_nat (length (take half_page v))); (p + 1, Z.of_nat (length (drop half_page v)))],
           (SimRc (sr_objects l) ({[p; p + 1]} ∪ mem) (sr_refuse l) false,
            sim_with_buf (<[p := take half_page v]> (<[p + 1 := drop half_page v]> bufs)) (sim_heap o) o))
        else
          (inl [(p, Z.of_nat (length v))],
           (SimRc (sr_objects l) ({[p]} ∪ mem) (sr_refuse l) true, sim_with_buf (<[p := v]> bufs) (sim_heap o) o))
      else (inr (RcException 12), (l, o))
  end.

(** Only what the theorems below use answers; the rest throws. *)
#[local] Instance SimRamCloud : @LibRamCloud SimOS := {
  ramcloud := sim_rc;
  STATUS_OK := 0;
  STATUS_OBJECT_DOESNT_EXIST := 3;
  rc_new _ l := (1, l);
  rc_delete _ l := l;
  rc_getTableId _ _ l := (inl 7, l);
  rc_createTable _ _ l := (inl 7, l);
  rc_dropTable _ _ l := (None, l);
  rc_write _ t k v l :=
    if sr_refuse l then (Some (ClientException 4), l)
    else (None, SimRc (<[(t, k) := v]> (sr_objects l)) (sr_mem l) (sr_refuse l) (sr_split l));
  rc_multiWrite _ _ l := (inr (RcException 5), l);
  rc_remove _ t k l := (None, SimRc (delete (t, k) (sr_objects l)) (sr_mem l) (sr_refuse l) (sr_split l));
  rc_read _ t k b lo := sim_rc_read t k b lo;
  rc_multiRead _ _ lo := (inr (RcException 5), lo);
  rpc := unit;
  rc_read_start _ _ _ l := (inr (RcException 5), l);
  rc_mread_start _ _ l := (inr (RcException 5), l);
  rc_isReady _ l := (true, l);
  rc_poll l := l;
  rc_read_wait _ _ lo := (inr (RcException 5), lo);
  rc_mread_wait _ lo := (inr (RcException 5), lo);
  rc_perf _ _ _ l := (inl (Perf 0 0 0), l);
  rc_perf_all _ l := (inl [], l)
}.

Lemma drop_chunks_lookup b m q : drop_chunks b m !! q = if decide (q ∈ b.*1) then None else m !! q.
Proof.
  induction b as [|[p len] b IH]; [done|]. simpl. destruct (decide (p = q)) as [->|Hne].
  - rewrite lookup_delete_eq. by rewrite decide_True by by left.
  - rewrite lookup_delete_ne by done. rewrite IH. destruct (decide (q ∈ b.*1)).
    + by rewrite decide_True by by right.
    + rewrite decide_False; [done|]. by intros [->|?]%elem_of_cons.
Qed.

(** Memory outside the library's is untouched when its buffers are released and new ones
    put at fresh addresses. *)
Lemma sim_rc_keep (o : sim) b (mem mem' : gset ptr) (m : gmap Z page) q :
  (forall p len, (p, len) ∈ b -> p ∈ mem) -> q ∉ mem -> is_Some (sim_at o q) ->
  (forall x, x ∈ mem' -> x ∈ mem \/ fresh_ptr (sim_buf o) <= x) ->
  (forall x, x < fresh_ptr (sim_buf o) -> m !! x = drop_chunks b (sim_buf o) !! x) ->
  q ∉ mem' /\ sim_at (sim_with_buf m (sim_heap o) o) q = sim_at o q.
Proof.
  intros Hb Hq Hs Hm Hx. destruct Hs as [pg E]. pose proof (sim_at_Some _ _ _ E) as [Hf Hlk].
  pose proof (proj2 (fresh_ptr_above (sim_buf o)) q ltac:(by eexists)) as Hlt. split.
  - intros [?|?]%Hm; [done|lia].
  - unfold sim_at. simpl. case_decide; [done|]. rewrite Hx, drop_chunks_lookup by done. rewrite decide_False; [done|].
    intros ([p len] & -> & Hin)%list_elem_of_fmap. by apply Hq, (Hb p len).
Qed.

Lemma sim_rc_gone (o : sim) b (m : gmap Z page) p len : (p, len) ∈ b -> p < fresh_ptr (sim_buf o) ->
  (forall x, x < fresh_ptr (sim_buf o) -> m !! x = drop_chunks b (sim_buf o) !! x) ->
  sim_at (sim_with_buf m (sim_heap o) o) p = None.
Proof.
  intros Hin Hlt Hx. unfold sim_at. simpl. case_decide; [done|]. rewrite Hx, drop_chunks_lookup by done.
  rewrite decide_True; [done|]. apply list_elem_of_fmap. by exists (p, len).
Qed.

Lemma sim_at_put (o : sim) (m : gmap Z page) p v : p < 2 ^ 63 -> m !! p = Some v -> sim_at (sim_with_buf m (sim_heap o) o) p = Some v.
Proof. intros Hp E. unfold sim_at, MAP_FAILED. rewrite decide_False by lia. exact E. Qed.

#[local] Program Instance sim_ramcloud_laws : RamCloudLaws SimRamCloud := {|
  rc_value (l : @ramcloud _ SimRamCloud) t k := sr_objects l !! (t, k);
  rc_mem (l : @ramcloud _ SimRamCloud) := sr_mem l
|}.
Next Obligation.
  intros c t k v l r l'. unfold rc_write, SimRamCloud. destruct (sr_refuse l); intros [= <- <-].
  + split; [done|]. split; [done|done].
  + split; [done|]. intros t' k'. simpl. destruct (decide ((t', k') = (t, k))) as [->|Hne].
    * by rewrite lookup_insert_eq.
    * by rewrite lookup_insert_ne.
Qed.
Next Obligation.
  intros c t k b l o r l' o'. unfold rc_read, SimRamCloud, sim_rc_read.
  destruct (sr_objects l !! (t, k)) as [v|] eqn:Ev.
  2:{ intros [= <- <- <-] _. split; [done|]. split; [by intros u a|]. by split. }
  set (p := fresh_ptr (sim_buf o)). destruct (decide (p + 1 < 2 ^ 63)) as [Hp|].
  2:{ intros [= <- <- <-] _. split; [done|]. split; [by intros u a|]. by split. }
  assert (Hlt : forall q len, (q, len) ∈ b -> is_Some (sim_at o q) -> q < p).
  { intros q len _ [pg E]. pose proof (sim_at_Some _ _ _ E) as [_ Hlk]. by apply (proj2 (fresh_ptr_above (sim_buf o))); eexists. }
  assert (Hp1 : 1 <= p) by apply fresh_ptr_pos.
  destruct (sr_split l); intros [= <- <- <-] Hb; cbn [rc_value rc_mem sr_objects sr_mem] in *.
  + set (m := <[p := take half_page v]> (<[p + 1 := drop half_page v]> (drop_chunks b (sim_buf o)))).
    assert (Hm : forall x, x < p -> m !! x = drop_chunks b (sim_buf o) !! x).
    { intros x Hx. unfold m. by rewrite !lookup_insert_ne by lia. }
    split; [done|]. split; [by intros u a|]. split.
    { intros q Hq Hs. apply (sim_rc_keep o b (sr_mem l)); [by intros ? ? [? _]%Hb|done|done| |exact Hm]. intros x Hx.
      apply elem_of_union in Hx as [[Hx|Hx]%elem_of_union|Hx]; [right; apply elem_of_singleton in Hx; lia..|left; by apply elem_of_difference in Hx as [? _]]. }
    split; [exists v; split; [done|]; exists [take half_page v; drop half_page v]; split; [simpl; by rewrite app_nil_r, take_drop|]|].
    * constructor; [|constructor; [|constructor]]; eexists.
      -- split; [apply sim_at_put; [simpl; lia|]; unfold m; by rewrite lookup_insert_eq|]. split; [done|]. apply take_ge. simpl. lia.
      -- split; [apply sim_at_put; [simpl; lia|]; unfold m; rewrite lookup_insert_ne by (simpl; lia); by rewrite lookup_insert_eq|].
         split; [done|]. apply take_ge. simpl. lia.
    * split; [done|]. split; [intros q n Hq; apply elem_of_union_l; clear -Hq; set_solver|]. intros q n Hq. destruct (Hb q n Hq) as [_ Hs].
      apply (sim_rc_gone o b m q n); [done|by apply (Hlt q n)|exact Hm].
  + set (m := <[p := v]> (drop_chunks b (sim_buf o))).
    assert (Hm : forall x, x < p -> m !! x = drop_chunks b (sim_buf o) !! x).
    { intros x Hx. unfold m. by rewrite lookup_insert_ne by lia. }
    split; [done|]. split; [by intros u a|]. split.
    { intros q Hq Hs. apply (sim_rc_keep o b (sr_mem l)); [by intros ? ? [? _]%Hb|done|done| |exact Hm]. intros x Hx.
      apply elem_of_union in Hx as [Hx|Hx]; [right; apply elem_of_singleton in Hx; lia|left; by apply elem_of_difference in Hx as [? _]]. }
    split; [exists v; split; [done|]; exists [v]; split; [simpl; by rewrite app_nil_r|]|].
    * constructor; [|constructor]. eexists. split; [apply sim_at_put; [simpl; lia|]; unfold m; by rewrite lookup_insert_eq|].
      split; [done|]. apply take_ge. simpl. lia.
    * split; [done|]. split; [intros q n Hq; apply elem_of_union_l; clear -Hq; set_solver|]. intros q n Hq. destruct (Hb q n Hq) as [_ Hs].
      apply (sim_rc_gone o b m q n); [done|by apply (Hlt q n)|exact Hm].
Qed.

(** * A RAMCloud client *)

Definition ones : page := replicate (Z.to_nat PAGE_SIZE) Byte.x01.
(** Buffers 10, with data, and 20. *)
Definition two_buffers : sys (H := SimOS) :=
  Sys (H := SimOS) (Sim ∅ ∅ {[10 := ones; 20 := zero_page]} ∅ ∅ ∅ 0) (Dbg 0 0 0 0) zero_stats.
Definition rc_object : rc_client := RcClient 1 NULL NULL 7 0 0 [] [] RpcUnset RpcUnset.
Definition rc_with (objects : gmap (Z * list Z) (list Byte.byte)) (refuse split : bool) : rc_state :=
  RcState (SimRc objects ∅ refuse split : ramcloud) {[1 := rc_object]}.
Definition key1 : Z := 65536.
Definition key2 : Z := 69632.

Lemma ones_size : Z.of_nat (length ones) = PAGE_SIZE.
Proof. vm_compute. reflexivity. Qed.

Definition stored1 : sim_rc := SimRc {[(7, rc_key key1) := ones]} ∅ false false.
Lemma rc_write_stored : rc_write (LibRamCloud := SimRamCloud) (write_target rc_object).1 (write_target rc_object).2 (rc_key key1) ones
  (SimRc ∅ ∅ false false) = (None, stored1).
Proof. vm_compute. reflexivity. Qed.

Lemma ramcloud_write_stores_witness : exists e', rcw_write 1 key1 10 PAGE_SIZE (rc_with ∅ false false, two_buffers) =
  Ok ((10, 0), (e', two_buffers)) /\ object_at e' 7 key1 = Some ones.
Proof.
  destruct (ramcloud_write_stores (LR := SimRamCloud) 1 rc_object key1 10 ones (rc_with ∅ false false) two_buffers
    (stored1 : @ramcloud SimOS SimRamCloud)) as (e' & E & _ & H);
    [reflexivity|by_decide|vm_compute; reflexivity|exact ones_size|exact rc_write_stored|].
  exists e'. split; [exact E|]. rewrite H by by_decide. by rewrite decide_True.
Defined.

Lemma ramcloud_refused_write_lost_witness : exists e' s',
  writePage (X := RamCloud 0) 3 1 key1 10 (rc_with ∅ true false, two_buffers) = Ok (NULL, (e', s')) /\ object_at e' 7 key1 = None.
Proof.
  destruct (ramcloud_refused_write_lost (LR := SimRamCloud) 2 0 1 rc_object key1 10 ones (rc_with ∅ true false) two_buffers (ClientException 4)
    (SimRc ∅ ∅ true false : @ramcloud SimOS SimRamCloud)) as (e' & s' & E & H & _);
    [reflexivity|vm_compute; reflexivity|exact ones_size|vm_compute; reflexivity|].
  exists e', s'. split; [exact E|]. rewrite H. vm_compute. reflexivity.
Defined.

(** Both pages are stored. *)
Definition both : gmap (Z * list Z) (list Byte.byte) := <[(7, rc_key key1) := ones]> {[(7, rc_key key2) := ones]}.
Definition read_result (lo : sim_rc * sim) (b : list (Z * Z)) (k : Z) : list (Z * Z) * (sim_rc * sim) :=
  match sim_rc_read 7 (rc_key k) b lo with (inl cs, lo) => (cs, lo) | (inr _, lo) => ([], lo) end.
Definition read1 : list (Z * Z) * (sim_rc * sim) :=
  read_result (SimRc both ∅ false true, s_os two_buffers) [] key1.

Lemma read1_eq : rc_read (LibRamCloud := SimRamCloud) (rcClient rc_object) (tableId rc_object) (rc_key key1) (RCBuf rc_object)
  (SimRc both ∅ false true, s_os two_buffers) = (inl read1.1, (read1.2.1, read1.2.2)).
Proof. vm_compute. reflexivity. Qed.
Lemma both_first split : object_at (rc_with both false split) (tableId rc_object) key1 = Some ones.
Proof. apply lookup_insert_eq. Qed.
Lemma zero_ones : length zero_page = length ones.
Proof. vm_compute. reflexivity. Qed.
Lemma buffer_20 : buf_page (s_os two_buffers) 20 = Some zero_page.
Proof. vm_compute. reflexivity. Qed.

Lemma ramcloud_read_back_witness : exists v' e' s' pg', rcw_read 1 key1 20 (rc_with both false true, two_buffers) =
  Ok ((PAGE_SIZE, v'), (e', s')) /\ buf_page (s_os s') v' = Some pg' /\ take (Z.to_nat PAGE_SIZE) pg' = ones.
Proof.
  destruct (ramcloud_read_back (LR := SimRamCloud) 1 rc_object key1 20 zero_page ones (rc_with both false true) two_buffers read1.1 read1.2.1 read1.2.2)
    as (v' & e' & s' & pg' & E & H1 & H2 & _);
    [reflexivity|apply both_first|exact ones_size|exact buffer_20|exact zero_ones|apply not_elem_of_empty| |exact read1_eq|].
  - intros p len ?%elem_of_nil. done.
  - exists v', e', s', pg'. split; [exact E|]. split; [exact H1|exact H2].
Defined.

(** A page in one piece, then one in two. *)
Definition first_read : list (Z * Z) * (sim_rc * sim) := read_result (SimRc both ∅ false false, s_os two_buffers) [] key1.
Definition second_read : list (Z * Z) * (sim_rc * sim) := read_result first_read.2 first_read.1 key2.

Lemma first_read_eq : rc_read (LibRamCloud := SimRamCloud) (rcClient rc_object) (tableId rc_object) (rc_key key1) (RCBuf rc_object)
  (SimRc both ∅ false false, s_os two_buffers) = (inl [(21, PAGE_SIZE)], (first_read.2.1, first_read.2.2)).
Proof. vm_compute. reflexivity. Qed.
Lemma second_read_eq : rc_read (LibRamCloud := SimRamCloud) (rcClient rc_object) (tableId rc_object) (rc_key key2) [(21, PAGE_SIZE)]
  (first_read.2.1, first_read.2.2) = (inl [(22, 2048); (23, 2048)], (second_read.2.1, second_read.2.2)).
Proof. vm_compute. reflexivity. Qed.

Lemma ramcloud_stale_buffer_witness : exists p es1, rcw_read 1 key1 20 (rc_with both false false, two_buffers) = Ok ((PAGE_SIZE, p), es1) /\
  rcw_read 1 key2 p es1 = UB OutOfBounds.
Proof.
  destruct (ramcloud_stale_buffer (LR := SimRamCloud) 1 rc_object key1 key2 20 21 PAGE_SIZE (22, 2048) (23, 2048) [] (rc_with both false false)
    two_buffers first_read.2.1 first_read.2.2 second_read.2.1 second_read.2.2) as (es1 & E1 & E2);
    [reflexivity| |exact first_read_eq|exact second_read_eq|].
  - intros p len ?%elem_of_nil. done.
  - exists 21, es1. split; [exact E1|exact E2].
Defined.

(** * A memcached client *)

Definition mc_object : mc_client := McClient 1 NULL NULL (replicate (Z.to_nat MAX_MULTI_READ) (replicate (KEYSTR_LEN + 1) None)).
Definition mc_with (values : gmap (list Z * list Z) (list Byte.byte)) (down : nat) (broken : bool) : mc_state :=
  McState (SimMc values {[1 := [97]]} [] down broken : mc) [] 1 NULL NULL {[1 := mc_object]}.

Lemma mc_with_ok values down broken : client_ok (mc_with values down broken) 1 [97].
Proof. exists mc_object. split; [done|]. by split. Qed.


Definition one_value : gmap (list Z * list Z) (list Byte.byte) := {[([97], print_lx key1) := ones]}.

Lemma memcached_read_back_witness : exists len e' s', mc_read 1 key1 20 (mc_with one_value 0 false, two_buffers) =
  Ok ((len, 20), (e', s')) /\ s_dbg s' = s_dbg two_buffers.
Proof.
  destruct (memcached_read_back 1 [97] key1 20 zero_page ones (mc_with one_value 0 false) two_buffers (mc_with_ok _ _ _))
    as (len & e' & s' & E & _ & _ & H & _);
    [by_decide|vm_compute; reflexivity|exact ones_size|vm_compute; reflexivity|vm_compute; reflexivity|].
  exists len, e', s'. split; [exact E|exact H].
Defined.

Lemma memcached_read_failure_hidden_witness : exists e', mc_read 1 key1 20 (mc_with one_value 0 true, two_buffers) =
  Ok ((0, 20), (e', two_buffers)) /\ page_at e' [97] key1 = Some ones.
Proof.
  apply (memcached_read_failure_hidden 1 [97] key1 20 ones (mc_with one_value 0 true) two_buffers None (MEMCACHED_OTHER 3)
    (SimMc one_value {[1 := [97]]} [] 0 true : @mc SimMemcached)); [apply mc_with_ok|by_decide|vm_compute; reflexivity| |done].
  intros o Ho. injection Ho as <-. reflexivity.
Defined.

(** Two keys were asked for, and the first is not there. *)
Definition mc_shifted : mc_state :=
  McState (SimMc ∅ {[1 := [97]]} [(print_lx key2, ones)] 0 false : mc) [] 1 NULL NULL
    {[1 := McClient 1 NULL NULL [Some <$> print_lx key1 ++ [0]; Some <$> print_lx key2 ++ [0]]]}.
Definition shifted_object : mc_client := McClient 1 NULL NULL [Some <$> print_lx key1 ++ [0]; Some <$> print_lx key2 ++ [0]].

Lemma memcached_values_shift_witness : exists e' s', mc_multiRead_bottom 2 1 [20; 30] (mc_shifted, two_buffers) =
  Ok ([PAGE_SIZE; 0], (e', s')) /\ buf_page (s_os s') 20 = Some ones.
Proof.
  destruct (memcached_values_shift 1 1 shifted_object (print_lx key2) 20 30 zero_page ones mc_shifted two_buffers
    (SimMc ∅ {[1 := [97]]} [] 0 false : @mc SimMemcached) MEMCACHED_NOTFOUND (SimMc ∅ {[1 := [97]]} [] 0 false : @mc SimMemcached))
    as (e' & s' & E & H & _);
    [reflexivity|exact ones_size|vm_compute; reflexivity|vm_compute; reflexivity|vm_compute; discriminate|reflexivity|reflexivity|].
  exists e', s'. split; [exact E|exact H].
Defined.
