(* ===== verification/ThreadedIo.v ===== *)
(** The write and prefetch lists of [include/threaded_io.h]: two hash tables
    keyed by descriptor and page address, the flags the threads wait on, and the
    semaphores. *)
From S2P Require Import Prelude Config MonitorStats Os UtHash.

Definition WRITE_BATCH_SIZE : Z := 100.

(** [info_key_t]: four bytes of descriptor, eight of address, no padding. *)
Definition info_key (ufd pageaddr : Z) : bytes := le_bytes 4 ufd ++ le_bytes 8 pageaddr.

Record write_info := WriteInfo {
  w_ufd : Z;
  w_pageaddr : Z;
  w_page : ptr;
  in_flight : bool
}.

Record prefetch_info := PrefetchInfo { p_ufd : Z; p_pageaddr : Z }.

Record tio := Tio {
  write_list : uthash write_info;
  prefetch_list : uthash prefetch_info;
  isWriterWaiting : bool;
  isPrefetcherWaiting : bool;
  isUfhandlerWaiting : bool;
  flushWriteListNeeded : bool;
  writer_sem : Z;
  prefetcher_sem : Z;
  ufhandler_sem : Z;
  flushed_write_sem : Z
}.

Definition init_tio : tio :=
  Tio empty_hash empty_hash false false false false 0 0 0 0.

Definition set_write_list (l : uthash write_info) (t : tio) : tio :=
  Tio l (prefetch_list t) (isWriterWaiting t) (isPrefetcherWaiting t) (isUfhandlerWaiting t)
    (flushWriteListNeeded t) (writer_sem t) (prefetcher_sem t) (ufhandler_sem t) (flushed_write_sem t).
Definition set_prefetch_list (l : uthash prefetch_info) (t : tio) : tio :=
  Tio (write_list t) l (isWriterWaiting t) (isPrefetcherWaiting t) (isUfhandlerWaiting t)
    (flushWriteListNeeded t) (writer_sem t) (prefetcher_sem t) (ufhandler_sem t) (flushed_write_sem t).
Definition set_waiting (w p u : bool) (t : tio) : tio :=
  Tio (write_list t) (prefetch_list t) w p u
    (flushWriteListNeeded t) (writer_sem t) (prefetcher_sem t) (ufhandler_sem t) (flushed_write_sem t).
Definition set_flush_needed (b : bool) (t : tio) : tio :=
  Tio (write_list t) (prefetch_list t) (isWriterWaiting t) (isPrefetcherWaiting t)
    (isUfhandlerWaiting t) b (writer_sem t) (prefetcher_sem t) (ufhandler_sem t) (flushed_write_sem t).
Definition set_sems (w p u f : Z) (t : tio) : tio :=
  Tio (write_list t) (prefetch_list t) (isWriterWaiting t) (isPrefetcherWaiting t)
    (isUfhandlerWaiting t) (flushWriteListNeeded t) w p u f.

Inductive tio_sem : Set := Writer | Prefetcher | Ufhandler | FlushedWrite.

Definition sem_value (x : tio_sem) (t : tio) : Z :=
  match x with
  | Writer => writer_sem t | Prefetcher => prefetcher_sem t
  | Ufhandler => ufhandler_sem t | FlushedWrite => flushed_write_sem t
  end.
Definition sem_set (x : tio_sem) (v : Z) (t : tio) : tio :=
  match x with
  | Writer => set_sems v (prefetcher_sem t) (ufhandler_sem t) (flushed_write_sem t) t
  | Prefetcher => set_sems (writer_sem t) v (ufhandler_sem t) (flushed_write_sem t) t
  | Ufhandler => set_sems (writer_sem t) (prefetcher_sem t) v (flushed_write_sem t) t
  | FlushedWrite => set_sems (writer_sem t) (prefetcher_sem t) (ufhandler_sem t) v t
  end.

(** POSIX semaphores: a wait on zero stops until another thread posts. *)
Definition sem_post (x : tio_sem) : M tio unit := mmod (fun t => sem_set x (sem_value x t + 1) t).
Definition sem_wait (x : tio_sem) : M tio unit := fun t =>
  if 0 <? sem_value x t then Ok (tt, sem_set x (sem_value x t - 1) t) else Blocked.

(** * The write list *)

Definition add_write_info (ufd pageaddr : Z) (page : ptr) : M tio unit :=
  mmod (fun t =>
    let s := fresh_ptr (elts (write_list t)) in
    set_write_list
      (HASH_ADD s (info_key ufd pageaddr) (WriteInfo ufd pageaddr page false) (write_list t)) t).

Definition find_write_info (ufd pageaddr : Z) : M tio (option ptr) :=
  mgets (fun t => HASH_FIND (info_key ufd pageaddr) (write_list t)).

Definition exist_write_info (ufd pageaddr : Z) : M tio bool :=
  p ← find_write_info ufd pageaddr; mret (bool_decide (is_Some p)).

Definition get_one_write_info : M tio (option ptr) := mgets (fun t => head (HASH_ITER (write_list t))).

(** [HASH_DELETE] and [free] of one element. *)
Definition drop_write_info (p : ptr) (t : tio) : tio :=
  set_write_list (free_elt p (HASH_DELETE p (write_list t))) t.

(** An absent key is reported with [log_err]. *)
Definition del_write_info (ufd pageaddr : Z) : M (tio * dbg) unit := fun td =>
  match HASH_FIND (info_key ufd pageaddr) (write_list td.1) with
  | Some p => Ok (tt, (drop_write_info p td.1, td.2))
  | None => match log_err td.2 with
            | Ok (_, d) => Ok (tt, (td.1, d))
            | UB f => UB f
            | Blocked => Blocked
            end
  end.

Definition get_write_list_size : M tio Z := mgets (fun t => s32 (HASH_CNT (write_list t))).

(** The page of an entry that no write is using, taken off the list. *)
Definition extract_page_from_write_list (w : option ptr) : M tio (option ptr) := fun t =>
  match w with
  | None => Ok (None, t)
  | Some w =>
      match deref w (write_list t) with
      | Ok e => if in_flight (payload e) then Ok (None, t)
                else Ok (Some (w_page (payload e)), drop_write_info w t)
      | UB f => UB f
      | Blocked => Blocked
      end
  end.

(** * The prefetch list *)

Definition add_prefetch_info (ufd pageaddr : Z) : M tio unit :=
  mmod (fun t =>
    let s := fresh_ptr (elts (prefetch_list t)) in
    set_prefetch_list
      (HASH_ADD s (info_key ufd pageaddr) (PrefetchInfo ufd pageaddr) (prefetch_list t)) t).

Definition exist_prefetch_info (ufd pageaddr : Z) : M tio bool :=
  mgets (fun t => bool_decide (is_Some (HASH_FIND (info_key ufd pageaddr) (prefetch_list t)))).

Definition get_one_prefetch_info : M tio (option ptr) :=
  mgets (fun t => head (HASH_ITER (prefetch_list t))).

Definition drop_prefetch_info (p : ptr) (t : tio) : tio :=
  set_prefetch_list (free_elt p (HASH_DELETE p (prefetch_list t))) t.

Definition del_prefetch_info (ufd pageaddr : Z) : M (tio * dbg) unit := fun td =>
  match HASH_FIND (info_key ufd pageaddr) (prefetch_list td.1) with
  | Some p => Ok (tt, (drop_prefetch_info p td.1, td.2))
  | None => match log_err td.2 with
            | Ok (_, d) => Ok (tt, (td.1, d))
            | UB f => UB f
            | Blocked => Blocked
            end
  end.

Definition get_prefetch_list_size : M tio Z := mgets (fun t => s32 (HASH_CNT (prefetch_list t))).

(** * Keys *)

Lemma info_key_inj u a u' a' : is_s32 u -> is_s32 u' -> is_u64 a -> is_u64 a' ->
  info_key u a = info_key u' a' -> u = u' /\ a = a'.
Proof.
  unfold info_key. intros Hu Hu' Ha Ha' E.
  apply app_inj_1 in E as [E1 E2]; [|by rewrite !length_le_bytes].
  split; [by apply le_bytes_inj_s32|by apply le_bytes_inj_u64].
Qed.

(** * The write list as a finite map *)

Definition w_key (w : write_info) : bytes := info_key (w_ufd w) (w_pageaddr w).

(** The table is keyed by its entries' own fields, which are in range. *)
Record wl_ok (h : uthash write_info) : Prop := {
  wl_keyed : keyed w_key h;
  wl_range : forall k w, get k h = Some w -> is_s32 (w_ufd w) /\ is_u64 (w_pageaddr w)
}.

(** The entry of a page. *)
Definition wl_get (h : uthash write_info) (u a : Z) : option write_info := get (info_key u a) h.

Lemma wl_get_fields h u a w : wl_ok h -> is_s32 u -> is_u64 a -> wl_get h u a = Some w ->
  w_ufd w = u /\ w_pageaddr w = a.
Proof.
  intros Hok Hu Ha E. destruct (wl_range h Hok _ _ E). apply (get_key w_key) in E; [|apply Hok].
  by apply info_key_inj in E.
Qed.

Lemma wl_add_ok h u a page : wl_ok h -> can_grow h -> is_s32 u -> is_u64 a -> wl_get h u a = None ->
  let h' := HASH_ADD (fresh_ptr (elts h)) (info_key u a) (WriteInfo u a page false) h in
  wl_ok h' /\
  forall u' a', is_s32 u' -> is_u64 a' -> wl_get h' u' a' =
    if decide (u' = u /\ a' = a) then Some (WriteInfo u a page false) else wl_get h u' a'.
Proof.
  intros Hok Hg Hu Ha Hnone h'.
  destruct (keyed_add w_key h (WriteInfo u a page false) (wl_keyed h Hok) Hg Hnone) as (Hk & Hget & _).
  split; [split; [done|]|].
  - intros k w. rewrite Hget. case_decide; [|by apply Hok]. by intros [= <-].
  - intros u' a' Hu' Ha'. unfold wl_get. rewrite Hget. unfold w_key. simpl.
    destruct (decide (u' = u /\ a' = a)) as [[-> ->]|Hne]; [by rewrite decide_True|].
    rewrite decide_False; [done|]. intros E. by apply Hne, info_key_inj.
Qed.

Lemma wl_drop_ok h u a p : wl_ok h -> is_s32 u -> is_u64 a -> HASH_FIND (info_key u a) h = Some p ->
  let h' := free_elt p (HASH_DELETE p h) in
  wl_ok h' /\
  forall u' a', is_s32 u' -> is_u64 a' -> wl_get h' u' a' =
    if decide (u' = u /\ a' = a) then None else wl_get h u' a'.
Proof.
  intros Hok Hu Ha F h'.
  destruct (keyed_drop w_key h _ p (wl_keyed h Hok) F) as (Hk & Hget & _ & _).
  split; [split; [done|]|].
  - intros k w. unfold h'. rewrite Hget. case_decide; [done|]. by apply Hok.
  - intros u' a' Hu' Ha'. unfold wl_get, h'. rewrite Hget.
    destruct (decide (u' = u /\ a' = a)) as [[-> ->]|Hne]; [by rewrite decide_True|].
    rewrite decide_False; [done|]. intros E. by apply Hne, info_key_inj.
Qed.

(** The write list is a map from page addresses of descriptors to pending
    pages: adding an absent page makes exactly that page findable, not in
    flight, whatever the hash values of the keys. *)
Theorem add_write_info_lookup t u a page (Hok : wl_ok (write_list t)) (Hgrow : can_grow (write_list t))
    (Hu : is_s32 u) (Ha : is_u64 a) (Habsent : wl_get (write_list t) u a = None) :
  exists t', add_write_info u a page t = Ok (tt, t') /\ wl_ok (write_list t') /\
    forall u' a', is_s32 u' -> is_u64 a' -> wl_get (write_list t') u' a' =
      if decide (u' = u /\ a' = a) then Some (WriteInfo u a page false)
      else wl_get (write_list t) u' a'.
Proof.
  destruct (wl_add_ok (write_list t) u a page) as [Hok' Hget]; try done.
  eexists. split; [reflexivity|]. by split.
Qed.

(** A page can be taken back from the write list unless the write thread has
    it in flight; taking it removes it and returns its buffer, and a page in
    flight, or none, leaves the list as it was. *)
Theorem extract_write_info_spec t u a (Hok : wl_ok (write_list t)) (Hu : is_s32 u) (Ha : is_u64 a) :
  exists r t', (w ← find_write_info u a; extract_page_from_write_list w) t = Ok (r, t') /\
    match wl_get (write_list t) u a with
    | Some w => if in_flight w then r = None /\ t' = t
                else r = Some (w_page w) /\ wl_ok (write_list t') /\
                     forall u' a', is_s32 u' -> is_u64 a' -> wl_get (write_list t') u' a' =
                       if decide (u' = u /\ a' = a) then None else wl_get (write_list t) u' a'
    | None => r = None /\ t' = t
    end.
Proof.
  unfold find_write_info, extract_page_from_write_list. mrun.
  destruct (HASH_FIND (info_key u a) (write_list t)) as [p|] eqn:F.
  2:{ exists None, t. split; [done|]. unfold wl_get. by rewrite (proj2 (get_None w_key _ _ (wl_keyed _ Hok)) F). }
  destruct (get_find w_key _ _ p (wl_keyed _ Hok) F) as (e & He & Hw). unfold wl_get at 1. rewrite Hw.
  unfold deref. rewrite He. destruct (in_flight (payload e)).
  - exists None, t. done.
  - eexists _, _. split; [reflexivity|]. split; [done|].
    by apply (wl_drop_ok (write_list t) u a p).
Qed.

(** ** A list with one pending page *)

Lemma empty_wl_ok : wl_ok empty_hash.
Proof. split; [apply empty_keyed|]. done. Qed.

Definition one_pending : tio :=
  match add_write_info 5 65536 7 init_tio with Ok (_, t) => t | _ => init_tio end.

Lemma one_pending_ok : wl_ok (write_list one_pending).
Proof. apply (wl_add_ok empty_hash 5 65536 7 empty_wl_ok); try done; unfold is_s32, is_u64; lia. Qed.

Lemma add_write_info_lookup_witness : exists t', add_write_info 5 65536 7 init_tio = Ok (tt, t') /\
  wl_get (write_list t') 5 65536 = Some (WriteInfo 5 65536 7 false) /\ wl_get (write_list t') 6 65536 = None.
Proof.
  destruct (add_write_info_lookup init_tio 5 65536 7 empty_wl_ok Logic.I) as (t' & E & _ & H);
    [unfold is_s32; lia|unfold is_u64; lia|reflexivity|].
  exists t'. split; [exact E|]. clear E. split; rewrite H by (unfold is_s32, is_u64; lia); reflexivity.
Defined.

Lemma extract_write_info_spec_witness : exists t',
  (w ← find_write_info 5 65536; extract_page_from_write_list w) one_pending = Ok (Some 7, t') /\
  wl_get (write_list t') 5 65536 = None.
Proof.
  destruct (extract_write_info_spec one_pending 5 65536 one_pending_ok) as (r & t' & E & H);
    [unfold is_s32; lia|unfold is_u64; lia|].
  assert (G : wl_get (write_list one_pending) 5 65536 = Some (WriteInfo 5 65536 7 false)) by (vm_compute; reflexivity).
  rewrite G in H. destruct H as (-> & _ & H). exists t'. split; [exact E|]. clear E.
  rewrite H by (unfold is_s32, is_u64; lia). reflexivity.
Defined.
