(* ===== verification/Upid.v ===== *)
(** The descriptor map of [include/upid.h]: which process a userfault
    descriptor belongs to and which client holds its pages; the node identifier;
    and the 64-bit unique process identifier [recv_fd] builds. *)
From S2P Require Import Prelude Config MonitorStats Os UtHash ExternRam.

Record map_struct := MapStruct { m_fd : Z; m_upid : Z; m_client : ptr }.

(** [fdUpidMap] and the mutex that protects it. *)
Record fdmap := FdMap { fdUpidMap : uthash map_struct; fdUpidMap_lock : bool }.

(** [HASH_ADD_INT] and [HASH_FIND_INT] hash the four bytes of the [int]. *)
Definition int_key (fd : Z) : bytes := le_bytes 4 fd.

(** Locking a default mutex that the calling thread holds never returns;
    unlocking one that is not locked is undefined. *)
Definition lock_fdmap : M fdmap unit := fun m =>
  if fdUpidMap_lock m then Blocked else Ok (tt, FdMap (fdUpidMap m) true).
Definition unlock_fdmap : M fdmap unit := fun m =>
  if fdUpidMap_lock m then Ok (tt, FdMap (fdUpidMap m) false) else UB BadUnlock.

Definition set_map (h : uthash map_struct) : M fdmap unit := mmod (fun m => FdMap h (fdUpidMap_lock m)).
Definition get_map : M fdmap (uthash map_struct) := mgets fdUpidMap.

Definition add_upid_in_map (fd upid : Z) : M fdmap unit :=
  lock_fdmap;;
  h ← get_map;
  set_map (HASH_ADD (fresh_ptr (elts h)) (int_key fd) (MapStruct fd upid NULL) h);;
  unlock_fdmap.

(** The element of a descriptor. *)
Definition find_fd (fd : Z) (h : uthash map_struct) : option map_struct :=
  p ← HASH_FIND (int_key fd) h; payload <$> elts h !! p.

Definition get_upid_by_fd (fd : Z) : M fdmap Z :=
  lock_fdmap;;
  h ← get_map;
  unlock_fdmap;;
  mret (match find_fd fd h with None => 0 | Some s => m_upid s end).

Definition get_client_by_fd (fd : Z) : M fdmap ptr :=
  lock_fdmap;;
  h ← get_map;
  unlock_fdmap;;
  mret (match find_fd fd h with None => NULL | Some s => m_client s end).

(** [HASH_DEL] and [free] of an element. *)
Definition drop_fd (p : ptr) (h : uthash map_struct) : uthash map_struct := free_elt p (HASH_DELETE p h).

Definition del_fd_upid_map : M fdmap unit :=
  lock_fdmap;;
  h ← get_map;
  set_map (foldl (fun h p => drop_fd p h) h (HASH_ITER h));;
  unlock_fdmap.

(** Called with the lock held. *)
Definition del_fd_from_map (fd : Z) : M fdmap Z :=
  h ← get_map;
  match HASH_FIND (int_key fd) h with
  | None => mret (-1)
  | Some p => set_map (drop_fd p h);; mret 0
  end.

(** * Node and process identifiers *)

(** [key[i]] is a signed [char], converted to [uint32_t]. *)
Definition jenkins_step (hash : Z) (c : Z) : Z :=
  let c := if c <? 128 then c else c - 256 in
  let hash := u32 (hash + c) in
  let hash := u32 (hash + u32 (Z.shiftl hash 10)) in
  Z.lxor hash (Z.shiftr hash 6).
Definition jenkins_hash (key : list Z) : Z :=
  let hash := foldl jenkins_step 0 key in
  let hash := u32 (hash + u32 (Z.shiftl hash 3)) in
  let hash := Z.lxor hash (Z.shiftr hash 11) in
  u32 (hash + u32 (Z.shiftl hash 15)).

(** [fgets(buff, 255, fp)]: at most 254 bytes, up to and including a newline. *)
Fixpoint fgets (n : nat) (l : list Z) : list Z :=
  match n, l with
  | S n, c :: l => if c =? 10 then [c] else c :: fgets n l
  | _, _ => []
  end.
(** [strlen]: the bytes before the first NUL. *)
Fixpoint c_string (l : list Z) : list Z :=
  match l with
  | c :: l => if c =? 0 then [] else c :: c_string l
  | [] => []
  end.

Definition node_id_of_hash (nodeId : Z) : Z :=
  u16 (Z.shiftr (Z.lxor (u32 (Z.shiftl nodeId 16)) nodeId) 16).

Section node.
Context `{O : OS}.

(** A missing file is passed to [fgets] unchecked; an empty one leaves the
    buffer uninitialised. *)
Definition get_node_id : M sys Z := fun s =>
  match machine_id (s_os s) with
  | None => UB NullDeref
  | Some content =>
      match fgets 254 content with
      | [] => UB Uninitialised
      | buff => Ok (node_id_of_hash (jenkins_hash (c_string buff)), s)
      end
  end.

(** [register_with_externram]; a null client is an error. *)
Definition register_with_externram `{X : !ExternRAM} (config : string) (fd : Z)
  : M (fdmap * (ext * sys)) Z :=
  zoom fst (fun m s => (m, s.2)) lock_fdmap;;
  h ← mgets (fun s => fdUpidMap s.1);
  ret ← match HASH_FIND (int_key fd) h with
        | None => mret (-1)
        | Some p =>
            match elts h !! p with
            | None => mub UseAfterFree
            | Some s =>
                c ← zoom snd (fun x s => (s.1, x)) (newExternRAMClient config (m_upid (payload s)));
                zoom fst (fun m s => (m, s.2))
                  (h ← get_map;
                   set_map (update p (fun s => MapStruct (m_fd s) (m_upid s) c) h));;
                if decide (c = NULL) then
                  zoom (fun s => s.2.2) (fun y s => (s.1, (s.2.1, y))) sys_log_err;; mret (-1)
                else mret 0
            end
        end;
  zoom fst (fun m s => (m, s.2)) unlock_fdmap;;
  mret ret.
End node.

(** The eight bytes of a identifier: node, process, counter. *)
Definition upid_bytes (node pid counter : Z) : list Z :=
  le_bytes 2 node ++ le_bytes 4 pid ++ le_bytes 2 counter.
Definition mk_upid (node pid counter : Z) : Z := le_value (upid_bytes node pid counter).

(** Reading the fields back, as [purgeDeadUpids] and the others do. *)
Definition upid_node (upid : Z) : Z := le_value (take 2 (le_bytes 8 upid)).
Definition upid_pid (upid : Z) : Z := le_value (take 4 (drop 2 (le_bytes 8 upid))).
(** [*upid] for [uint8_t upid[8]]: one byte. *)
Definition upid_first_byte (upid : Z) : Z := le_value (take 1 (le_bytes 8 upid)).

(** * Identifiers *)

Lemma le_value_range bs : Forall (fun b => 0 <= b < 256) bs -> 0 <= le_value bs < 256 ^ Z.of_nat (length bs).
Proof.
  induction 1 as [|b bs Hb _ IH]; [done|]. simpl le_value. simpl length.
  rewrite Nat2Z.inj_succ, Z.pow_succ_r by lia. nia.
Qed.

Lemma le_bytes_value bs : Forall (fun b => 0 <= b < 256) bs -> le_bytes (length bs) (le_value bs) = bs.
Proof.
  induction 1 as [|b bs Hb _ IH]; [done|]. simpl. f_equal.
  - by rewrite Z.mul_comm, Z.mod_add, Z.mod_small by lia.
  - rewrite Z.mul_comm, Z.div_add, Z.div_small by lia. by rewrite Z.add_0_l.
Qed.

Lemma le_bytes_byte n z : Forall (fun b => 0 <= b < 256) (le_bytes n z).
Proof.
  revert z. induction n as [|n IH]; intros z; constructor; [|apply IH]. apply Z.mod_pos_bound. lia.
Qed.

Lemma upid_bytes_mk node pid counter : le_bytes 8 (mk_upid node pid counter) = upid_bytes node pid counter.
Proof.
  apply (le_bytes_value (upid_bytes node pid counter)). unfold upid_bytes.
  rewrite !Forall_app. split; [|split]; apply le_bytes_byte.
Qed.

Lemma upid_node_mk node pid counter : upid_node (mk_upid node pid counter) = u16 node.
Proof. unfold upid_node. rewrite upid_bytes_mk. apply (le_value_bytes 2). Qed.
Lemma upid_pid_mk node pid counter : upid_pid (mk_upid node pid counter) = u32 pid.
Proof. unfold upid_pid. rewrite upid_bytes_mk. apply (le_value_bytes 4). Qed.

(** The node and process fields of an identifier are read back as they were
    written, identifiers of one node and process differ exactly when their
    counters do, and every identifier fits in 64 bits. *)
Theorem mk_upid_roundtrip node pid counter counter' :
  upid_node (mk_upid node pid counter) = u16 node /\
  upid_pid (mk_upid node pid counter) = u32 pid /\
  is_u64 (mk_upid node pid counter) /\
  (mk_upid node pid counter = mk_upid node pid counter' <-> u16 counter = u16 counter').
Proof.
  split; [apply upid_node_mk|]. split; [apply upid_pid_mk|]. split.
  - apply (le_value_range (upid_bytes node pid counter)). unfold upid_bytes.
    rewrite !Forall_app. split; [|split]; apply le_bytes_byte.
  - split.
    + intros E. apply (f_equal (le_bytes 8)) in E. rewrite !upid_bytes_mk in E. unfold upid_bytes in E.
      do 2 apply app_inv_head in E. by apply le_bytes_inj in E.
    + intros E. unfold mk_upid, upid_bytes. rewrite !le_value_app, !le_value_bytes.
      change (256 ^ Z.of_nat 2) with (2 ^ 16). unfold u16 in E. by rewrite E.
Qed.

(** The node identifier is the exclusive or of the two halves of the 32-bit
    hash of the machine identifier. *)
Theorem node_id_folds h (Hh : 0 <= h < 2 ^ 32) :
  node_id_of_hash h = Z.lxor (h mod 2 ^ 16) (h / 2 ^ 16).
Proof.
  unfold node_id_of_hash, u16, u32. rewrite Z.shiftr_lxor.
  rewrite (Z.shiftr_div_pow2 h) by lia.
  assert (E : Z.shiftr (Z.shiftl h 16 mod 2 ^ 32) 16 = h mod 2 ^ 16).
  { rewrite <- !Z.land_ones by lia. rewrite Z.shiftr_land, Z.shiftr_shiftl_l by lia.
    rewrite Z.sub_diag, Z.shiftl_0_r. reflexivity. }
  rewrite E. apply Z.mod_small.
  assert (Hlt : forall x, 0 <= x < 2 ^ 16 -> Z.land x (Z.ones 16) = x).
  { intros x Hx. rewrite Z.land_ones, Z.mod_small by lia. done. }
  pose proof (Z.mod_pos_bound h (2 ^ 16) ltac:(lia)) as Hlo.
  assert (Hhi : 0 <= h / 2 ^ 16 < 2 ^ 16).
  { split; [apply Z.div_pos; lia|apply Z.div_lt_upper_bound; lia]. }
  rewrite <- (Hlt _ Hlo), <- (Hlt _ Hhi). 
  assert (Hd : forall x y, Z.lxor (Z.land x (Z.ones 16)) (Z.land y (Z.ones 16)) = Z.land (Z.lxor x y) (Z.ones 16)).
  { intros x y. apply Z.bits_inj'. intros n Hn. rewrite Z.lxor_spec, !Z.land_spec, Z.lxor_spec.
    by destruct (Z.testbit x n), (Z.testbit y n), (Z.testbit (Z.ones 16) n). }
  rewrite Hd, Z.land_ones by lia. apply Z.mod_pos_bound. lia.
Qed.

Lemma node_id_folds_witness : node_id_of_hash 305419896 = 17484.
Proof. rewrite node_id_folds; [by vm_compute|lia]. Defined.

(** * The descriptor map *)

Definition m_key (s : map_struct) : bytes := int_key (m_fd s).

Record fm_ok (h : uthash map_struct) : Prop := {
  fm_keyed : keyed m_key h;
  fm_range : forall k s, get k h = Some s -> is_s32 (m_fd s)
}.

Lemma int_key_inj fd fd' : is_s32 fd -> is_s32 fd' -> int_key fd = int_key fd' -> fd = fd'.
Proof. apply le_bytes_inj_s32. Qed.

Lemma find_fd_get fd h : find_fd fd h = get (int_key fd) h.
Proof. done. Qed.

Lemma find_fd_fd h fd s : fm_ok h -> is_s32 fd -> find_fd fd h = Some s -> m_fd s = fd.
Proof.
  intros Hok Hfd E. pose proof (fm_range h Hok _ _ E). apply (get_key m_key) in E; [|apply Hok].
  by apply int_key_inj in E.
Qed.

(** The map with the lock free, as every operation finds and leaves it. *)
Definition fdmap_ok (m : fdmap) : Prop := fm_ok (fdUpidMap m) /\ fdUpidMap_lock m = false.

Lemma add_upid_in_map_run m fd upid : fdmap_ok m -> can_grow (fdUpidMap m) -> is_s32 fd ->
  find_fd fd (fdUpidMap m) = None ->
  exists m', add_upid_in_map fd upid m = Ok (tt, m') /\ fdmap_ok m' /\
    forall fd', is_s32 fd' -> find_fd fd' (fdUpidMap m') =
      if decide (fd' = fd) then Some (MapStruct fd upid NULL) else find_fd fd' (fdUpidMap m).
Proof.
  intros Hok Hgrow Hfd Hnew. destruct m as [h lk]. destruct Hok as [Hok Hl]. simpl in *. subst lk.
  destruct (keyed_add m_key h (MapStruct fd upid NULL) (fm_keyed h Hok) Hgrow Hnew) as (Hk & Hget & _).
  eexists. split; [reflexivity|]. split; [split; [|done]; split; [done|]|].
  - intros k s. simpl. unfold m_key in Hget. simpl in Hget. rewrite Hget. case_decide; [|by apply Hok].
    by intros [= <-].
  - intros fd' Hfd'. rewrite !find_fd_get. simpl. unfold m_key in Hget. simpl in Hget. rewrite Hget.
    destruct (decide (fd' = fd)) as [->|Hne]; [by rewrite decide_True|].
    rewrite decide_False; [done|]. intros E. by apply Hne, int_key_inj.
Qed.

(** Registering a new descriptor makes it, and only it, resolve to the given
    identifier with no client yet; the map keeps its invariant and its lock is
    free again. *)
Theorem add_upid_in_map_spec m fd upid (Hok : fdmap_ok m) (Hgrow : can_grow (fdUpidMap m))
    (Hfd : is_s32 fd) (Hnew : find_fd fd (fdUpidMap m) = None) :
  exists m', add_upid_in_map fd upid m = Ok (tt, m') /\ fdmap_ok m' /\
    forall fd', is_s32 fd' -> find_fd fd' (fdUpidMap m') =
      if decide (fd' = fd) then Some (MapStruct fd upid NULL) else find_fd fd' (fdUpidMap m).
Proof. by apply add_upid_in_map_run. Qed.

Lemma del_fd_from_map_run m fd : fm_ok (fdUpidMap m) -> is_s32 fd ->
  exists r m', del_fd_from_map fd m = Ok (r, m') /\ fm_ok (fdUpidMap m') /\
    fdUpidMap_lock m' = fdUpidMap_lock m /\
    r = (if decide (is_Some (find_fd fd (fdUpidMap m))) then 0 else -1) /\
    (forall fd', is_s32 fd' -> find_fd fd' (fdUpidMap m') =
      if decide (fd' = fd) then None else find_fd fd' (fdUpidMap m)).
Proof.
  destruct m as [h lk]. simpl. intros Hok Hfd. unfold del_fd_from_map, get_map, set_map. mrun.
  destruct (HASH_FIND (int_key fd) h) as [p|] eqn:F.
  - destruct (keyed_drop m_key h _ p (fm_keyed h Hok) F) as (Hk & Hget & _ & _).
    destruct (get_find m_key h _ p (fm_keyed h Hok) F) as (e & He & Hs).
    eexists _, _. split; [reflexivity|]. simpl. split; [split; [done|]|split; [done|split]].
    + intros k s. rewrite Hget. case_decide; [done|]. by apply Hok.
    + rewrite decide_True; [done|]. rewrite find_fd_get, Hs. eauto.
    + intros fd' Hfd'. rewrite !find_fd_get. unfold drop_fd. rewrite Hget.
      destruct (decide (fd' = fd)) as [->|Hne]; [by rewrite decide_True|].
      rewrite decide_False; [done|]. intros E. by apply Hne, int_key_inj.
  - eexists _, _. split; [reflexivity|]. simpl. split; [done|]. split; [done|].
    assert (Hn : find_fd fd h = None) by by apply (get_None m_key); [apply Hok|].
    rewrite Hn. split; [done|]. intros fd' Hfd'. case_decide; [by subst|done].
Qed.

(** Removing a descriptor reports whether it was registered and afterwards
    resolves every descriptor as before, except the removed one. *)
Theorem del_fd_from_map_spec m fd (Hok : fm_ok (fdUpidMap m)) (Hfd : is_s32 fd) :
  exists r m', del_fd_from_map fd m = Ok (r, m') /\ fm_ok (fdUpidMap m') /\
    r = (if decide (is_Some (find_fd fd (fdUpidMap m))) then 0 else -1) /\
    (forall fd', is_s32 fd' -> find_fd fd' (fdUpidMap m') =
      if decide (fd' = fd) then None else find_fd fd' (fdUpidMap m)).
Proof. destruct (del_fd_from_map_run m fd Hok Hfd) as (r & m' & ? & ? & _ & ? & ?). eauto 10. Qed.

Lemma get_client_by_fd_run m fd : fdmap_ok m ->
  get_client_by_fd fd m = Ok (match find_fd fd (fdUpidMap m) with None => NULL | Some s => m_client s end, m).
Proof. destruct m as [h lk]. intros [_ Hl]. simpl in Hl. subst lk. done. Qed.
(** [register_with_externram] for a descriptor in the map: the new client is
    recorded with the descriptor. *)
Lemma register_with_externram_run `{X : ExternRAM} config fd m e s ms c e' s' : fdmap_ok m -> is_s32 fd ->
  find_fd fd (fdUpidMap m) = Some ms -> create config (m_upid ms) (e, s) = Ok (c, (e', s')) -> c <> NULL ->
  exists m', register_with_externram config fd (m, (e, s)) = Ok (0, (m', (e', s'))) /\ fdmap_ok m' /\
    forall fd', is_s32 fd' -> find_fd fd' (fdUpidMap m') =
      if decide (fd' = fd) then Some (MapStruct (m_fd ms) (m_upid ms) c) else find_fd fd' (fdUpidMap m).
Proof.
  destruct m as [h lk]. intros [Hok Hl] Hfd Hms Hcr Hc. simpl in *. subst lk.
  unfold find_fd in Hms. destruct (HASH_FIND (int_key fd) h) as [p|] eqn:Fp; [|done]. simpl in Hms.
  destruct (elts h !! p) as [el|] eqn:Hel; [|done]. injection Hms as Hms.
  set (f := fun s => MapStruct (m_fd s) (m_upid s) c).
  destruct (keyed_update m_key h _ p f (fm_keyed h Hok) Fp) as (Hk & Hget & _); [done|].
  exists (FdMap (update p f h) false). split; [|split; [split; [split; [done|]|done]|]].
  - unfold register_with_externram, newExternRAMClient. mrun. rewrite Fp. simpl. rewrite Hel, Hms. simpl. rewrite Hcr. simpl.
    by rewrite decide_False.
  - intros k s0. simpl. rewrite Hget. case_decide as D; [|by apply Hok].
    destruct (get k h) as [s1|] eqn:E; [|done]. intros [= <-]. exact (fm_range h Hok k s1 E).
  - intros fd' Hfd'. rewrite !find_fd_get. simpl. rewrite Hget.
    destruct (decide (fd' = fd)) as [->|Hne].
    + rewrite decide_True by done. unfold get. rewrite Fp. simpl. rewrite Hel. simpl. by rewrite Hms.
    + rewrite decide_False; [done|]. intros E. by apply Hne, int_key_inj.
Qed.

(** A backend that gives no client is an error. *)
Lemma register_with_externram_null `{X : ExternRAM} config fd m e s ms e' s' : fdmap_ok m ->
  find_fd fd (fdUpidMap m) = Some ms -> create config (m_upid ms) (e, s) = Ok (NULL, (e', s')) ->
  exists m' s2, register_with_externram config fd (m, (e, s)) = Ok (-1, (m', (e', s2))) /\
    (sigint (s_dbg s') < sigint (s_dbg s2))%nat /\
    find_fd fd (fdUpidMap m') = Some (MapStruct (m_fd ms) (m_upid ms) NULL).
Proof.
  destruct m as [h lk]. intros [Hok Hl] Hms Hcr. simpl in *. subst lk.
  unfold find_fd in Hms. destruct (HASH_FIND (int_key fd) h) as [p|] eqn:Fp; [|done]. simpl in Hms.
  destruct (elts h !! p) as [el|] eqn:Hel; [|done]. injection Hms as Hms.
  unfold register_with_externram, newExternRAMClient. mrun. rewrite Fp. simpl. rewrite Hel, Hms. simpl. rewrite Hcr. simpl.
  eexists _, _. split; [reflexivity|]. simpl. split; [lia|].
  set (f := fun s => MapStruct (m_fd s) (m_upid s) NULL).
  destruct (keyed_update m_key h _ p f (fm_keyed h Hok) Fp) as (_ & Hget & _); [done|].
  rewrite find_fd_get, Hget, decide_True by done. unfold get. rewrite Fp. simpl. rewrite Hel. simpl. by rewrite Hms.
Qed.

Lemma empty_fm_ok : fm_ok empty_hash.
Proof. split; [apply empty_keyed|]. done. Qed.

Lemma add_upid_in_map_spec_witness : exists m', add_upid_in_map 5 77 (FdMap empty_hash false) = Ok (tt, m') /\
  find_fd 5 (fdUpidMap m') = Some (MapStruct 5 77 NULL) /\ find_fd 6 (fdUpidMap m') = None.
Proof.
  destruct (add_upid_in_map_spec (FdMap empty_hash false) 5 77) as (m' & E & _ & H);
    [split; [apply empty_fm_ok|reflexivity]|exact Logic.I|unfold is_s32; lia|reflexivity|].
  exists m'. split; [exact E|]. clear E. split; rewrite H by (unfold is_s32; lia); reflexivity.
Defined.

Definition one_fd : fdmap :=
  match add_upid_in_map 5 77 (FdMap empty_hash false) with Ok (_, m) => m | _ => FdMap empty_hash false end.

Lemma one_fd_ok : fm_ok (fdUpidMap one_fd).
Proof.
  destruct (add_upid_in_map_run (FdMap empty_hash false) 5 77) as (m' & E & [H _] & _);
    [split; [apply empty_fm_ok|reflexivity]|exact Logic.I|unfold is_s32; lia|reflexivity|].
  unfold one_fd. rewrite E. exact H.
Qed.

Lemma del_fd_from_map_spec_witness : exists m', del_fd_from_map 5 one_fd = Ok (0, m') /\
  find_fd 5 (fdUpidMap m') = None.
Proof.
  destruct (del_fd_from_map_spec one_fd 5 one_fd_ok) as (r & m' & E & _ & Hr & H); [unfold is_s32; lia|].
  assert (G : find_fd 5 (fdUpidMap one_fd) = Some (MapStruct 5 77 NULL)) by (vm_compute; reflexivity).
  rewrite G in Hr. rewrite decide_True in Hr by (eexists; reflexivity). subst r. exists m'. split; [exact E|]. clear E.
  rewrite H by (unfold is_s32; lia). reflexivity.
Defined.
