(* ===== verification/BufferAllocator.v ===== *)
(** The page allocators of [include/buffer_allocator_array.h]: one [mmap] per
    page, or, with [THREADED_REINIT], a ring of pages mapped ahead of time by a
    second thread. *)
From S2P Require Import Prelude Config MonitorStats Os SimOs.

Record page_buffer_info := PageBuffer {
  pages : option (list ptr);            (** [None] is the null array *)
  capacity : Z;
  init_batch_size : Z;
  idx_current_page : Z;
  idx_last_initialized_page : Z;
  num_initialized_pages : Z
}.

Section allocator.
Context `{OSI : OS}.

(** [mmap] reports failure by [MAP_FAILED]; the test is for [NULL]. *)
Definition get_local_tmp_page : M sys ptr :=
  p ← sys_mmap;
  if decide (p = NULL) then sys_log_err;; mret NULL else mret p.

(** [buf->pages[i]]. *)
Definition at_page (i : Z) (l : list ptr) : outcome ptr :=
  if decide (0 <= i) then
    match l !! Z.to_nat i with Some p => Ok p | None => UB OutOfBounds end
  else UB OutOfBounds.
Definition set_page (i : Z) (p : ptr) (l : list ptr) : outcome (list ptr) :=
  if decide (0 <= i < Z.of_nat (length l)) then Ok (<[Z.to_nat i := p]> l) else UB OutOfBounds.

Definition on_sys {A B} (m : M sys A) : M (B * sys) A := zoom snd (fun s b => (b.1, s)) m.

(** With one page left or none the caller waits for the other thread. *)
Definition get_tmp_page : M (page_buffer_info * sys) ptr := fun bs =>
  let '(b, s) := bs in
  match pages b with
  | None => match sys_log_err s with
            | Ok (_, s) => Ok (NULL, (b, s)) | UB f => UB f | Blocked => Blocked
            end
  | Some l =>
      if num_initialized_pages b <=? 1 then Blocked
      else match at_page (idx_current_page b) l with
           | Ok tmp_page =>
               let idx := idx_current_page b + 1 in
               let idx := if capacity b <=? idx then 0 else idx in
               Ok (tmp_page,
                   (PageBuffer (Some l) (capacity b) (init_batch_size b) idx
                      (idx_last_initialized_page b) (num_initialized_pages b - 1), s))
           | UB f => UB f
           | Blocked => Blocked
           end
  end.

(** The loop of [init_page_buffer]; [None] after a failed [mmap]. *)
Fixpoint map_pages (n : nat) : M sys (option (list ptr)) :=
  match n with
  | O => mret (Some [])
  | S n =>
      p ← sys_mmap;
      if decide (p = MAP_FAILED) then sys_log_err;; mret None
      else r ← map_pages n; mret (cons p <$> r)
  end.

Definition init_page_buffer (cap batch : Z) : M sys (option page_buffer_info) :=
  r ← map_pages (Z.to_nat cap);
  mret (l ← r; Some (PageBuffer (Some l) cap batch 0 0 cap)).

(** The loop of [reinit_page_buffer]: the array, and whether an [mmap] failed. *)
Fixpoint reinit_loop (n : nat) (idx cap : Z) (l : list ptr) : M sys (bool * list ptr) :=
  match n with
  | O => mret (true, l)
  | S n =>
      let idx := if idx =? cap then 0 else idx in
      p ← sys_mmap;
      l ← mlift (set_page idx p l);
      if decide (p = MAP_FAILED) then sys_log_err;; mret (false, l)
      else reinit_loop n (idx + 1) cap l
  end.

(** A failed [mmap] returns with the producer lock still held. *)
Definition reinit_page_buffer : M (page_buffer_info * sys) Z := fun bs =>
  let '(b, s) := bs in
  match pages b with
  | None => match sys_log_err s with
            | Ok (_, s) => Ok (-1, (b, s)) | UB f => UB f | Blocked => Blocked
            end
  | Some l =>
      let num_to_init := capacity b - num_initialized_pages b - 1 in
      if num_to_init <? init_batch_size b then Blocked
      else match reinit_loop (Z.to_nat num_to_init) (idx_last_initialized_page b) (capacity b) l s with
           | Ok ((true, l), s) =>
               let last := idx_last_initialized_page b + num_to_init in
               let last := if capacity b <=? last then last - capacity b else last in
               Ok (0, (PageBuffer (Some l) (capacity b) (init_batch_size b) (idx_current_page b) last
                         (num_initialized_pages b + num_to_init), s))
           | Ok ((false, l), s) =>
               Ok (-1, (PageBuffer (Some l) (capacity b) (init_batch_size b) (idx_current_page b)
                          (idx_last_initialized_page b) (num_initialized_pages b), s))
           | UB f => UB f
           | Blocked => Blocked
           end
  end.

Fixpoint cleanup_loop (n : nat) (idx cap : Z) (l : list ptr) : M sys unit :=
  match n with
  | O => mret tt
  | S n =>
      p ← mlift (at_page idx l);
      sys_munmap p;;
      cleanup_loop n (if cap <=? idx + 1 then 0 else idx + 1) cap l
  end.
Definition cleanup_page_buffer (b : page_buffer_info) : M sys unit :=
  match pages b with
  | Some l => cleanup_loop (Z.to_nat (num_initialized_pages b)) (idx_current_page b) (capacity b) l
  | None => if num_initialized_pages b <=? 0 then mret tt else mub NullDeref
  end.

Definition return_free_page (addr : ptr) : M sys Z := sys_munmap addr.
End allocator.

(** * The ring is a queue *)

(** The positions that hold mapped pages, from [idx_current_page] on. *)
Definition ring_pos (cur cap : Z) (i : nat) : nat := Z.to_nat ((cur + Z.of_nat i) mod cap).
Definition window (l : list ptr) (cur cap : Z) (n : nat) : list ptr :=
  omap (fun i => l !! ring_pos cur cap i) (seq 0 n).
Definition ready (b : page_buffer_info) : list ptr :=
  match pages b with
  | Some l => window l (idx_current_page b) (capacity b) (Z.to_nat (num_initialized_pages b))
  | None => []
  end.

Record ring_ok (b : page_buffer_info) : Prop := {
  ring_pages : exists l, pages b = Some l /\ Z.of_nat (length l) = capacity b;
  ring_cap : 0 < capacity b;
  ring_batch : 0 <= init_batch_size b;
  ring_cur : 0 <= idx_current_page b < capacity b;
  ring_num : 0 <= num_initialized_pages b <= capacity b;
  ring_last : idx_last_initialized_page b =
    (idx_current_page b + num_initialized_pages b) mod capacity b
}.

Lemma ring_pos_lt cur cap i : 0 < cap -> (ring_pos cur cap i < Z.to_nat cap)%nat.
Proof. intros Hc. unfold ring_pos. pose proof (Z.mod_pos_bound (cur + Z.of_nat i) cap Hc). lia. Qed.

Lemma window_cons l cur cap n p : 0 < cap -> 0 <= cur < cap -> l !! Z.to_nat cur = Some p ->
  window l cur cap (S n) = p :: window l ((cur + 1) mod cap) cap n.
Proof.
  intros Hc Hcur Hp. unfold window. simpl. unfold ring_pos at 1.
  rewrite Z.add_0_r, Z.mod_small, Hp by lia. f_equal.
  rewrite <- fmap_S_seq, omap_fmap_comp. apply list_omap_ext, Forall_Forall2_diag, Forall_forall.
  intros i _. simpl. unfold ring_pos. f_equal. f_equal.
  rewrite Zplus_mod_idemp_l. f_equal. lia.
Qed.

Lemma window_snoc l cur cap n : window l cur cap (S n) =
  window l cur cap n ++ omap (fun i => l !! ring_pos cur cap i) [n].
Proof. unfold window. by rewrite seq_S, omap_app. Qed.

(** Writing outside the window does not change it. *)
Lemma window_insert l cur cap n p m : 0 < cap -> (n < m)%nat -> Z.of_nat m <= cap ->
  window (<[ring_pos cur cap n := p]> l) cur cap n = window l cur cap n.
Proof.
  intros Hc Hn Hm. unfold window. apply list_omap_ext, Forall_Forall2_diag, Forall_forall.
  intros i [_ Hi]%elem_of_seq. apply list_lookup_insert_ne. unfold ring_pos. intros E.
  apply Z2Nat.inj in E; try apply Z.mod_pos_bound; try lia.
  assert (Hd : (cur + Z.of_nat n - (cur + Z.of_nat i)) mod cap = 0).
  { by rewrite Zminus_mod, E, Z.sub_diag, Z.mod_0_l by lia. }
  replace (cur + Z.of_nat n - (cur + Z.of_nat i)) with (Z.of_nat n - Z.of_nat i) in Hd by lia.
  rewrite Z.mod_small in Hd by lia. lia.
Qed.

Lemma window_head l cur cap n : 0 < cap -> 0 <= cur < cap -> Z.of_nat (length l) = cap ->
  exists p, at_page cur l = Ok p /\ window l cur cap (S n) = p :: window l ((cur + 1) mod cap) cap n.
Proof.
  intros Hc Hcur Hl. unfold at_page. rewrite decide_True by lia.
  destruct (lookup_lt_is_Some_2 l (Z.to_nat cur)) as [p Hp]; [lia|]. rewrite Hp.
  exists p. split; [done|]. by apply window_cons.
Qed.

Lemma succ_mod cur cap : 0 <= cur < cap -> (cur + 1) mod cap = if cap <=? cur + 1 then 0 else cur + 1.
Proof.
  intros Hc. destruct (Z.leb_spec cap (cur + 1)) as [H|H].
  - replace (cur + 1) with cap by lia. apply Z.mod_same. lia.
  - apply Z.mod_small. lia.
Qed.

Lemma window_set l cur cap n p : 0 < cap -> Z.of_nat (length l) = cap -> Z.of_nat n < cap ->
  window (<[ring_pos cur cap n := p]> l) cur cap (S n) = window l cur cap n ++ [p].
Proof.
  intros Hc Hl Hn. rewrite window_snoc, (window_insert _ _ _ _ _ (S n)) by lia. f_equal. simpl.
  rewrite list_lookup_insert_eq; [done|]. pose proof (ring_pos_lt cur cap n Hc). lia.
Qed.

Section queue.
Context `{OSI : OS} {OL : OSLaws OSI}.

(** Pages mapped since an earlier state: fresh then, zero-filled now. *)
Record mapped_pages (new : list ptr) (o o' : os) : Prop := {
  mp_nodup : NoDup new;
  mp_fresh : Forall (fun p => buf_page o p = None /\ buf_page o' p = Some zero_page) new;
  mp_keep : forall p, is_Some (buf_page o p) -> buf_page o' p = buf_page o p;
  mp_app : same_app o o'
}.

Lemma mapped_nil o o' : (forall p, is_Some (buf_page o p) -> buf_page o' p = buf_page o p) ->
  same_app o o' -> mapped_pages [] o o'.
Proof. intros Hk Ha. split; [constructor|constructor|done|done]. Qed.

Lemma mapped_cons p new o o1 o' : mmap_page o = (p, o1) -> p <> MAP_FAILED ->
  mapped_pages new o1 o' -> mapped_pages (p :: new) o o'.
Proof.
  intros E Hp [Hnd Hf Hk Ha]. destruct (mmap_ok o p o1 E Hp) as (_ & Hn & Hz & _ & Happ & Hbuf).
  rewrite Forall_forall in Hf. split.
  - apply NoDup_cons. split; [|done]. intros Hin. destruct (Hf p Hin) as [? _]. congruence.
  - apply Forall_cons. split.
    + split; [done|]. rewrite Hk; [done|]. rewrite Hz. eauto.
    + apply Forall_forall. intros q Hq. destruct (Hf q Hq) as [Hq1 ?]. split; [|done].
      destruct (decide (q = p)) as [->|Hne]; [done|].
      destruct (Hbuf q) as [<- _]; [by apply not_elem_of_singleton|done].
  - intros q Hq. destruct (decide (q = p)) as [->|Hne]; [rewrite Hn in Hq; by destruct Hq|].
    destruct (Hbuf q) as [Eq _]; [by apply not_elem_of_singleton|]. rewrite <- Eq in Hq |- *. by apply Hk.
  - intros u a. by rewrite Ha.
Qed.

(** Filling [k] slots behind a window of [n] pages. *)
Lemma reinit_loop_spec k n cur cap idx l s : 0 < cap -> 0 <= cur < cap ->
  Z.of_nat (length l) = cap -> Z.of_nat (n + k) < cap -> 0 <= idx <= cap ->
  idx mod cap = (cur + Z.of_nat n) mod cap ->
  exists ok l' s', reinit_loop k idx cap l s = Ok ((ok, l'), s') /\ Z.of_nat (length l') = cap /\
    window l' cur cap n = window l cur cap n /\
    (ok = true -> exists new, length new = k /\
       window l' cur cap (n + k) = window l cur cap n ++ new /\ mapped_pages new (s_os s) (s_os s')).
Proof.
  revert n idx l s. induction k as [|k IH]; intros n idx l s Hc Hcur Hl Hnk Hidx Hmod.
  { exists true, l, s. split; [done|]. split; [done|]. split; [done|]. intros _. exists [].
    rewrite Nat.add_0_r, app_nil_r. split; [done|]. split; [done|]. by apply mapped_nil. }
  simpl. mrun. set (idx' := if idx =? cap then 0 else idx).
  assert (Hidx' : idx' = (cur + Z.of_nat n) mod cap).
  { rewrite <- Hmod. unfold idx'. destruct (Z.eqb_spec idx cap) as [->|Hne].
    - by rewrite Z.mod_same by lia.
    - by rewrite Z.mod_small by lia. }
  pose proof (Z.mod_pos_bound (cur + Z.of_nat n) cap Hc) as Hb.
  unfold sys_mmap. destruct (mmap_page (s_os s)) as [p o1] eqn:Em.
  unfold set_page. rewrite decide_True by lia.
  assert (Hpos : Z.to_nat idx' = ring_pos cur cap n) by (unfold ring_pos; by rewrite Hidx'). rewrite Hpos.
  set (l1 := <[ring_pos cur cap n := p]> l).
  assert (Hl1 : Z.of_nat (length l1) = cap) by (unfold l1; by rewrite length_insert).
  assert (Hw1 : window l1 cur cap n = window l cur cap n).
  { apply (window_insert _ _ _ _ _ (S n)); lia. }
  destruct (decide (p = MAP_FAILED)) as [Hp|Hp].
  { exists false, l1. eexists. split; [reflexivity|]. done. }
  destruct (IH (S n) (idx' + 1) l1 (Sys o1 (s_dbg s) (s_stats s))) as (ok & l' & s' & E & Hl' & Hw & Hok);
    [lia|lia|done|lia|lia| |].
  { rewrite Hidx', Zplus_mod_idemp_l. f_equal. lia. }
  unfold l1 in Hw, Hok. rewrite window_set in Hw, Hok by lia.
  exists ok, l', s'. split; [done|]. split; [done|]. split.
  - rewrite window_snoc in Hw. apply app_inj_1 in Hw as [Hw _]; [done|].
    apply (f_equal length) in Hw. rewrite !length_app in Hw. simpl in Hw.
    destruct (l' !! ring_pos cur cap n) eqn:El; simpl in Hw; [lia|].
    apply lookup_ge_None in El. pose proof (ring_pos_lt cur cap n Hc). lia.
  - intros Htrue. destruct (Hok Htrue) as (new & Hlen & Hwin & Hmp). exists (p :: new).
    split; [simpl; lia|]. split; [|by eapply mapped_cons].
    rewrite <- Nat.add_succ_comm, Hwin, <- app_assoc. done.
Qed.

(** The ring of mapped pages is a queue: taking a page returns the oldest one
    and leaves the others, and with one page left or none the caller waits. *)
Theorem get_tmp_page_dequeues b s (Hok : ring_ok b) :
  (num_initialized_pages b <= 1 /\ get_tmp_page (b, s) = Blocked) \/
  exists p rest b', ready b = p :: rest /\ get_tmp_page (b, s) = Ok (p, (b', s)) /\
    ring_ok b' /\ ready b' = rest.
Proof.
  destruct Hok as [(l & Hl & Hlen) Hcap Hbatch Hcur Hnum Hlast]. unfold get_tmp_page. rewrite Hl.
  destruct (Z.leb_spec (num_initialized_pages b) 1) as [H|H]; [by left|right].
  destruct (window_head l (idx_current_page b) (capacity b) (Z.to_nat (num_initialized_pages b - 1)))
    as (p & Hp & Hw); [done..|]. rewrite Hp.
  exists p. eexists _, _. unfold ready at 1. rewrite Hl.
  replace (Z.to_nat (num_initialized_pages b)) with (S (Z.to_nat (num_initialized_pages b - 1))) by lia.
  split; [exact Hw|]. split; [reflexivity|]. rewrite <- succ_mod by done.
  pose proof (Z.mod_pos_bound (idx_current_page b + 1) (capacity b) Hcap).
  split; [|done]. split; simpl; [eauto|done|done|lia|lia|].
  rewrite Hlast, Zplus_mod_idemp_l. f_equal. lia.
Qed.

(** Refilling the ring waits until a batch of slots is free; it then appends
    pages that were not mapped before, all different and zero-filled, behind the
    pages in the ring, and moves no page of the ring; if the kernel refuses a page
    the ring still holds what it held. *)
Theorem reinit_page_buffer_enqueues b s (Hok : ring_ok b) :
  (capacity b - num_initialized_pages b - 1 < init_batch_size b /\ reinit_page_buffer (b, s) = Blocked) \/
  exists r b' s', reinit_page_buffer (b, s) = Ok (r, (b', s')) /\ ring_ok b' /\
    ((r = -1 /\ ready b' = ready b) \/
     (r = 0 /\ exists new, ready b' = ready b ++ new /\ mapped_pages new (s_os s) (s_os s'))).
Proof.
  destruct Hok as [(l & Hl & Hlen) Hcap Hbatch Hcur Hnum Hlast]. unfold reinit_page_buffer. rewrite Hl.
  remember (capacity b - num_initialized_pages b - 1) as n eqn:En.
  destruct (Z.ltb_spec n (init_batch_size b)) as [H|H]; [by left|right].
  pose proof (Z.mod_pos_bound (idx_current_page b + num_initialized_pages b) (capacity b) Hcap) as Hb.
  destruct (reinit_loop_spec (Z.to_nat n) (Z.to_nat (num_initialized_pages b)) (idx_current_page b)
              (capacity b) (idx_last_initialized_page b) l s) as (ok & l' & s' & E & Hl' & Hw & Hnew);
    [done|done|done|lia|lia|rewrite Hlast, Z.mod_mod by lia; f_equal; lia|].
  rewrite E. destruct ok.
  - destruct (Hnew eq_refl) as (new & Hlnew & Hwin & Hmp). eexists _, _, _. split; [reflexivity|]. split.
    + split; simpl; [eauto|done|done|done|lia|]. rewrite Hlast.
      assert (Hn' : n <= capacity b - 1) by lia.
      replace (idx_current_page b + (num_initialized_pages b + n))
        with (idx_current_page b + num_initialized_pages b + n) by lia.
      rewrite <- (Zplus_mod_idemp_l _ n).
      set (m := (idx_current_page b + num_initialized_pages b) mod capacity b) in *.
      destruct (Z.leb_spec (capacity b) (m + n)) as [Hge|Hlt]; [|by rewrite (Z.mod_small (m + n)) by lia].
      rewrite <- (Z_mod_plus_full (m + n) (-1)), Z.mod_small; lia.
    + right. split; [done|]. exists new. split; [|done]. unfold ready at 1. simpl.
      rewrite Z2Nat.inj_add by lia. rewrite Hwin. unfold ready. by rewrite Hl.
  - eexists _, _, _. split; [reflexivity|]. split; [split; simpl; eauto|].
    left. split; [done|]. unfold ready. simpl. by rewrite Hl.
Qed.
End queue.

(** A ring of four slots with two pages. *)
Definition small_ring : page_buffer_info := PageBuffer (Some [10; 11; 0; 0]) 4 1 0 2 2.
Definition empty_sim : sys (H := SimOS) := Sys (H := SimOS) (Sim ∅ ∅ ∅ ∅ ∅ ∅ 0) (Dbg 0 0 0 0) zero_stats.

Lemma small_ring_ok : ring_ok small_ring.
Proof. split; simpl; try lia; [by eexists|done]. Qed.

Lemma get_tmp_page_dequeues_witness : exists b', get_tmp_page (small_ring, empty_sim) = Ok (10, (b', empty_sim)) /\
  ring_ok b' /\ ready b' = [11].
Proof.
  destruct (get_tmp_page_dequeues small_ring empty_sim small_ring_ok) as [[H _]|(p & rest & b' & Hr & E & Hok & Hr')];
    [vm_compute in H; by destruct H|].
  assert (G : ready small_ring = [10; 11]) by (vm_compute; reflexivity). rewrite G in Hr. injection Hr as <- <-.
  exists b'. by split.
Defined.

Lemma reinit_page_buffer_enqueues_witness : exists r b' s', reinit_page_buffer (small_ring, empty_sim) = Ok (r, (b', s')) /\
  ring_ok b' /\ exists new, ready b' = [10; 11] ++ new.
Proof.
  assert (G : ready small_ring = [10; 11]) by (vm_compute; reflexivity).
  destruct (reinit_page_buffer_enqueues small_ring empty_sim small_ring_ok)
    as [[H _]|(r & b' & s' & E & Hok & H)]; [vm_compute in H; discriminate|].
  exists r, b', s'. split; [exact E|]. clear E. split; [exact Hok|]. rewrite G in H.
  destruct H as [[_ H]|(_ & new & H & _)]; [exists []|exists new]; exact H.
Defined.
