(* ===== verification/RingThreads.v ===== *)
(** The ring of prepared pages of [include/buffer_allocator_array.h] with its two threads:
    [get_tmp_page] in the fault handler, and [reinit_thread], which calls
    [reinit_page_buffer] for ever.

    The consumer holds [cons_lock] and the producer [prod_lock], so neither keeps the other out.
    Both change [num_initialized_pages]; to change it is to load it and to store it, which
    are two steps here. *)
From S2P Require Import Prelude Config MonitorStats Os SimOs BufferAllocator.

(** The consumer: between calls, holding its lock with the page taken, and about to
    store the count it has loaded less one. *)
Inductive cons_pc : Type := CoOut | CoTaken (p : ptr) | CoLoaded (p : ptr) (n : Z).
(** The producer: before it looks for work, filling the slots, about to load the count, and
    about to store what it has loaded plus the number of new pages. *)
Inductive prod_pc : Type := PrTop | PrFill (left_ num_to_init idx : Z) | PrLoad (num_to_init : Z) | PrStore (num_to_init n : Z).

Record ring_state := Ring {
  r_buf : page_buffer_info;
  r_cons : cons_pc;
  r_prod : prod_pc;
  r_given : list ptr;       (** the pages returned by [get_tmp_page], in order *)
  r_next : ptr              (** the next page [mmap] returns *)
}.

Definition with_num (n : Z) (b : page_buffer_info) : page_buffer_info :=
  PageBuffer (pages b) (capacity b) (init_batch_size b) (idx_current_page b) (idx_last_initialized_page b) n.
Definition with_cur (i : Z) (b : page_buffer_info) : page_buffer_info :=
  PageBuffer (pages b) (capacity b) (init_batch_size b) i (idx_last_initialized_page b) (num_initialized_pages b).
Definition with_last (i : Z) (b : page_buffer_info) : page_buffer_info :=
  PageBuffer (pages b) (capacity b) (init_batch_size b) (idx_current_page b) i (num_initialized_pages b).
Definition with_pages (l : list ptr) (b : page_buffer_info) : page_buffer_info :=
  PageBuffer (Some l) (capacity b) (init_batch_size b) (idx_current_page b) (idx_last_initialized_page b) (num_initialized_pages b).

(** [get_tmp_page] on a buffer whose array exists; [None] is a wait. *)
Definition cons_step (s : ring_state) : option ring_state :=
  let '(Ring b c p given nxt) := s in
  match c with
  | CoOut =>
      if num_initialized_pages b <=? 1 then None
      else
        match at_page (idx_current_page b) (default [] (pages b)) with
        | Ok page =>
            let idx := idx_current_page b + 1 in
            Some (Ring (with_cur idx b) (CoTaken page) p given nxt)
        | _ => None
        end
  | CoTaken page => Some (Ring b (CoLoaded page (num_initialized_pages b)) p given nxt)
  | CoLoaded page n =>
      let b := with_num (n - 1) b in
      let b := if capacity b <=? idx_current_page b then with_cur 0 b else b in
      Some (Ring b CoOut p (given ++ [page]) nxt)
  end.

(** A turn of [reinit_thread]; [mmap] succeeds. *)
Definition prod_step (s : ring_state) : option ring_state :=
  let '(Ring b c p given nxt) := s in
  match p with
  | PrTop =>
      let num_to_init := capacity b - num_initialized_pages b - 1 in
      if num_to_init <? init_batch_size b then None
      else Some (Ring b c (PrFill num_to_init num_to_init (idx_last_initialized_page b)) given nxt)
  | PrFill left_ num_to_init idx =>
      if left_ <=? 0 then
        let last := idx_last_initialized_page b + num_to_init in
        Some (Ring (with_last (if capacity b <=? last then last - capacity b else last) b) c (PrLoad num_to_init) given nxt)
      else
        let idx := if idx =? capacity b then 0 else idx in
        match set_page idx nxt (default [] (pages b)) with
        | Ok l => Some (Ring (with_pages l b) c (PrFill (left_ - 1) num_to_init (idx + 1)) given (nxt + 1))
        | _ => None
        end
  | PrLoad num_to_init => Some (Ring b c (PrStore num_to_init (num_initialized_pages b)) given nxt)
  | PrStore num_to_init n => Some (Ring (with_num (n + num_to_init) b) c PrTop given nxt)
  end.

Inductive ring_thread : Set := Consumer | Producer.
Definition ring_step (t : ring_thread) : ring_state -> option ring_state :=
  match t with Consumer => cons_step | Producer => prod_step end.
Fixpoint ring_run (ts : list ring_thread) (s : ring_state) : option ring_state :=
  match ts with [] => Some s | t :: ts => s ← ring_step t s; ring_run ts s end.

(** [init_page_buffer]: every slot has a page. *)
Definition ring_start (cap batch : Z) : ring_state :=
  Ring (PageBuffer (Some (Z.of_nat <$> seq 1 (Z.to_nat cap))) cap batch 0 0 cap) CoOut PrTop [] (cap + 1).

(** * Alone, the steps are the functions *)

Lemma cons_alone b l nxt p given : pages b = Some l -> 1 < num_initialized_pages b ->
  (exists page, at_page (idx_current_page b) l = Ok page) ->
  forall `{OSI : OS} (s : sys), exists page b',
    get_tmp_page (b, s) = Ok (page, (b', s)) /\
    ring_run [Consumer; Consumer; Consumer] (Ring b CoOut p given nxt) = Some (Ring b' CoOut p (given ++ [page]) nxt).
Proof.
  intros Hl Hn (page & Hp) OSI s. destruct b as [ps cap batch cur last num]. cbn in Hl, Hn, Hp. subst ps.
  exists page. unfold get_tmp_page. cbn [pages num_initialized_pages idx_current_page capacity].
  rewrite (proj2 (Z.leb_gt num 1)) by lia. rewrite Hp. eexists. split; [reflexivity|].
  cbn [ring_run ring_step cons_step num_initialized_pages]. rewrite (proj2 (Z.leb_gt num 1)) by lia. cbn [idx_current_page pages].
  change (default [] (Some l)) with l. rewrite Hp.
  cbn. by destruct (cap <=? cur + 1).
Qed.

(** * A page given out twice *)

(** The sizes of the ring for evictions, [monitor.c]. *)
Definition TMP_EVICT_PAGE_BUFFER_SIZE : Z := 100.
Definition TMP_EVICT_PAGE_INIT_BATCH_SIZE : Z := 50.

Definition take_pages (n : nat) : list ring_thread := concat (replicate n [Consumer; Consumer; Consumer]).
(** The producer up to its load of the count. *)
Definition refill_and_load : list ring_thread := replicate 53 Producer.
(** Twice, the consumer takes a page while the producer is between its load and its store. *)
Definition lost_updates : list ring_thread :=
  take_pages 51 ++ refill_and_load ++ take_pages 1 ++ [Producer] ++
  take_pages 50 ++ refill_and_load ++ take_pages 1 ++ [Producer] ++ take_pages 98.

(** The two threads on a ring of prepared pages, of the size the monitor uses, can give out the same page
    twice.  The count of pages ready is changed under two different locks, a decrement is
    lost when it falls between the load and the store of the other thread, and when this has happened twice
    the consumer goes on past the pages that are ready to one it was given before. *)
Theorem ring_page_twice : exists s i j page, ring_run lost_updates (ring_start TMP_EVICT_PAGE_BUFFER_SIZE TMP_EVICT_PAGE_INIT_BATCH_SIZE) = Some s /\
  i <> j /\ r_given s !! i = Some page /\ r_given s !! j = Some page.
Proof. eexists _, 100%nat, 200%nat, _. split; [vm_compute; reflexivity|]. split; [done|]. split; vm_compute; reflexivity. Qed.
