(* ===== verification/PageCache.v ===== *)
(** The page cache of [lib/pagecache/PageCacheImpl.cc] and [.hh]: the list of
    cached pages with its unique index on address and descriptor, the ownership
    record of every page seen ([pagehash]), and the operations on both.  Reading
    through the cache is in [PageCacheRead]. *)
From S2P Require Import Prelude Config MonitorStats Os LruBuffer ExternRam.

Record page_cache_node := PcNode {
  pn_hashcode : Z;                 (** virtual address *)
  pn_fd : Z;
  pn_address : ptr;                (** where the page is stored *)
  pn_size : Z
}.

(** Where the most recent version of a page is. *)
Inductive Ownership : Set := OWNERSHIP_APPLICATION | OWNERSHIP_PAGE_CACHE | OWNERSHIP_EXTERNRAM.
#[export] Instance Ownership_eq_dec : EqDecision Ownership.
Proof. solve_decision. Defined.

Record PageInfo := mkPageInfo { ownership : Ownership; is_zeropage : bool }.

(** The twelve bytes that index [pagehash]. *)
Definition page_key (hashcode fd : Z) : list Z := le_bytes 8 hashcode ++ le_bytes 4 fd.
Definition key_hashcode (k : list Z) : Z := le_value (take 8 k).
Definition key_fd (k : list Z) : Z := s32 (le_value (take 4 (drop 8 k))).

(** ** [page_cache_lru_list] *)
Module PageList.

Abbreviation t := (list page_cache_node) (only parsing).

Definition at_key (key fd : Z) (n : page_cache_node) : Prop := pn_hashcode n = key /\ pn_fd n = fd.
#[export] Instance at_key_dec key fd n : Decision (at_key key fd n).
Proof. unfold at_key. apply _. Defined.

Definition find (key fd : Z) (l : list page_cache_node) : option page_cache_node :=
  list_find (at_key key fd) l ≫= fun p => Some p.2.

Definition erase (key fd : Z) (l : list page_cache_node) : list page_cache_node :=
  filter (fun n => ~ at_key key fd n) l.

(** [push_front]; a duplicate keeps the old element and moves it to the front. *)
Definition insert (item : page_cache_node) (l : list page_cache_node) : list page_cache_node :=
  match find (pn_hashcode item) (pn_fd item) l with
  | None => item :: l
  | Some old => old :: erase (pn_hashcode item) (pn_fd item) l
  end.

Definition modify (key : Z) (addr : ptr) (size fd : Z) (l : list page_cache_node) : list page_cache_node :=
  (fun n => if decide (at_key key fd n) then PcNode (pn_hashcode n) (pn_fd n) addr size else n) <$> l.

End PageList.

(** The object behind [PageCache *pageCache], with the globals and the static
    variables of its methods. *)
Record page_cache := mkPageCache {
  pagehash : gmap (list Z) PageInfo;
  pageCache : list page_cache_node;
  pc_max_num_items : Z;
  keys_for_mread : list Z;
  bufs_for_mread : list ptr;
  lengths_for_mread : list Z;
  numPrefetch : Z;
  prevAddr : Z;
  numConseqAcc : Z;
  prefetch_size : Z;
  enable_prefetch : Z
}.

Definition set_pagehash (h : gmap (list Z) PageInfo) (c : page_cache) : page_cache :=
  mkPageCache h (pageCache c) (pc_max_num_items c) (keys_for_mread c) (bufs_for_mread c)
    (lengths_for_mread c) (numPrefetch c) (prevAddr c) (numConseqAcc c) (prefetch_size c)
    (enable_prefetch c).
Definition set_pageCache (l : list page_cache_node) (c : page_cache) : page_cache :=
  mkPageCache (pagehash c) l (pc_max_num_items c) (keys_for_mread c) (bufs_for_mread c)
    (lengths_for_mread c) (numPrefetch c) (prevAddr c) (numConseqAcc c) (prefetch_size c)
    (enable_prefetch c).
Definition set_mread (keys : list Z) (bufs : list ptr) (lens : list Z) (n : Z) (c : page_cache)
  : page_cache :=
  mkPageCache (pagehash c) (pageCache c) (pc_max_num_items c) keys bufs lens n (prevAddr c)
    (numConseqAcc c) (prefetch_size c) (enable_prefetch c).
Definition set_access (prev n : Z) (c : page_cache) : page_cache :=
  mkPageCache (pagehash c) (pageCache c) (pc_max_num_items c) (keys_for_mread c) (bufs_for_mread c)
    (lengths_for_mread c) (numPrefetch c) prev n (prefetch_size c) (enable_prefetch c).

(** [newPageCache]: empty, with the arrays of the object as the allocator left
    them. *)
Definition newPageCache (page_cache_size prefetch_size enable_prefetch : Z)
    (keys : list Z) (bufs : list ptr) (lens : list Z) : page_cache :=
  mkPageCache ∅ [] (u64 page_cache_size) keys bufs lens 0 0 0 prefetch_size enable_prefetch.

Section PageCacheImpl.
Context `{OSI : OS} `{F : BuildFlags, I : StaleIterator}.

Abbreviation pcs := (page_cache * sys)%type (only parsing).

Definition pc_get {A} (f : page_cache -> A) : M pcs A := mgets (fun s => f s.1).
Definition pc_mod (f : page_cache -> page_cache) : M pcs unit := mmod (fun s => (f s.1, s.2)).
Definition pc_sys {A} (m : M sys A) : M pcs A := zoom snd (fun s p => (p.1, s)) m.
Definition pc_log_err : M pcs unit := pc_sys sys_log_err.

Definition pagehash_find (hashcode fd : Z) : M pcs (option PageInfo) :=
  pc_get (fun c => pagehash c !! page_key hashcode fd).

(** [changeOwnership] and [changeOwnershipWithItr] on the entry of a page. *)
Definition changeOwnership (hashcode fd : Z) (o : Ownership) (zero : bool) : M pcs unit :=
  itr ← pagehash_find hashcode fd;
  match itr with
  | Some _ => pc_mod (fun c => set_pagehash (<[page_key hashcode fd := mkPageInfo o zero]> (pagehash c)) c)
  | None => pc_log_err
  end.

Definition addPageHashNode (hashcode fd : Z) (o : Ownership) : M pcs unit :=
  pc_mod (fun c => set_pagehash (<[page_key hashcode fd := mkPageInfo o false]> (pagehash c)) c).

Definition insertPageCacheNode (key fd : Z) (addr : ptr) (size : Z) : M pcs unit :=
  if decide (addr <> NULL /\ size = PAGE_SIZE) then
    pc_mod (fun c => set_pageCache (PageList.insert (PcNode key fd addr size) (pageCache c)) c)
  else mub AssertFail.

(** The last page of the list is freed and its owner is the external memory again. *)
Definition pc_popLRU : M pcs Z :=
  l ← pc_get pageCache;
  match last l with
  | None => mub EmptyContainer
  | Some node =>
      pc_sys (sys_free (pn_address node));;
      pc_mod (fun c => set_pageCache (take (length l - 1) l) c);;
      changeOwnership (pn_hashcode node) (pn_fd node) OWNERSHIP_EXTERNRAM false;;
      mret (pn_hashcode node)
  end.

Definition pc_isLRUSizeExceeded : M pcs bool :=
  pc_get (fun c => pc_max_num_items c <? Z.of_nat (length (pageCache c))).

(** The bound of the loop in [cleanup] shrinks while the loop counts up. *)
Fixpoint cleanup_pop (fuel : nat) (i : Z) : M pcs unit :=
  n ← pc_get (fun c => s32 (Z.of_nat (length (pageCache c))));
  if i <? n then
    match fuel with
    | O => mub OutOfFuel
    | S fuel => pc_popLRU;; cleanup_pop fuel (i + 1)
    end
  else mret tt.
Definition pageCacheCleanup : M pcs unit :=
  n ← pc_get (fun c => length (pageCache c)); cleanup_pop n 0.

Definition referencePageCachedNode (key fd : Z) : M pcs unit :=
  l ← pc_get pageCache;
  match PageList.find key fd l with
  | Some n => pc_mod (set_pageCache (PageList.insert n l))
  | None => mub EmptyContainer
  end.

Definition updatePageCacheAfterWrite_zero (hashcode fd : Z) (zeroPage : bool) : M pcs unit :=
  itr ← pagehash_find hashcode fd;
  match itr with
  | Some pi =>
      match ownership pi with
      | OWNERSHIP_PAGE_CACHE | OWNERSHIP_EXTERNRAM => pc_log_err
      | OWNERSHIP_APPLICATION => changeOwnership hashcode fd OWNERSHIP_EXTERNRAM zeroPage
      end
  | None => pc_log_err
  end.
(** The two C entry points. *)
Definition updatePageCacheAfterWrite (ufd hashcode : Z) : M pcs unit :=
  updatePageCacheAfterWrite_zero hashcode ufd false.
Definition updatePageCacheAfterSkippedWrite (ufd hashcode : Z) : M pcs unit :=
  updatePageCacheAfterWrite_zero hashcode ufd true.

Definition updatePageCacheAfterSkippedRead (hashcode fd : Z) : M pcs unit :=
  itr ← pagehash_find hashcode fd;
  match itr with
  | Some pi =>
      match ownership pi with
      | OWNERSHIP_PAGE_CACHE | OWNERSHIP_APPLICATION => pc_log_err
      | OWNERSHIP_EXTERNRAM => changeOwnership hashcode fd OWNERSHIP_APPLICATION false
      end
  | None => pc_log_err
  end.

Definition storePageInPageCache (hashcode fd : Z) (buf : ptr) (length : Z) : M pcs unit :=
  mwhen (negb (length =? PAGE_SIZE)) pc_log_err;;
  if decide (buf = NULL) then mub AssertFail
  else
    itr ← pagehash_find hashcode fd;
    (match itr with
     | Some _ =>
         l ← pc_get pageCache;
         (match PageList.find hashcode fd l with
          | Some n =>
              pc_sys (sys_free (pn_address n));;
              pc_mod (fun c => set_pageCache (PageList.modify hashcode buf length fd (pageCache c)) c);;
              pc_log_err
          | None => insertPageCacheNode hashcode fd buf length
          end);;
         changeOwnership hashcode fd OWNERSHIP_PAGE_CACHE false
     | None =>
         addPageHashNode hashcode fd OWNERSHIP_PAGE_CACHE;;
         insertPageCacheNode hashcode fd buf length
     end);;
    full ← pc_isLRUSizeExceeded;
    if full : bool then pc_popLRU;; mret tt else mret tt.

Definition storePagesInPageCache (fd : Z) (pages : list (Z * ptr * Z)) : M pcs unit :=
  miter (fun kbl => storePageInPageCache kbl.1.1 fd kbl.1.2 kbl.2) pages.

Definition invalidatePageCache (ufd hashcode : Z) : M pcs unit :=
  l ← pc_get pageCache;
  (match PageList.find hashcode ufd l with
   | Some n => pc_sys (sys_free (pn_address n))
   | None => mret tt
   end);;
  pc_mod (set_pageCache (PageList.erase hashcode ufd l));;
  changeOwnership hashcode ufd OWNERSHIP_EXTERNRAM false.

(** [removeUFDFromPageHash]: the keys whose page is in external memory. *)
Definition pagehash_of_fd (fd : Z) (h : gmap (list Z) PageInfo) : list (list Z * PageInfo) :=
  filter (fun kp => key_fd kp.1 = fd) (map_to_list h).
Definition removeUFDFromPageHash_impl (fd : Z) : M pcs (list Z) :=
  h ← pc_get pagehash;
  pc_mod (set_pagehash (filter (fun kp => key_fd kp.1 <> fd) h));;
  mret ((fun kp => page_of (key_hashcode kp.1)) <$>
          filter (fun kp => ownership kp.2 = OWNERSHIP_EXTERNRAM) (pagehash_of_fd fd h)).
(** The C wrapper has a result type but no [return]. *)
Definition removeUFDFromPageHash (fd : Z) : M pcs (list Z) :=
  removeUFDFromPageHash_impl fd;; mub MissingReturn.

(** The loop of [removeUFDFromPageCache] goes on from the erased element. *)
Fixpoint remove_ufd_pages (fuel : nat) (fd : Z) (itr : list page_cache_node) : M pcs Z :=
  match itr with
  | [] => mret 0
  | n :: rest =>
      match fuel with
      | O => mub OutOfFuel
      | S fuel =>
          if decide (pn_fd n = fd) then
            pc_sys (sys_free (pn_address n));;
            pc_mod (fun c => set_pageCache (PageList.erase (pn_hashcode n) fd (pageCache c)) c);;
            itr' ← mlift (stale_next rest);
            k ← remove_ufd_pages fuel fd itr';
            mret (k + 1)
          else remove_ufd_pages fuel fd rest
      end
  end.
Definition removeUFDFromPageCache (fd : Z) : M pcs Z :=
  l ← pc_get pageCache; remove_ufd_pages (length l) fd l.
End PageCacheImpl.
