(* ===== verification/World.v ===== *)
(** The state of the monitor process that the fault handlers share: the global
    variables of [userfault.c], [upid.h], [threaded_io.h] and the libraries, and
    the kernel. *)
From S2P Require Import Prelude Config MonitorStats Os LruBuffer UtHash ExternRam ThreadedIo Upid.
From S2P Require Import BufferAllocator PageCache.

Record world `{X : ExternRAM} := World {
  w_sys : sys;                         (** kernel, error state, statistics *)
  w_lru : LruList.lru_list;            (** [lru] *)
  w_fd : fdmap;                        (** [fdUpidMap] *)
  w_ext : ext;                         (** the backend's objects *)
  w_pc : page_cache;                   (** [pageCache] *)
  w_tio : tio;                         (** write and prefetch lists *)
  read_tmp_page : ptr;
  buf_evictpage : page_buffer_info
}.
Arguments World {_ _} _ _ _ _ _ _ _ _.

Section lenses.
Context `{X : ExternRAM}.

Definition set_sys (s : sys) (w : world) : world :=
  World s (w_lru w) (w_fd w) (w_ext w) (w_pc w) (w_tio w) (read_tmp_page w) (buf_evictpage w).
Definition set_lru (b : LRUBuffer) (w : world) : world :=
  World (Sys (s_os (w_sys w)) (s_dbg (w_sys w)) (lru_stats b)) (cache b) (w_fd w) (w_ext w) (w_pc w)
    (w_tio w) (read_tmp_page w) (buf_evictpage w).
Definition set_fd (m : fdmap) (w : world) : world :=
  World (w_sys w) (w_lru w) m (w_ext w) (w_pc w) (w_tio w) (read_tmp_page w) (buf_evictpage w).
Definition set_ext (es : ext * sys) (w : world) : world :=
  World es.2 (w_lru w) (w_fd w) es.1 (w_pc w) (w_tio w) (read_tmp_page w) (buf_evictpage w).
Definition set_pc (ps : page_cache * sys) (w : world) : world :=
  World ps.2 (w_lru w) (w_fd w) (w_ext w) ps.1 (w_tio w) (read_tmp_page w) (buf_evictpage w).
Definition set_tio (t : tio) (w : world) : world :=
  World (w_sys w) (w_lru w) (w_fd w) (w_ext w) (w_pc w) t (read_tmp_page w) (buf_evictpage w).
Definition set_tio_dbg (td : tio * dbg) (w : world) : world :=
  World (Sys (s_os (w_sys w)) td.2 (s_stats (w_sys w))) (w_lru w) (w_fd w) (w_ext w) (w_pc w) td.1
    (read_tmp_page w) (buf_evictpage w).
Definition set_read_tmp_page (p : ptr) (w : world) : world :=
  World (w_sys w) (w_lru w) (w_fd w) (w_ext w) (w_pc w) (w_tio w) p (buf_evictpage w).
Definition set_evictbuf (bs : page_buffer_info * sys) (w : world) : world :=
  World bs.2 (w_lru w) (w_fd w) (w_ext w) (w_pc w) (w_tio w) (read_tmp_page w) bs.1.
Definition set_fd_ext (x : fdmap * (ext * sys)) (w : world) : world :=
  World x.2.2 (w_lru w) x.1 x.2.1 (w_pc w) (w_tio w) (read_tmp_page w) (buf_evictpage w).

(** Running a component's operation on its part of the state. *)
Definition in_sys {A} (m : M sys A) : M world A := zoom w_sys set_sys m.
Definition in_lru {A} (m : M LRUBuffer A) : M world A :=
  zoom (fun w => mkLRUBuffer (w_lru w) (s_stats (w_sys w))) set_lru m.
Definition in_fd {A} (m : M fdmap A) : M world A := zoom w_fd set_fd m.
Definition in_ext {A} (m : M (ext * sys) A) : M world A :=
  zoom (fun w => (w_ext w, w_sys w)) set_ext m.
Definition in_pc {A} (m : M (page_cache * sys) A) : M world A :=
  zoom (fun w => (w_pc w, w_sys w)) set_pc m.
Definition in_tio {A} (m : M tio A) : M world A := zoom w_tio set_tio m.
Definition in_tio_dbg {A} (m : M (tio * dbg) A) : M world A :=
  zoom (fun w => (w_tio w, s_dbg (w_sys w))) set_tio_dbg m.
Definition in_evictbuf {A} (m : M (page_buffer_info * sys) A) : M world A :=
  zoom (fun w => (buf_evictpage w, w_sys w)) set_evictbuf m.
Definition in_fd_ext {A} (m : M (fdmap * (ext * sys)) A) : M world A :=
  zoom (fun w => (w_fd w, (w_ext w, w_sys w))) set_fd_ext m.

Definition w_log_err : M world unit := in_sys sys_log_err.
Definition w_log_recoverable_err : M world unit := in_sys sys_log_recoverable_err.
Definition w_os (w : world) : os := s_os (w_sys w).
Definition w_dbg (w : world) : dbg := s_dbg (w_sys w).
End lenses.
