(* ===== verification/PageCacheRead.v ===== *)
(** Reading a faulting page through the page cache:
    [readPageIfInPageCache_top] and [_bottom] of
    [lib/pagecache/PageCacheImpl.cc], with sequential prefetch. *)
From S2P Require Import Prelude Config MonitorStats Os LruBuffer UtHash ExternRam ThreadedIo Upid.
From S2P Require Import BufferAllocator PageCache World.

Section read.
Context `{X : ExternRAM} `{F : BuildFlags}.

Definition any_list : bool := (THREADED_WRITE_TO_EXTERNRAM || THREADED_PREFETCH)%bool.

Definition in_access (m : page_cache -> page_cache) : M world unit := in_pc (pc_mod m).

(** Whether [testaddr] is a page the prefetch loop takes. *)
Definition prefetchable (testaddr fd : Z) : M world bool :=
  itr2 ← in_pc (pagehash_find testaddr fd);
  wr ← (if THREADED_WRITE_TO_EXTERNRAM then in_tio (exist_write_info fd testaddr) else mret false);
  pf ← (if THREADED_PREFETCH then in_tio (exist_prefetch_info fd testaddr) else mret false);
  mret (match itr2 with
        | Some pi =>
            (bool_decide (ownership pi = OWNERSHIP_EXTERNRAM)
             && negb (PAGECACHE_ZEROPAGE_OPTIMIZATION && is_zeropage pi) && negb wr && negb pf)%bool
        | None => false
        end).

(** [keys_for_mread[i] = v]. *)
Definition set_key (i v : Z) : M world unit :=
  c ← mgets w_pc;
  if decide (0 <= i < Z.of_nat (length (keys_for_mread c))) then
    in_access (fun c => set_mread (<[Z.to_nat i := v]> (keys_for_mread c)) (bufs_for_mread c)
                          (lengths_for_mread c) (numPrefetch c) c)
  else mub OutOfBounds.
Definition set_numPrefetch (n : Z) : M world unit :=
  in_access (fun c => set_mread (keys_for_mread c) (bufs_for_mread c) (lengths_for_mread c) n c).

(** The prefetch loop; [i] is at most 101, which bounds the iterations. *)
Fixpoint prefetch_loop (fuel : nat) (i hashcode fd : Z) : M world unit :=
  c ← mgets w_pc;
  if numPrefetch c <? numConseqAcc c then
    match fuel with
    | O => mub OutOfFuel
    | S fuel =>
        let testaddr := u64 (hashcode + i * PAGE_SIZE) in
        take ← prefetchable testaddr fd;
        mwhen take
          ((if THREADED_PREFETCH then in_tio (add_prefetch_info fd testaddr)
            else set_key (numPrefetch c + 1) testaddr);;
           set_numPrefetch (numPrefetch c + 1));;
        n ← mgets (fun w => numPrefetch (w_pc w));
        if prefetch_size c <=? n then mret tt
        else if 100 <? i then mret tt
        else prefetch_loop fuel (i + 1) hashcode fd
    end
  else mret tt.

(** The part of the request arrays that one multi-read uses. *)
Definition mread_request (n : Z) (c : page_cache) : list (Z * ptr * Z) :=
  zip_with pair (zip_with pair (take (Z.to_nat n) (keys_for_mread c))
                   (take (Z.to_nat n) (bufs_for_mread c)))
    (take (Z.to_nat n) (lengths_for_mread c)).
(** The arrays after the backend has filled the first entries. *)
Definition mread_reply (r : list (ptr * Z)) (c : page_cache) : page_cache :=
  set_mread (keys_for_mread c)
    (r.*1 ++ drop (length r) (bufs_for_mread c))
    (r.*2 ++ drop (length r) (lengths_for_mread c)) (numPrefetch c) c.

Definition readPageIfInPageCache_top (hashcode fd : Z) (buf : ptr) : M world unit :=
  c ← mgets w_pc;
  in_access (set_access hashcode
               (if u64 (prevAddr c + PAGE_SIZE) =? hashcode then s32 (numConseqAcc c + 1) else 0));;
  itr ← in_pc (pagehash_find hashcode fd);
  match itr with
  | None => in_sys (with_stats StatsIncrCacheMiss_notlocked)
  | Some pi =>
      match ownership pi with
      | OWNERSHIP_PAGE_CACHE => in_sys (with_stats StatsIncrCacheHit_notlocked)
      | OWNERSHIP_APPLICATION => mret tt
      | OWNERSHIP_EXTERNRAM =>
          in_sys (with_stats StatsIncrCacheMiss_notlocked);;
          if (PAGECACHE_ZEROPAGE_OPTIMIZATION && is_zeropage pi)%bool then mret tt
          else if enable_prefetch c =? 0 then
            client ← in_fd (get_client_by_fd fd);
            if decide (client = NULL) then w_log_err
            else mwhen ASYNREAD (in_ext (readPage_top client hashcode buf))
          else
            set_numPrefetch 0;;
            set_key 0 hashcode;;
            waiting ← mgets (fun w => isPrefetcherWaiting (w_tio w));
            prefetch_loop 102 1 hashcode fd;;
            client ← in_fd (get_client_by_fd fd);
            if decide (client = NULL) then mret tt
            else if THREADED_PREFETCH then
              mwhen waiting (in_tio (sem_post Prefetcher));;
              (** [buf] is the local alias of [bufs_for_mread] here *)
              b0 ← mgets (fun w => default NULL (bufs_for_mread (w_pc w) !! 0%nat));
              mwhen ASYNREAD (in_ext (readPage_top client hashcode b0))
            else if ASYNREAD then
              c ← mgets w_pc;
              r ← in_ext (readPages_top client (mread_request (numPrefetch c + 1) c));
              in_access (mread_reply r)
            else mret tt
      end
  end.

(** Result: the length, and the pointer now in [*buf]. *)
Definition readPageIfInPageCache_bottom (hashcode fd : Z) (buf : ptr) : M world (Z * ptr) :=
  itr ← in_pc (pagehash_find hashcode fd);
  match itr with
  | None => in_pc (addPageHashNode hashcode fd OWNERSHIP_APPLICATION);; mret (0, buf)
  | Some pi =>
      match ownership pi with
      | OWNERSHIP_APPLICATION => w_log_err;; mret (0, buf)
      | OWNERSHIP_PAGE_CACHE =>
          l ← mgets (fun w => pageCache (w_pc w));
          in_pc (pc_mod (set_pageCache (PageList.erase hashcode fd l)));;
          in_pc (changeOwnership hashcode fd OWNERSHIP_APPLICATION false);;
          mret (match PageList.find hashcode fd l with
                | Some n => (pn_size n, pn_address n)
                | None => (0, buf)
                end)
      | OWNERSHIP_EXTERNRAM =>
          prefetch ← mgets (fun w => negb (enable_prefetch (w_pc w) =? 0));
          if negb prefetch then
            r ← (if (PAGECACHE_ZEROPAGE_OPTIMIZATION && is_zeropage pi)%bool then mret (0, buf)
                 else
                   client ← in_fd (get_client_by_fd fd);
                   if decide (client = NULL) then w_log_err;; mret (0, buf)
                   else in_ext (if ASYNREAD then readPage_bottom client hashcode buf
                                else readPage client hashcode buf));
            in_pc (changeOwnership hashcode fd OWNERSHIP_APPLICATION false);;
            mret r
          else if (PAGECACHE_ZEROPAGE_OPTIMIZATION && is_zeropage pi)%bool then
            in_pc (changeOwnership hashcode fd OWNERSHIP_APPLICATION false);; mret (0, buf)
          else
            client ← in_fd (get_client_by_fd fd);
            if decide (client = NULL) then mret (0, buf)
            else if THREADED_PREFETCH then
              r ← in_ext (if ASYNREAD then readPage_bottom client hashcode buf
                          else readPage client hashcode buf);
              in_pc (changeOwnership hashcode fd OWNERSHIP_APPLICATION false);;
              mret r
            else
              c ← mgets w_pc;
              r ← in_ext ((if ASYNREAD then readPages_bottom else readPages) client
                            (mread_request (numPrefetch c + 1) c));
              in_access (mread_reply r);;
              c ← mgets w_pc;
              res ← (let b0 := default NULL (bufs_for_mread c !! 0%nat) in
                     if decide (b0 = NULL) then w_log_err;; mret (0, buf)
                     else in_pc (changeOwnership hashcode fd OWNERSHIP_APPLICATION false);;
                          mret (default 0 (lengths_for_mread c !! 0%nat), b0));
              mwhen (0 <? numPrefetch c)
                (in_pc (storePagesInPageCache fd (tail (mread_request (numPrefetch c + 1) c))));;
              mret res
      end
  end.

Definition readPageIfInPageCache (ufd hashcode : Z) (buf : ptr) : M world (Z * ptr) :=
  readPageIfInPageCache_top hashcode ufd buf;; readPageIfInPageCache_bottom hashcode ufd buf.
End read.
