(* ===== verification/CachedPages.v ===== *)
(** Properties of the page cache: the list of cached pages agrees with the record of
    who owns each page, stored pages come back unchanged, and the prefetch loop asks
    for the pages that follow, within the bounds of its arrays. *)
From S2P Require Import Prelude Config MonitorStats Os LruBuffer UtHash ExternRam ThreadedIo Upid.
From S2P Require Import BufferAllocator PageCache World PageCacheRead.

Lemma page_key_inj h fd h' fd' : is_u64 h -> is_u64 h' -> is_s32 fd -> is_s32 fd' ->
  page_key h fd = page_key h' fd' -> h = h' /\ fd = fd'.
Proof.
  unfold page_key. intros Hh Hh' Hf Hf' E. apply app_inj_1 in E as [E1 E2]; [|by rewrite !length_le_bytes].
  split; [by apply le_bytes_inj_u64|by apply le_bytes_inj_s32].
Qed.

(** * Prefetch *)

(** Pages whose latest version is in external memory, and worth fetching. *)
Definition fetchable (h : gmap (list Z) PageInfo) (zero_opt : bool) (fd a : Z) : bool :=
  match h !! page_key a fd with
  | Some pi => bool_decide (ownership pi = OWNERSHIP_EXTERNRAM) && negb (zero_opt && is_zeropage pi)
  | None => false
  end.

(** Those among the [n] pages from the [from]th after [hashcode], nearest first. *)
Definition prefetch_candidates (h : gmap (list Z) PageInfo) (zero_opt : bool) (hashcode fd : Z) (from n : nat) : list Z :=
  filter (fun a => fetchable h zero_opt fd a = true)
    ((fun i => u64 (hashcode + Z.of_nat i * PAGE_SIZE)) <$> seq from n).

Section prefetch.
Context `{X : ExternRAM} {F : BuildFlags}.
Context (no_write : THREADED_WRITE_TO_EXTERNRAM = false) (no_prefetch : THREADED_PREFETCH = false).

Lemma set_pc_same w : set_pc (w_pc w, w_sys w) w = w.
Proof. by destruct w. Qed.

Lemma prefetchable_run a fd w : prefetchable a fd w =
  Ok (fetchable (pagehash (w_pc w)) PAGECACHE_ZEROPAGE_OPTIMIZATION fd a, w).
Proof.
  unfold prefetchable. rewrite no_write, no_prefetch. unfold mbind, M_bind, in_pc, zoom, pagehash_find, pc_get, mgets.
  cbn [fst]. rewrite set_pc_same. unfold mret, M_ret. f_equal. f_equal. unfold fetchable.
  destruct (pagehash (w_pc w) !! page_key a fd); [|done]. by rewrite !andb_true_r.
Qed.

Lemma candidates_cons h zo hashcode fd i n : prefetch_candidates h zo hashcode fd i (S n) =
  (if fetchable h zo fd (u64 (hashcode + Z.of_nat i * PAGE_SIZE)) then [u64 (hashcode + Z.of_nat i * PAGE_SIZE)] else []) ++
  prefetch_candidates h zo hashcode fd (S i) n.
Proof.
  unfold prefetch_candidates. cbn [seq fmap list_fmap]. rewrite filter_cons.
  destruct (fetchable h zo fd _); [by rewrite decide_True|by rewrite decide_False].
Qed.

(** The request arrays with the pages [ks] asked for so far. *)
Definition asked (c : page_cache) (ks : list Z) (c' : page_cache) : Prop :=
  c' = set_mread (take 1 (keys_for_mread c) ++ ks ++ drop (S (length ks)) (keys_for_mread c))
         (bufs_for_mread c) (lengths_for_mread c) (Z.of_nat (length ks)) c.

Lemma asked_snoc c ks k w : asked c ks (w_pc w) -> (S (length ks) < length (keys_for_mread c))%nat ->
  exists w', (set_key (numPrefetch (w_pc w) + 1) k;; set_numPrefetch (numPrefetch (w_pc w) + 1)) w = Ok (tt, w') /\
    asked c (ks ++ [k]) (w_pc w') /\ w' = set_pc (w_pc w', w_sys w) w.
Proof.
  intros Ha Hlen. rewrite Ha. cbn [numPrefetch set_mread].
  assert (Hk : keys_for_mread (w_pc w) = take 1 (keys_for_mread c) ++ ks ++ drop (S (length ks)) (keys_for_mread c)) by by rewrite Ha.
  assert (Hlk : length (keys_for_mread (w_pc w)) = length (keys_for_mread c)).
  { rewrite Hk, !length_app, length_take, length_drop. lia. }
  unfold set_key, mbind, M_bind, mgets. rewrite decide_True by lia.
  eexists. split; [reflexivity|]. unfold set_numPrefetch, in_access, in_pc, zoom, pc_mod, mmod. cbn [w_pc set_pc fst].
  split; [|by destruct w]. unfold asked. rewrite Ha. unfold set_mread. simpl.
  f_equal; [|rewrite length_app; simpl; lia].
  replace (Z.to_nat (Z.of_nat (length ks) + 1)) with (S (length ks)) by lia.
  rewrite insert_app_r_alt by (rewrite length_take; lia). rewrite length_take.
  replace (S (length ks) - (1 `min` length (keys_for_mread c)))%nat with (length ks) by lia.
  rewrite insert_app_r_alt, Nat.sub_diag by done. f_equal. rewrite <- app_assoc. f_equal.
  rewrite length_app. simpl. replace (S (length ks + 1)) with (S (S (length ks))) by lia.
  destruct (lookup_lt_is_Some_2 (keys_for_mread c) (S (length ks)) Hlen) as [y Hy].
  by rewrite (drop_S _ y) by done.
Qed.

Lemma take_next {A} (ks : list A) k l t : (length ks < t)%nat ->
  ks ++ take (t - length ks) (k :: l) = (ks ++ [k]) ++ take (t - length (ks ++ [k])) l.
Proof.
  intros Ht. rewrite length_app. simpl. destruct (t - length ks)%nat as [|q] eqn:Eq; [lia|].
  replace (t - (length ks + 1))%nat with q by lia. simpl. by rewrite <- app_assoc.
Qed.

Lemma prefetch_loop_run n m i hashcode fd c ks w : asked c ks (w_pc w) -> (i + n = 102)%nat -> (1 <= n)%nat ->
  (length ks < i)%nat -> length (keys_for_mread c) = Z.to_nat MAX_MULTI_READ ->
  Z.of_nat (length ks) < prefetch_size c -> Z.of_nat (length ks) <= numConseqAcc c ->
  exists w', prefetch_loop (n + m) (Z.of_nat i) hashcode fd w = Ok (tt, w') /\
    asked c (ks ++ take (Z.to_nat (Z.min (numConseqAcc c) (prefetch_size c)) - length ks)
      (prefetch_candidates (pagehash c) PAGECACHE_ZEROPAGE_OPTIMIZATION hashcode fd i n)) (w_pc w') /\
    w' = set_pc (w_pc w', w_sys w) w.
Proof.
  revert i ks w. induction n as [|n IH]; intros i ks w Ha Hi Hn Hks Hk Hps Hacc; [lia|].
  assert (Hconst : pagehash (w_pc w) = pagehash c /\ numPrefetch (w_pc w) = Z.of_nat (length ks) /\
    numConseqAcc (w_pc w) = numConseqAcc c /\ prefetch_size (w_pc w) = prefetch_size c) by by rewrite Ha.
  destruct Hconst as (Hph & Hnp & Hca & Hpz). cbn [Nat.add prefetch_loop]. unfold mbind at 1, M_bind at 1, mgets at 1.
  rewrite Hca, Hpz, Hnp.
  destruct (Z.ltb_spec (Z.of_nat (length ks)) (numConseqAcc c)) as [Hlt|Hge].
  2:{ exists w. split; [done|]. replace (_ - length ks)%nat with 0%nat by lia. rewrite take_0, app_nil_r.
      split; [done|]. by rewrite set_pc_same. }
  unfold mbind at 1, M_bind at 1. rewrite prefetchable_run, no_prefetch. cbn beta iota.
  rewrite Hph, candidates_cons.
  set (k := u64 (hashcode + Z.of_nat i * PAGE_SIZE)). fold k.
  destruct (fetchable (pagehash c) PAGECACHE_ZEROPAGE_OPTIMIZATION fd k) eqn:Ht.
  - destruct (asked_snoc c ks k w Ha) as (w1 & E1 & Ha1 & Hw1).
    { rewrite Hk. unfold MAX_MULTI_READ. lia. }
    rewrite Hnp in E1. unfold mbind at 1, M_bind at 1. cbn [mwhen]. rewrite E1.
    assert (Hnp1 : numPrefetch (w_pc w1) = Z.of_nat (length ks + 1)).
    { rewrite Ha1. cbn [numPrefetch set_mread]. by rewrite length_app. }
    unfold mbind at 1, M_bind at 1, mgets at 1. rewrite Hnp1. cbn [app].
    assert (Hpc1 : pagehash (w_pc w1) = pagehash c) by by rewrite Ha1.
    rewrite take_next by lia.
    destruct (Z.leb_spec (prefetch_size c) (Z.of_nat (length ks + 1))) as [Hstop|Hgo].
    { exists w1. split; [done|]. replace (_ - length (ks ++ [k]))%nat with 0%nat by (rewrite length_app; simpl; lia).
      rewrite take_0, app_nil_r. by split. }
    destruct (Z.ltb_spec 100 (Z.of_nat i)) as [H100|H100].
    { exists w1. split; [done|]. assert (n = 0%nat) as -> by lia. unfold prefetch_candidates. simpl.
      rewrite filter_nil, take_nil, app_nil_r. by split. }
    replace (Z.of_nat i + 1) with (Z.of_nat (S i)) by lia.
    destruct (IH (S i) (ks ++ [k]) w1 Ha1) as (w2 & E2 & Ha2 & Hw2); try (rewrite ?length_app; simpl; lia).
    exists w2. split; [done|]. split; [done|]. rewrite Hw2, Hw1. by destruct w.
  - cbn [mwhen app]. unfold mbind at 1, M_bind at 1, mret, M_ret. unfold mbind at 1, M_bind at 1, mgets at 1. rewrite Hnp.
    destruct (Z.leb_spec (prefetch_size c) (Z.of_nat (length ks))) as [?|_]; [lia|].
    destruct (Z.ltb_spec 100 (Z.of_nat i)) as [H100|H100].
    { exists w. split; [done|]. assert (n = 0%nat) as -> by lia. unfold prefetch_candidates. simpl.
      rewrite filter_nil, take_nil, app_nil_r. split; [done|]. by rewrite set_pc_same. }
    replace (Z.of_nat i + 1) with (Z.of_nat (S i)) by lia. apply IH; try done; lia.
Qed.

(** C30: the prefetch loop ends within its fuel and never writes outside the request
    arrays, however long the run of consecutive accesses is: it asks for exactly the
    nearest pages that external memory owns, at most as many as there were
    consecutive accesses and as the configured size, and changes nothing else. *)
Theorem prefetch_loop_spec w hashcode fd (Hlen : length (keys_for_mread (w_pc w)) = Z.to_nat MAX_MULTI_READ)
    (Hnp : numPrefetch (w_pc w) = 0) (Hacc : 0 <= numConseqAcc (w_pc w)) (Hps : 1 <= prefetch_size (w_pc w)) :
  let c := w_pc w in
  let ks := take (Z.to_nat (Z.min (numConseqAcc c) (prefetch_size c)))
              (prefetch_candidates (pagehash c) PAGECACHE_ZEROPAGE_OPTIMIZATION hashcode fd 1 101) in
  prefetch_loop 102 1 hashcode fd w = Ok (tt, set_pc
    (set_mread (take 1 (keys_for_mread c) ++ ks ++ drop (S (length ks)) (keys_for_mread c))
       (bufs_for_mread c) (lengths_for_mread c) (Z.of_nat (length ks)) c, w_sys w) w).
Proof.
  cbn zeta. destruct (prefetch_loop_run 101 1 1 hashcode fd (w_pc w) [] w) as (w' & E & Ha & Hw'); try done; try (simpl; lia).
  { unfold asked, set_mread. cbn [length app]. change (Z.of_nat 0) with 0. rewrite take_drop. rewrite <- Hnp.
    by destruct (w_pc w). }
  rewrite app_nil_l, Nat.sub_0_r in Ha. rewrite <- Ha, <- Hw'. exact E.
Qed.
End prefetch.

(** * The cached pages *)

Lemma NoDup_key_inj {A B} (f : A -> B) l x y : NoDup (f <$> l) -> x ∈ l -> y ∈ l -> f x = f y -> x = y.
Proof.
  induction l as [|z l IH]; [by intros _ ?%elem_of_nil|]. rewrite fmap_cons. intros [Hz Hnd]%NoDup_cons Hx Hy E.
  apply elem_of_cons in Hx as [->|Hx], Hy as [->|Hy]; [done| | |by apply IH].
  - exfalso. apply Hz. rewrite E. by apply list_elem_of_fmap_2.
  - exfalso. apply Hz. rewrite <- E. by apply list_elem_of_fmap_2.
Qed.

Definition pn_key (n : page_cache_node) : Z * Z := (pn_hashcode n, pn_fd n).

Section cache.
Context {OSI : OS} {OL : OSLaws OSI} {F : BuildFlags}.

(** A cached page: a live heap block of one page. *)
Definition pn_ok (o : os) (n : page_cache_node) : Prop :=
  is_u64 (pn_hashcode n) /\ is_s32 (pn_fd n) /\ pn_address n <> NULL /\ pn_size n = PAGE_SIZE /\
  heap_block o (pn_address n) = true.

(** Who owns a page. *)
Definition owner (c : page_cache) (h fd : Z) : option Ownership := ownership <$> pagehash c !! page_key h fd.

(** No page is cached twice, no block is shared, and the pages the record says the
    cache owns are exactly those in the list. *)
Record pc_wf (c : page_cache) (o : os) : Prop := {
  pi_keys : NoDup (pn_key <$> pageCache c);
  pi_addr : NoDup (pn_address <$> pageCache c);
  pi_nodes : Forall (pn_ok o) (pageCache c);
  pi_owner : forall h fd, is_u64 h -> is_s32 fd ->
    owner c h fd = Some OWNERSHIP_PAGE_CACHE <-> (h, fd) ∈ pn_key <$> pageCache c
}.

(** With this, the cache is within its size. *)
Definition pc_inv (c : page_cache) (o : os) : Prop :=
  pc_wf c o /\ Z.of_nat (length (pageCache c)) <= pc_max_num_items c.

Lemma PageList_find_None h fd l : PageList.find h fd l = None <-> (h, fd) ∉ pn_key <$> l.
Proof.
  unfold PageList.find. destruct (list_find _ _) as [[i n]|] eqn:E; simpl.
  - split; [done|]. apply list_find_Some in E as (Hl & [<- <-] & _). intros Hn. exfalso. apply Hn.
    apply list_elem_of_fmap. exists n. split; [done|]. by eapply list_elem_of_lookup_2.
  - split; [|done]. intros _ (n & Hk & Hn)%list_elem_of_fmap. apply list_find_None in E.
    rewrite Forall_forall in E. apply (E n Hn). injection Hk as -> ->. done.
Qed.

Lemma PageList_find_Some h fd l n : PageList.find h fd l = Some n -> n ∈ l /\ pn_key n = (h, fd).
Proof.
  unfold PageList.find. destruct (list_find _ _) as [[i m]|] eqn:E; simpl; [|done]. intros [= <-].
  apply list_find_Some in E as (Hl & [<- <-] & _). split; [|done]. by eapply list_elem_of_lookup_2.
Qed.

Lemma PageList_find_in l n : NoDup (pn_key <$> l) -> n ∈ l -> PageList.find (pn_hashcode n) (pn_fd n) l = Some n.
Proof.
  intros Hnd Hn. destruct (PageList.find _ _ _) as [m|] eqn:E.
  - apply PageList_find_Some in E as [Hm Hk]. f_equal. by apply (NoDup_key_inj pn_key l).
  - apply PageList_find_None in E. exfalso. apply E. by apply list_elem_of_fmap_2 with (f := pn_key) in Hn.
Qed.

(** Recording an owner. *)
Lemma owner_insert c h fd o z h' fd' : is_u64 h -> is_u64 h' -> is_s32 fd -> is_s32 fd' ->
  owner (set_pagehash (<[page_key h fd := mkPageInfo o z]> (pagehash c)) c) h' fd' =
  if decide ((h', fd') = (h, fd)) then Some o else owner c h' fd'.
Proof.
  intros. unfold owner. cbn [pagehash set_pagehash]. case_decide as D.
  - injection D as -> ->. by rewrite lookup_insert_eq.
  - rewrite lookup_insert_ne; [done|]. intros [? ?]%page_key_inj; try done. congruence.
Qed.

Lemma pn_ok_after o o' ps n : same_buf_but ps o o' -> pn_address n ∉ ps -> pn_ok o n -> pn_ok o' n.
Proof. intros Hs Hn (? & ? & ? & ? & H). repeat (split; [done|]). by rewrite (proj2 (Hs _ Hn)). Qed.

(** Evicting the least recently stored page. *)
Lemma pc_popLRU_run c s n l : pc_wf c (s_os s) -> pageCache c = l ++ [n] ->
  exists c' s', pc_popLRU (c, s) = Ok (pn_hashcode n, (c', s')) /\ pc_wf c' (s_os s') /\ pageCache c' = l /\
    pc_max_num_items c' = pc_max_num_items c /\ s_dbg s' = s_dbg s /\
    (same_app (s_os s) (s_os s') /\ same_buf_but {[pn_address n]} (s_os s) (s_os s')) /\
    (forall h fd, is_u64 h -> is_s32 fd ->
       owner c' h fd = if decide ((h, fd) = pn_key n) then Some OWNERSHIP_EXTERNRAM else owner c h fd).
Proof.
  intros [Hk Ha Hn Ho] Hl. rewrite Hl in Hk, Ha, Hn. rewrite fmap_app in Hk. rewrite fmap_app in Ha. simpl in Hk, Ha.
  apply NoDup_app in Hk as (Hk & Hkd & _), Ha as (Ha & Had & _).
  apply Forall_app in Hn as [Hn Hlast]. apply Forall_cons in Hlast as [(Hh & Hfd & Hnull & Hsz & Hheap) _].
  assert (Hown : owner c (pn_hashcode n) (pn_fd n) = Some OWNERSHIP_PAGE_CACHE).
  { apply Ho; [done|done|]. rewrite Hl, fmap_app. set_solver. }
  destruct (free_ok (pn_address n) (s_os s)) as (Happ & Hbuf & _).
  set (c1 := set_pageCache l c).
  exists (set_pagehash (<[page_key (pn_hashcode n) (pn_fd n) := mkPageInfo OWNERSHIP_EXTERNRAM false]> (pagehash c1)) c1),
    (Sys (free_block (pn_address n) (s_os s)) (s_dbg s) (s_stats s)). split; [|split; [|repeat (split; [done|])]].
  - unfold pc_popLRU, mbind at 1, M_bind at 1, pc_get, mgets. cbn [fst]. rewrite Hl, last_snoc.
    unfold mbind, M_bind, pc_sys, zoom, sys_free. cbn [snd fst]. rewrite decide_False, Hheap by done.
    unfold pc_mod, mmod, changeOwnership, mbind, M_bind, pagehash_find, pc_get, mgets. cbn [fst snd pagehash set_pageCache].
    rewrite length_app. cbn [length]. replace (length l + 1 - 1)%nat with (length l) by lia.
    rewrite take_app_length. fold c1. unfold owner in Hown. by destruct (pagehash c !! page_key _ _).
  - split; [done|done| |].
    + rewrite Forall_forall in Hn |- *. intros m Hm. eapply pn_ok_after; [exact Hbuf| |by apply Hn].
      intros E%elem_of_singleton. apply (Had (pn_address n)); [|set_solver].
      rewrite <- E. by apply list_elem_of_fmap_2.
    + intros h fd Hh' Hfd'. rewrite owner_insert by done. change (owner c1 h fd) with (owner c h fd).
      case_decide as D.
      * injection D as -> ->. split; [done|]. intros Hin. exfalso. apply (Hkd _ Hin). unfold pn_key. set_solver.
      * rewrite Ho, Hl, fmap_app by done. change (pageCache _) with l. unfold pn_key at 2. set_solver.
  - intros h fd Hh' Hfd'. by rewrite owner_insert by done.
Qed.

(** Adding a page in front. *)
Lemma pc_wf_add c o n : pc_wf c o -> pn_ok o n -> pn_key n ∉ pn_key <$> pageCache c ->
  pn_address n ∉ pn_address <$> pageCache c ->
  let c1 := set_pagehash (<[page_key (pn_hashcode n) (pn_fd n) := mkPageInfo OWNERSHIP_PAGE_CACHE false]> (pagehash c))
              (set_pageCache (n :: pageCache c) c) in pc_wf c1 o.
Proof.
  intros [Hk Ha Hn Ho] Hok Hnk Hna c1. pose proof Hok as (Hh & Hfd & _). split.
  - apply NoDup_cons. by split.
  - apply NoDup_cons. by split.
  - by constructor.
  - intros h fd Hh' Hfd'. unfold c1. rewrite (owner_insert (set_pageCache (n :: pageCache c) c)) by done.
    change (owner (set_pageCache _ c) h fd) with (owner c h fd). cbn [pageCache set_pagehash set_pageCache]. rewrite fmap_cons.
    case_decide as D.
    + injection D as -> ->. split; [intros _|done]. by left.
    + rewrite Ho by done. unfold pn_key at 2. set_solver.
Qed.

(** Both ways of recording a page that was not cached. *)
Lemma record_page_run c (s : sys (H := OSI)) h fd buf : (h, fd) ∉ pn_key <$> pageCache c -> buf <> NULL ->
  (match pagehash c !! page_key h fd with
   | Some _ =>
       l ← pc_get pageCache;
       (match PageList.find h fd l with
        | Some n =>
            pc_sys (sys_free (pn_address n));;
            pc_mod (fun c => set_pageCache (PageList.modify h buf PAGE_SIZE fd (pageCache c)) c);;
            pc_log_err
        | None => insertPageCacheNode h fd buf PAGE_SIZE
        end);;
       changeOwnership h fd OWNERSHIP_PAGE_CACHE false
   | None =>
       addPageHashNode h fd OWNERSHIP_PAGE_CACHE;;
       insertPageCacheNode h fd buf PAGE_SIZE
   end : M (page_cache * sys (H := OSI)) unit) (c, s) = Ok (tt, (set_pagehash (<[page_key h fd := mkPageInfo OWNERSHIP_PAGE_CACHE false]> (pagehash c))
              (set_pageCache (PcNode h fd buf PAGE_SIZE :: pageCache c) c), s)).
Proof.
  intros Hnk Hbuf. apply PageList_find_None in Hnk.
  assert (Hins : forall c1, pageCache c1 = pageCache c -> insertPageCacheNode h fd buf PAGE_SIZE (c1, s) =
    Ok (tt, (set_pageCache (PcNode h fd buf PAGE_SIZE :: pageCache c) c1, s))).
  { intros c1 E. unfold insertPageCacheNode. rewrite decide_True by done. unfold pc_mod, mmod. cbn [fst snd].
    unfold PageList.insert. cbn [pn_hashcode pn_fd]. by rewrite E, Hnk. }
  destruct (pagehash c !! page_key h fd) as [pi|] eqn:Ep.
  - unfold mbind, M_bind, pc_get, mgets. cbn [fst]. rewrite Hnk, (Hins c) by done.
    unfold changeOwnership, mbind, M_bind, pagehash_find, pc_get, mgets. cbn [fst pagehash set_pageCache]. by rewrite Ep.
  - unfold mbind, M_bind, addPageHashNode, pc_mod, mmod. cbn [fst snd]. by rewrite Hins.
Qed.

(** Storing a page, with what it leaves of the blocks of others. *)
Lemma store_page_run c s h fd buf : pc_inv c (s_os s) -> is_u64 h -> is_s32 fd ->
  buf <> NULL -> heap_block (s_os s) buf = true ->
  ~ (h, fd) ∈ pn_key <$> pageCache c -> ~ buf ∈ pn_address <$> pageCache c ->
  let l := PcNode h fd buf PAGE_SIZE :: pageCache c in
  exists c' s', storePageInPageCache h fd buf PAGE_SIZE (c, s) = Ok (tt, (c', s')) /\ pc_inv c' (s_os s') /\
    pageCache c' = take (Z.to_nat (pc_max_num_items c)) l /\ s_dbg s' = s_dbg s /\
    (forall h' fd', is_u64 h' -> is_s32 fd' -> owner c' h' fd' =
       if decide ((h', fd') ∈ pn_key <$> pageCache c') then Some OWNERSHIP_PAGE_CACHE
       else if decide ((h', fd') ∈ pn_key <$> l) then Some OWNERSHIP_EXTERNRAM else owner c h' fd') /\
    pc_max_num_items c' = pc_max_num_items c /\ same_app (s_os s) (s_os s') /\
    same_buf_but (list_to_set (pn_address <$> l) ∖ list_to_set (pn_address <$> pageCache c')) (s_os s) (s_os s').
Proof.
  intros [Hwf Hlen] Hh Hfd Hbuf Hheap Hnew Hfresh. cbn zeta. set (n := PcNode h fd buf PAGE_SIZE).
  pose proof (pc_wf_add c (s_os s) n Hwf) as Hwf1. cbn zeta in Hwf1. cbn [pn_hashcode pn_fd n] in Hwf1.
  set (c1 := set_pagehash _ (set_pageCache (n :: pageCache c) c)) in Hwf1.
  specialize (Hwf1 ltac:(done) Hnew Hfresh).
  assert (Hown1 : forall h' fd', is_u64 h' -> is_s32 fd' -> owner c1 h' fd' =
    if decide ((h', fd') = (h, fd)) then Some OWNERSHIP_PAGE_CACHE else owner c h' fd').
  { intros. unfold c1. by rewrite (owner_insert (set_pageCache (n :: pageCache c) c)) by done. }
  unfold storePageInPageCache. change (PAGE_SIZE =? PAGE_SIZE) with true. cbn [negb mwhen].
  unfold mbind at 1, M_bind at 1, mret at 1, M_ret at 1. rewrite decide_False by done.
  unfold mbind at 1, M_bind at 1, pagehash_find at 1, pc_get at 1, mgets at 1. cbn [fst].
  unfold mbind at 1, M_bind at 1. rewrite (record_page_run c s h fd buf Hnew Hbuf). fold n. fold c1.
  unfold mbind at 1, M_bind at 1, pc_isLRUSizeExceeded, pc_get, mgets. cbn [fst].
  change (pc_max_num_items c1) with (pc_max_num_items c). change (pageCache c1) with (n :: pageCache c).
  destruct (Z.ltb_spec (pc_max_num_items c) (Z.of_nat (length (n :: pageCache c)))) as [Hfull|Hroom].
  2:{ exists c1, s. split; [done|]. split; [by split|]. split; [by rewrite take_ge by lia|]. split; [done|].
      split; [|by split; [|split]].
      intros h' fd' H1 H2. case_decide as D; [by apply (pi_owner _ _ Hwf1)|].
      change (pageCache c1) with (n :: pageCache c) in D. rewrite decide_False, Hown1, decide_False by (done || set_solver). done. }
  destruct (exists_last (l := n :: pageCache c)) as (l & m & Hl); [done|].
  destruct (pc_popLRU_run c1 s m l Hwf1 Hl) as (c2 & s2 & E & Hwf2 & Hl2 & Hmax & Hd & (Happ & Hsb) & Hown2).
  exists c2, s2. unfold mbind, M_bind. rewrite E. split; [done|].
  assert (Hll : length l = Z.to_nat (pc_max_num_items c)).
  { rewrite Hl, length_app in Hfull. simpl in Hfull. apply (f_equal length) in Hl. rewrite length_app in Hl. simpl in Hl. lia. }
  split; [split; [done|rewrite Hl2, Hmax; change (pc_max_num_items c1) with (pc_max_num_items c); lia]|].
  split; [by rewrite Hl2, Hl, take_app_length'|]. split; [done|]. split; [|split; [done|split; [done|]]].
  2:{ intros p Hp. apply Hsb. intros ->%elem_of_singleton. apply Hp. rewrite Hl2, Hl, fmap_app, list_to_set_app.
      pose proof (pi_addr _ _ Hwf1) as Hnd. change (pageCache c1) with (n :: pageCache c) in Hnd. rewrite Hl, fmap_app in Hnd.
      apply NoDup_app in Hnd as (_ & Hnd & _). simpl in Hnd. apply elem_of_difference. split; [set_solver|].
      rewrite elem_of_list_to_set. intros Hin. apply (Hnd _ Hin). by left. }
  intros h' fd' H1 H2. case_decide as D; [by apply (pi_owner _ _ Hwf2)|]. rewrite Hl2 in D.
  rewrite Hown2, Hl, fmap_app by done. case_decide as D2; [by rewrite decide_True by set_solver|].
  assert (D3 : (h', fd') ∉ pn_key <$> n :: pageCache c) by (rewrite Hl, fmap_app; set_solver).
  rewrite decide_False by set_solver. rewrite Hown1, decide_False by (done || set_solver). done.
Qed.

(** C28: storing a prefetched page puts it in front of the cache and drops the page
    stored longest ago if the size is exceeded.  The invariant is kept: the cache is
    within its size, every block it holds is live and held once, and the owners
    recorded are the cache for the pages in the list, external memory for the page
    dropped, and unchanged for all others. *)
Theorem storePageInPageCache_refines c s h fd buf (Hinv : pc_inv c (s_os s)) (Hh : is_u64 h) (Hfd : is_s32 fd)
    (Hbuf : buf <> NULL) (Hheap : heap_block (s_os s) buf = true)
    (Hnew : ~ (h, fd) ∈ pn_key <$> pageCache c) (Hfresh : ~ buf ∈ pn_address <$> pageCache c) :
  let l := PcNode h fd buf PAGE_SIZE :: pageCache c in
  exists c' s', storePageInPageCache h fd buf PAGE_SIZE (c, s) = Ok (tt, (c', s')) /\ pc_inv c' (s_os s') /\
    pageCache c' = take (Z.to_nat (pc_max_num_items c)) l /\ s_dbg s' = s_dbg s /\
    (forall h' fd', is_u64 h' -> is_s32 fd' -> owner c' h' fd' =
       if decide ((h', fd') ∈ pn_key <$> pageCache c') then Some OWNERSHIP_PAGE_CACHE
       else if decide ((h', fd') ∈ pn_key <$> l) then Some OWNERSHIP_EXTERNRAM else owner c h' fd').
Proof.
  destruct (store_page_run c s h fd buf Hinv Hh Hfd Hbuf Hheap Hnew Hfresh) as (c' & s' & H1 & H2 & H3 & H4 & H5 & _).
  by exists c', s'.
Qed.
(** The nodes for pages just read: each is in front of those before it. *)
Definition page_nodes (fd : Z) (pages : list (Z * ptr * Z)) : list page_cache_node :=
  reverse ((fun r => PcNode (req_key r) fd (req_buf r) PAGE_SIZE) <$> pages).

(** Whole pages in blocks of their own that the cache does not hold. *)
Record to_store (fd : Z) (pages : list (Z * ptr * Z)) (c : page_cache) (o : os) : Prop := {
  ts_keys : NoDup (req_key <$> pages);
  ts_bufs : NoDup (req_buf <$> pages);
  ts_each : forall r, r ∈ pages -> is_u64 (req_key r) /\ req_buf r <> NULL /\ r.2 = PAGE_SIZE /\
    heap_block o (req_buf r) = true /\ ((req_key r, fd) ∉ pn_key <$> pageCache c) /\ (req_buf r ∉ pn_address <$> pageCache c)
}.

Lemma to_store_tail fd r pages c o c' o' : to_store fd (r :: pages) c o ->
  pageCache c' = take (Z.to_nat (pc_max_num_items c)) (PcNode (req_key r) fd (req_buf r) PAGE_SIZE :: pageCache c) ->
  same_buf_but (list_to_set (pn_address <$> PcNode (req_key r) fd (req_buf r) PAGE_SIZE :: pageCache c) ∖ list_to_set (pn_address <$> pageCache c')) o o' ->
  to_store fd pages c' o'.
Proof.
  intros [Hk Hb He] Hc Ho. rewrite fmap_cons in Hk, Hb. apply NoDup_cons in Hk as [Hk1 Hk], Hb as [Hb1 Hb].
  split; [done|done|]. intros x Hx. destruct (He x) as (H1 & H2 & H3 & H4 & H5 & H6); [by right|].
  assert (Hxk : req_key x <> req_key r) by (intros E; apply Hk1; rewrite <- E; by apply list_elem_of_fmap_2).
  assert (Hxb : req_buf x <> req_buf r) by (intros E; apply Hb1; rewrite <- E; by apply list_elem_of_fmap_2).
  do 3 (split; [done|]). split; [|split].
  - rewrite (proj2 (Ho (req_buf x) ltac:(rewrite fmap_cons; cbn [pn_address list_to_set]; set_solver))). done.
  - rewrite Hc, fmap_take. intros Hin%elem_of_take. destruct Hin as (i & Hin & _). apply list_elem_of_lookup_2 in Hin.
    rewrite fmap_cons in Hin. apply elem_of_cons in Hin as [Hin|Hin]; [unfold pn_key in Hin; cbn in Hin; congruence|done].
  - rewrite Hc, fmap_take. intros Hin%elem_of_take. destruct Hin as (i & Hin & _). apply list_elem_of_lookup_2 in Hin.
    rewrite fmap_cons in Hin. apply elem_of_cons in Hin as [Hin|Hin]; [cbn in Hin; congruence|done].
Qed.

Lemma take_take_cons {A} n (x : A) l k : take n (k ++ take n (x :: l)) = take n (k ++ x :: l).
Proof. rewrite !take_app, take_take. do 2 f_equal. lia. Qed.

Lemma elem_of_take_list {A} n (l : list A) x : x ∈ take n l -> x ∈ l.
Proof. intros (i & Hi & _)%elem_of_take. by eapply list_elem_of_lookup_2. Qed.
Lemma same_buf_but_trans (a b d : gset ptr) (o o1 o2 : os) :
  same_buf_but a o o1 -> same_buf_but b o1 o2 -> a ⊆ d -> b ⊆ d -> same_buf_but d o o2.
Proof.
  intros H1 H2 Ha Hb p Hp. destruct (H1 p ltac:(set_solver)) as [E1 E2], (H2 p ltac:(set_solver)) as [E3 E4]. split; congruence.
Qed.

Lemma page_nodes_apart fd r pages c o x : to_store fd (r :: pages) c o -> x ∈ page_nodes fd pages ->
  pn_address x ∉ pn_address <$> PcNode (req_key r) fd (req_buf r) PAGE_SIZE :: pageCache c.
Proof.
  intros [_ Hb He] Hx. apply elem_of_reverse, list_elem_of_fmap in Hx as (y & -> & Hy). cbn [pn_address].
  rewrite fmap_cons in Hb. rewrite fmap_cons. apply NoDup_cons in Hb as [Hb _]. cbn [pn_address]. intros [E|E]%elem_of_cons.
  - apply Hb. rewrite <- E. by apply list_elem_of_fmap_2.
  - by apply (He y ltac:(by right)).
Qed.

Lemma storePages_run fd pages : is_s32 fd -> forall c s, pc_inv c (s_os s) -> to_store fd pages c (s_os s) ->
  let l := page_nodes fd pages ++ pageCache c in
  exists c' s', storePagesInPageCache fd pages (c, s) = Ok (tt, (c', s')) /\ pc_inv c' (s_os s') /\
    pageCache c' = take (Z.to_nat (pc_max_num_items c)) l /\ s_dbg s' = s_dbg s /\
    (forall h' fd', is_u64 h' -> is_s32 fd' -> owner c' h' fd' =
       if decide ((h', fd') ∈ pn_key <$> pageCache c') then Some OWNERSHIP_PAGE_CACHE
       else if decide ((h', fd') ∈ pn_key <$> l) then Some OWNERSHIP_EXTERNRAM else owner c h' fd') /\
    pc_max_num_items c' = pc_max_num_items c /\ same_app (s_os s) (s_os s') /\
    same_buf_but (list_to_set (pn_address <$> l) ∖ list_to_set (pn_address <$> pageCache c')) (s_os s) (s_os s').
Proof.
  intros Hfd. induction pages as [|r pages IH]; intros c s Hinv Hts; cbn zeta.
  - exists c, s. split; [done|]. split; [done|]. split; [by rewrite take_ge by (cbn; destruct Hinv; lia)|]. split; [done|].
    split; [|by split; [|split]]. intros h' fd' H1 H2. change (page_nodes fd [] ++ pageCache c) with (pageCache c).
    case_decide as D; [|done]. by apply (pi_owner _ _ (proj1 Hinv)).
  - destruct (ts_each _ _ _ _ Hts r) as (H1 & H2 & H3 & H4 & H5 & H6); [by left|].
    destruct (store_page_run c s (req_key r) fd (req_buf r) Hinv H1 Hfd H2 H4 H5 H6) as (c1 & s1 & E1 & I1 & L1 & D1 & O1 & M1 & A1 & B1).
    destruct (IH c1 s1 I1 (to_store_tail _ _ _ _ _ _ _ Hts L1 B1)) as (c' & s' & E' & I' & L' & D' & O' & M' & A' & B').
    exists c', s'. set (n := PcNode (req_key r) fd (req_buf r) PAGE_SIZE) in *.
    assert (Hn : page_nodes fd (r :: pages) ++ pageCache c = page_nodes fd pages ++ n :: pageCache c).
    { unfold page_nodes. rewrite fmap_cons, reverse_cons, <- app_assoc. done. }
    assert (HL : pageCache c' = take (Z.to_nat (pc_max_num_items c)) (page_nodes fd pages ++ n :: pageCache c)).
    { rewrite L', M1, L1. apply take_take_cons. }
    assert (Hsub : forall x, x ∈ pageCache c1 -> x ∈ n :: pageCache c) by (intros x; rewrite L1; apply elem_of_take_list).
    rewrite Hn. split.
    { cbn [storePagesInPageCache miter]. unfold mbind, M_bind. fold (req_key r) (req_buf r). rewrite H3, E1. exact E'. }
    split; [done|]. split; [done|]. split; [congruence|]. split; [|split; [congruence|]].
    + intros h' fd' Hh' Hfd'. rewrite O', O1 by done. case_decide as D; [done|].
      assert (Hsubk : (h', fd') ∈ pn_key <$> pageCache c1 -> (h', fd') ∈ pn_key <$> n :: pageCache c)
        by (intros (x & -> & Hx)%list_elem_of_fmap; by apply list_elem_of_fmap_2, Hsub).
      rewrite !fmap_app. destruct (decide ((h', fd') ∈ (pn_key <$> page_nodes fd pages) ++ (pn_key <$> pageCache c1))) as [G1|G1].
      * rewrite decide_True; [done|]. set_solver.
      * rewrite decide_False by set_solver. destruct (decide ((h', fd') ∈ pn_key <$> n :: pageCache c)) as [G2|G2].
        -- by rewrite decide_True by set_solver.
        -- rewrite decide_False; [done|]. set_solver.
    + split; [by eapply same_app_trans|]. apply (same_buf_but_trans _ _ _ _ _ _ B1 B').
      * intros p Hp. apply elem_of_difference in Hp as [Hp1 Hp2]. rewrite elem_of_list_to_set in Hp1. rewrite elem_of_list_to_set in Hp2.
        apply elem_of_difference. rewrite !elem_of_list_to_set, fmap_app. split; [set_solver|]. intros Hc.
        rewrite L' in Hc. apply list_elem_of_fmap in Hc as (x & -> & Hx%elem_of_take_list). apply elem_of_app in Hx as [Hx|Hx].
        -- by apply (page_nodes_apart fd r pages c (s_os s) x Hts Hx).
        -- by apply Hp2, list_elem_of_fmap_2.
      * intros p Hp. apply elem_of_difference in Hp as [Hp1 Hp2]. rewrite elem_of_list_to_set in Hp1.
        apply elem_of_difference. split; [|done]. rewrite elem_of_list_to_set. rewrite fmap_app in Hp1 |- *.
        apply elem_of_app in Hp1 as [Hp1|(x & -> & Hx)%list_elem_of_fmap]; [set_solver|].
        apply elem_of_app. right. by apply list_elem_of_fmap_2, Hsub.
Qed.
End cache.

(** * Hits *)

Section hit.
Context {OSI : OS} {OL : OSLaws OSI} {X : ExternRAM} {F : BuildFlags}.

(** Taking a page out of the cache and giving it to the application. *)
Lemma pc_wf_take c o n : pc_wf c o -> n ∈ pageCache c ->
  pc_wf (set_pagehash (<[page_key (pn_hashcode n) (pn_fd n) := mkPageInfo OWNERSHIP_APPLICATION false]> (pagehash c))
    (set_pageCache (PageList.erase (pn_hashcode n) (pn_fd n) (pageCache c)) c)) o.
Proof.
  intros [Hk Ha Hn Ho] Hin. rewrite Forall_forall in Hn. destruct (Hn n Hin) as (Hh & Hfd & _).
  split; cbn [pageCache set_pagehash set_pageCache].
  - by apply NoDup_fmap_filter.
  - by apply NoDup_fmap_filter.
  - apply Forall_filter_sub. by rewrite Forall_forall.
  - intros h fd Hh' Hfd'. rewrite (owner_insert (set_pageCache _ c)) by done.
    change (owner (set_pageCache _ c) h fd) with (owner c h fd). case_decide as D.
    + injection D as -> ->. split; [done|]. intros (m & Hm & [Hne _]%list_elem_of_filter)%list_elem_of_fmap.
      exfalso. apply Hne. unfold pn_key in Hm. injection Hm as -> ->. done.
    + rewrite Ho by done. rewrite !list_elem_of_fmap. split; intros (m & Hm & Hml); exists m; (split; [done|]).
      * apply list_elem_of_filter. split; [|done]. intros [E1 E2]. apply D. rewrite Hm. unfold pn_key. congruence.
      * by apply list_elem_of_filter in Hml as [_ ?].
Qed.

(** C29: a fault on a cached page is answered from the cache: the block that was
    stored for this page is handed over with its full length, without touching
    external memory or the kernel, the page leaves the cache, and the application
    is recorded as its owner. *)
Theorem cached_page_hit (w : world) n buf (Hwf : pc_wf (w_pc w) (w_os w)) (Hn : n ∈ pageCache (w_pc w)) :
  exists w', readPageIfInPageCache (pn_fd n) (pn_hashcode n) buf w = Ok ((PAGE_SIZE, pn_address n), w') /\
    w_os w' = w_os w /\ w_ext w' = w_ext w /\ pc_wf (w_pc w') (w_os w') /\
    pageCache (w_pc w') = PageList.erase (pn_hashcode n) (pn_fd n) (pageCache (w_pc w)) /\
    (forall h fd, is_u64 h -> is_s32 fd ->
       owner (w_pc w') h fd = if decide ((h, fd) = pn_key n) then Some OWNERSHIP_APPLICATION else owner (w_pc w) h fd).
Proof.
  pose proof Hwf as [Hk _ Hnodes Ho]. rewrite Forall_forall in Hnodes. destruct (Hnodes n Hn) as (Hh & Hfd & _ & Hsz & _).
  assert (Hown : owner (w_pc w) (pn_hashcode n) (pn_fd n) = Some OWNERSHIP_PAGE_CACHE).
  { apply Ho; [done|done|]. by apply (list_elem_of_fmap_2 pn_key). }
  unfold owner in Hown. destruct (pagehash (w_pc w) !! page_key _ _) as [[ow z]|] eqn:Ep; [|done]. injection Hown as ->.
  set (c1 := set_access (pn_hashcode n) (if u64 (prevAddr (w_pc w) + PAGE_SIZE) =? pn_hashcode n
    then s32 (numConseqAcc (w_pc w) + 1) else 0) (w_pc w)).
  assert (Htop : exists s', readPageIfInPageCache_top (pn_hashcode n) (pn_fd n) buf w = Ok (tt, set_pc (c1, s') w) /\ s_os s' = w_os w).
  { unfold readPageIfInPageCache_top, mbind, M_bind, mgets, in_access, in_pc, zoom, pc_mod, mmod, pagehash_find, pc_get, mgets.
    cbn [fst snd w_pc set_pc pagehash set_access]. rewrite Ep. cbn [ownership]. unfold in_sys, zoom, with_stats.
    destruct MONITORSTATS; unfold mmod, mret, M_ret; by eexists. }
  destruct Htop as (s' & Etop & Hos).
  unfold readPageIfInPageCache, mbind at 1, M_bind at 1. rewrite Etop.
  eexists. split.
  { unfold readPageIfInPageCache_bottom, mbind, M_bind, in_pc, zoom, pagehash_find, pc_get, mgets.
    cbn [fst snd w_pc w_sys set_pc]. change (pagehash c1) with (pagehash (w_pc w)). rewrite Ep. cbn [ownership].
    unfold pc_mod, mmod, changeOwnership, mbind, M_bind, pagehash_find, pc_get, mgets.
    cbn [fst snd w_pc w_sys set_pc]. cbn [pagehash set_pageCache c1 set_access]. rewrite Ep.
    cbn [pageCache set_access c1]. rewrite PageList_find_in by done. rewrite Hsz. reflexivity. }
  cbn [w_pc w_sys w_ext set_pc fst snd]. unfold w_os. cbn [w_sys set_pc snd].
  split; [done|]. split; [done|]. rewrite Hos. split; [|split; [done|]].
  - assert (Hwf1 : pc_wf c1 (w_os w)) by (split; apply Hwf). exact (pc_wf_take c1 (w_os w) n Hwf1 Hn).
  - intros h fd Hh' Hfd'. by rewrite (owner_insert (set_pageCache _ c1)) by done.
Qed.
End hit.
