(* ===== verification/Userfault.v ===== *)
(** The fault handlers of [lib/userfault/userfault.c]: placing a page at a
    faulting address, evicting pages to the external memory, reading them back,
    and flushing what belongs to a descriptor.

    Locks that the calling thread takes and releases around a call are not
    state here: each function is one thread's run.  [WriteThread] has the thread
    that empties the write list, and [Async] interleaves it with the handler. *)
From S2P Require Import Prelude Config MonitorStats Os LruBuffer UtHash ExternRam ThreadedIo Upid.
From S2P Require Import BufferAllocator PageCache World PageCacheRead.

(** Bound on the attempts of the write retry loop of the wrapper. *)
Class WriteFuel : Type := write_fuel : nat.

Inductive page_type : Set := ZERO_PAGE | COPY_PAGE | MOVE_PAGE | ASYN_PAGE.
Inductive flush_mode : Set := FLUSH_TO_EXTERNRAM | DELETE_FROM_EXTERNRAM.
#[export] Instance flush_mode_eq_dec : EqDecision flush_mode.
Proof. solve_decision. Defined.

Section handlers.
Context `{X : ExternRAM} `{F : BuildFlags, I : StaleIterator, WF : WriteFuel}.

Definition get_errno : M world Z := mgets (fun w => errno (w_dbg w)).
Definition w_stats (f : MonitorStats -> MonitorStats) : M world unit := in_sys (with_stats f).

(** ** Eviction *)

Definition evict_mode : remap_mode := RemapMode true true false.

(** [evict_page]: moves the page at [src] of the region into the buffer [dst]. *)
Definition evict_page (ufd : Z) (dst : ptr) (src : Z) : M world Z :=
  rc ← in_sys (syscall0 (uffdio_remap ufd evict_mode dst (page_of src)));
  if rc =? 0 then mret 0
  else
    e ← get_errno;
    if e =? PAGE_SIZE then mret 0
    else
      mwhen (negb (bool_decide (e ∈ [EBUSY; EEXIST; EINVAL; ESRCH]))) w_log_err;;
      mret e.

Definition get_evict_page : M world ptr :=
  if THREADED_REINIT then in_evictbuf get_tmp_page else in_sys get_local_tmp_page.
Definition free_page (p : ptr) : M world Z :=
  in_sys (if THREADED_REINIT then return_free_page p else sys_munmap p).
(** A failed [munmap] is an error. *)
Definition free_page_checked (p : ptr) : M world unit :=
  r ← free_page p; mwhen (r <? 0) w_log_err.

(** How [evict_to_externram] reacts to a failed [evict_page]: its result so far,
    and whether it tries again. *)
Definition evict_failure (ret : Z) : M world (Z * bool) :=
  if ret =? EBUSY then mret (2, false)
  else if ret =? EAGAIN then mret (1, true)
  else if ret =? ENOENT then w_log_recoverable_err;; mret (-1, true)
  else if ret =? EEXIST then mret (-1, true)
  else if bool_decide (ret = EINVAL \/ ret = ESRCH) then mret (1, false)
  else w_log_err;; mret (-1, false).

(** The loop on [retry]: the result and the buffer in use; [None] if no buffer
    could be had. *)
Fixpoint evict_retry (retry : nat) (ufd pageaddr ret : Z) (page : ptr) : M world (option (Z * ptr)) :=
  match retry with
  | O => mret (Some (ret, page))
  | S retry =>
      evict_tmp_page ← get_evict_page;
      if decide (evict_tmp_page = NULL) then w_log_err;; mret None
      else
        ret ← evict_page ufd evict_tmp_page pageaddr;
        if ret =? 0 then mret (Some (0, evict_tmp_page))
        else
          '(ret, again) ← evict_failure ret;
          if again : bool then
            mwhen (0 <? Z.of_nat retry) (free_page_checked evict_tmp_page);;
            evict_retry retry ufd pageaddr ret evict_tmp_page
          else mret (Some (ret, evict_tmp_page))
  end.

(** What happens to a page that was moved out of its region: the buffer to free,
    if any. *)
Definition write_out (ufd pageaddr : Z) (evict_tmp_page : ptr) : M world (option ptr) :=
  if THREADED_WRITE_TO_EXTERNRAM then
    waiting ← mgets (fun w => isWriterWaiting (w_tio w));
    in_tio (add_write_info ufd pageaddr evict_tmp_page);;
    list_size ← in_tio get_write_list_size;
    mwhen (waiting && (WRITE_BATCH_SIZE <=? list_size))%bool (in_tio (sem_post Writer));;
    mret None
  else
    client ← in_fd (get_client_by_fd ufd);
    if decide (client = NULL) then w_log_err;; mret None
    else
      write_ret ← in_ext (writePage write_fuel client pageaddr evict_tmp_page);
      mret (if decide (write_ret = NULL) then None else Some write_ret).

(** The comparison with [zeroPage]. *)
Definition is_zero_page (p : ptr) : M world bool :=
  if PAGECACHE_ZEROPAGE_OPTIMIZATION then
    content ← in_sys (sys_load p); mret (bool_decide (content = zero_page))
  else mret false.

Definition evict_to_externram (ufd pageaddr : Z) : M world Z :=
  r ← evict_retry 5 ufd pageaddr (-1) NULL;
  match r with
  | None => mret (-1)
  | Some (ret, evict_tmp_page) =>
      (** the buffer to free: [skip_clean] is [None] *)
      to_free ←
        (if ret =? 0 then
           w_stats StatsIncrPageEvicted_notlocked;;
           zero ← is_zero_page evict_tmp_page;
           if zero : bool then
             w_stats StatsIncrWriteAvoided_notlocked;;
             mwhen PAGECACHE (in_pc (updatePageCacheAfterSkippedWrite ufd pageaddr));;
             mret None
           else
             to_free ← write_out ufd pageaddr evict_tmp_page;
             mwhen PAGECACHE (in_pc (updatePageCacheAfterWrite ufd pageaddr));;
             mret to_free
         else mret (Some evict_tmp_page));
      match to_free with
      | Some p => free_page_checked p
      | None => mret tt
      end;;
      mret ret
  end.

(** [evict_if_needed]; the page type only selects a timing label. *)
Definition evict_if_needed (ufd dst : Z) (ty : page_type) : M world Z :=
  if negb CACHE then mret 0
  else
    evict_node ← in_lru (insertCacheNodeAndEvict dst ufd);
    if cn_hashcode evict_node =? 0 then mret 0
    else
      let key := page_of (cn_hashcode evict_node) in
      ret2 ← evict_to_externram (cn_ufd evict_node) key;
      if ret2 =? 0 then mret 0
      else if ret2 =? 1 then
        w_stats StatsIncrWriteSkippedInvalid_notlocked;; mret (cn_ufd evict_node)
      else if ret2 =? 2 then
        w_stats StatsIncrWriteSkippedZero_notlocked;;
        in_lru (insertCacheNode key (cn_ufd evict_node));; mret 0
      else w_log_err;; mret ret2.

(** ** Placement *)

(** [UFFDIO_COPY] and its error handling. *)
Definition copy_page (ufd dst : Z) (src : ptr) : M world Z :=
  '(rc, copy) ← in_sys (syscall (uffdio_copy ufd dst src));
  if (negb (rc =? 0) && negb (copy =? PAGE_SIZE))%bool then
    mwhen (negb (bool_decide (copy ∈ [EBUSY; ENOENT; ESRCH]))) w_log_err;;
    mret (s32 copy)
  else mret 0.

Definition place_data_page (ufd dst : Z) (src : ptr) : M world Z :=
  ret ← copy_page ufd dst src;
  ret ← (if ASYNREAD then mret ret else evict_if_needed ufd dst COPY_PAGE);
  w_stats StatsIncrPlacedPage_notlocked;;
  mret ret.

(** [UFFDIO_ZEROPAGE] and its error handling. *)
Definition fill_zero_page (ufd dst : Z) : M world Z :=
  rc ← in_sys (syscall0 (uffdio_zeropage ufd (page_of dst)));
  if rc =? 0 then mret 0
  else
    e ← get_errno;
    mwhen (negb (bool_decide (e ∈ [EBUSY; ENOENT; EINVAL; ESRCH]))) w_log_err;;
    mret e.

Definition place_zero_page (ufd dst : Z) : M world Z :=
  ret ← fill_zero_page ufd dst;
  if ASYNREAD then mret ret else evict_if_needed ufd dst ZERO_PAGE.

Definition move_page (ufd dst : Z) (src : ptr) : M world Z :=
  rc ← in_sys (syscall0 (uffdio_remap ufd (RemapMode false false true) (page_of dst) src));
  ret ← (if rc =? 0 then mret 0
         else
           e ← get_errno;
           mwhen (negb (bool_decide (e ∈ [EBUSY; ENOENT; EINVAL; ESRCH]))) w_log_err;;
           mret e);
  if ASYNREAD then mret ret else evict_if_needed ufd dst MOVE_PAGE.

Definition ack_userfault (ufd addr len : Z) : M world Z :=
  in_sys (on_dbg (set_errno 0));;
  rc ← in_sys (syscall0 (uffdio_wake ufd addr len));
  if rc =? 0 then mret 0
  else
    e ← get_errno;
    if e =? ENOENT then mret 0 else w_log_err;; e ← get_errno; mret (- e).

(** ** Shrinking the list of resident pages *)

(** The loop runs to [size], the number asked for, over the array of the nodes
    that were popped. *)
Fixpoint evict_multi_loop (n : nat) (nodes : list cache_node) : M world Z :=
  match n with
  | O => mret 0
  | S n =>
      match nodes with
      | [] => mub OutOfBounds
      | node :: nodes =>
          ret ← evict_to_externram (cn_ufd node) (page_of (cn_hashcode node));
          cnt ← (if ret =? 0 then mret 1
                 else if ret =? 1 then w_stats StatsIncrWriteSkippedInvalid_notlocked;; mret 0
                 else if ret =? 2 then mret 0
                 else w_log_err;; mret 0);
          rest ← evict_multi_loop n nodes;
          mret (cnt + rest)
      end
  end.

Definition evict_to_externram_multi (size : Z) : M world Z :=
  '(_, node_list) ← in_lru (popNLRU size);
  evict_multi_loop (Z.to_nat size) node_list.

Definition resizeLRUBuffer (size : Z) : M world unit :=
  lru_size ← in_lru getLRUBufferSize;
  if lru_size <? size then in_lru (setLRUBufferSize size);; mret tt
  else
    evict_to_externram_multi (lru_size - size);;
    in_lru (setLRUBufferSize size);;
    mret tt.

(** ** Reading a page back *)

(** What the handler finds on the write list; [waiting] is whether the write thread
    sleeps. *)
Inductive take_result : Type :=
| TakePage (p : ptr)
| TakeNone
| TakeWait (waiting : bool).

(** The critical section of the loop: taking the page off the list, unless the write
    thread is using it. *)
Definition take_once (ufd pageaddr : Z) : M world take_result :=
  waiting ← mgets (fun w => isWriterWaiting (w_tio w));
  w ← in_tio (find_write_info ufd pageaddr);
  match w with
  | None =>
      in_tio (mmod (fun t => set_waiting (isWriterWaiting t) (isPrefetcherWaiting t) false t));;
      mret TakeNone
  | Some _ =>
      temp_ptr ← in_tio (extract_page_from_write_list w);
      let temp_ptr := default NULL temp_ptr in
      if decide (temp_ptr = NULL) then
        in_tio (mmod (fun t => set_waiting (isWriterWaiting t) (isPrefetcherWaiting t) true t));;
        mret (TakeWait waiting)
      else
        mwhen PAGECACHE (in_pc (updatePageCacheAfterSkippedRead pageaddr ufd));;
        mret (TakePage temp_ptr)
  end.

(** Waiting for the write thread to be done with the page, or taking the page
    off its list. *)
Fixpoint take_from_write_list (fuel : nat) (ufd pageaddr : Z) : M world (option ptr) :=
  r ← take_once ufd pageaddr;
  match r with
  | TakePage p => mret (Some p)
  | TakeNone => mret None
  | TakeWait waiting =>
      mwhen waiting (in_tio (sem_post Writer));;
      in_tio (sem_wait Ufhandler);;
      match fuel with O => mub OutOfFuel | S fuel => take_from_write_list fuel ufd pageaddr end
  end.

(** Waiting for a prefetch of the page to complete. *)
Fixpoint wait_for_prefetch (fuel : nat) (ufd pageaddr : Z) : M world unit :=
  waiting ← mgets (fun w => isPrefetcherWaiting (w_tio w));
  found ← in_tio (exist_prefetch_info ufd pageaddr);
  in_tio (mmod (fun t => set_waiting (isWriterWaiting t) (isPrefetcherWaiting t) found t));;
  if found : bool then
    mwhen waiting (in_tio (sem_post Prefetcher));;
    in_tio (sem_wait Ufhandler);;
    match fuel with O => mub OutOfFuel | S fuel => wait_for_prefetch fuel ufd pageaddr end
  else mret tt.

(** A [sem_wait] that returns leaves one unit less, so the waits are bounded by
    the value of the semaphore. *)
Definition wait_fuel (w : world) : nat := Z.to_nat (ufhandler_sem (w_tio w)).

(** The page into [read_tmp_page]: the length read (-1 without a client), and the
    result of the eviction that [ASYNREAD] does while the read is under way. *)
Definition fetch_page (ufd pageaddr : Z) : M world (Z * Z) :=
  buf ← mgets read_tmp_page;
  if PAGECACHE then
    if ASYNREAD then
      readPageIfInPageCache_top pageaddr ufd buf;;
      ret2 ← evict_if_needed ufd pageaddr ASYN_PAGE;
      buf ← mgets read_tmp_page;
      '(length, buf') ← readPageIfInPageCache_bottom pageaddr ufd buf;
      mmod (set_read_tmp_page buf');;
      mret (length, ret2)
    else
      '(length, buf') ← readPageIfInPageCache ufd pageaddr buf;
      mmod (set_read_tmp_page buf');;
      mret (length, -1)
  else
    client ← in_fd (get_client_by_fd ufd);
    if ASYNREAD then
      (if decide (client = NULL) then w_log_err else in_ext (readPage_top client pageaddr buf));;
      ret2 ← evict_if_needed ufd pageaddr ASYN_PAGE;
      if decide (client = NULL) then w_log_err;; mret (-1, ret2)
      else
        buf ← mgets read_tmp_page;
        '(length, buf') ← in_ext (readPage_bottom client pageaddr buf);
        mmod (set_read_tmp_page buf');;
        mret (length, ret2)
    else if decide (client = NULL) then w_log_err;; mret (-1, -1)
    else
      '(length, buf') ← in_ext (readPage client pageaddr buf);
      mmod (set_read_tmp_page buf');;
      mret (length, -1).

(** The label [place_page_out]. *)
Definition place_page_out (ufd pageaddr length : Z) (src : ptr) : M world Z :=
  if length =? PAGE_SIZE then
    ret ← place_data_page ufd pageaddr src;
    mwhen (ret <? 0) w_log_err;;
    mret ret
  else if length =? 0 then
    ret ← place_zero_page ufd pageaddr;
    mwhen (ret <? 0) w_log_err;;
    mret ret
  else
    (** the message prints the length with [%s] *)
    mub BadFormat.

(** Evicting what is above the limit before returning. *)
Definition trim_lru : M world unit :=
  size ← in_lru getLRUBufferSize;
  maxsize ← in_lru getLRUBufferMaxSize;
  if 0 <? size - maxsize then evict_to_externram_multi (size - maxsize);; mret tt else mret tt.

Definition read_from_externram (ufd pageaddr : Z) : M world Z :=
  w_stats StatsIncrPageFault_notlocked;;
  fuel ← mgets wait_fuel;
  from_list ← (if THREADED_WRITE_TO_EXTERNRAM then take_from_write_list fuel ufd pageaddr
               else mret None);
  fuel ← mgets wait_fuel;
  mwhen THREADED_PREFETCH (wait_for_prefetch fuel ufd pageaddr);;
  ret ← match from_list with
        | Some p =>
            ret2 ← (if ASYNREAD then evict_if_needed ufd pageaddr ASYN_PAGE else mret (-1));
            ret ← place_page_out ufd pageaddr PAGE_SIZE p;
            r ← in_sys (sys_munmap p);
            mwhen (r <? 0) w_log_err;;
            mret (if ASYNREAD then ret2 else ret)
        | None =>
            '(length, ret2) ← fetch_page ufd pageaddr;
            src ← mgets read_tmp_page;
            ret ← place_page_out ufd pageaddr length src;
            mret (if ASYNREAD then ret2 else ret)
        end;
(** [read_lock] is released here, but taken only with [THREADED_PREFETCH] *)
  (if (ASYNREAD && negb THREADED_PREFETCH)%bool then mub BadUnlock else mret tt);;
  trim_lru;;
  w ← mget;
  w_stats (StatsSetLastFaultTime (gettimeofday (w_os w)));;
  mret ret.

(** ** Flushing *)

(** The inner declaration of [ret] hides the result of [removePage]. *)
Definition delete_from_externram (client : ptr) (pageaddr : Z) : M world Z :=
  if decide (client = NULL) then w_log_err;; mret (-1)
  else in_ext (removePage client pageaddr);; mret 0.

Definition flush_pages (ufd : Z) (page_list : list Z) : M world unit :=
  miter (fun pageaddr =>
    ret ← evict_to_externram ufd pageaddr;
    mwhen (negb (bool_decide (ret = 0 \/ ret = 2))) w_log_err) page_list.

Fixpoint delete_pages (client : ptr) (page_list : list Z) : M world unit :=
  match page_list with
  | [] => mret tt
  | pageaddr :: page_list =>
      ret ← delete_from_externram client pageaddr;
      if ret =? 0 then delete_pages client page_list
      else if ret =? -1 then mret tt
      else w_log_err;; delete_pages client page_list
  end.

Definition flush_buffers (ufd : Z) (client : ptr) (mode : flush_mode) : M world Z :=
  page_list ← in_lru (removeUFDFromLRU ufd);
  (if decide (mode = FLUSH_TO_EXTERNRAM) then flush_pages ufd page_list else mret tt);;
  if PAGECACHE then
    in_pc (removeUFDFromPageCache ufd);;
    page_list ← in_pc (removeUFDFromPageHash ufd);
    (if decide (mode = DELETE_FROM_EXTERNRAM) then delete_pages client page_list else mret tt);;
    mret (s32 (Z.of_nat (length page_list)))
  else mret (s32 (Z.of_nat (length page_list))).

Definition flush_write_list : M world unit :=
  if THREADED_WRITE_TO_EXTERNRAM then
    in_tio (mmod (set_flush_needed true));;
    in_tio (sem_post Writer);;
    in_tio (sem_wait FlushedWrite)
  else mret tt.

Definition flush_ufd (ufd : Z) (client : ptr) : M world Z :=
  if decide (client = NULL) then mret (-1)
  else
    r ← flush_buffers ufd client DELETE_FROM_EXTERNRAM;
    mret (if r <? 0 then -1 else 0).

(** ** Start-up and shutdown *)

(** [create_buffers] after the mutexes: the page list, the page cache and the
    read buffer. *)
Definition create_buffers (cache_size : Z) (pc : page_cache) : M world Z :=
  w ← mget;
  mput (set_lru (newLRUBuffer cache_size (s_stats (w_sys w))) w);;
  mwhen PAGECACHE (mmod (fun w => set_pc (pc, w_sys w) w));;
  p ← in_sys get_local_tmp_page;
  mmod (set_read_tmp_page p);;
  if decide (p = NULL) then w_log_err;; mret (-1) else mret 0.

Definition clean_up_lock : M world unit :=
  if THREADED_REINIT then
    b ← mgets buf_evictpage;
    in_sys (cleanup_page_buffer b);;
    p ← mgets read_tmp_page;
    in_sys (return_free_page p);;
    mret tt
  else
    p ← mgets read_tmp_page;
    in_sys (sys_munmap p);;
    mret tt.
End handlers.
