(* ===== verification/LruCache.v ===== *)
(** The cache of [lib/lrubuffer/lrucache.h], the C list that [LRUBufferImpl] replaced: a
    doubly linked queue of pages and a hash table of chains that point into it.

    The nodes of both structures are objects of a heap, addressed by pointers, so that
    every link the code follows or changes is one here.  A call of [malloc] returns an
    address that is not in use; the code does not look at its result.  The page at the end
    of the queue is evicted with the monitor's [evict_to_externram].  Printing is left
    out. *)
From S2P Require Import Prelude Config MonitorStats Os LruBuffer UtHash ExternRam ThreadedIo Upid.
From S2P Require Import BufferAllocator PageCache World PageCacheRead Userfault.

(** A value stored in an [int64_t]. *)
Definition s64 (z : Z) : Z := (z + 2 ^ 63) mod 2 ^ 64 - 2 ^ 63.

(** What a [QNode] says of its page; the contents are not set for a page without data. *)
Record lru_page := LruPage {
  page_addr : Z;
  page_contents : option page;
  page_present : bool;
  lp_ufd : Z
}.

Record QNode := mkQNode { q_prev : ptr; q_next : ptr; q_page : lru_page }.
Record Queue := mkQueue { count : Z; numberOfFrames : Z; front : ptr; rear : ptr }.
Record HNode := mkHNode { h_page_addr : Z; qNode : ptr; h_next : ptr }.
Record Hash := mkHash { capacity : Z; array : list ptr }.

(** The cache and the nodes that were allocated. *)
Record lru_cache := LruCache {
  cache_queue : Queue;
  cache_hash : Hash;
  qnodes : gmap ptr QNode;
  hnodes : gmap ptr HNode
}.

Definition with_prev (p : ptr) (n : QNode) : QNode := mkQNode p (q_next n) (q_page n).
Definition with_next (p : ptr) (n : QNode) : QNode := mkQNode (q_prev n) p (q_page n).
Definition with_hnext (p : ptr) (n : HNode) : HNode := mkHNode (h_page_addr n) (qNode n) p.

Definition set_queue (q : Queue) (c : lru_cache) : lru_cache := LruCache q (cache_hash c) (qnodes c) (hnodes c).
Definition set_qnodes (m : gmap ptr QNode) (c : lru_cache) : lru_cache := LruCache (cache_queue c) (cache_hash c) m (hnodes c).
Definition set_hash (h : Hash) (m : gmap ptr HNode) (c : lru_cache) : lru_cache := LruCache (cache_queue c) h (qnodes c) m.

Definition createQueue (frames : Z) : Queue := mkQueue 0 (u32 frames) NULL NULL.
Definition createHash (cap : Z) : Hash := mkHash cap (replicate (Z.to_nat cap) NULL).
Definition new_cache (frames cap : Z) : lru_cache := LruCache (createQueue frames) (createHash cap) ∅ ∅.

(** [jenkins_hash] of the eight bytes of the address, modulo [capacity]: an unsigned
    remainder. *)
Definition hash_index (cap a : Z) : Z := jenkins_hash (le_bytes 8 a) mod u32 cap.

(** * The hash table *)

Definition dead {A} (p : ptr) : outcome A := UB (if decide (p = NULL) then NullDeref else UseAfterFree).

Section hash.
Abbreviation hs := (Hash * gmap ptr HNode)%type (only parsing).

Definition get_h (p : ptr) : M hs HNode := fun s => match s.2 !! p with Some n => Ok (n, s) | None => dead p end.
Definition put_h (p : ptr) (n : HNode) : M hs unit := mmod (fun s => (s.1, <[p := n]> s.2)).
Definition get_bucket (i : Z) : M hs ptr := fun s =>
  match (if i <? 0 then None else array s.1 !! Z.to_nat i) with Some p => Ok (p, s) | None => UB OutOfBounds end.
Definition put_bucket (i : Z) (p : ptr) : M hs unit := mmod (fun s => (mkHash (capacity s.1) (<[Z.to_nat i := p]> (array s.1)), s.2)).
(** Division by a capacity of zero is undefined. *)
Definition bucket_index (a : Z) : M hs Z := fun s =>
  if u32 (capacity s.1) =? 0 then UB OutOfBounds else Ok (s32 (hash_index (capacity s.1) a), s).
(** More nodes than a chain can have. *)
Definition chain_fuel : M hs nat := mgets (fun s => S (size s.2)).

Fixpoint find_loop (fuel : nat) (cur : ptr) (a : Z) : M hs ptr :=
  if decide (cur = NULL) then mret NULL
  else
    n ← get_h cur;
    if h_page_addr n =? a then mret (qNode n)
    else match fuel with O => mub OutOfFuel | S fuel => find_loop fuel (h_next n) a end.
Definition findQNodeFromHash (a : Z) : M hs ptr :=
  idx ← bucket_index a;
  cur ← get_bucket idx;
  fuel ← chain_fuel;
  find_loop fuel cur a.

Definition new_hnode (qnode : ptr) (a : Z) : M hs ptr :=
  p ← mgets (fun s => fresh_ptr s.2);
  put_h p (mkHNode a qnode NULL);;
  mret p.
(** The loop to the end of a chain, [prev] one behind [cur]. *)
Fixpoint insert_loop (fuel : nat) (cur prev qnode : ptr) (a : Z) : M hs unit :=
  if decide (cur = NULL) then
    p ← new_hnode qnode a;
    n ← get_h prev;
    put_h prev (with_hnext p n)
  else
    n ← get_h cur;
    if h_page_addr n =? a then mret tt
    else match fuel with O => mub OutOfFuel | S fuel => insert_loop fuel (h_next n) cur qnode a end.
Definition insertHash (qnode : ptr) (a : Z) : M hs unit :=
  idx ← bucket_index a;
  cur ← get_bucket idx;
  if decide (cur = NULL) then p ← new_hnode qnode a; put_bucket idx p
  else fuel ← chain_fuel; insert_loop fuel cur NULL qnode a.

Definition free_h (p : ptr) : M hs unit := mmod (fun s => (s.1, delete p s.2)).
Fixpoint remove_loop (fuel : nat) (cur prev : ptr) (idx a : Z) : M hs unit :=
  if decide (cur = NULL) then mret tt
  else
    n ← get_h cur;
    if h_page_addr n =? a then
      (if decide (prev = NULL) then put_bucket idx (h_next n)
       else pn ← get_h prev; put_h prev (with_hnext (h_next n) pn));;
      free_h cur
    else match fuel with O => mub OutOfFuel | S fuel => remove_loop fuel (h_next n) cur idx a end.
Definition removeHash (a : Z) : M hs unit :=
  idx ← bucket_index a;
  cur ← get_bucket idx;
  fuel ← chain_fuel;
  remove_loop fuel cur NULL idx a.
End hash.

(** * The queue *)

Section lrucache.
Context `{X : ExternRAM} `{F : BuildFlags, WF : WriteFuel}.

Abbreviation lcs := (lru_cache * world)%type (only parsing).

Definition on_world {T A} (m : M world A) : M (T * world) A := zoom snd (fun w s => (s.1, w)) m.
Definition in_hash {A} (m : M (Hash * gmap ptr HNode) A) : M lcs A :=
  zoom (fun s => (cache_hash s.1, hnodes s.1)) (fun h s => (set_hash h.1 h.2 s.1, s.2)) m.
Definition the_queue : M lcs Queue := mgets (fun s => cache_queue s.1).
Definition put_queue (q : Queue) : M lcs unit := mmod (fun s => (set_queue q s.1, s.2)).
Definition set_front (p : ptr) : M lcs unit := q ← the_queue; put_queue (mkQueue (count q) (numberOfFrames q) p (rear q)).
Definition set_rear (p : ptr) : M lcs unit := q ← the_queue; put_queue (mkQueue (count q) (numberOfFrames q) (front q) p).
Definition set_count (n : Z) : M lcs unit := q ← the_queue; put_queue (mkQueue (u32 n) (numberOfFrames q) (front q) (rear q)).
Definition get_q (p : ptr) : M lcs QNode := fun s => match qnodes s.1 !! p with Some n => Ok (n, s) | None => dead p end.
Definition put_q (p : ptr) (n : QNode) : M lcs unit := mmod (fun s => (set_qnodes (<[p := n]> (qnodes s.1)) s.1, s.2)).
(** [p->next = v] and [p->prev = v] *)
Definition store_next (p v : ptr) : M lcs unit := n ← get_q p; put_q p (with_next v n).
Definition store_prev (p v : ptr) : M lcs unit := n ← get_q p; put_q p (with_prev v n).
Definition free_q (p : ptr) : M lcs unit := mmod (fun s => (set_qnodes (delete p (qnodes s.1)) s.1, s.2)).

(** The page of a new node: a copy of what [src] points to, if anything. *)
Definition page_of_src (a : Z) (src : ptr) (ufd : Z) : M world lru_page :=
  if decide (src = NULL) then mret (LruPage a None false ufd)
  else pg ← in_sys (sys_load src); mret (LruPage a (Some pg) true ufd).
Definition newQNode (a : Z) (src : ptr) (ufd : Z) : M lcs ptr :=
  x ← on_world (page_of_src a src ufd);
  p ← mgets (fun s => fresh_ptr (qnodes s.1));
  put_q p (mkQNode NULL NULL x);;
  mret p.

Definition AreAllFramesFull (q : Queue) : bool := count q =? numberOfFrames q.
Definition isQueueEmpty (q : Queue) : bool := rear q =? NULL.

(** The write-back of the page of a node. *)
Definition evict_page_of (x : lru_page) : M world Z := evict_to_externram (lp_ufd x) (u64 (page_addr x)).

Definition deQueue : M lcs ptr :=
  q ← the_queue;
  if isQueueEmpty q then mret NULL
  else
    let temp := rear q in
    n ← get_q temp;
    r ← on_world (evict_page_of (q_page n));
    if r <? 0 then on_world w_log_err;; mret NULL
    else
      mwhen (front q =? rear q) (set_front NULL);;
      n ← get_q temp;
      set_rear (q_prev n);;
      q ← the_queue;
      mwhen (negb (rear q =? NULL)) (store_next (rear q) NULL);;
      set_count (count q - 1);;
      mret temp.

(** [Enqueue]: the page at the end makes room, and the new one goes to the front. *)
Definition make_room : M lcs bool :=
  removed ← deQueue;
  if decide (removed = NULL) then on_world w_log_err;; mret false
  else
    n ← get_q removed;
    in_hash (removeHash (page_addr (q_page n)));;
    free_q removed;;
    mret true.
Definition push_front (a : Z) (src : ptr) (ufd : Z) : M lcs unit :=
  temp ← newQNode a src ufd;
  q ← the_queue;
  store_next temp (front q);;
  (if isQueueEmpty q then set_front temp;; set_rear temp
   else store_prev (front q) temp;; set_front temp);;
  in_hash (insertHash temp a);;
  q ← the_queue;
  set_count (count q + 1).
Definition Enqueue (a : Z) (src : ptr) (ufd : Z) : M lcs unit :=
  q ← the_queue;
  room ← (if AreAllFramesFull q then make_room else mret true);
  if room : bool then push_front a src ufd else mret tt.

Definition move_to_front (reqPage : ptr) : M lcs unit :=
  q ← the_queue;
  n ← get_q reqPage;
  store_next (q_prev n) (q_next n);;
  mwhen (negb (q_next n =? NULL)) (store_prev (q_next n) (q_prev n));;
  mwhen (reqPage =? rear q) (set_rear (q_prev n);; store_next (q_prev n) NULL);;
  store_next reqPage (front q);;
  store_prev reqPage NULL;;
  store_prev (front q) reqPage;;
  set_front reqPage.

(** The address arrives as an unsigned number and is kept as a signed one. *)
Definition ReferencePage (addr : Z) (src : ptr) (ufd : Z) : M lcs unit :=
  let a := s64 addr in
  reqPage ← in_hash (findQNodeFromHash a);
  if decide (reqPage = NULL) then Enqueue a src ufd
  else
    q ← the_queue;
    if decide (reqPage = front q) then mret tt else move_to_front reqPage.

(** * What the cache promises *)

(** A list of pages, the most recently referenced one first. *)
Definition lru_ref (frames addr : Z) (src : ptr) (ufd : Z) : M (list lru_page * world) unit :=
  let a := s64 addr in
  l ← mgets fst;
  match list_find (fun x => page_addr x = a) l with
  | Some (i, x) => mmod (fun s => (x :: delete i l, s.2))
  | None =>
      room ← (if Z.of_nat (length l) =? frames then
                match last l with
                | None => on_world w_log_err;; mret false
                | Some x =>
                    r ← on_world (evict_page_of x);
                    if r <? 0 then on_world w_log_err;; on_world w_log_err;; mret false
                    else mmod (fun s => (take (length l - 1) l, s.2));; mret true
                end
              else mret true);
      if room : bool then
        x ← on_world (page_of_src a src ufd);
        mmod (fun s => (x :: s.1, s.2))
      else mret tt
  end.
End lrucache.

(** * The chains of the hash table *)

(** An entry: the address of its node, and the page address and queue node it holds. *)
Abbreviation entry := (ptr * (Z * ptr))%type (only parsing).

Fixpoint hseg (m : gmap ptr HNode) (p : ptr) (ch : list (ptr * (Z * ptr))) : Prop :=
  match ch with
  | [] => p = NULL
  | (hp, (a, q)) :: ch => p = hp /\ hp <> NULL /\ exists nxt, m !! hp = Some (mkHNode a q nxt) /\ hseg m nxt ch
  end.

Record hash_ok (h : Hash) (m : gmap ptr HNode) (chs : list (list (ptr * (Z * ptr)))) : Prop := {
  hk_cap : 0 < capacity h < 2 ^ 31;
  hk_len : length (array h) = Z.to_nat (capacity h) /\ length chs = Z.to_nat (capacity h);
  hk_seg : forall i p ch, array h !! i = Some p -> chs !! i = Some ch -> hseg m p ch;
  hk_nodup : NoDup (concat chs).*1;
  hk_dom : forall p, is_Some (m !! p) <-> p ∈ (concat chs).*1;
  hk_bucket : forall i ch a, chs !! i = Some ch -> a ∈ ch.*2.*1 -> Z.to_nat (hash_index (capacity h) a) = i
}.

(** The table holds exactly the pairs of [al]. *)
Definition hash_rep (h : Hash) (m : gmap ptr HNode) (al : list (Z * ptr)) : Prop :=
  exists chs, hash_ok h m chs /\ (concat chs).*2 ≡ₚ al /\ NoDup al.*1.

Lemma hseg_frame m m' ch : forall p, (forall q, q ∈ ch.*1 -> m' !! q = m !! q) -> hseg m p ch -> hseg m' p ch.
Proof.
  induction ch as [|[hp [a q]] ch IH]; intros p Hm; [done|]. intros (-> & Hn & nxt & E & H).
  split; [done|]. split; [done|]. exists nxt. rewrite Hm by (by left). split; [done|].
  apply IH; [|done]. intros x Hx. apply Hm. by right.
Qed.

Lemma hseg_live m ch : forall p q, hseg m p ch -> q ∈ ch.*1 -> is_Some (m !! q).
Proof.
  induction ch as [|[hp [a r]] ch IH]; intros p q; [by intros _ ?%elem_of_nil|].
  intros (-> & _ & nxt & E & Hs) [->|Hq]%elem_of_cons; [by eexists|by eapply IH].
Qed.

Lemma hseg_nil m ch : hseg m NULL ch -> ch = [].
Proof. destruct ch as [|[hp [a q]] ch]; [done|]. by intros (<- & ? & _). Qed.

Lemma hash_index_range cap a : 0 < cap < 2 ^ 31 -> 0 <= hash_index cap a < cap.
Proof.
  intros Hc. unfold hash_index, u32. rewrite (Z.mod_small cap) by lia. apply Z.mod_pos_bound. lia.
Qed.

Lemma concat_delete {A} (l : list (list A)) i x : l !! i = Some x -> concat l ≡ₚ x ++ concat (delete i l).
Proof.
  revert i. induction l as [|y l IH]; intros i; [done|]. destruct i as [|i]; cbn [lookup list_lookup delete list_delete].
  - by intros [= <-].
  - intros H. cbn [concat]. rewrite (IH i H), !app_assoc. by rewrite (Permutation_app_comm y x).
Qed.

Lemma delete_insert_same {A} (l : list A) i x : delete i (<[i := x]> l) = delete i l.
Proof. revert i. induction l as [|y l IH]; intros [|i]; simpl; try done. by rewrite IH. Qed.

Lemma concat_insert_at {A} (l : list (list A)) i x y : l !! i = Some x ->
  concat (<[i := y]> l) ≡ₚ y ++ concat (delete i l).
Proof.
  intros H. rewrite <- (delete_insert_same l i y). apply concat_delete, list_lookup_insert_eq.
  by eapply lookup_lt_Some.
Qed.

Section chains.
Context (h : Hash) (m : gmap ptr HNode) (chs : list (list (ptr * (Z * ptr)))) (Hok : hash_ok h m chs).

(** The bucket of an address. *)
Lemma bucket_run a : exists i p ch, bucket_index a (h, m) = Ok (i, (h, m)) /\ get_bucket i (h, m) = Ok (p, (h, m)) /\
  0 <= i /\ i = hash_index (capacity h) a /\ array h !! Z.to_nat i = Some p /\ chs !! Z.to_nat i = Some ch /\ hseg m p ch.
Proof.
  pose proof (hk_cap _ _ _ Hok) as Hc. pose proof (hash_index_range _ a Hc) as Hi. destruct (hk_len _ _ _ Hok) as [La Lc].
  destruct (lookup_lt_is_Some_2 (array h) (Z.to_nat (hash_index (capacity h) a))) as [p Hp]; [lia|].
  destruct (lookup_lt_is_Some_2 chs (Z.to_nat (hash_index (capacity h) a))) as [ch Hch]; [lia|].
  exists (hash_index (capacity h) a), p, ch. split; [|split].
  - unfold bucket_index. cbn [fst]. unfold u32. rewrite Z.mod_small by lia. rewrite (proj2 (Z.eqb_neq _ 0)) by lia.
    rewrite s32_id by (unfold is_s32; lia). done.
  - unfold get_bucket. cbn [fst]. rewrite (proj2 (Z.ltb_ge _ 0)) by lia. by rewrite Hp.
  - split; [lia|]. split; [done|]. split; [done|]. split; [done|]. by apply (hk_seg _ _ _ Hok (Z.to_nat (hash_index (capacity h) a))).
Qed.

Lemma chain_in i ch x : chs !! i = Some ch -> x ∈ ch -> x ∈ concat chs.
Proof. intros H Hx. rewrite (concat_delete chs i ch H). apply elem_of_app. by left. Qed.

Lemma chain_short i ch : chs !! i = Some ch -> (length ch <= size m)%nat.
Proof.
  intros H. rewrite <- (length_fmap fst ch). rewrite <- (size_list_to_set (C := gset ptr)).
  - rewrite <- size_dom. apply subseteq_size. intros p Hp%elem_of_list_to_set. apply elem_of_dom.
    apply (hk_dom _ _ _ Hok). apply list_elem_of_fmap in Hp as (x & -> & Hx). apply list_elem_of_fmap.
    exists x. split; [done|]. by eapply chain_in.
  - pose proof (hk_nodup _ _ _ Hok) as Hn. rewrite (concat_delete chs i ch H), fmap_app in Hn. by apply NoDup_app in Hn as [? _].
Qed.

(** An address is in the table exactly if it is in its bucket. *)
Lemma bucket_only i ch a q : chs !! i = Some ch -> Z.to_nat (hash_index (capacity h) a) = i ->
  (a, q) ∈ (concat chs).*2 -> (a, q) ∈ ch.*2.
Proof.
  intros Hi Ha (x & Ex & Hx)%list_elem_of_fmap. apply list_elem_of_In, in_concat in Hx as (ch' & Hch'%list_elem_of_In & Hx%list_elem_of_In).
  apply list_elem_of_lookup in Hch' as [j Hj].
  assert (j = i) as ->.
  { rewrite <- Ha. symmetry. apply (hk_bucket _ _ _ Hok j ch'); [done|]. apply list_elem_of_fmap. exists (a, q). split; [done|].
    apply list_elem_of_fmap. by exists x. }
  rewrite Hi in Hj. injection Hj as ->. apply list_elem_of_fmap. by exists x.
Qed.

(** Replacing a chain. *)
Lemma hash_ok_update i p' ch ch' m' : chs !! i = Some ch -> hseg m' p' ch' -> NoDup ch'.*1 ->
  (forall p, p ∉ ch.*1 -> p ∉ ch'.*1 -> m' !! p = m !! p) ->
  (forall p, p ∈ ch'.*1 -> p ∈ ch.*1 \/ m !! p = None) ->
  (forall p, p ∈ ch.*1 -> p ∉ ch'.*1 -> m' !! p = None) ->
  (forall a, a ∈ ch'.*2.*1 -> Z.to_nat (hash_index (capacity h) a) = i) ->
  hash_ok (mkHash (capacity h) (<[i := p']> (array h))) m' (<[i := ch']> chs).
Proof.
  intros Hi Hseg Hnd Hf Hnew Hold Hb. pose proof (hk_nodup _ _ _ Hok) as Hn. pose proof (hk_dom _ _ _ Hok) as Hd.
  rewrite (concat_delete chs i ch Hi), fmap_app in Hn. apply NoDup_app in Hn as (N1 & N2 & N3).
  assert (Hd' : forall p, is_Some (m !! p) <-> p ∈ ch.*1 \/ p ∈ (concat (delete i chs)).*1).
  { intros p. by rewrite Hd, (concat_delete chs i ch Hi), fmap_app, elem_of_app. }
  assert (Hdis : forall p, p ∈ ch'.*1 -> p ∉ (concat (delete i chs)).*1).
  { intros p Hp Hq. destruct (Hnew p Hp) as [Hc|Hc]; [by apply (N2 p)|]. assert (is_Some (m !! p)) as [? E] by (apply Hd'; by right). congruence. }
  pose proof (concat_insert_at chs i ch ch' Hi) as Hc'. split; cbn [capacity array].
  - apply (hk_cap _ _ _ Hok).
  - rewrite !length_insert. apply (hk_len _ _ _ Hok).
  - intros j p c Hj Hcj. destruct (decide (j = i)) as [->|Hne].
    + rewrite list_lookup_insert_eq in Hj by (apply lookup_lt_Some in Hj; by rewrite length_insert in Hj).
      rewrite list_lookup_insert_eq in Hcj by (by eapply lookup_lt_Some). by injection Hj as <-; injection Hcj as <-.
    + rewrite list_lookup_insert_ne in Hj by done. rewrite list_lookup_insert_ne in Hcj by done. eapply hseg_frame; [|by eapply (hk_seg _ _ _ Hok)].
      intros q Hq. assert (Hq' : q ∈ (concat (delete i chs)).*1).
      { assert (Hx : q ∈ (concat (<[i := []]> chs)).*1).
        { apply list_elem_of_fmap in Hq as (x & -> & Hx). apply list_elem_of_fmap. exists x. split; [done|].
          rewrite (concat_delete _ j c) by (by rewrite list_lookup_insert_ne). apply elem_of_app. by left. }
        by rewrite (concat_insert_at chs i ch [] Hi) in Hx. }
      apply Hf; [intros ?; by apply (N2 q)|intros ?; by apply (Hdis q)].
  - rewrite Hc', fmap_app. apply NoDup_app. split; [done|]. split; [exact Hdis|done].
  - intros p. rewrite Hc', fmap_app, elem_of_app. destruct (decide (p ∈ ch'.*1)) as [Hp|Hp].
    + split; [by left|]. intros _. by eapply hseg_live.
    + split; [|intros [?|Hq]; [done|]].
      * intros Hs. right. destruct (decide (p ∈ ch.*1)) as [Hpc|Hpc]; [rewrite Hold in Hs by done; by destruct Hs|].
        rewrite Hf in Hs by done. by apply Hd' in Hs as [?|?].
      * rewrite Hf by (done || intros ?; by apply (N2 p)). apply Hd'. by right.
  - intros j c a Hcj Ha. destruct (decide (j = i)) as [->|Hne].
    + rewrite list_lookup_insert_eq in Hcj by (by eapply lookup_lt_Some). injection Hcj as <-. by apply Hb.
    + rewrite list_lookup_insert_ne in Hcj by done. by eapply (hk_bucket _ _ _ Hok).
Qed.
End chains.

(** ** Lookup *)

Lemma find_loop_run h m a ch : forall fuel cur, hseg m cur ch -> (length ch <= fuel)%nat ->
  (a ∉ ch.*2.*1 -> find_loop fuel cur a (h, m) = Ok (NULL, (h, m))) /\
  (forall q, NoDup ch.*2.*1 -> (a, q) ∈ ch.*2 -> find_loop fuel cur a (h, m) = Ok (q, (h, m))).
Proof.
  induction ch as [|[hp [b r]] ch IH]; intros fuel cur Hs Hl.
  - simpl in Hs. subst cur. split; [by destruct fuel|]. intros q _ Hq. by apply elem_of_nil in Hq.
  - destruct Hs as (-> & Hne & nxt & E & Hs). simpl in Hl. destruct fuel as [|fuel]; [lia|].
    destruct (IH fuel nxt Hs ltac:(lia)) as [H1 H2]. cbn [find_loop]. rewrite decide_False by done.
    unfold mbind, M_bind, get_h. cbn [snd]. rewrite E. cbn [h_page_addr qNode h_next].
    destruct (Z.eqb_spec b a) as [->|Hba].
    + split; [intros Ha; destruct Ha; by left|]. intros q Hnd Hq. f_equal. f_equal.
      apply elem_of_cons in Hq as [[= <-]|Hq]; [done|]. apply NoDup_cons in Hnd as [Hn _]. destruct Hn.
      apply list_elem_of_fmap. by exists (a, q).
    + split; [intros Ha; apply H1; intros ?; apply Ha; by right|]. intros q Hnd Hq. apply NoDup_cons in Hnd as [_ Hnd].
      apply H2; [done|]. apply elem_of_cons in Hq as [[= -> _]|Hq]; [done|done].
Qed.

Lemma hash_find h m al a : hash_rep h m al ->
  (a ∉ al.*1 -> findQNodeFromHash a (h, m) = Ok (NULL, (h, m))) /\
  (forall q, (a, q) ∈ al -> findQNodeFromHash a (h, m) = Ok (q, (h, m))).
Proof.
  intros (chs & Hok & Hp & Hnd). destruct (bucket_run h m chs Hok a) as (i & p & ch & E1 & E2 & Hi & Ei & Ha & Hc & Hs).
  destruct (find_loop_run h m a ch (S (size m)) p Hs) as [H1 H2]; [pose proof (chain_short _ _ _ Hok _ _ Hc); lia|].
  unfold findQNodeFromHash, mbind, M_bind. rewrite E1, E2. unfold chain_fuel, mgets. cbn [snd].
  assert (Hsub : forall x, x ∈ ch.*2 -> x ∈ al).
  { intros x (y & -> & Hy)%list_elem_of_fmap. rewrite <- Hp. apply list_elem_of_fmap. exists y. split; [done|]. by eapply chain_in. }
  split.
  - intros Hna. apply H1. intros (x & -> & Hx)%list_elem_of_fmap. apply Hna, list_elem_of_fmap. exists x. split; [done|]. by apply Hsub.
  - intros q Hq. apply H2.
    + rewrite <- Hp in Hnd. rewrite (concat_delete chs _ ch Hc), !fmap_app in Hnd. by apply NoDup_app in Hnd as [? _].
    + eapply bucket_only; [exact Hok|exact Hc|by rewrite Ei|]. by rewrite Hp.
Qed.

(** ** Insertion *)

Lemma insert_loop_run h m a q ch : forall fuel cur prev, ch <> [] -> hseg m cur ch -> a ∉ ch.*2.*1 -> NoDup ch.*1 ->
  (length ch <= fuel)%nat ->
  exists m', insert_loop fuel cur prev q a (h, m) = Ok (tt, (h, m')) /\ hseg m' cur (ch ++ [(fresh_ptr m, (a, q))]) /\
    (forall p, p ∉ ch.*1 -> p <> fresh_ptr m -> m' !! p = m !! p).
Proof.
  induction ch as [|[hp [b r]] ch IH]; intros fuel cur prev Hne Hs Ha Hnd Hl; [done|]. clear Hne.
  destruct Hs as (-> & Hn & nxt & E & Hs). apply NoDup_cons in Hnd as [Hnp Hnd]. simpl in Hl. destruct fuel as [|fuel]; [lia|].
  assert (Hfr : hp <> fresh_ptr m) by (intros ->; by rewrite fresh_ptr_fresh in E).
  assert (Hba : b <> a) by (intros ->; apply Ha; by left).
  cbn [insert_loop]. rewrite decide_False by done. unfold mbind at 1, M_bind at 1, get_h. cbn [snd]. rewrite E. cbn [h_page_addr h_next].
  rewrite (proj2 (Z.eqb_neq b a)) by done. destruct ch as [|c ch].
  - simpl in Hs. subst nxt. eexists. split; [|split].
    + destruct fuel; cbn [insert_loop]; rewrite decide_True by done;
        unfold new_hnode, mbind, M_bind, mgets, put_h, mmod, mret, M_ret, get_h; cbn [fst snd];
        rewrite lookup_insert_ne by done; rewrite E; reflexivity.
    + cbn [app]. split; [done|]. split; [done|]. eexists. split; [by rewrite lookup_insert_eq|]. cbn [with_hnext].
      split; [done|]. split; [pose proof (fresh_ptr_pos m); unfold NULL; lia|]. exists NULL.
      rewrite lookup_insert_ne by done. cbn [snd]. by rewrite lookup_insert_eq.
    + intros p Hp Hpf. rewrite lookup_insert_ne; [cbn [snd]; by rewrite lookup_insert_ne|]. intros ->. apply Hp. by left.
  - destruct (IH fuel nxt hp) as (m' & Em & Hs' & Hf); [done|done|intros ?; apply Ha; by right|done|lia|].
    exists m'. split; [exact Em|]. split.
    + split; [done|]. split; [done|]. exists nxt. rewrite Hf by done. by split.
    + intros p Hp Hpf. apply Hf; [|done]. intros ?. apply Hp. by right.
Qed.

Lemma hash_insert h m al a q : hash_rep h m al -> a ∉ al.*1 ->
  exists h' m', insertHash q a (h, m) = Ok (tt, (h', m')) /\ hash_rep h' m' ((a, q) :: al) /\ capacity h' = capacity h.
Proof.
  intros (chs & Hok & Hp & Hnd) Hna. destruct (bucket_run h m chs Hok a) as (i & p & ch & E1 & E2 & Hi & Ei & Ha & Hc & Hs).
  assert (Hach : a ∉ ch.*2.*1).
  { intros (x & -> & Hx)%list_elem_of_fmap. apply Hna. apply list_elem_of_fmap. exists x. split; [done|]. rewrite <- Hp.
    apply list_elem_of_fmap in Hx as (y & -> & Hy). apply list_elem_of_fmap. exists y. split; [done|]. by eapply chain_in. }
  pose proof (fresh_ptr_fresh m) as Hff. pose proof (hk_nodup _ _ _ Hok) as Hn.
  rewrite (concat_delete chs _ ch Hc), fmap_app in Hn. apply NoDup_app in Hn as (Hn & _).
  assert (Hfr : fresh_ptr m ∉ ch.*1) by (intros Hx; destruct (hseg_live _ _ _ _ Hs Hx); congruence).
  assert (Hgoal : forall p' m', hseg m' p' (ch ++ [(fresh_ptr m, (a, q))]) ->
    (forall x, x ∉ ch.*1 -> x <> fresh_ptr m -> m' !! x = m !! x) ->
    hash_rep (mkHash (capacity h) (<[Z.to_nat i := p']> (array h))) m' ((a, q) :: al)).
  { intros p' m' Hs' Hf. exists (<[Z.to_nat i := ch ++ [(fresh_ptr m, (a, q))]]> chs). split; [|split].
    - eapply hash_ok_update; [exact Hok|exact Hc|exact Hs'|..]; rewrite ?fmap_app; cbn [fmap list_fmap fst snd].
      + apply NoDup_app. split; [done|]. split; [|apply NoDup_singleton]. intros x Hx ->%list_elem_of_singleton. done.
      + intros x Hx Hx'. apply Hf; [done|]. intros ->. apply Hx'. apply elem_of_app. right. by left.
      + intros x [?|Hx%list_elem_of_singleton]%elem_of_app; [by left|right; by rewrite Hx].
      + intros x Hx Hx'. destruct Hx'. apply elem_of_app. by left.
      + intros b [Hb|Hb%list_elem_of_singleton]%elem_of_app; [by eapply (hk_bucket _ _ _ Hok)|by rewrite Hb, Ei].
    - rewrite (concat_insert_at chs _ ch _ Hc), <- Hp, (concat_delete chs _ ch Hc), !fmap_app. cbn [fmap list_fmap snd].
      rewrite <- app_assoc. cbn [app]. symmetry. apply Permutation_middle.
    - apply NoDup_cons. by split. }
  unfold insertHash, mbind, M_bind. rewrite E1, E2. destruct (decide (p = NULL)) as [->|Hpn].
  - apply hseg_nil in Hs as ->. unfold new_hnode, mbind, M_bind, mgets, put_h, put_bucket, mmod, mret, M_ret. cbn [fst snd].
    eexists _, _. split; [reflexivity|]. split; [|done]. apply Hgoal.
    + split; [done|]. split; [pose proof (fresh_ptr_pos m); unfold NULL; lia|]. exists NULL. by rewrite lookup_insert_eq.
    + intros x _ Hx. by rewrite lookup_insert_ne.
  - unfold chain_fuel, mgets. cbn [snd]. destruct (insert_loop_run h m a q ch (S (size m)) p NULL) as (m' & Em & Hs' & Hf); try done.
    { by intros ->. }
    { pose proof (chain_short _ _ _ Hok _ _ Hc). lia. }
    exists h, m'. split; [exact Em|]. split; [|done]. specialize (Hgoal p m' Hs' Hf).
    rewrite (list_insert_id (array h)) in Hgoal by done. by destruct h.
Qed.

(** ** Removal *)

(** Behind a node [prev]. *)
Lemma hremove_loop_run h m a hp q idx ch2 ch1 : forall fuel cur prev b r, prev <> NULL -> m !! prev = Some (mkHNode b r cur) ->
  hseg m cur (ch1 ++ (hp, (a, q)) :: ch2) -> a ∉ ch1.*2.*1 -> NoDup (prev :: (ch1 ++ (hp, (a, q)) :: ch2).*1) ->
  (length ch1 <= fuel)%nat ->
  exists m', remove_loop fuel cur prev idx a (h, m) = Ok (tt, (h, m')) /\ hseg m' prev ((prev, (b, r)) :: ch1 ++ ch2) /\
    m' !! hp = None /\ (forall p, p <> prev -> p ∉ (ch1 ++ (hp, (a, q)) :: ch2).*1 -> m' !! p = m !! p).
Proof.
  induction ch1 as [|[cp [c s]] ch1 IH]; intros fuel cur prev b r Hpn Ep Hs Ha Hnd Hl.
  - destruct Hs as (-> & Hn & nxt & E & Hs). cbn [app fmap list_fmap fst] in Hnd.
    apply NoDup_cons in Hnd as [Hp1 [Hp2 Hnd]%NoDup_cons]. apply not_elem_of_cons in Hp1 as [Hp0 Hp1].
    exists (delete hp (<[prev := mkHNode b r nxt]> m)). split; [|split; [|split]].
    + destruct fuel; cbn [remove_loop]; rewrite decide_False by done; unfold mbind, M_bind, get_h, free_h, mmod, put_h; cbn [fst snd];
        rewrite E; cbn [h_page_addr h_next]; rewrite Z.eqb_refl, (decide_False (P := prev = NULL)) by done; cbn [snd]; rewrite Ep; reflexivity.
    + split; [done|]. split; [done|]. exists nxt. rewrite lookup_delete_ne, lookup_insert_eq by done. split; [done|].
      eapply hseg_frame; [|exact Hs]. intros x Hx. rewrite lookup_delete_ne by (by intros ->). by rewrite lookup_insert_ne by (by intros ->).
    + apply lookup_delete_eq.
    + intros p Hp Hpc. rewrite lookup_delete_ne by (intros ->; apply Hpc; by left). by rewrite lookup_insert_ne.
  - destruct Hs as (-> & Hn & nxt & E & Hs). cbn [app fmap list_fmap fst] in Hnd. simpl in Hl. destruct fuel as [|fuel]; [lia|].
    apply NoDup_cons in Hnd as [Hp1 Hnd]. apply not_elem_of_cons in Hp1 as [Hp0 Hp1].
    assert (Hca : c <> a) by (intros ->; apply Ha; by left).
    destruct (IH fuel nxt cp c s Hn E Hs) as (m' & Em & Hs' & Hd & Hf); [intros ?; apply Ha; by right|done|lia|].
    exists m'. split; [|split; [|split; [done|]]].
    + cbn [remove_loop]. rewrite decide_False by done. unfold mbind at 1, M_bind at 1, get_h. cbn [snd]. rewrite E. cbn [h_page_addr h_next].
      rewrite (proj2 (Z.eqb_neq c a)) by done. exact Em.
    + split; [done|]. split; [done|]. exists cp. rewrite Hf by done. split; [done|]. exact Hs'.
    + intros p Hp Hpc. apply Hf; [intros ->; apply Hpc; by left|]. intros ?. apply Hpc. by right.
Qed.

(** From the start of a chain. *)
Lemma remove_chain_run h m a hp q idx ch1 ch2 fuel cur : array h !! Z.to_nat idx = Some cur ->
  hseg m cur (ch1 ++ (hp, (a, q)) :: ch2) -> a ∉ ch1.*2.*1 -> NoDup (ch1 ++ (hp, (a, q)) :: ch2).*1 -> (length ch1 <= fuel)%nat ->
  exists p' m', remove_loop fuel cur NULL idx a (h, m) = Ok (tt, (mkHash (capacity h) (<[Z.to_nat idx := p']> (array h)), m')) /\
    hseg m' p' (ch1 ++ ch2) /\ m' !! hp = None /\ (forall p, p ∉ (ch1 ++ (hp, (a, q)) :: ch2).*1 -> m' !! p = m !! p).
Proof.
  intros Hcur Hs Ha Hnd Hl. destruct ch1 as [|[cp [c s]] ch1].
  - destruct Hs as (-> & Hn & nxt & E & Hs). cbn [app fmap list_fmap fst] in Hnd. apply NoDup_cons in Hnd as [Hp1 Hnd].
    exists nxt, (delete hp m). split; [|split; [|split]].
    + destruct fuel; cbn [remove_loop]; rewrite decide_False by done; unfold mbind, M_bind, get_h, free_h, mmod, put_bucket; cbn [fst snd];
        rewrite E; cbn [h_page_addr h_next]; rewrite Z.eqb_refl, (decide_True (P := NULL = NULL)) by done; reflexivity.
    + eapply hseg_frame; [|exact Hs]. intros x Hx. by rewrite lookup_delete_ne by (by intros ->).
    + apply lookup_delete_eq.
    + intros p Hp. rewrite lookup_delete_ne; [done|]. intros ->. apply Hp. by left.
  - destruct Hs as (-> & Hn & nxt & E & Hs). simpl in Hl. destruct fuel as [|fuel]; [lia|].
    assert (Hca : c <> a) by (intros ->; apply Ha; by left).
    destruct (hremove_loop_run h m a hp q idx ch2 ch1 fuel nxt cp c s Hn E Hs) as (m' & Em & Hs' & Hd & Hf);
      [intros ?; apply Ha; by right|done|lia|].
    exists cp, m'. split; [|split; [done|split; [done|]]].
    + rewrite list_insert_id by done. cbn [remove_loop]. rewrite decide_False by done. unfold mbind at 1, M_bind at 1, get_h. cbn [snd].
      rewrite E. cbn [h_page_addr h_next]. rewrite (proj2 (Z.eqb_neq c a)) by done. destruct h. exact Em.
    + intros p Hp. apply Hf; [intros ->; apply Hp; by left|]. intros ?. apply Hp. by right.
Qed.

Lemma hash_remove h m al a q : hash_rep h m ((a, q) :: al) ->
  exists h' m', removeHash a (h, m) = Ok (tt, (h', m')) /\ hash_rep h' m' al /\ capacity h' = capacity h.
Proof.
  intros (chs & Hok & Hp & Hnd). destruct (bucket_run h m chs Hok a) as (i & p & ch & E1 & E2 & Hi & Ei & Ha & Hc & Hs).
  assert (Hin : (a, q) ∈ ch.*2).
  { eapply bucket_only; [exact Hok|exact Hc|by rewrite Ei|]. rewrite Hp. by left. }
  apply list_elem_of_fmap in Hin as ([hp x] & Ex & Hin). simpl in Ex. subst x.
  apply list_elem_of_split in Hin as (ch1 & ch2 & Hsp). pose proof (concat_delete chs _ ch Hc) as Hcd.
  assert (Hnd2 : NoDup (ch.*2.*1 ++ (concat (delete (Z.to_nat i) chs)).*2.*1)).
  { rewrite <- Hp, Hcd, !fmap_app in Hnd. done. }
  apply NoDup_app in Hnd2 as (Hnd2 & _). pose proof (hk_nodup _ _ _ Hok) as Hn. rewrite Hcd, fmap_app in Hn. apply NoDup_app in Hn as (Hn & _).
  assert (Hach : a ∉ ch1.*2.*1).
  { rewrite Hsp, !fmap_app in Hnd2. apply NoDup_app in Hnd2 as (_ & H & _). intros Hx. apply (H a Hx). by left. }
  pose proof (chain_short _ _ _ Hok _ _ Hc) as Hlen. rewrite Hsp in Hs, Hn, Hlen. rewrite length_app in Hlen.
  destruct (remove_chain_run h m a hp q i ch1 ch2 (S (size m)) p Ha Hs Hach Hn ltac:(lia)) as (p' & m' & Em & Hs' & Hd & Hf).
  exists (mkHash (capacity h) (<[Z.to_nat i := p']> (array h))), m'. split; [|split; [|done]].
  - unfold removeHash, mbind, M_bind. rewrite E1, E2. unfold chain_fuel, mgets. cbn [snd]. exact Em.
  - exists (<[Z.to_nat i := ch1 ++ ch2]> chs). rewrite fmap_app in Hn. cbn [fmap list_fmap fst] in Hn.
    assert (Hn' : NoDup ((ch1 ++ ch2).*1) /\ hp ∉ (ch1 ++ ch2).*1).
    { rewrite <- Permutation_middle in Hn. apply NoDup_cons in Hn as [? ?]. by rewrite fmap_app. }
    assert (Hsame : forall x, x ∈ ch.*1 <-> x = hp \/ x ∈ (ch1 ++ ch2).*1).
    { intros x. rewrite Hsp, !fmap_app. cbn [fmap list_fmap fst]. rewrite !elem_of_app, elem_of_cons. tauto. }
    split; [|split].
    + eapply hash_ok_update; [exact Hok|exact Hc|exact Hs'|apply Hn'|..].
      * intros x Hx _. apply Hf. by rewrite <- Hsp.
      * intros x Hx. left. apply Hsame. by right.
      * intros x Hx Hx'. apply Hsame in Hx as [-> |?]; [done|done].
      * intros b Hb. apply (hk_bucket _ _ _ Hok (Z.to_nat i) ch); [done|]. rewrite Hsp, !fmap_app. rewrite !fmap_app in Hb.
        apply elem_of_app in Hb as [?|?]; apply elem_of_app; [by left|right; by right].
    + apply (Permutation_cons_inv (a := (a, q))). rewrite <- Hp, Hcd, (concat_insert_at chs _ ch _ Hc), Hsp, !fmap_app.
      cbn [fmap list_fmap snd]. rewrite <- !app_assoc. cbn [app]. apply Permutation_middle.
    + by apply NoDup_cons in Hnd as [_ ?].
Qed.

(** * The links of the queue *)

(** Nodes [ps] linked in both directions, holding the pages [l]; [prev] and [nxt] are the
    links at the two ends. *)
Fixpoint dseg (m : gmap ptr QNode) (prev : ptr) (ps : list ptr) (l : list lru_page) (nxt : ptr) : Prop :=
  match ps, l with
  | [], [] => True
  | p :: ps, x :: l => m !! p = Some (mkQNode prev (List.hd nxt ps) x) /\ dseg m p ps l nxt
  | _, _ => False
  end.

Lemma dseg_length m ps : forall prev l nxt, dseg m prev ps l nxt -> length ps = length l.
Proof. induction ps as [|p ps IH]; intros prev [|x l] nxt; try done. intros [_ H]. simpl. f_equal. by eapply IH. Qed.

Lemma dseg_frame m m' ps : forall prev l nxt, (forall p, p ∈ ps -> m' !! p = m !! p) -> dseg m prev ps l nxt -> dseg m' prev ps l nxt.
Proof.
  induction ps as [|p ps IH]; intros prev [|x l] nxt Hm; try done. intros [E H]. split.
  - by rewrite Hm by (by left).
  - apply IH; [|done]. intros q Hq. apply Hm. by right.
Qed.

Lemma dseg_live m ps : forall prev l nxt p, dseg m prev ps l nxt -> p ∈ ps -> is_Some (m !! p).
Proof.
  induction ps as [|q ps IH]; intros prev [|x l] nxt p; try done; [by intros _ ?%elem_of_nil|].
  intros [E H] [->|Hp]%elem_of_cons; [by eexists|by eapply IH].
Qed.

Lemma dseg_app m ps1 : forall prev l1 ps2 l2 nxt, length ps1 = length l1 ->
  dseg m prev (ps1 ++ ps2) (l1 ++ l2) nxt <-> dseg m prev ps1 l1 (List.hd nxt ps2) /\ dseg m (List.last ps1 prev) ps2 l2 nxt.
Proof.
  induction ps1 as [|p ps1 IH]; intros prev [|x l1] ps2 l2 nxt Hl; try done; [simpl; tauto|].
  injection Hl as Hl. cbn [app dseg]. rewrite IH by done.
  assert (H1 : List.hd nxt (ps1 ++ ps2) = List.hd (List.hd nxt ps2) ps1) by (by destruct ps1).
  assert (H2 : List.last (p :: ps1) prev = List.last ps1 p) by (clear; revert p prev; induction ps1 as [|q ps IH]; intros; [done|]; simpl in *; destruct ps; [done|]; apply IH).
  rewrite H1, H2. tauto.
Qed.

(** Changing the link at an end. *)
Lemma dseg_set_next m prev ps y l nxt nxt' : dseg m prev (ps ++ [y]) l nxt -> y ∉ ps ->
  exists n, m !! y = Some n /\ dseg (<[y := with_next nxt' n]> m) prev (ps ++ [y]) l nxt'.
Proof.
  intros H Hy. pose proof (dseg_length _ _ _ _ _ H) as Hl. rewrite length_app in Hl. simpl in Hl.
  destruct (exists_last (l := l)) as (l1 & x & ->); [intros ->; simpl in Hl; lia|]. rewrite length_app in Hl. simpl in Hl.
  rewrite dseg_app in H by lia. destruct H as [H1 [E _]]. exists (mkQNode (List.last ps prev) nxt x). split; [done|].
  apply dseg_app; [lia|]. split.
  - eapply dseg_frame; [|exact H1]. intros p Hp. by rewrite lookup_insert_ne by (by intros ->).
  - split; [|done]. by rewrite lookup_insert_eq.
Qed.

Lemma dseg_set_prev m prev prev' z ps l nxt : dseg m prev (z :: ps) l nxt -> z ∉ ps ->
  exists n, m !! z = Some n /\ dseg (<[z := with_prev prev' n]> m) prev' (z :: ps) l nxt.
Proof.
  destruct l as [|x l]; [done|]. intros [E H] Hz. eexists. split; [exact E|]. split; [by rewrite lookup_insert_eq|].
  eapply dseg_frame; [|exact H]. intros p Hp. by rewrite lookup_insert_ne by (by intros ->).
Qed.

(** ** The cache and the list of its pages *)

Record cache_rep (frames : Z) (c : lru_cache) (ps : list ptr) (l : list lru_page) : Prop := {
  cr_frames : numberOfFrames (cache_queue c) = frames /\ 0 <= frames < 2 ^ 32;
  cr_count : count (cache_queue c) = Z.of_nat (length l) /\ Z.of_nat (length l) <= frames;
  cr_ends : front (cache_queue c) = List.hd NULL ps /\ rear (cache_queue c) = List.last ps NULL;
  cr_links : dseg (qnodes c) NULL ps l NULL;
  cr_nodup : NoDup ps /\ NULL ∉ ps;
  cr_dom : forall p, is_Some (qnodes c !! p) -> p ∈ ps;
  cr_hash : hash_rep (cache_hash c) (hnodes c) (zip (page_addr <$> l) ps)
}.

Lemma zip_fst (ps : list ptr) (l : list lru_page) : length ps = length l -> (zip (page_addr <$> l) ps).*1 = page_addr <$> l.
Proof. intros H. apply fst_zip. rewrite length_fmap. lia. Qed.

Lemma exists_last_or_nil {A} (l : list A) : l = [] \/ exists l' x, l = l' ++ [x].
Proof. destruct l as [|a l]; [by left|]. right. destruct (exists_last (l := a :: l)) as (l' & x & ->); [done|]. by exists l', x. Qed.

Lemma last_in {A} (l : list A) d : l <> [] -> List.last l d ∈ l.
Proof. intros H. destruct (exists_last H) as (l' & x & ->). rewrite last_last. apply elem_of_app. right. by left. Qed.

(** Where a page that is in the list sits. *)
Lemma dseg_split m ps l i x : dseg m NULL ps l NULL -> l !! i = Some x ->
  exists ps1 p ps2, ps = ps1 ++ p :: ps2 /\ length ps1 = i /\ (page_addr x, p) ∈ zip (page_addr <$> l) ps.
Proof.
  intros H Hi. pose proof (dseg_length _ _ _ _ _ H) as Hl. pose proof (lookup_lt_Some _ _ _ Hi) as Hlt.
  destruct (lookup_lt_is_Some_2 ps i) as [p Hp]; [lia|]. exists (take i ps), p, (drop (S i) ps).
  split; [by rewrite take_drop_middle|]. split; [apply length_take_le; lia|].
  apply list_elem_of_lookup. exists i. rewrite lookup_zip_with, list_lookup_fmap, Hi, Hp. done.
Qed.

Section queue.
Context `{X : ExternRAM} `{F : BuildFlags, WF : WriteFuel}.
Implicit Types (c : lru_cache) (w : world).

Lemma get_q_run p c w n : qnodes c !! p = Some n -> get_q p (c, w) = Ok (n, (c, w)).
Proof. intros E. unfold get_q. cbn [fst]. by rewrite E. Qed.

Lemma store_next_run p v c w n : qnodes c !! p = Some n ->
  store_next p v (c, w) = Ok (tt, (set_qnodes (<[p := with_next v n]> (qnodes c)) c, w)).
Proof. intros E. unfold store_next. by rewrite (run_bind _ _ _ _ _ (get_q_run p c w n E)). Qed.

Lemma store_prev_run p v c w n : qnodes c !! p = Some n ->
  store_prev p v (c, w) = Ok (tt, (set_qnodes (<[p := with_prev v n]> (qnodes c)) c, w)).
Proof. intros E. unfold store_prev. by rewrite (run_bind _ _ _ _ _ (get_q_run p c w n E)). Qed.

(** ** Moving a page to the front *)

(** Unlinking a node that is not the first one. *)
Lemma unlink_ok m ps1 y p ps2 l1 x l2 : dseg m NULL ((ps1 ++ [y]) ++ p :: ps2) (l1 ++ x :: l2) NULL ->
  NoDup ((ps1 ++ [y]) ++ p :: ps2) -> length l1 = S (length ps1) ->
  exists ny m2, m !! p = Some (mkQNode y (List.hd NULL ps2) x) /\ m !! y = Some ny /\
    let m1 := <[y := with_next (List.hd NULL ps2) ny]> m in
    match ps2 with [] => m2 = m1 | z :: _ => exists nz, m1 !! z = Some nz /\ m2 = <[z := with_prev y nz]> m1 end /\
    dseg m2 NULL ((ps1 ++ [y]) ++ ps2) (l1 ++ l2) NULL /\ m2 !! p = m !! p /\
    (forall q, is_Some (m2 !! q) -> is_Some (m !! q)).
Proof.
  intros H Hnd Hl. apply dseg_app in H as [H1 [Hp H2]]; [|rewrite length_app; simpl; lia]. rewrite last_last in Hp.
  apply NoDup_app in Hnd as (N1 & N2 & [N3 N4]%NoDup_cons). apply NoDup_app in N1 as (N1 & N0 & _).
  assert (Hy1 : y ∉ ps1) by (intros Hy; apply (N0 y Hy); by left).
  assert (Hyp : y ∉ p :: ps2) by (apply N2, elem_of_app; right; by left). apply not_elem_of_cons in Hyp as [Hyp Hy2].
  destruct (dseg_set_next m NULL ps1 y l1 p (List.hd NULL ps2) H1 Hy1) as (ny & Ey & H3).
  exists ny. cbv zeta. set (m1 := <[y := with_next (List.hd NULL ps2) ny]> m) in *.
  assert (H4 : dseg m1 p ps2 l2 NULL).
  { eapply dseg_frame; [|exact H2]. intros q Hq. unfold m1. by rewrite lookup_insert_ne by (by intros ->). }
  assert (Hm1p : m1 !! p = m !! p) by (unfold m1; by rewrite lookup_insert_ne).
  assert (Hm1 : forall q, is_Some (m1 !! q) -> is_Some (m !! q)).
  { intros q. unfold m1. destruct (decide (q = y)) as [->|]; [by rewrite Ey|by rewrite lookup_insert_ne]. }
  destruct ps2 as [|z ps2].
  - exists m1. split; [done|]. split; [done|]. split; [done|]. split; [|done]. destruct l2; [|done]. by rewrite !app_nil_r.
  - apply NoDup_cons in N4 as [Hz _]. destruct (dseg_set_prev m1 p y z ps2 l2 NULL H4 Hz) as (nz & Ez & H5).
    exists (<[z := with_prev y nz]> m1). split; [done|]. split; [done|]. split; [by exists nz|].
    apply not_elem_of_cons in N3 as [Npz N3]. apply not_elem_of_cons in Hy2 as [Hyz Hy2]. split; [|split].
    + apply dseg_app; [rewrite length_app; simpl; lia|]. rewrite last_last. split; [|done].
      eapply dseg_frame; [|exact H3]. intros q Hq. rewrite lookup_insert_ne; [done|]. intros ->. apply (N2 q Hq). right. by left.
    + by rewrite lookup_insert_ne by (by intros ->).
    + intros q. destruct (decide (q = z)) as [->|]; [rewrite lookup_insert_eq; intros _; apply Hm1; by eexists|].
      rewrite lookup_insert_ne by done. apply Hm1.
Qed.

(** Linking a node in front of a non-empty queue. *)
Lemma link_ok m p np nf f ps l : dseg m NULL (f :: ps) l NULL -> p ∉ f :: ps -> NoDup (f :: ps) -> m !! f = Some nf ->
  q_prev np = NULL -> q_next np = f ->
  dseg (<[f := with_prev p nf]> (<[p := np]> m)) NULL (p :: f :: ps) (q_page np :: l) NULL.
Proof.
  intros H Hp [Hf Hnd]%NoDup_cons Ef E1 E2. apply not_elem_of_cons in Hp as [Hpf Hp].
  assert (H1 : dseg (<[p := np]> m) NULL (f :: ps) l NULL).
  { eapply dseg_frame; [|exact H]. intros q [->|Hq]%elem_of_cons; rewrite lookup_insert_ne; [done|done|done|by intros ->]. }
  destruct (dseg_set_prev _ _ p _ _ _ _ H1 Hf) as (n & En & H2). rewrite lookup_insert_ne, Ef in En by done. injection En as <-.
  split; [|done]. rewrite lookup_insert_ne, lookup_insert_eq by done. cbn [List.hd]. rewrite <- E1, <- E2. by destruct np.
Qed.

Lemma zip_middle (ps1 ps2 : list ptr) (l1 l2 : list lru_page) p x : length ps1 = length l1 ->
  zip (page_addr <$> l1 ++ x :: l2) (ps1 ++ p :: ps2) ≡ₚ (page_addr x, p) :: zip (page_addr <$> l1 ++ l2) (ps1 ++ ps2).
Proof.
  intros H. rewrite !fmap_app, fmap_cons, !zip_with_app by (by rewrite length_fmap). cbn [zip_with]. symmetry. apply Permutation_middle.
Qed.

Lemma hash_rep_perm h m al al' : al ≡ₚ al' -> hash_rep h m al -> hash_rep h m al'.
Proof. intros Hp (chs & H1 & H2 & H3). exists chs. split; [done|]. by rewrite <- Hp. Qed.

Lemma last_app_cons {A} (l1 l2 : list A) a d : List.last (l1 ++ a :: l2) d = List.last (a :: l2) d.
Proof. induction l1 as [|b l1 IH]; [done|]. cbn [app]. rewrite <- IH. by destruct l1. Qed.

(** The first half of a move, up to the new end of the queue. *)
Lemma unlink_run c w (ps1 : list ptr) y p ps2 l1 x l2 (k : M (lru_cache * world) unit) :
  dseg (qnodes c) NULL ((ps1 ++ [y]) ++ p :: ps2) (l1 ++ x :: l2) NULL ->
  NoDup ((ps1 ++ [y]) ++ p :: ps2) -> NULL ∉ (ps1 ++ [y]) ++ p :: ps2 -> length l1 = S (length ps1) ->
  rear (cache_queue c) = List.last ((ps1 ++ [y]) ++ p :: ps2) NULL ->
  exists m2, qnodes c !! p = Some (mkQNode y (List.hd NULL ps2) x) /\
    dseg m2 NULL ((ps1 ++ [y]) ++ ps2) (l1 ++ l2) NULL /\ m2 !! p = qnodes c !! p /\
    (forall q, is_Some (m2 !! q) -> is_Some (qnodes c !! q)) /\
    (store_next y (List.hd NULL ps2);; mwhen (negb (List.hd NULL ps2 =? NULL)) (store_prev (List.hd NULL ps2) y);;
     mwhen (p =? rear (cache_queue c)) (set_rear y;; store_next y NULL);; k) (c, w) =
    k (LruCache (mkQueue (count (cache_queue c)) (numberOfFrames (cache_queue c)) (front (cache_queue c))
                   (List.last ((ps1 ++ [y]) ++ ps2) NULL)) (cache_hash c) m2 (hnodes c), w).
Proof.
  intros Hli Hnd Hnn Hl Er. destruct (unlink_ok _ _ _ _ _ _ _ _ Hli Hnd Hl) as (ny & m2 & Ep & Ey & Em2 & Hli2 & Ep2 & Hd2).
  exists m2. do 4 (split; [done|]). rewrite (run_bind _ _ _ _ _ (store_next_run y (List.hd NULL ps2) c w ny Ey)).
  destruct ps2 as [|z ps2].
  - subst m2. cbn [List.hd]. rewrite Z.eqb_refl. cbn [negb mwhen]. rewrite (run_bind _ _ _ tt (set_qnodes (<[y := with_next NULL ny]> (qnodes c)) c, w)) by done.
    rewrite Er, app_nil_r, !last_last, Z.eqb_refl. cbn [mwhen].
    set (c1 := LruCache (mkQueue (count (cache_queue c)) (numberOfFrames (cache_queue c)) (front (cache_queue c)) y) (cache_hash c)
      (<[y := with_next NULL ny]> (qnodes c)) (hnodes c)).
    rewrite (run_bind _ _ _ tt (c1, w)); [done|]. rewrite (run_bind _ _ _ tt (c1, w)) by done.
    rewrite (store_next_run y NULL c1 w (with_next NULL ny)) by apply lookup_insert_eq. unfold c1, set_qnodes. cbn [qnodes cache_queue cache_hash hnodes].
    by rewrite insert_insert_eq.
  - destruct Em2 as (nz & Ez & ->). cbn [List.hd] in *. rewrite (proj2 (Z.eqb_neq z NULL)) by (intros ->; apply Hnn, elem_of_app; right; right; by left).
    cbn [negb mwhen]. rewrite (run_bind _ _ _ _ _ (store_prev_run z y (set_qnodes (<[y := with_next z ny]> (qnodes c)) c) w nz Ez)).
    change (p :: z :: ps2) with ([p] ++ z :: ps2) in Er. rewrite app_assoc, last_app_cons in Er.
    rewrite (proj2 (Z.eqb_neq p (rear (cache_queue c)))); [|rewrite Er; intros Hx; apply NoDup_app in Hnd as (_ & _ & [Hn _]%NoDup_cons); apply Hn; rewrite Hx; by apply last_in].
    cbn [mwhen]. rewrite last_app_cons, <- Er.
    unfold mbind at 1, M_bind at 1, mret, M_ret. destruct c as [[]]. done.
Qed.

Lemma move_to_front_run frames c w ps1 y p ps2 l1 x l2 : cache_rep frames c ((ps1 ++ [y]) ++ p :: ps2) (l1 ++ x :: l2) ->
  length l1 = S (length ps1) ->
  exists c', move_to_front p (c, w) = Ok (tt, (c', w)) /\ cache_rep frames c' (p :: (ps1 ++ [y]) ++ ps2) (x :: l1 ++ l2).
Proof.
  intros [Hfr Hco [Ef Er] Hli [Hnd Hnn] Hdom Hha] Hl.
  set (k := store_next p (front (cache_queue c));; store_prev p NULL;; store_prev (front (cache_queue c)) p;; set_front p).
  destruct (unlink_run c w _ _ _ _ _ _ _ k Hli Hnd Hnn Hl Er) as (m2 & Ep & Hli2 & Ep2 & Hd2 & Ek).
  assert (Hperm : (ps1 ++ [y]) ++ p :: ps2 ≡ₚ p :: (ps1 ++ [y]) ++ ps2) by (symmetry; apply Permutation_middle).
  pose proof Hnd as Hnd2. rewrite Hperm in Hnd2. apply NoDup_cons in Hnd2 as [Hpn Hnd2].
  assert (Hzip : length (ps1 ++ [y]) = length l1) by (rewrite length_app; simpl; lia).
  unfold move_to_front. rewrite (run_bind _ _ _ (cache_queue c) (c, w)) by done.
  rewrite (run_bind _ _ _ _ _ (get_q_run p c w _ Ep)). cbn [q_prev q_next]. fold k. rewrite Ek. unfold k. clear k Ek.
  destruct (ps1 ++ [y]) as [|f ps'] eqn:Eps; [by destruct ps1|]. cbn [app List.hd] in Ef. rewrite Ef.
  destruct (dseg_live _ _ _ _ _ f Hli2) as [nf Enf]; [by left|].
  rewrite (run_bind _ _ _ _ _ (store_next_run p f (LruCache _ _ _ _) w _ (eq_trans Ep2 Ep))).
  rewrite (run_bind _ _ _ _ _ (store_prev_run p NULL (set_qnodes _ _) w _ (lookup_insert_eq _ _ _))).
  erewrite run_bind; [|apply store_prev_run; cbn [qnodes set_qnodes]; rewrite insert_insert_eq, lookup_insert_ne; [exact Enf|intros ->; apply Hpn; by left]].
  eexists. split; [reflexivity|]. cbn [qnodes set_qnodes]. rewrite insert_insert_eq.
  split; cbn [fst snd cache_queue numberOfFrames count front rear qnodes cache_hash hnodes set_qnodes set_queue].
  - done.
  - rewrite length_app in Hco. cbn [length] in *. rewrite length_app. destruct Hco. split; lia.
  - done.
  - by apply (link_ok m2 p (mkQNode NULL f x) nf f (ps' ++ ps2) (l1 ++ l2)).
  - split; [by apply NoDup_cons|]. by rewrite <- Hperm.
  - intros q Hq. rewrite <- Hperm. destruct (decide (q = f)) as [->|]; [by left|]. rewrite lookup_insert_ne in Hq by done.
    destruct (decide (q = p)) as [->|]; [rewrite Hperm; by left|]. rewrite lookup_insert_ne in Hq by done. by apply Hdom, Hd2.
  - eapply hash_rep_perm; [|exact Hha]. by rewrite zip_middle.
Qed.

(** ** Making room *)

Lemma deQueue_run frames c w w1 r ps y l x : cache_rep frames c (ps ++ [y]) (l ++ [x]) -> evict_page_of x w = Ok (r, w1) -> 0 <= r ->
  exists m' n, deQueue (c, w) = Ok (y, (LruCache (mkQueue (Z.of_nat (length l)) frames (List.hd NULL ps) (List.last ps NULL)) (cache_hash c) m' (hnodes c), w1)) /\
    dseg m' NULL ps l NULL /\ m' !! y = Some n /\ q_page n = x /\ (forall q, is_Some (m' !! q) -> is_Some (qnodes c !! q)).
Proof.
  intros [[Hfr Hfr'] [Hco Hco'] [Ef Er] Hli [Hnd Hnn] Hdom Hha] Ev Hr. rewrite last_last in Er.
  pose proof (dseg_length _ _ _ _ _ Hli) as Hlen. rewrite !length_app in Hlen. simpl in Hlen.
  assert (Hyn : y <> NULL) by (intros ->; apply Hnn, elem_of_app; right; by left).
  apply NoDup_app in Hnd as (Hnd & Hy & _). assert (Hyp : y ∉ ps) by (intros H; apply (Hy y H); by left).
  pose proof (proj1 (dseg_app _ ps NULL l [y] [x] NULL ltac:(lia)) Hli) as [Hl1 [Ey _]]. cbn [List.hd] in Ey, Hl1.
  unfold deQueue. rewrite (run_bind _ _ _ (cache_queue c) (c, w)) by done. unfold isQueueEmpty. rewrite Er, (proj2 (Z.eqb_neq y NULL)) by done.
  rewrite (run_bind _ _ _ _ _ (get_q_run y c w _ Ey)). cbn [q_page].
  rewrite (run_bind _ _ _ r (c, w1)) by (unfold on_world, zoom; cbn [fst snd]; by rewrite Ev).
  rewrite (proj2 (Z.ltb_ge r 0)) by done. rewrite length_app in Hco, Hco'. simpl in Hco, Hco'.
  assert (Hcnt : u32 (count (cache_queue c) - 1) = Z.of_nat (length l)) by (unfold u32; rewrite Z.mod_small; lia).
  destruct (exists_last_or_nil ps) as [->|(ps' & z & ->)].
  - cbn [app List.hd] in Ef. rewrite Ef, Z.eqb_refl. cbn [mwhen]. destruct l as [|? l]; [|done].
    set (c1 := set_queue (mkQueue (count (cache_queue c)) (numberOfFrames (cache_queue c)) NULL (rear (cache_queue c))) c).
    rewrite (run_bind _ _ _ tt (c1, w1)) by done. rewrite (run_bind _ _ _ _ _ (get_q_run y c1 w1 _ Ey)).
    unfold set_rear, set_count, the_queue, put_queue, mbind, M_bind, mgets, mmod, mwhen, mret, M_ret. cbn. rewrite Hcnt, Hfr.
    eexists _, _. split; [reflexivity|]. split; [done|]. split; [exact Ey|]. done.
  - rewrite last_last in *. assert (Hfy : front (cache_queue c) <> y) by (rewrite Ef; intros E; apply Hyp; rewrite <- E; destruct ps'; by left).
    rewrite (proj2 (Z.eqb_neq _ y)) by done. cbn [mwhen]. rewrite (run_bind _ _ _ tt (c, w1)) by done.
    rewrite (run_bind _ _ _ _ _ (get_q_run y c w1 _ Ey)). cbn [q_prev].
    assert (Hz : z ∉ ps') by (intros H; apply NoDup_app in Hnd as (_ & Hn & _); apply (Hn z H); by left).
    destruct (dseg_set_next _ _ _ _ _ _ NULL Hl1 Hz) as (nz & Ez & Hl2).
    assert (Hzn : z <> NULL) by (intros ->; apply Hnn, elem_of_app; left; apply elem_of_app; right; by left).
    assert (Hzy : z <> y) by (intros ->; apply Hyp, elem_of_app; right; by left).
    set (c1 := set_queue (mkQueue (count (cache_queue c)) (numberOfFrames (cache_queue c)) (front (cache_queue c)) z) c).
    rewrite (run_bind _ _ _ tt (c1, w1)) by done. rewrite (run_bind _ _ _ (cache_queue c1) (c1, w1)) by done.
    cbn [rear cache_queue c1 set_queue]. rewrite (proj2 (Z.eqb_neq z NULL)) by done. cbn [negb mwhen].
    rewrite (run_bind _ _ _ _ _ (store_next_run z NULL c1 w1 nz Ez)).
    unfold set_count, the_queue, put_queue, mbind, M_bind, mgets, mmod, mret, M_ret.
    cbn [fst snd cache_queue set_qnodes set_queue c1 count numberOfFrames front rear cache_hash qnodes hnodes]. rewrite Hcnt, Hfr.
    eexists _, _. split; [rewrite Ef; destruct ps'; reflexivity|]. split; [done|].
    cbn [qnodes set_qnodes c1 set_queue]. split; [rewrite (lookup_insert_ne _ z y) by done; exact Ey|]. split; [done|].
    intros q. destruct (decide (q = z)) as [->|]; [intros _; by eexists|by rewrite lookup_insert_ne].
Qed.

Lemma zip_snoc_perm (ps : list ptr) (l : list lru_page) y x : length ps = length l ->
  zip (page_addr <$> l ++ [x]) (ps ++ [y]) ≡ₚ (page_addr x, y) :: zip (page_addr <$> l) ps.
Proof. intros H. rewrite (zip_middle ps [] l []) by done. by rewrite !app_nil_r. Qed.

Lemma make_room_run frames c w w1 r ps y l x : cache_rep frames c (ps ++ [y]) (l ++ [x]) -> evict_page_of x w = Ok (r, w1) -> 0 <= r ->
  exists c', make_room (c, w) = Ok (true, (c', w1)) /\ cache_rep frames c' ps l.
Proof.
  intros Hrep Ev Hr. destruct (deQueue_run _ _ _ _ _ _ _ _ _ Hrep Ev Hr) as (m' & n & E & Hl & En & Hx & Hd).
  destruct Hrep as [Hfr [Hco Hco'] _ Hli [Hnd Hnn] Hdom Hha]. unfold make_room. rewrite (run_bind _ _ _ _ _ E).
  rewrite decide_False by (intros ->; apply Hnn, elem_of_app; right; by left).
  erewrite (run_bind _ _ _ _ _ (get_q_run y (LruCache _ _ _ _) w1 _ En)). rewrite Hx.
  apply (hash_rep_perm _ _ _ _ (zip_snoc_perm ps l y x (dseg_length _ _ _ _ _ Hl))) in Hha.
  destruct (hash_remove _ _ _ _ _ Hha) as (h' & hm' & Eh & Hh' & _).
  erewrite run_bind by (unfold in_hash, zoom; cbn [fst snd cache_hash hnodes]; rewrite Eh; reflexivity).
  eexists. split; [reflexivity|]. rewrite length_app in Hco, Hco'. simpl in Hco, Hco'.
  apply NoDup_app in Hnd as (Hnd & Hy & _). assert (Hyp : y ∉ ps) by (intros H; apply (Hy y H); by left).
  split; cbn [fst snd cache_queue numberOfFrames count front rear qnodes cache_hash hnodes set_qnodes set_hash].
  - by destruct Hfr.
  - split; [done|lia].
  - done.
  - eapply dseg_frame; [|exact Hl]. intros q Hq. by rewrite lookup_delete_ne by (by intros ->).
  - split; [done|]. intros H. apply Hnn, elem_of_app. by left.
  - intros q Hq. destruct (decide (q = y)) as [->|]; [rewrite lookup_delete_eq in Hq; by destruct Hq|]. rewrite lookup_delete_ne in Hq by done.
    apply Hd, Hdom in Hq. apply elem_of_app in Hq as [?|Hq%list_elem_of_singleton]; [done|done].
  - exact Hh'.
Qed.

(** ** A new page *)

Lemma dseg_push m ps l np : dseg m NULL ps l NULL -> NoDup ps -> m !! fresh_ptr m = None -> q_prev np = NULL -> q_next np = List.hd NULL ps ->
  let t := fresh_ptr m in
  match ps with
  | [] => dseg (<[t := np]> m) NULL [t] (q_page np :: l) NULL
  | f :: _ => exists nf, m !! f = Some nf /\ f <> t /\ dseg (<[f := with_prev t nf]> (<[t := np]> m)) NULL (t :: ps) (q_page np :: l) NULL
  end.
Proof.
  intros H Hnd Hfr E1 E2 t. destruct ps as [|f ps].
  - destruct l; [|done]. split; [|done]. rewrite lookup_insert_eq. cbn [List.hd] in *. rewrite <- E1 at 1. by destruct np; cbn in *; subst.
  - destruct (dseg_live _ _ _ _ _ f H) as [nf Ef]; [by left|].
    assert (Ht : forall q, q ∈ f :: ps -> q <> t) by (intros q Hq ->; destruct (dseg_live _ _ _ _ _ _ H Hq); unfold t in *; congruence).
    exists nf. split; [done|]. split; [apply Ht; by left|]. apply link_ok; try done. intros Hq. by apply (Ht t).
Qed.

Lemma page_of_src_addr a src ufd w x w' : page_of_src a src ufd w = Ok (x, w') -> page_addr x = a.
Proof.
  unfold page_of_src. case_decide; [by intros [= <- _]|]. unfold mbind, M_bind.
  destruct (in_sys (sys_load src) w) as [[pg w1]| |]; [by intros [= <- _]|done|done].
Qed.

Lemma push_front_run frames c w w' a src ufd ps l x : cache_rep frames c ps l -> Z.of_nat (length l) < frames -> a ∉ page_addr <$> l ->
  page_of_src a src ufd w = Ok (x, w') ->
  exists c' ps', push_front a src ufd (c, w) = Ok (tt, (c', w')) /\ cache_rep frames c' ps' (x :: l).
Proof.
  intros [[Hfr Hfr'] [Hco Hco'] [Ef Er] Hli [Hnd Hnn] Hdom Hha] Hroom Hna Ex. pose proof (page_of_src_addr _ _ _ _ _ _ Ex) as Hxa.
  set (t := fresh_ptr (qnodes c)). pose proof (fresh_ptr_fresh (qnodes c)) as Hft. pose proof (fresh_ptr_pos (qnodes c)) as Hpos. fold t in Hft, Hpos.
  assert (Hbt : t ∉ ps) by (intros H; destruct (dseg_live _ _ _ _ _ _ Hli H); congruence).
  pose proof (dseg_push _ _ _ (mkQNode NULL (List.hd NULL ps) x) Hli Hnd Hft eq_refl eq_refl) as Hpush. fold t in Hpush. cbv zeta in Hpush.
  unfold push_front, newQNode.
  rewrite (run_bind _ _ _ t (set_qnodes (<[t := mkQNode NULL NULL x]> (qnodes c)) c, w'))
    by (unfold mbind, M_bind, on_world, zoom; cbn [fst snd]; by rewrite Ex).
  erewrite run_bind by reflexivity. cbn [fst cache_queue set_qnodes]. rewrite Ef.
  erewrite run_bind by (apply store_next_run, lookup_insert_eq). cbn [qnodes set_qnodes]. rewrite insert_insert_eq. unfold with_next. cbn [q_prev q_page].
  set (m2 := <[t := mkQNode NULL (List.hd NULL ps) x]> (qnodes c)) in *.
  destruct (hash_insert _ _ _ a t Hha) as (h' & hm' & Eh & Hh' & _).
  { rewrite zip_fst by (by eapply dseg_length). done. }
  assert (Hlink : exists m3, (if isQueueEmpty (cache_queue c) then set_front t;; set_rear t else store_prev (List.hd NULL ps) t;; set_front t)
      (set_qnodes m2 c, w') = Ok (tt, (LruCache (mkQueue (count (cache_queue c)) frames t (List.last (t :: ps) NULL)) (cache_hash c) m3 (hnodes c), w')) /\
    dseg m3 NULL (t :: ps) (x :: l) NULL /\ (forall q, is_Some (m3 !! q) -> q = t \/ is_Some (qnodes c !! q))).
  { unfold isQueueEmpty. rewrite Er. destruct ps as [|f ps].
    - exists m2. cbn [List.last]. rewrite Z.eqb_refl, <- Hfr. split; [done|]. split; [done|].
      intros q. unfold m2. destruct (decide (q = t)) as [->|]; [by left|]. rewrite lookup_insert_ne by done. by right.
    - destruct Hpush as (nf & Enf & Hft' & Hp). exists (<[f := with_prev t nf]> m2).
      rewrite (proj2 (Z.eqb_neq _ NULL)) by (intros E; apply Hnn; rewrite <- E; by apply last_in). cbn [List.hd].
      erewrite run_bind by (apply store_prev_run; cbn [qnodes set_qnodes]; unfold m2; rewrite lookup_insert_ne by done; exact Enf).
      split; [unfold set_front, mbind, M_bind, the_queue, mgets, put_queue, mmod; cbn [fst snd set_queue set_qnodes cache_queue]; by rewrite Er, Hfr|].
      split; [done|]. intros q. destruct (decide (q = f)) as [->|]; [intros _; right; by eexists|]. rewrite lookup_insert_ne by done.
      unfold m2. destruct (decide (q = t)) as [->|]; [by left|]. rewrite lookup_insert_ne by done. by right. }
  destruct Hlink as (m3 & El & Hl3 & Hd3). erewrite run_bind by exact El.
  erewrite run_bind by (unfold in_hash, zoom; cbn [fst snd cache_hash hnodes]; rewrite Eh; reflexivity).
  eexists _, (t :: ps). split; [reflexivity|].
  split; cbn [fst snd cache_queue numberOfFrames count front rear qnodes cache_hash hnodes set_qnodes set_hash set_queue].
  - done.
  - rewrite Hco. unfold u32. rewrite Z.mod_small by lia. cbn [length]. split; lia.
  - done.
  - done.
  - split; [by apply NoDup_cons|]. apply not_elem_of_cons. split; [unfold NULL; lia|done].
  - intros q [->|Hq]%Hd3; [by left|right; by apply Hdom].
  - rewrite fmap_cons, Hxa. exact Hh'.
Qed.

(** * The cache refines the list *)

(** The code does what the list does, and is then related to it again. *)
Definition simulates frames (code : M (lru_cache * world) unit) (spec : M (list lru_page * world) unit) : Prop :=
  forall c w ps l, cache_rep frames c ps l ->
    match spec (l, w) with
    | Ok (_, (l', w')) => exists c' ps', code (c, w) = Ok (tt, (c', w')) /\ cache_rep frames c' ps' l'
    | UB f => code (c, w) = UB f
    | Blocked => code (c, w) = Blocked
    end.

Lemma make_room_none frames c w l : cache_rep frames c [] l -> l = [] ->
  make_room (c, w) = (on_world w_log_err;; mret false) (c, w).
Proof.
  intros [_ _ [_ Er] _ _ _ _] _. unfold make_room, deQueue. rewrite (run_bind _ _ _ NULL (c, w)); [by rewrite decide_True|].
  rewrite (run_bind _ _ _ (cache_queue c) (c, w)) by done. unfold isQueueEmpty. rewrite Er. done.
Qed.

(** [deQueue] up to the result of the eviction. *)
Lemma make_room_evict frames c w ps y l x : cache_rep frames c (ps ++ [y]) (l ++ [x]) ->
  match evict_page_of x w with
  | Ok (r, w1) => r < 0 -> make_room (c, w) = (on_world w_log_err;; on_world w_log_err;; mret false) (c, w1)
  | UB f => make_room (c, w) = UB f
  | Blocked => make_room (c, w) = Blocked
  end.
Proof.
  intros [_ _ [_ Er] Hli [_ Hnn] _ _]. rewrite last_last in Er. pose proof (dseg_length _ _ _ _ _ Hli) as Hlen. rewrite !length_app in Hlen. simpl in Hlen.
  pose proof (proj1 (dseg_app _ ps NULL l [y] [x] NULL ltac:(lia)) Hli) as [_ [Ey _]].
  assert (Hdq : deQueue (c, w) = (r ← on_world (evict_page_of x); if r <? 0 then on_world w_log_err;; mret NULL else
      mwhen (front (cache_queue c) =? rear (cache_queue c)) (set_front NULL);; n ← get_q y; set_rear (q_prev n);; q ← the_queue;
      mwhen (negb (rear q =? NULL)) (store_next (rear q) NULL);; set_count (count q - 1);; mret y) (c, w)).
  { unfold deQueue. rewrite (run_bind _ _ _ (cache_queue c) (c, w)) by done. unfold isQueueEmpty.
    rewrite Er, (proj2 (Z.eqb_neq y NULL)) by (intros ->; apply Hnn, elem_of_app; right; by left).
    by rewrite (run_bind _ _ _ _ _ (get_q_run y c w _ Ey)). }
  unfold make_room, mbind, M_bind. rewrite Hdq. unfold mbind, M_bind, on_world, zoom. cbn [fst snd].
  destruct (evict_page_of x w) as [[r w1]| |]; [|done|done]. intros Hr. rewrite (proj2 (Z.ltb_lt r 0)) by done.
  cbn [fst snd]. by destruct (w_log_err w1) as [[[] w2]| |].
Qed.

Lemma push_front_sim frames a src ufd : forall c w ps l, cache_rep frames c ps l -> Z.of_nat (length l) < frames -> a ∉ page_addr <$> l ->
  match page_of_src a src ufd w with
  | Ok (x, w') => exists c' ps', push_front a src ufd (c, w) = Ok (tt, (c', w')) /\ cache_rep frames c' ps' (x :: l)
  | UB f => push_front a src ufd (c, w) = UB f
  | Blocked => push_front a src ufd (c, w) = Blocked
  end.
Proof.
  intros c w ps l Hrep Hroom Hna. destruct (page_of_src a src ufd w) as [[x w']|f|] eqn:E; [by eapply push_front_run|..];
    unfold push_front, newQNode, mbind, M_bind, on_world, zoom; cbn [fst snd]; by rewrite E.
Qed.

Lemma reference_miss frames addr src ufd : forall c w ps l, cache_rep frames c ps l -> s64 addr ∉ page_addr <$> l ->
  match (room ← (if Z.of_nat (length l) =? frames then
                match last l with
                | None => on_world w_log_err;; mret false
                | Some x =>
                    r ← on_world (evict_page_of x);
                    if r <? 0 then on_world w_log_err;; on_world w_log_err;; mret false
                    else mmod (fun s => (take (length l - 1) l, s.2));; mret true
                end
              else mret true);
         if room : bool then x ← on_world (page_of_src (s64 addr) src ufd); mmod (fun s => (x :: s.1, s.2)) else mret tt) (l, w) with
  | Ok (_, (l', w')) => exists c' ps', Enqueue (s64 addr) src ufd (c, w) = Ok (tt, (c', w')) /\ cache_rep frames c' ps' l'
  | UB f => Enqueue (s64 addr) src ufd (c, w) = UB f
  | Blocked => Enqueue (s64 addr) src ufd (c, w) = Blocked
  end.
Proof.
  intros c w ps l Hrep Hna. pose proof (cr_count _ _ _ _ Hrep) as [Hco Hle]. pose proof (cr_frames _ _ _ _ Hrep) as [Hfr _].
  assert (HE : Enqueue (s64 addr) src ufd (c, w) = match (if Z.of_nat (length l) =? frames then make_room else mret true) (c, w) with
    | Ok (room, s) => (if room : bool then push_front (s64 addr) src ufd else mret tt) s | UB f => UB f | Blocked => Blocked end).
  { unfold Enqueue. rewrite (run_bind _ _ _ (cache_queue c) (c, w)) by done. unfold AreAllFramesFull. by rewrite Hco, Hfr. }
  rewrite HE. clear HE. unfold mbind, M_bind. destruct (Z.eqb_spec (Z.of_nat (length l)) frames) as [Hfull|Hnot].
  2:{ pose proof (push_front_sim frames (s64 addr) src ufd c w ps l Hrep ltac:(lia) Hna) as Hp.
      unfold mret, M_ret, on_world, zoom. cbn [fst snd]. by destruct (page_of_src (s64 addr) src ufd w) as [[x w']| |]. }
  destruct (exists_last_or_nil l) as [->|(l1 & x & ->)].
  - cbn [last]. destruct ps as [|p ps]; [|destruct (cr_links _ _ _ _ Hrep)].
    rewrite (make_room_none _ _ _ _ Hrep eq_refl). unfold mbind, M_bind, on_world, zoom. cbn [fst snd].
    destruct (w_log_err w) as [[[] w1]| |]; [|done|done]. by exists c, [].
  - rewrite last_snoc. destruct (exists_last_or_nil ps) as [->|(ps1 & y & ->)].
    { pose proof (dseg_length _ _ _ _ _ (cr_links _ _ _ _ Hrep)) as Hl. rewrite length_app in Hl. simpl in Hl. lia. }
    pose proof (make_room_evict _ c w ps1 y l1 x Hrep) as Hev.
    pose proof (fun r w1 => make_room_run _ c w w1 r ps1 y l1 x Hrep) as Hrun. unfold on_world, zoom. cbn [fst snd].
    destruct (evict_page_of x w) as [[r w1]| |]; [|by rewrite Hev..].
    specialize (Hrun r w1 eq_refl). destruct (Z.ltb_spec r 0) as [Hr|Hr].
    + rewrite (Hev Hr). unfold mbind, M_bind, on_world, zoom, mret, M_ret. cbn [fst snd].
      destruct (w_log_err w1) as [[[] w2]| |]; [|done|done]. cbn [fst snd].
      destruct (w_log_err w2) as [[[] w3]| |]; [|done|done]. by exists c, (ps1 ++ [y]).
    + destruct (Hrun Hr) as (c1 & E1 & Hrep1). rewrite E1. rewrite length_app in *. simpl in *.
      replace (length l1 + 1 - 1)%nat with (length l1) by lia. rewrite take_app_length.
      pose proof (push_front_sim frames (s64 addr) src ufd c1 w1 ps1 l1 Hrep1 ltac:(lia)) as Hp.
      rewrite fmap_app in Hna. specialize (Hp ltac:(intros ?; apply Hna, elem_of_app; by left)).
      by destruct (page_of_src (s64 addr) src ufd w1) as [[z w']| |].
Qed.

Lemma ReferencePage_sim frames addr src ufd : simulates frames (ReferencePage addr src ufd) (lru_ref frames addr src ufd).
Proof.
  intros c w ps l Hrep. unfold lru_ref. rewrite (run_bind _ _ (l, w) l (l, w)) by done.
  pose proof (hash_find _ _ _ (s64 addr) (cr_hash _ _ _ _ Hrep)) as [Hmiss Hhit].
  pose proof (cr_links _ _ _ _ Hrep) as Hli. pose proof (dseg_length _ _ _ _ _ Hli) as Hlen. rewrite zip_fst in Hmiss by done.
  unfold ReferencePage. destruct (list_find _ l) as [[i x]|] eqn:Ef.
  - apply list_find_Some in Ef as (Hi & Hx & _). destruct (dseg_split _ _ _ _ _ Hli Hi) as (ps1 & p & ps2 & Hps & Hl1 & Hin).
    rewrite Hx in Hin. rewrite (run_bind _ _ _ p (c, w)).
    2:{ unfold in_hash, zoom. cbn [fst snd]. rewrite (Hhit p Hin). by destruct c. }
    pose proof (cr_nodup _ _ _ _ Hrep) as [_ Hnn]. rewrite decide_False by (intros ->; apply Hnn; rewrite Hps; apply elem_of_app; right; by left).
    rewrite (run_bind _ _ _ (cache_queue c) (c, w)) by done. pose proof (cr_ends _ _ _ _ Hrep) as [Efr _]. rewrite Efr.
    assert (Hl : l = take i l ++ x :: drop (S i) l) by (by rewrite take_drop_middle).
    unfold mmod. cbn [snd]. rewrite (delete_take_drop l i). destruct (exists_last_or_nil ps1) as [->|(ps0 & y & ->)].
    + cbn [app] in Hps. subst ps. rewrite decide_True by done. exists c, (p :: ps2). split; [done|]. simpl in Hl1. subst i.
      destruct l as [|x' l]; [done|]. injection Hi as ->. by rewrite drop_0 || done.
    + rewrite decide_False.
      * rewrite Hps, Hl in Hrep. destruct (move_to_front_run _ _ w _ _ _ _ _ _ _ Hrep) as (c' & E & Hr'); [|by eexists _, _].
        rewrite length_take_le by (apply lookup_lt_Some in Hi; lia). rewrite length_app in Hl1. simpl in Hl1. lia.
      * pose proof (cr_nodup _ _ _ _ Hrep) as [Hnd _]. rewrite Hps in Hnd |- *. intros E. rewrite E in Hnd.
        apply NoDup_app in Hnd as (_ & Hn & _). destruct ps0; apply (Hn _ (ltac:(by left))); by left.
  - apply list_find_None in Ef. assert (Hna : s64 addr ∉ page_addr <$> l).
    { intros (x & Hx & Hin)%list_elem_of_fmap. rewrite Forall_forall in Ef. by apply (Ef x). }
    rewrite (run_bind _ _ _ NULL (c, w)) by (unfold in_hash, zoom; cbn [fst snd]; rewrite Hmiss by done; by destruct c).
    rewrite decide_True by done. by apply (reference_miss frames addr src ufd c w ps l).
Qed.

Lemma simulates_iter {A} frames (code : A -> M (lru_cache * world) unit) (spec : A -> M (list lru_page * world) unit) :
  (forall x, simulates frames (code x) (spec x)) -> forall xs, simulates frames (miter code xs) (miter spec xs).
Proof.
  intros H xs. induction xs as [|x xs IH]; intros c w ps l Hrep; [by exists c, ps|]. cbn [miter]. unfold mbind, M_bind.
  specialize (H x c w ps l Hrep). destruct (spec x (l, w)) as [[[] [l1 w1]]| |]; [|by rewrite H..].
  destruct H as (c1 & ps1 & E & Hrep1). rewrite E. by apply (IH c1 w1 ps1 l1).
Qed.

Lemma new_cache_rep frames cap : 0 <= frames < 2 ^ 32 -> 0 < cap < 2 ^ 31 -> cache_rep frames (new_cache frames cap) [] [].
Proof.
  intros Hf Hc. split; cbn [new_cache createQueue createHash cache_queue cache_hash qnodes hnodes numberOfFrames count front rear length fmap list_fmap zip_with].
  - unfold u32. rewrite Z.mod_small by lia. done.
  - lia.
  - done.
  - done.
  - split; [constructor|apply not_elem_of_nil].
  - intros p [? E]. by rewrite lookup_empty in E.
  - exists (replicate (Z.to_nat cap) []).
    assert (Hcc : concat (replicate (Z.to_nat cap) (@nil (ptr * (Z * ptr)))) = []) by (induction (Z.to_nat cap); [done|done]).
    split; [|rewrite Hcc; split; [done|constructor]]. split; unfold createHash; cbn [capacity array]; rewrite ?Hcc.
    + done.
    + by rewrite !length_replicate.
    + intros i p ch [-> _]%lookup_replicate [-> _]%lookup_replicate. done.
    + constructor.
    + intros p. rewrite lookup_empty. split; [by intros [? ?]|by intros ?%elem_of_nil].
    + intros i ch a [-> _]%lookup_replicate Ha. by apply elem_of_nil in Ha.
Qed.

(** C25: the linked cache is a list of pages in the order of their last use.  Whatever pages
    are referenced, the pointer code ends exactly as the list does: a page that is there
    moves to the front, a new one is put in front, and a full cache first evicts the page
    used longest ago and drops it, unless the eviction fails, in which case nothing
    changes.  Afterwards queue and hash table again hold exactly the pages of the list,
    with every link right, no node lost, and at most as many as there are frames. *)
Theorem lrucache_refines frames cap (reqs : list (Z * ptr * Z)) w (Hf : 0 <= frames < 2 ^ 31) (Hc : 0 < cap < 2 ^ 31) :
  match miter (fun r => lru_ref frames r.1.1 r.1.2 r.2) reqs ([], w) with
  | Ok (_, (l, w')) => exists c ps,
      miter (fun r => ReferencePage r.1.1 r.1.2 r.2) reqs (new_cache frames cap, w) = Ok (tt, (c, w')) /\ cache_rep frames c ps l
  | UB f => miter (fun r => ReferencePage r.1.1 r.1.2 r.2) reqs (new_cache frames cap, w) = UB f
  | Blocked => miter (fun r => ReferencePage r.1.1 r.1.2 r.2) reqs (new_cache frames cap, w) = Blocked
  end.
Proof.
  apply (simulates_iter frames (fun r => ReferencePage r.1.1 r.1.2 r.2) (fun r => lru_ref frames r.1.1 r.1.2 r.2)) with (ps := []).
  - intros r. apply ReferencePage_sim.
  - apply new_cache_rep; lia.
Qed.
End queue.
