(* ===== verification/PrefetchThread.v ===== *)
(** The thread that reads the pages of the prefetch list into the page cache,
    [prefetch_thread] of [lib/userfault/userfault.c], and the fault handler that waits for it.

    As the write thread it loops for ever and is cut where other threads can run: what
    happens under [list_lock] is one step, and so are the call of the backend, the update
    of the page cache under [pagecache_lock], and the release of a waiting handler.  The
    local arrays that the backend fills start with whatever is on the stack, which is an argument. *)
From S2P Require Import Prelude Config MonitorStats Os LruBuffer UtHash ExternRam ThreadedIo Upid.
From S2P Require Import BufferAllocator PageCache World PageCacheRead CachedPages Userfault.

Inductive ppc : Type :=
| PtTop                                          (** before [list_lock] *)
| PtRead (ufd : Z) (keys : list Z)               (** [toPrefetch], before the backend is called *)
| PtStore (ufd : Z) (keys : list Z) (arrays : list (ptr * Z)) (** before [pagecache_lock] *)
| PtDelete (ufd : Z) (keys : list Z)             (** before the entries are removed *)
| PtPost (waiting : bool)
| PtWait.                                        (** before [sem_wait(&prefetcher_sem)] *)

(** The loop over the list: the descriptor of the first entry, and the addresses of its
    pages as long as the array has room. *)
Fixpoint collect_keys (ps : list ptr) (isFirst : bool) (ufd : Z) (keys : list Z) : M tio (Z * list Z) :=
  match ps with
  | [] => mret (ufd, keys)
  | p :: ps =>
      t ← mget;
      e ← mlift (deref p (prefetch_list t));
      let current := payload e in
      let ufd := if isFirst then p_ufd current else ufd in
      if ((p_ufd current =? ufd) && (Z.of_nat (length keys) <? MAX_MULTI_READ))%bool
      then collect_keys ps false ufd (keys ++ [p_pageaddr current])
      else collect_keys ps false ufd keys
  end.

(** The critical section at the top of a turn. *)
Definition select_prefetch : M tio (option (Z * list Z)) :=
  size ← get_prefetch_list_size;
  if 0 <? size then
    t ← mget;
    r ← collect_keys (HASH_ITER (prefetch_list t)) true 0 [];
    mmod (fun t => set_waiting (isWriterWaiting t) false (isUfhandlerWaiting t) t);;
    mret (Some r)
  else
    mmod (fun t => set_waiting (isWriterWaiting t) true (isUfhandlerWaiting t) t);;
    mret None.

(** The arguments of a call on the three arrays. *)
Definition with_keys (keys : list Z) (arrays : list (ptr * Z)) : list (Z * ptr * Z) :=
  zip_with (fun k bl => (k, bl.1, bl.2)) keys arrays.

Section thread.
Context `{X : ExternRAM} `{F : BuildFlags}.
Context (stack : nat -> ptr * Z).

Definition read_request (keys : list Z) : list (Z * ptr * Z) := imap (fun i k => (k, (stack i).1, (stack i).2)) keys.
(** The arrays [bufs] and [lengths] after the backend has filled the first entries. *)
Definition filled (keys : list Z) (r : list (ptr * Z)) : list (ptr * Z) :=
  r ++ drop (length r) ((fun x => (req_buf x, x.2)) <$> read_request keys).

(** The message about a descriptor without a client has an argument less than
    conversions. *)
Definition read_prefetch (ufd : Z) (keys : list Z) : M world (list (ptr * Z)) :=
  client ← in_fd (get_client_by_fd ufd);
  if decide (client = NULL) then mub BadFormat
  else r ← in_ext (readPages client (read_request keys)); mret (filled keys r).

(** The second critical section; the result is whether the handler waits. *)
Definition finish_prefetch (ufd : Z) (keys : list Z) : M world bool :=
  miter (fun key => in_tio_dbg (del_prefetch_info ufd key)) keys;;
  mgets (fun w => isUfhandlerWaiting (w_tio w)).

Definition prefetcher_step (pc : ppc) : M world ppc :=
  match pc with
  | PtTop =>
      r ← in_tio select_prefetch;
      mret (match r with Some (ufd, keys) => PtRead ufd keys | None => PtWait end)
  | PtRead ufd keys => arrays ← read_prefetch ufd keys; mret (PtStore ufd keys arrays)
  | PtStore ufd keys arrays => in_pc (storePagesInPageCache ufd (with_keys keys arrays));; mret (PtDelete ufd keys)
  | PtDelete ufd keys => waiting ← finish_prefetch ufd keys; mret (PtPost waiting)
  | PtPost waiting => mwhen waiting (in_tio (sem_post Ufhandler));; mret PtTop
  | PtWait => in_tio (sem_wait Prefetcher);; mret PtTop
  end.

(** The thread running alone for [n] steps. *)
Fixpoint prefetcher_run (n : nat) (pc : ppc) : M world ppc :=
  match n with
  | O => mret pc
  | S n => pc ← prefetcher_step pc; prefetcher_run n pc
  end.
End thread.

(** ** The handler *)

(** [wait_for_prefetch] cut at the same places. *)
Inductive wait_pc : Type :=
| WaCheck (ufd pageaddr : Z)               (** before [list_lock] *)
| WaPost (ufd pageaddr : Z) (waiting : bool)
| WaSem (ufd pageaddr : Z)                 (** before [sem_wait(&ufhandler_sem)] *)
| WaOut.                                   (** past the loop, and in all other code *)

Section handler.
Context `{X : ExternRAM} `{F : BuildFlags}.

Definition wait_step (h : wait_pc) : M world wait_pc :=
  match h with
  | WaCheck ufd pageaddr =>
      waiting ← mgets (fun w => isPrefetcherWaiting (w_tio w));
      found ← in_tio (exist_prefetch_info ufd pageaddr);
      in_tio (mmod (fun t => set_waiting (isWriterWaiting t) (isPrefetcherWaiting t) found t));;
      mret (if found : bool then WaPost ufd pageaddr waiting else WaOut)
  | WaPost ufd pageaddr waiting => mwhen waiting (in_tio (sem_post Prefetcher));; mret (WaSem ufd pageaddr)
  | WaSem ufd pageaddr => in_tio (sem_wait Ufhandler);; mret (WaCheck ufd pageaddr)
  | WaOut => mret WaOut
  end.
End handler.

(** * The prefetch list as a set of pages *)

Definition p_key (x : prefetch_info) : bytes := info_key (p_ufd x) (p_pageaddr x).

(** The table is keyed by the fields of its entries, which are in range, and its size
    is a nonnegative [int]. *)
Record pl_ok (h : uthash prefetch_info) : Prop := {
  pl_keyed : keyed p_key h;
  pl_range : forall k x, get k h = Some x -> is_s32 (p_ufd x) /\ is_u64 (p_pageaddr x);
  pl_small : Z.of_nat (length (HASH_ITER h)) < 2 ^ 31
}.

Definition pl_has (h : uthash prefetch_info) (u a : Z) : Prop := is_Some (HASH_FIND (info_key u a) h).
#[export] Instance pl_has_dec h u a : Decision (pl_has h u a) := _.

Lemma pl_size h : pl_ok h -> s32 (HASH_CNT h) = Z.of_nat (length (HASH_ITER h)).
Proof.
  intros [[[Hok _] _] _ Hs]. unfold HASH_CNT, HASH_ITER, hash_ok in *. destruct (tbl h) as [t|]; [|done].
  rewrite (ok_items _ _ Hok). unfold u32. rewrite Z.mod_small by lia. apply s32_id. unfold is_s32. lia.
Qed.

Lemma pl_has_iter h u a : pl_ok h -> pl_has h u a -> HASH_ITER h <> [].
Proof. intros [[Hwf _] _ _] [p Hp] E. apply find_iff in Hp as [Hp _]; [|done]. rewrite E in Hp. by apply elem_of_nil in Hp. Qed.

(** Removing an entry. *)
Lemma pl_drop_ok h u a p : pl_ok h -> is_s32 u -> is_u64 a -> HASH_FIND (info_key u a) h = Some p ->
  let h' := free_elt p (HASH_DELETE p h) in
  pl_ok h' /\ forall u' a', is_s32 u' -> is_u64 a' -> pl_has h' u' a' <-> ~ (u' = u /\ a' = a) /\ pl_has h u' a'.
Proof.
  intros [Hk Hr Hs] Hu Ha F h'. destruct (keyed_drop p_key h _ p Hk F) as (Hk' & Hget & Hit & _). fold h' in Hk', Hget, Hit.
  split; [split; [done| |]|].
  - intros k x. rewrite Hget. case_decide; [done|]. apply Hr.
  - rewrite Hit. pose proof (length_filter (fun q => q <> p) (HASH_ITER h)). lia.
  - intros u' a' Hu' Ha'. unfold pl_has.
    assert (Hg : forall h0 k, keyed p_key h0 -> is_Some (HASH_FIND k h0) <-> is_Some (get k h0)).
    { intros h0 k H0. rewrite !is_Some_alt. destruct (HASH_FIND k h0) as [q|] eqn:E.
      - destruct (get_find p_key h0 k q H0 E) as (e & _ & ->). done.
      - by rewrite (proj2 (get_None p_key h0 k H0) E). }
    rewrite !Hg, Hget by done. case_decide as D.
    + apply info_key_inj in D as [-> ->]; try done. split; [by intros [? ?]|]. intros [H _]. by destruct H.
    + split; [intros H; split; [|done]; by intros [-> ->]|by intros [_ H]].
Qed.

(** ** What a turn takes *)

Definition pf_first (es : list prefetch_info) : Z := default 0 (p_ufd <$> head es).
(** The pages of the first entry's descriptor, at most as many as one read can take. *)
Definition pf_wanted (es : list prefetch_info) : list Z :=
  p_pageaddr <$> take (Z.to_nat MAX_MULTI_READ) (filter (fun x => p_ufd x = pf_first es) es).

Definition pf_taken (n : nat) (ufd : Z) (es : list prefetch_info) : list Z :=
  p_pageaddr <$> take (Z.to_nat MAX_MULTI_READ - n) (filter (fun x => p_ufd x = ufd) es).

Lemma collect_keys_run ps t : hash_ok (prefetch_list t) -> (forall p, p ∈ ps -> p ∈ HASH_ITER (prefetch_list t)) ->
  forall (isFirst : bool) ufd keys,
  let es := omap (fun p => payload <$> elts (prefetch_list t) !! p) ps in
  let ufd' := if isFirst then default ufd (p_ufd <$> head es) else ufd in
  collect_keys ps isFirst ufd keys t = Ok ((ufd', keys ++ pf_taken (length keys) ufd' es), t).
Proof.
  intros Hok. induction ps as [|p ps IH]; intros Hin isFirst ufd keys; cbn zeta.
  { unfold pf_taken. cbn. rewrite take_nil. cbn. rewrite app_nil_r. by destruct isFirst. }
  destruct (iter_elt (prefetch_list t) p Hok) as [e He]; [apply Hin; by left|].
  cbn [collect_keys omap list_omap]. rewrite He. cbn [fmap option_fmap option_map head default].
  unfold mbind, M_bind, mget, mlift, deref. rewrite He. cbn beta iota zeta.
  set (ufd' := if isFirst then p_ufd (payload e) else ufd).
  specialize (IH ltac:(intros q Hq; apply Hin; by right) false ufd'). cbn zeta in IH. cbn iota in IH. unfold pf_taken.
  rewrite filter_cons. destruct (Z.eqb_spec (p_ufd (payload e)) ufd') as [Heq|Hne]; cbn [andb].
  - rewrite decide_True by done. destruct (Z.ltb_spec (Z.of_nat (length keys)) MAX_MULTI_READ) as [Hlt|Hge].
    + rewrite IH. rewrite <- app_assoc. do 3 f_equal. unfold pf_taken. rewrite length_app. cbn [length app].
      replace (Z.to_nat MAX_MULTI_READ - length keys)%nat with (S (Z.to_nat MAX_MULTI_READ - (length keys + 1))) by lia. done.
    + rewrite IH. unfold pf_taken. by replace (Z.to_nat MAX_MULTI_READ - length keys)%nat with O by lia.
  - rewrite decide_False by done. apply IH.
Qed.

Definition no_prefetcher (b : bool) (t : tio) : tio := set_waiting (isWriterWaiting t) b (isUfhandlerWaiting t) t.

Lemma select_prefetch_run t : pl_ok (prefetch_list t) ->
  select_prefetch t =
    if decide (HASH_ITER (prefetch_list t) = []) then Ok (None, no_prefetcher true t)
    else Ok (Some (pf_first (entries (prefetch_list t)), pf_wanted (entries (prefetch_list t))), no_prefetcher false t).
Proof.
  intros Hok. unfold select_prefetch, get_prefetch_list_size, mbind, M_bind, mgets, mget. rewrite (pl_size _ Hok).
  destruct (decide (HASH_ITER (prefetch_list t) = [])) as [E|E]; [by rewrite E|].
  destruct (Z.ltb_spec 0 (Z.of_nat (length (HASH_ITER (prefetch_list t))))) as [_|Hn].
  2:{ destruct (HASH_ITER (prefetch_list t)); [done|]. cbn in Hn. lia. }
  rewrite (collect_keys_run _ t); [|apply Hok|done]. fold (entries (prefetch_list t)). cbn [length app]. unfold pf_taken.
  rewrite Nat.sub_0_r. done.
Qed.

(** Removing the entries of a turn. *)
Lemma del_prefetch_run u keys : is_s32 u -> forall t d, pl_ok (prefetch_list t) -> NoDup keys ->
  (forall a, a ∈ keys -> is_u64 a /\ pl_has (prefetch_list t) u a) ->
  exists h', miter (del_prefetch_info u) keys (t, d) = Ok (tt, (set_prefetch_list h' t, d)) /\ pl_ok h' /\
    forall u' a', is_s32 u' -> is_u64 a' -> pl_has h' u' a' <-> ~ (u' = u /\ a' ∈ keys) /\ pl_has (prefetch_list t) u' a'.
Proof.
  intros Hu. induction keys as [|a keys IH]; intros t d Hok Hnd Hin.
  - exists (prefetch_list t). split; [by destruct t|]. split; [done|]. intros u' a' _ _. set_solver.
  - apply NoDup_cons in Hnd as [Hna Hnd]. destruct (Hin a) as [Ha [p Fd]]; [by left|].
    destruct (pl_drop_ok (prefetch_list t) u a p Hok Hu Ha Fd) as [Hok1 Hg1].
    set (h1 := free_elt p (HASH_DELETE p (prefetch_list t))) in *.
    destruct (IH (set_prefetch_list h1 t) d Hok1 Hnd) as (h' & E & Hok' & Hg).
    { intros b Hb. destruct (Hin b) as [? ?]; [by right|]. split; [done|]. cbn. apply Hg1; [done|done|].
      split; [|done]. by intros [_ ->]. }
    exists h'. split; [|split; [done|]].
    + cbn [miter]. unfold mbind, M_bind, del_prefetch_info. cbn [fst snd]. rewrite Fd. exact E.
    + intros u' a' Hu' Ha'. rewrite Hg by done. cbn. rewrite Hg1 by done. rewrite elem_of_cons. tauto.
Qed.

Lemma entries_has h x : pl_ok h -> x ∈ entries h -> is_s32 (p_ufd x) /\ is_u64 (p_pageaddr x) /\ pl_has h (p_ufd x) (p_pageaddr x).
Proof.
  intros [Hk Hr _] Hx. apply (elem_of_entries p_key) in Hx; [|done]. destruct (Hr _ _ Hx). split; [done|]. split; [done|].
  unfold pl_has. change (info_key (p_ufd x) (p_pageaddr x)) with (p_key x). unfold get in Hx.
  destruct (HASH_FIND (p_key x) h) as [p|]; [by eexists|done].
Qed.

Lemma pf_wanted_has h : pl_ok h -> forall a, a ∈ pf_wanted (entries h) -> is_u64 a /\ pl_has h (pf_first (entries h)) a.
Proof.
  intros Hok a (x & -> & Hx%elem_of_take_list)%list_elem_of_fmap. apply list_elem_of_filter in Hx as [E Hx].
  destruct (entries_has h x Hok Hx) as (_ & H1 & H2). rewrite <- E. done.
Qed.

Lemma pf_wanted_NoDup h : pl_ok h -> NoDup (pf_wanted (entries h)).
Proof.
  intros Hok. unfold pf_wanted. set (es := entries h). set (u := pf_first es).
  assert (Hnd : NoDup (p_key <$> take (Z.to_nat MAX_MULTI_READ) (filter (fun x => p_ufd x = u) es))).
  { rewrite fmap_take. eapply sublist_NoDup; [|apply sublist_take]. apply NoDup_fmap_filter, keyed_NoDup, Hok. }
  assert (Hu : forall x, x ∈ take (Z.to_nat MAX_MULTI_READ) (filter (fun x => p_ufd x = u) es) -> p_ufd x = u).
  { intros x Hx%elem_of_take_list. by apply list_elem_of_filter in Hx as [? _]. }
  revert Hnd Hu. generalize (take (Z.to_nat MAX_MULTI_READ) (filter (fun x => p_ufd x = u) es)). intros l.
  induction l as [|x l IH]; intros Hnd Hu; [constructor|]. rewrite fmap_cons in Hnd. rewrite fmap_cons. apply NoDup_cons in Hnd as [Hx Hnd].
  apply NoDup_cons. split; [|apply IH; [done|intros y Hy; apply Hu; by right]].
  intros (y & E & Hy)%list_elem_of_fmap. apply Hx, list_elem_of_fmap. exists y. split; [|done].
  unfold p_key. rewrite E, (Hu x), (Hu y); [done|by right|by left].
Qed.

Lemma pf_first_s32 h : pl_ok h -> is_s32 (pf_first (entries h)).
Proof.
  intros Hpl. unfold pf_first. destruct (entries h) as [|x l] eqn:E; [by unfold is_s32; cbn; lia|]. cbn.
  destruct (entries_has h x Hpl) as [? _]; [rewrite E; by left|done].
Qed.

(** * A turn of the thread *)

Section turn.
Context {OSI : OS} {OL : OSLaws OSI} {X : ExternRAM} {F : BuildFlags}.
Context (stack : nat -> ptr * Z).
Implicit Types (w : world).

Lemma del_loop_lift u keys w : miter (fun key => in_tio_dbg (del_prefetch_info u key)) keys w =
  in_tio_dbg (miter (del_prefetch_info u) keys) w.
Proof.
  revert w. induction keys as [|k keys IH]; intros w.
  - unfold in_tio_dbg, zoom. cbn. destruct w as [[] ]. done.
  - cbn [miter]. unfold mbind, M_bind, in_tio_dbg at 1, zoom at 1.
    unfold in_tio_dbg, zoom in IH. unfold in_tio_dbg, zoom.
    destruct (del_prefetch_info u k (w_tio w, s_dbg (w_sys w))) as [[[] td]| |]; [|done|done]. rewrite IH. cbn.
    replace (td.1, td.2) with td by by destruct td. destruct (miter (del_prefetch_info u) keys td) as [[[] [t d]]| |]; done.
Qed.

Lemma read_step_run w u keys ms r e s : fdmap_ok (w_fd w) -> find_fd u (fdUpidMap (w_fd w)) = Some ms -> m_client ms <> NULL ->
  readPages (m_client ms) (read_request stack keys) (w_ext w, w_sys w) = Ok (r, (e, s)) -> length r = length keys ->
  prefetcher_step stack (PtRead u keys) w = Ok (PtStore u keys r, set_ext (e, s) w).
Proof.
  intros Hfd Hms Hn Hread Hlen. unfold prefetcher_step, read_prefetch, mbind, M_bind, in_fd at 1, zoom at 1.
  rewrite get_client_by_fd_run, Hms by done. rewrite decide_False by done.
  unfold in_ext, zoom. cbn [w_ext w_sys set_fd]. rewrite Hread. unfold mret, M_ret, filled.
  rewrite drop_ge, app_nil_r by (rewrite length_fmap; unfold read_request; rewrite length_imap; lia). done.
Qed.

(** What the thread leaves alone, and what it has done for the pages [keys] of [u]. *)
Record prefetched (u : Z) (keys : list Z) (pages : list (Z * ptr * Z)) w (e : ext) (s : sys) w' : Prop := {
  pf_listed : pl_ok (prefetch_list (w_tio w'));
  pf_gone : forall u' a, is_s32 u' -> is_u64 a -> pl_has (prefetch_list (w_tio w')) u' a <->
    ~ (u' = u /\ a ∈ keys) /\ pl_has (prefetch_list (w_tio w)) u' a;
  pf_cache : pc_inv (w_pc w') (w_os w');
  pf_pages : pageCache (w_pc w') = take (Z.to_nat (pc_max_num_items (w_pc w))) (page_nodes u pages ++ pageCache (w_pc w));
  pf_blocks : forall n, n ∈ pageCache (w_pc w') -> buf_page (w_os w') (pn_address n) = buf_page (s_os s) (pn_address n);
  pf_owner : forall h fd, is_u64 h -> is_s32 fd -> owner (w_pc w') h fd =
    if decide ((h, fd) ∈ pn_key <$> pageCache (w_pc w')) then Some OWNERSHIP_PAGE_CACHE
    else if decide ((h, fd) ∈ pn_key <$> page_nodes u pages ++ pageCache (w_pc w)) then Some OWNERSHIP_EXTERNRAM
    else owner (w_pc w) h fd;
  pf_release : ufhandler_sem (w_tio w') = ufhandler_sem (w_tio w) + (if isUfhandlerWaiting (w_tio w) then 1 else 0);
  pf_rest : w_lru w' = w_lru w /\ w_fd w' = w_fd w /\ w_ext w' = e /\ s_dbg (w_sys w') = s_dbg s /\
    write_list (w_tio w') = write_list (w_tio w) /\ same_app (s_os s) (w_os w')
}.

(** C13: one turn of the prefetch thread does what was asked of it.  It takes the pages of the
    descriptor asked for first, at most as many as one read can take; if the backend delivers them
    in blocks of their own, then after five steps the thread is back at its start, exactly these
    pages have left the list, they are in front of the page cache with the contents
    delivered, pages beyond the size of the cache belong to external memory again, and a
    handler that waited has been released. *)
Theorem prefetch_turn w c ms r e s
    (Hpl : pl_ok (prefetch_list (w_tio w))) (Hne : HASH_ITER (prefetch_list (w_tio w)) <> [])
    (Hfd : fdmap_ok (w_fd w)) (Hms : find_fd (pf_first (entries (prefetch_list (w_tio w)))) (fdUpidMap (w_fd w)) = Some ms)
    (Hc : m_client ms = c) (Hnull : c <> NULL)
    (Hread : readPages c (read_request stack (pf_wanted (entries (prefetch_list (w_tio w))))) (w_ext w, w_sys w) = Ok (r, (e, s)))
    (Hlen : length r = length (pf_wanted (entries (prefetch_list (w_tio w)))))
    (Hpc : pc_inv (w_pc w) (s_os s))
    (Hgot : to_store (pf_first (entries (prefetch_list (w_tio w))))
              (with_keys (pf_wanted (entries (prefetch_list (w_tio w)))) r) (w_pc w) (s_os s)) :
  let u := pf_first (entries (prefetch_list (w_tio w))) in
  let keys := pf_wanted (entries (prefetch_list (w_tio w))) in
  exists w', prefetcher_run stack 5 PtTop w = Ok (PtTop, w') /\ prefetched u keys (with_keys keys r) w e s w'.
Proof.
  cbn zeta. set (h := prefetch_list (w_tio w)) in *. set (u := pf_first (entries h)) in *. set (keys := pf_wanted (entries h)) in *.
  assert (Hu : is_s32 u) by by apply pf_first_s32.
  set (w1 := set_tio (no_prefetcher false (w_tio w)) w).
  assert (E1 : prefetcher_step stack PtTop w = Ok (PtRead u keys, w1)).
  { unfold prefetcher_step, mbind, M_bind, in_tio, zoom. rewrite select_prefetch_run by done. by rewrite decide_False. }
  set (w2 := set_ext (e, s) w1).
  assert (E2 : prefetcher_step stack (PtRead u keys) w1 = Ok (PtStore u keys r, w2)).
  { subst c. by apply (read_step_run w1 u keys ms r e s). }
  destruct (storePages_run u (with_keys keys r) Hu (w_pc w) s Hpc Hgot) as (c3 & s3 & E3 & I3 & L3 & D3 & O3 & M3 & A3 & B3).
  set (w3 := set_pc (c3, s3) w2).
  assert (E3' : prefetcher_step stack (PtStore u keys r) w2 = Ok (PtDelete u keys, w3)).
  { unfold prefetcher_step, mbind, M_bind, in_pc, zoom. change (w_pc w2, w_sys w2) with (w_pc w, s). by rewrite E3. }
  destruct (del_prefetch_run u keys Hu (w_tio w1) (s_dbg s3)) as (h4 & E4 & Hok4 & Hg4);
    [done|by apply pf_wanted_NoDup|by apply pf_wanted_has|].
  set (w4 := set_tio_dbg (set_prefetch_list h4 (w_tio w1), s_dbg s3) w3).
  assert (E4' : prefetcher_step stack (PtDelete u keys) w3 = Ok (PtPost (isUfhandlerWaiting (w_tio w)), w4)).
  { unfold prefetcher_step, finish_prefetch, mbind, M_bind. rewrite del_loop_lift. unfold in_tio_dbg, zoom.
    change (w_tio w3) with (w_tio w1). change (s_dbg (w_sys w3)) with (s_dbg s3). rewrite E4. done. }
  set (w5 := if isUfhandlerWaiting (w_tio w) then set_tio (sem_set Ufhandler (ufhandler_sem (w_tio w) + 1) (w_tio w4)) w4 else w4).
  assert (E5 : prefetcher_step stack (PtPost (isUfhandlerWaiting (w_tio w))) w4 = Ok (PtTop, w5)) by (unfold w5; by destruct (isUfhandlerWaiting _)).
  exists w5. split.
  { cbn [prefetcher_run]. rewrite (run_bind _ _ _ _ _ E1), (run_bind _ _ _ _ _ E2), (run_bind _ _ _ _ _ E3'), (run_bind _ _ _ _ _ E4'), (run_bind _ _ _ _ _ E5). done. }
  assert (Hblk : forall n, n ∈ pageCache c3 -> buf_page (s_os s3) (pn_address n) = buf_page (s_os s) (pn_address n)).
  { intros n Hn. apply B3. rewrite elem_of_difference, !elem_of_list_to_set. intros [_ H]. apply H. by apply list_elem_of_fmap_2. }
  unfold w5. destruct (isUfhandlerWaiting (w_tio w)) eqn:Ew; (split; cbn; [done..|rewrite ?Ew; lia|done]).
Qed.
End turn.

(** * The handler and the thread together *)

Section together.
Context `{X : ExternRAM} `{F : BuildFlags}.
Context (stack : nat -> ptr * Z).
Implicit Types (w : world) (h : wait_pc) (p : ppc).

(** Code of the handler outside the loop: it may add entries and wake the thread. *)
Record outside w w' : Prop := {
  os_list : pl_ok (prefetch_list (w_tio w'));
  os_flag : isPrefetcherWaiting (w_tio w') = isPrefetcherWaiting (w_tio w);
  os_sem : prefetcher_sem (w_tio w) <= prefetcher_sem (w_tio w');
  os_uf : 0 <= ufhandler_sem (w_tio w')
}.

(** Code of the other threads: it may wake the handler. *)
Record elsewhere w w' : Prop := {
  el_list : prefetch_list (w_tio w') = prefetch_list (w_tio w);
  el_flags : isPrefetcherWaiting (w_tio w') = isPrefetcherWaiting (w_tio w) /\
             isUfhandlerWaiting (w_tio w') = isUfhandlerWaiting (w_tio w);
  el_sem : prefetcher_sem (w_tio w') = prefetcher_sem (w_tio w);
  el_uf : ufhandler_sem (w_tio w) <= ufhandler_sem (w_tio w')
}.

Inductive pstep : wait_pc * ppc * world -> wait_pc * ppc * world -> Prop :=
| ps_thread h p w p' w' : prefetcher_step stack p w = Ok (p', w') -> pstep (h, p, w) (h, p', w')
| ps_handler h p w h' w' : wait_step h w = Ok (h', w') -> pstep (h, p, w) (h', p, w')
| ps_fault p w u a : is_s32 u -> is_u64 a -> pstep (WaOut, p, w) (WaCheck u a, p, w)
| ps_outside p w w' : outside w w' -> pstep (WaOut, p, w) (WaOut, p, w')
| ps_elsewhere h p w w' : elsewhere w w' -> pstep (h, p, w) (h, p, w').

(** The state in which the monitor starts its threads. *)
Definition wait_start w : Prop :=
  pl_ok (prefetch_list (w_tio w)) /\ 0 <= prefetcher_sem (w_tio w) /\ 0 <= ufhandler_sem (w_tio w).

(** What the thread has taken from the list are addresses. *)
Definition pages_ok p : Prop :=
  match p with
  | PtRead u keys | PtStore u keys _ | PtDelete u keys => is_s32 u /\ Forall is_u64 keys
  | _ => True
  end.

(** Somebody is about to release a handler that waits for the page [a] of [u]; [b] is
    whether the handler itself will wake the thread first. *)
Definition covered (u a : Z) (b : bool) p w : Prop :=
  0 < ufhandler_sem (w_tio w) \/ p = PtPost true \/
  (pl_has (prefetch_list (w_tio w)) u a /\ isUfhandlerWaiting (w_tio w) = true /\
   (p = PtWait -> 0 < prefetcher_sem (w_tio w) \/ b = true)).

Record wait_inv (st : wait_pc * ppc * world) : Prop := {
  wi_list : pl_ok (prefetch_list (w_tio st.2));
  wi_sems : 0 <= prefetcher_sem (w_tio st.2) /\ 0 <= ufhandler_sem (w_tio st.2);
  wi_pages : pages_ok st.1.2;
  wi_flag : st.1.2 = PtWait -> isPrefetcherWaiting (w_tio st.2) = true;
  wi_wait : match st.1.1 with
            | WaPost u a b => is_s32 u /\ is_u64 a /\ covered u a b st.1.2 st.2
            | WaSem u a => is_s32 u /\ is_u64 a /\ covered u a false st.1.2 st.2
            | WaCheck u a => is_s32 u /\ is_u64 a
            | WaOut => True
            end
}.

(** Reading and storing do not touch the lists and semaphores. *)
Lemma read_prefetch_tio u keys w r w' : read_prefetch stack u keys w = Ok (r, w') -> w_tio w' = w_tio w.
Proof.
  unfold read_prefetch. intros (c & w1 & (m & _ & ->)%zoom_run & E)%bind_run. case_decide; [done|].
  apply bind_run in E as (bufs & w2 & (es & _ & ->)%zoom_run & [= _ <-]). done.
Qed.

Lemma del_keeps u keys : is_s32 u -> Forall is_u64 keys -> forall t d t' d', pl_ok (prefetch_list t) ->
  miter (del_prefetch_info u) keys (t, d) = Ok (tt, (t', d')) ->
  pl_ok (prefetch_list t') /\ isPrefetcherWaiting t' = isPrefetcherWaiting t /\ isUfhandlerWaiting t' = isUfhandlerWaiting t /\
  prefetcher_sem t' = prefetcher_sem t /\ ufhandler_sem t' = ufhandler_sem t.
Proof.
  intros Hu. induction keys as [|a keys IH]; intros Hk t d t' d' Hok E; [by injection E as <- <-|].
  apply Forall_cons in Hk as [Ha Hk]. cbn [miter] in E. apply bind_run in E as ([] & [t1 d1] & E1 & E).
  unfold del_prefetch_info in E1. cbn [fst snd] in E1. destruct (HASH_FIND (info_key u a) (prefetch_list t)) as [q|] eqn:Fd.
  - injection E1 as <- <-. destruct (pl_drop_ok _ u a q Hok Hu Ha Fd) as [Hok1 _].
    exact (IH Hk (drop_prefetch_info q t) d t' d' Hok1 E).
  - destruct (log_err d) as [[? d2]| |]; [|done|done]. injection E1 as <- <-. by apply (IH Hk t d2 t' d').
Qed.

(** The steps a waiting handler still needs of the thread. *)
Definition rank p : nat :=
  match p with
  | PtWait | PtPost false => 6 | PtTop => 5 | PtRead _ _ => 4 | PtStore _ _ _ => 3 | PtDelete _ _ => 2 | PtPost true => 1
  end.

(** To keep the invariant is to keep every waiting handler covered. *)
Lemma wait_inv_mono h p w p' w' : wait_inv (h, p, w) -> pl_ok (prefetch_list (w_tio w')) ->
  0 <= prefetcher_sem (w_tio w') /\ 0 <= ufhandler_sem (w_tio w') -> pages_ok p' ->
  (p' = PtWait -> isPrefetcherWaiting (w_tio w') = true) ->
  (forall u a b, is_s32 u -> is_u64 a -> covered u a b p w -> covered u a b p' w') -> wait_inv (h, p', w').
Proof. intros [_ _ _ _ Hw] H1 H2 H3 H4 H5. split; cbn in *; [done..|]. destruct h; naive_solver. Qed.

(** What a step of the thread does for a handler that waits. *)
Record thread_helps p w p' w' : Prop := {
  th_covered : forall u a b, is_s32 u -> is_u64 a -> covered u a b p w -> covered u a b p' w';
  th_rank : forall u a, is_s32 u -> is_u64 a -> covered u a false p w ->
    0 < ufhandler_sem (w_tio w') \/ (0 < rank p' < rank p)%nat;
  th_list : pl_ok (prefetch_list (w_tio w'));
  th_sems : 0 <= prefetcher_sem (w_tio w') /\ ufhandler_sem (w_tio w) <= ufhandler_sem (w_tio w');
  th_pages : pages_ok p';
  th_flag : p' = PtWait -> isPrefetcherWaiting (w_tio w') = true
}.

Lemma top_helps w p' w' : pl_ok (prefetch_list (w_tio w)) -> 0 <= prefetcher_sem (w_tio w) ->
  prefetcher_step stack PtTop w = Ok (p', w') -> thread_helps PtTop w p' w'.
Proof.
  intros Hl Hs E. cbn [prefetcher_step] in E. apply bind_run in E as (x & w1 & E1 & [= <- <-]).
  apply zoom_run in E1 as (t1 & E1 & ->). rewrite select_prefetch_run in E1 by done.
  destruct (decide (HASH_ITER (prefetch_list (w_tio w)) = [])) as [Hn|Hn]; injection E1 as <- <-.
  - assert (Hc : forall u a b, covered u a b PtTop w -> 0 < ufhandler_sem (w_tio w)).
    { intros u a b [H|[H|(H & _)]]; [done|done|]. by apply pl_has_iter in H. }
    split; cbn; [|intros u a _ _ H; left; by eapply Hc|done|lia|done|done]. intros u a b _ _ H. left. by eapply Hc.
  - pose proof (pf_wanted_has _ Hl) as Hk. pose proof (pf_first_s32 _ Hl) as Hu.
    split; cbn; [|intros; right; lia|done|lia|split; [done|]; apply Forall_forall; intros a Ha; by apply Hk|done].
    intros u a b _ _. unfold covered. cbn. naive_solver.
Qed.

Lemma delete_helps u0 keys w p' w' : pl_ok (prefetch_list (w_tio w)) -> 0 <= prefetcher_sem (w_tio w) ->
  is_s32 u0 -> Forall is_u64 keys ->
  prefetcher_step stack (PtDelete u0 keys) w = Ok (p', w') -> thread_helps (PtDelete u0 keys) w p' w'.
Proof.
  intros Hl Hs Hu Hk E. cbn [prefetcher_step] in E. apply bind_run in E as (x & w1 & E1 & [= <- <-]).
  unfold finish_prefetch in E1. apply bind_run in E1 as ([] & w2 & E1 & [= <- <-]).
  rewrite del_loop_lift in E1. apply zoom_run in E1 as ([t2 d2] & E1 & ->).
  destruct (del_keeps u0 keys Hu Hk _ _ _ _ Hl E1) as (H1 & H2 & H3 & H4 & H5). cbn.
  assert (Hc : forall u a b, covered u a b (PtDelete u0 keys) w -> 0 < ufhandler_sem t2 \/ isUfhandlerWaiting t2 = true).
  { intros u a b [H|[H|(_ & H & _)]]; [left; by rewrite H5|done|right; congruence]. }
  split; cbn; [| |done|lia|done|done].
  - intros u a b _ _ H. apply Hc in H as [H|H]; [by left|]. right. left. by rewrite H.
  - intros u a _ _ H. apply Hc in H as [H|H]; [by left|]. right. rewrite H. lia.
Qed.

Lemma thread_step_helps p w p' w' : pl_ok (prefetch_list (w_tio w)) -> 0 <= prefetcher_sem (w_tio w) ->
  0 <= ufhandler_sem (w_tio w) -> pages_ok p ->
  prefetcher_step stack p w = Ok (p', w') -> thread_helps p w p' w'.
Proof.
  intros Hl Hs Hs2 Hp E. destruct p as [|u0 keys|u0 keys ar|u0 keys|b|]; [by apply top_helps| | |by apply delete_helps; try apply Hp| |];
    cbn [prefetcher_step] in E; apply bind_run in E as (x & w1 & E1 & [= <- <-]).
  - apply read_prefetch_tio in E1. unfold covered. split; unfold covered; rewrite ?E1; [naive_solver|intros; right; cbn; lia|done|lia|done|done].
  - apply zoom_run in E1 as (ps & _ & ->). split; unfold covered; cbn; [naive_solver|intros; right; lia|done|lia|done|done].
  - destruct b; cbn [mwhen] in E1; [apply zoom_run in E1 as (t1 & [= _ <-] & ->)|injection E1 as _ <-].
    + split; unfold covered; cbn; [intros; left; lia|intros; left; lia|done|lia|done|done].
    + split; unfold covered; cbn; [naive_solver|intros u a _ _ _; right; lia|done|lia|done|done].
  - apply zoom_run in E1 as (t1 & E1 & ->). unfold sem_wait in E1. cbn [sem_value] in E1.
    destruct (Z.ltb_spec 0 (prefetcher_sem (w_tio w))) as [H|H]; [|done]. injection E1 as _ <-.
    split; unfold covered; cbn; [naive_solver|intros; right; lia|done|lia|done|done].
Qed.

Lemma wait_step_inv h p w h' w' : wait_inv (h, p, w) -> wait_step h w = Ok (h', w') -> wait_inv (h', p, w').
Proof.
  intros [Hl [Hs1 Hs2] Hp Hf Hw] E. cbn [fst snd] in *. destruct h as [u a|u a b|u a|]; cbn [wait_step] in E.
  - destruct Hw as [Hu Ha]. injection E as <- <-. case_bool_decide as Hb.
    + split; cbn; [done|done|done|done|]. split; [done|]. split; [done|]. right. right. cbn. split; [done|]. split; [done|].
      intros ->. right. by apply Hf.
    + by split.
  - destruct Hw as (Hu & Ha & Hc). apply bind_run in E as ([] & w1 & E1 & [= <- <-]). destruct b; cbn [mwhen] in E1.
    + apply zoom_run in E1 as (t1 & [= <-] & ->). split; cbn; [done|lia|done|done|]. split; [done|]. split; [done|].
      destruct Hc as [H|[H|(H3 & H4 & _)]]; [by left|right; by left|]. right. right. split; [done|]. split; [done|]. intros _. left. cbn. lia.
    + injection E1 as <-. by split.
  - destruct Hw as (Hu & Ha & _). apply bind_run in E as ([] & w1 & E1 & [= <- <-]). apply zoom_run in E1 as (t1 & E1 & ->).
    unfold sem_wait in E1. cbn [sem_value] in E1. destruct (Z.ltb_spec 0 (ufhandler_sem (w_tio w))) as [H|H]; [|done]. injection E1 as <-.
    split; cbn; [done|lia|done|done|done].
  - injection E as <- <-. by split.
Qed.

Lemma pstep_inv st st' : pstep st st' -> wait_inv st -> wait_inv st'.
Proof.
  intros Hst Hi. destruct Hst as [h p w p' w' E|h p w h' w' E|p w u a Hu Ha|p w w' [H1 H2 H3 H4]|h p w w' [H1 [H2 H3] H4 H5]].
  - pose proof Hi as [Hl [Hs1 Hs2] Hp Hf Hw]. destruct (thread_step_helps p w p' w' Hl Hs1 Hs2 Hp E) as [Hc _ Hl' [Hs3 Hs4] Hp' Hf'].
    cbn in Hs2. apply (wait_inv_mono h p w); [done|done|lia|done|done|done].
  - by eapply wait_step_inv.
  - destruct Hi as [Hl Hs Hp Hf _]. by split.
  - destruct Hi as [Hl [Hs1 Hs2] Hp Hf Hw]. cbn in *. split; cbn; [done|lia|done|by rewrite H2|done].
  - pose proof Hi as [Hl [Hs1 Hs2] Hp Hf Hw]. cbn in *. apply (wait_inv_mono h p w); [done|by rewrite H1|lia|done|by rewrite H2|].
    intros u a b _ _. unfold covered. rewrite H1, H3, H4. intros [H|H]; [left; lia|by right].
Qed.

Lemma reachable_inv w0 st : wait_start w0 -> rtc pstep (WaOut, PtTop, w0) st -> wait_inv st.
Proof.
  intros (H1 & H2 & H3) Hr. assert (Hi : wait_inv (WaOut, PtTop, w0)) by (split; by cbn).
  induction Hr as [|x y z Hxy _ IH]; [done|]. apply IH. by eapply pstep_inv.
Qed.

Lemma run_releases u a n : is_s32 u -> is_u64 a -> forall p w p' w', pl_ok (prefetch_list (w_tio w)) ->
  0 <= prefetcher_sem (w_tio w) -> 0 <= ufhandler_sem (w_tio w) -> pages_ok p ->
  covered u a false p w -> (0 < ufhandler_sem (w_tio w) \/ (rank p <= n)%nat) ->
  prefetcher_run stack n p w = Ok (p', w') -> 0 < ufhandler_sem (w_tio w').
Proof.
  intros Hu Ha. induction n as [|n IH]; intros p w p' w' Hl Hs1 Hs2 Hp Hc Hr E; cbn [prefetcher_run] in E.
  - injection E as <- <-. destruct Hr as [Hr|Hr]; [done|]. by destruct p as [| | | |[]|]; cbn in Hr; lia.
  - apply bind_run in E as (p1 & w1 & E1 & E). destruct (thread_step_helps p w p1 w1 Hl Hs1 Hs2 Hp E1) as [T1 T2 T3 [T4 T5] T6 T7].
    apply (IH p1 w1 p' w'); [done|done|lia|done|by apply T1| |done].
    destruct Hr as [Hr|Hr]; [left; lia|]. destruct (T2 u a Hu Ha Hc) as [H|H]; [by left|right; lia].
Qed.

(** C14: no wake-up between the fault handler and the prefetch thread is lost.  However their
    steps, new faults, new requests and the other threads are interleaved, a handler that waits for
    a page on the prefetch list finds its semaphore raised already, or the thread
    is not asleep and raises it within its next six steps. *)
Theorem prefetch_wakes_handler w0 u a p w (Hstart : wait_start w0) (Hreach : rtc pstep (WaOut, PtTop, w0) (WaSem u a, p, w)) :
  0 < ufhandler_sem (w_tio w) \/
  (~ (p = PtWait /\ prefetcher_sem (w_tio w) = 0) /\
   forall p' w', prefetcher_run stack 6 p w = Ok (p', w') -> 0 < ufhandler_sem (w_tio w')).
Proof.
  destruct (reachable_inv _ _ Hstart Hreach) as [Hl [Hs1 Hs2] Hp Hf (Hu & Ha & Hc)]. cbn [fst snd] in *.
  destruct Hc as [H|Hc]; [by left|right]. split.
  - intros [-> H0]. destruct Hc as [H|(_ & _ & H)]; [done|]. destruct (H eq_refl); [lia|done].
  - intros p' w' E. apply (run_releases u a 6 Hu Ha p w p' w'); try done; [by right|]. right.
    destruct p as [| | | |[]|]; cbn; lia.
Qed.

(** The loop of the code is a run of these steps. *)
Fixpoint wait_run (n : nat) (h : wait_pc) : M world wait_pc :=
  match n with O => mret h | S n => h ← wait_step h; wait_run n h end.

Lemma wait_unfold fuel u a w : wait_for_prefetch fuel u a w =
  (h ← wait_step (WaCheck u a);
   match h with
   | WaPost u a b => wait_step (WaPost u a b);; wait_step (WaSem u a);;
       match fuel with O => mub OutOfFuel | S fuel => wait_for_prefetch fuel u a end
   | _ => mret tt
   end) w.
Proof.
  destruct fuel; cbn [wait_for_prefetch wait_step]; unfold mbind, M_bind, in_tio, zoom, exist_prefetch_info, mgets, mmod, mret, M_ret;
    (case_bool_decide; [|done]); destruct (isPrefetcherWaiting (w_tio w)); cbn [mwhen]; unfold sem_post, mmod, sem_wait;
    repeat case_match; simplify_eq; done.
Qed.

(** [wait_for_prefetch] is a run of these steps. *)
Lemma wait_for_prefetch_steps fuel u a w w' : wait_for_prefetch fuel u a w = Ok (tt, w') ->
  exists n, wait_run n (WaCheck u a) w = Ok (WaOut, w').
Proof.
  revert w. induction fuel as [|fuel IH]; intros w E; rewrite wait_unfold in E; apply bind_run in E as (h & w1 & E1 & E).
  all: assert (Hh : h = WaOut \/ exists b, h = WaPost u a b) by
    (cbn in E1; unfold mbind, M_bind, in_tio, zoom, exist_prefetch_info, mgets, mmod in E1; injection E1 as <- _; case_bool_decide; eauto).
  all: destruct Hh as [->|[b ->]]; [injection E as <-; exists 1%nat; cbn [wait_run]; by rewrite (run_bind _ _ _ _ _ E1)|].
  all: apply bind_run in E as (h2 & w2 & E2 & E); apply bind_run in E as (h3 & w3 & E3 & E).
  { done. }
  destruct (IH w3 E) as [n En]. exists (S (S (S n))). cbn [wait_run].
  assert (h2 = WaSem u a) as -> by (cbn in E2; by apply bind_run in E2 as ([] & ? & _ & [= <- _])).
  assert (h3 = WaCheck u a) as -> by (cbn in E3; by apply bind_run in E3 as ([] & ? & _ & [= <- _])).
  rewrite (run_bind _ _ _ _ _ E1), (run_bind _ _ _ _ _ E2), (run_bind _ _ _ _ _ E3). exact En.
Qed.
End together.

(** ** New entries *)

(** Asking for a page is code outside the loop in this sense. *)
Lemma pl_add_ok h u a : pl_ok h -> can_grow h -> is_s32 u -> is_u64 a -> ~ pl_has h u a ->
  Z.of_nat (length (HASH_ITER h)) + 1 < 2 ^ 31 ->
  pl_ok (HASH_ADD (fresh_ptr (elts h)) (info_key u a) (PrefetchInfo u a) h).
Proof.
  intros [Hk Hr Hs] Hg Hu Ha Hn Hlen. set (h' := HASH_ADD _ _ _ _).
  assert (Hnone : get (p_key (PrefetchInfo u a)) h = None).
  { apply (get_None p_key); [done|]. unfold p_key. cbn. destruct (HASH_FIND (info_key u a) h) eqn:E; [|done].
    exfalso. apply Hn. unfold pl_has. rewrite E. by eexists. }
  destruct (keyed_add p_key h (PrefetchInfo u a) Hk Hg Hnone) as (Hk' & Hget & _). split; [done| |].
  - intros k x. unfold h'. rewrite Hget. case_decide; [by intros [= <-]|]. apply Hr.
  - destruct (HASH_ADD_ok h (fresh_ptr (elts h)) (info_key u a) (PrefetchInfo u a)) as [_ Hit];
      [apply Hk|done|apply fresh_not_iter, Hk|]. unfold h'. rewrite Hit, length_app. cbn [length]. lia.
Qed.

Lemma add_prefetch_outside `{X : ExternRAM} u a w : pl_ok (prefetch_list (w_tio w)) -> can_grow (prefetch_list (w_tio w)) ->
  is_s32 u -> is_u64 a -> ~ pl_has (prefetch_list (w_tio w)) u a -> 0 <= ufhandler_sem (w_tio w) ->
  Z.of_nat (length (HASH_ITER (prefetch_list (w_tio w)))) + 1 < 2 ^ 31 ->
  exists w', in_tio (add_prefetch_info u a) w = Ok (tt, w') /\ outside w w'.
Proof.
  intros H1 H2 H3 H4 H5 H6 H7. eexists. split; [reflexivity|]. split; cbn; [by apply pl_add_ok|done|lia|done].
Qed.

(** A page asked for a descriptor without a client: the message about it is undefined. *)
Lemma prefetch_invalid_undefined `{X : ExternRAM} `{F : BuildFlags} stack w :
  pl_ok (prefetch_list (w_tio w)) -> HASH_ITER (prefetch_list (w_tio w)) <> [] -> fdmap_ok (w_fd w) ->
  find_fd (pf_first (entries (prefetch_list (w_tio w)))) (fdUpidMap (w_fd w)) = None ->
  prefetcher_run stack 2 PtTop w = UB BadFormat.
Proof.
  intros Hl Hn Hfd Hc. cbn [prefetcher_run].
  assert (E1 : prefetcher_step stack PtTop w = Ok (PtRead (pf_first (entries (prefetch_list (w_tio w)))) (pf_wanted (entries (prefetch_list (w_tio w)))),
    set_tio (no_prefetcher false (w_tio w)) w)).
  { unfold prefetcher_step, mbind, M_bind, in_tio, zoom. rewrite select_prefetch_run by done. by rewrite decide_False. }
  rewrite (run_bind _ _ _ _ _ E1). unfold prefetcher_step, read_prefetch, mbind, M_bind, in_fd, zoom. cbn [w_fd set_tio].
  rewrite get_client_by_fd_run, Hc by done. by rewrite decide_True.
Qed.
