(* ===== verification/WriteThread.v ===== *)
(** The thread that empties the write list, [write_into_externram_thread] of
    [lib/userfault/userfault.c].

    The thread loops for ever.  Its state between two critical sections is its program
    point and the variable [flushRemaining] that outlives a turn; [writer_step] runs it
    to its next program point.  What happens under [list_lock], the call of the backend,
    and the releases after the lock are one step each. *)
From S2P Require Import Prelude Config MonitorStats Os LruBuffer UtHash ExternRam ThreadedIo Upid.
From S2P Require Import BufferAllocator PageCache World PageCacheRead Userfault.

Definition MAX_MULTI_WRITE : Z := 200.

(** The local arrays of a turn: the descriptor, and for each page its key and buffer. *)
Record batch := Batch { b_ufd : Z; b_pages : list (Z * ptr) }.
Definition b_keys (b : batch) : list Z := (b_pages b).*1.
Definition b_bufs (b : batch) : list ptr := (b_pages b).*2.
Definition b_requests (b : batch) : list (Z * ptr * Z) := (fun kp => (kp, PAGE_SIZE)) <$> b_pages b.

Inductive wpc : Type :=
| WtTop                                                   (** before [list_lock] *)
| WtWrite (b : batch)                                     (** [toWrite], before the backend is called *)
| WtFinish (b : batch) (free_values : bool) (bufs : list ptr) (** before the entries are removed *)
| WtRelease (free_values : bool) (bufs : list ptr) (waiting : bool)
| WtWait.                                                 (** before [sem_wait(&writer_sem)] *)

Record wthread := WThread { flushRemaining : bool; pc : wpc }.
Definition writer_start : wthread := WThread false WtTop.

Definition mark_in_flight (w : write_info) : write_info := WriteInfo (w_ufd w) (w_pageaddr w) (w_page w) true.

(** The loop over the list: the first entry's descriptor, and its pages until the batch
    is full. *)
Fixpoint collect_loop (ps : list ptr) (isFirst : bool) (ufd : Z) (pages : list (Z * ptr))
  : M tio (Z * list (Z * ptr)) :=
  match ps with
  | [] => mret (ufd, pages)
  | p :: ps =>
      t ← mget;
      e ← mlift (deref p (write_list t));
      let current := payload e in
      let ufd := if isFirst then w_ufd current else ufd in
      let numWrite := Z.of_nat (length pages) in
      if ((w_ufd current =? ufd) && (numWrite <? WRITE_BATCH_SIZE))%bool then
        (if MAX_MULTI_WRITE <=? numWrite then mub OutOfBounds else mret tt);;
        mmod (set_write_list (update p mark_in_flight (write_list t)));;
        collect_loop ps false ufd (pages ++ [(w_pageaddr current, w_page current)])
      else collect_loop ps false ufd pages
  end.

(** The critical section at the top of a turn: the batch to write, if any, and the new
    [flushRemaining]. *)
Definition select_batch (flushing : bool) : M tio (option batch * bool) :=
  size ← get_write_list_size;
  t ← mget;
  if ((0 <? size) && ((WRITE_BATCH_SIZE <=? size) || isUfhandlerWaiting t || flushing
                      || flushWriteListNeeded t))%bool then
    '(ufd, pages) ← collect_loop (HASH_ITER (write_list t)) true 0 [];
    mmod (fun t => set_waiting false (isPrefetcherWaiting t) (isUfhandlerWaiting t) t);;
    mret (Some (Batch ufd pages), Z.of_nat (length pages) <? size)
  else
    mwhen (flushWriteListNeeded t) (sem_post FlushedWrite);;
    mmod (fun t => set_waiting true (isPrefetcherWaiting t) (isUfhandlerWaiting t) t);;
    mret (None, flushing).

Section thread.
Context `{X : ExternRAM} `{F : BuildFlags, WF : WriteFuel}.

(** The pages of a descriptor without a client are dropped. *)
Definition write_batch (b : batch) : M world (bool * list ptr) :=
  client ← in_fd (get_client_by_fd (b_ufd b));
  if decide (client = NULL) then mret (true, b_bufs b)
  else in_ext (writePages write_fuel client (b_requests b)).

(** The second critical section; the result is whether the handler waits. *)
Definition finish_batch (b : batch) : M world bool :=
  miter (fun key => in_tio_dbg (del_write_info (b_ufd b) key)) (b_keys b);;
  mgets (fun w => isUfhandlerWaiting (w_tio w)).

Definition release_batch (flushing free_values : bool) (bufs : list ptr) (waiting : bool) : M world unit :=
  mwhen (negb flushing) (in_tio (sem_post FlushedWrite));;
  mwhen free_values (miter (fun p => if decide (p = NULL) then mret tt else free_page_checked p) bufs);;
  mwhen waiting (in_tio (sem_post Ufhandler)).

Definition writer_step (t : wthread) : M world wthread :=
  match pc t with
  | WtTop =>
      '(ob, flushing) ← in_tio (select_batch (flushRemaining t));
      mret (WThread flushing
              (match ob with
               | Some b => WtWrite b
               | None => if flushing then WtTop else WtWait
               end))
  | WtWrite b =>
      '(free_values, bufs) ← write_batch b;
      mret (WThread (flushRemaining t) (WtFinish b free_values bufs))
  | WtFinish b free_values bufs =>
      waiting ← finish_batch b;
      mret (WThread (flushRemaining t) (WtRelease free_values bufs waiting))
  | WtRelease free_values bufs waiting =>
      release_batch (flushRemaining t) free_values bufs waiting;;
      mret (WThread (flushRemaining t) WtTop)
  | WtWait =>
      in_tio (sem_wait Writer);;
      mret (WThread (flushRemaining t) WtTop)
  end.

(** The thread running alone for [n] steps. *)
Fixpoint writer_run (n : nat) (t : wthread) : M world wthread :=
  match n with
  | O => mret t
  | S n => t ← writer_step t; writer_run n t
  end.
End thread.

(** * The first critical section *)

Section select.
Implicit Types (h : uthash write_info) (t : tio).

Definition entry_page (w : write_info) : Z * ptr := (w_pageaddr w, w_page w).

(** The entries a turn takes: those of the first entry's descriptor, at most a full
    batch. *)
Definition first_ufd (es : list write_info) : Z := default 0 (w_ufd <$> head es).
Definition chosen (es : list write_info) : list write_info :=
  take (Z.to_nat WRITE_BATCH_SIZE) (filter (fun w => w_ufd w = first_ufd es) es).

(** Two lists that agree but for the flags of the entries with the given keys. *)
Definition marked (ks : list bytes) h h' : Prop :=
  tbl h' = tbl h /\
  forall k, get k h' = (fun w => if decide (k ∈ ks) then mark_in_flight w else w) <$> get k h.

Lemma marked_refl h : marked [] h h.
Proof. split; [done|]. intros k. by destruct (get k h). Qed.

Lemma wl_ok_marked ks h h' : wl_ok h -> keyed w_key h' -> marked ks h h' -> wl_ok h'.
Proof.
  intros [_ Hr] Hk [_ Hm]. split; [done|]. intros k w. rewrite Hm.
  destruct (get k h) as [w0|] eqn:E; [|done]. intros [= <-]. destruct (Hr k w0 E). by case_decide.
Qed.

Lemma mark_keyed h p e : wl_ok h -> elts h !! p = Some e ->
  let h' := update p mark_in_flight h in
  keyed w_key h' /\ marked [w_key (payload e)] h h' /\ HASH_ITER h' = HASH_ITER h /\
  (forall q, q <> p -> elts h' !! q = elts h !! q).
Proof.
  intros [Hk _] He h'. destruct (kd_keys w_key h Hk p e He) as [Hp Hkey].
  assert (Fd : HASH_FIND (w_key (payload e)) h = Some p).
  { apply find_iff; [apply Hk|]. split; [done|]. unfold key_at. rewrite He. simpl. by rewrite Hkey. }
  destruct (keyed_update w_key h _ p mark_in_flight Hk Fd) as (Hk' & Hg & Hit); [done|].
  split; [done|]. split; [|split; [done|]].
  - split; [done|]. intros k. unfold h'. rewrite Hg.
    destruct (decide (k = w_key (payload e))) as [->|Hne]; (destruct (get _ h); [|done]);
      cbn [fmap option_fmap option_map].
    + by rewrite decide_True by set_solver.
    + by rewrite decide_False by set_solver.
  - intros q Hq. unfold h', update. simpl. by rewrite lookup_alter_ne.
Qed.

(** The payloads of a list of elements. *)
Definition payloads (ps : list ptr) h : list write_info := omap (fun p => payload <$> elts h !! p) ps.

Lemma payloads_ext ps h h' : (forall q, q ∈ ps -> elts h' !! q = elts h !! q) -> payloads ps h' = payloads ps h.
Proof.
  intros H. unfold payloads. apply list_omap_ext, Forall_Forall2_diag, Forall_forall. intros q Hq. by rewrite H.
Qed.

Lemma payloads_key ps h k w : wl_ok h -> w ∈ payloads ps h -> w_key w = k ->
  exists q, q ∈ ps /\ q ∈ HASH_ITER h /\ key_at h q = Some k.
Proof.
  intros [Hk _] (q & Hq & E)%list_elem_of_omap <-. destruct (elts h !! q) as [e|] eqn:He; [|done].
  injection E as <-. exists q. destruct (kd_keys w_key h Hk q e He) as [Hin Hkey].
  split; [done|]. split; [done|]. unfold key_at. rewrite He. simpl. by rewrite Hkey.
Qed.

(** Pages a turn adds to a batch that already has [n]. *)
Definition taken (n : nat) (ufd : Z) (es : list write_info) : list write_info :=
  take (Z.to_nat WRITE_BATCH_SIZE - n) (filter (fun w => w_ufd w = ufd) es).

Lemma marked_cons k ks h h1 h' : marked [k] h h1 -> marked ks h1 h' -> marked (k :: ks) h h'.
Proof.
  intros [T1 M1] [T2 M2]. split; [congruence|]. intros x. rewrite M2, M1, <- option_fmap_compose.
  destruct (get x h) as [w|]; [|done]. simpl. f_equal.
  destruct (decide (x ∈ ks)), (decide (x ∈ [k])), (decide (x ∈ k :: ks)); try done; set_solver.
Qed.

Lemma collect_loop_spec ps : forall t (isFirst : bool) (ufd : Z) (pages : list (Z * ptr)), wl_ok (write_list t) ->
  (forall p, p ∈ ps -> p ∈ HASH_ITER (write_list t)) -> NoDup ps ->
  let es := payloads ps (write_list t) in
  let ufd' := if isFirst then default ufd (w_ufd <$> head es) else ufd in
  let sel := taken (length pages) ufd' es in
  exists h', collect_loop ps isFirst ufd pages t = Ok ((ufd', pages ++ (entry_page <$> sel)), set_write_list h' t) /\
    keyed w_key h' /\ marked (w_key <$> sel) (write_list t) h' /\ HASH_ITER h' = HASH_ITER (write_list t).
Proof.
  induction ps as [|p ps IH]; intros t isFirst ufd pages Hok Hin Hnd es ufd' sel.
  { exists (write_list t). assert (Hs : sel = []) by apply take_nil. rewrite Hs. cbn [fmap list_fmap].
    rewrite app_nil_r. split; [by destruct t, isFirst|]. split; [apply Hok|]. split; [apply marked_refl|done]. }
  apply NoDup_cons in Hnd as [Hnp Hnd].
  destruct (iter_elt (write_list t) p) as [e He]; [apply Hok|apply Hin; by left|].
  assert (Hes : es = payload e :: payloads ps (write_list t)) by (unfold es, payloads; simpl; by rewrite He).
  assert (Hufd : ufd' = if isFirst then w_ufd (payload e) else ufd) by (unfold ufd'; by rewrite Hes).
  cbn [collect_loop]. unfold mbind, M_bind, mget, mlift, deref. rewrite He. cbn beta iota zeta. rewrite <- Hufd.
  assert (Hrest : forall q, q ∈ ps -> q ∈ HASH_ITER (write_list t)) by (intros q Hq; apply Hin; by right).
  destruct (Z.eqb_spec (w_ufd (payload e)) ufd') as [Heq|Hne]; cbn [andb].
  - destruct (Z.ltb_spec (Z.of_nat (length pages)) WRITE_BATCH_SIZE) as [Hlt|Hge].
    + rewrite (proj2 (Z.leb_gt MAX_MULTI_WRITE (Z.of_nat (length pages)))) by (unfold WRITE_BATCH_SIZE, MAX_MULTI_WRITE in *; lia).
      unfold mret, M_ret, mmod. set (h1 := update p mark_in_flight (write_list t)). set (t1 := set_write_list h1 t).
      destruct (mark_keyed (write_list t) p e Hok He) as (Hk1 & Hm1 & Hi1 & Hq1). fold h1 in Hk1, Hm1, Hi1, Hq1.
      assert (Hp1 : payloads ps h1 = payloads ps (write_list t)).
      { apply payloads_ext. intros q Hq. apply Hq1. by intros ->. }
      destruct (IH t1 false ufd' (pages ++ [(w_pageaddr (payload e), w_page (payload e))])) as (h' & E & Hk & Hm & Hi); try done.
      { by eapply wl_ok_marked. }
      exists h'. change (write_list t1) with h1 in *. rewrite Hp1, length_app in E, Hm. rewrite E. simpl in E, Hm.
      assert (Hsel : sel = payload e :: taken (length pages + 1) ufd' (payloads ps (write_list t))).
      { unfold sel, taken. rewrite Hes, filter_cons_True by done.
        unfold WRITE_BATCH_SIZE in *. replace (Z.to_nat 100 - length pages)%nat with (S (Z.to_nat 100 - (length pages + 1)))%nat by lia.
        done. }
      rewrite Hsel. split; [by rewrite <- app_assoc|]. split; [done|]. split; [|by rewrite Hi, Hi1].
      rewrite fmap_cons. by eapply marked_cons.
    + destruct (IH t false ufd' pages) as (h' & E & Hk & Hm & Hi); try done. exists h'.
      assert (Hn : forall l, taken (length pages) ufd' l = []).
      { intros l. unfold taken. replace (Z.to_nat WRITE_BATCH_SIZE - length pages)%nat with 0%nat by lia. apply take_0. }
      unfold sel. rewrite Hn in Hm, E |- *. done.
  - destruct (IH t false ufd' pages) as (h' & E & Hk & Hm & Hi); try done. exists h'.
    assert (Hsel : sel = taken (length pages) ufd' (payloads ps (write_list t))).
    { unfold sel, taken. by rewrite Hes, filter_cons_False. }
    by rewrite Hsel.
Qed.
End select.

(** * The critical sections on the list *)

Section sections.
Implicit Types (h : uthash write_info) (t : tio).

(** The state after the top of a turn. *)
Definition top_state (selected : bool) h t : tio :=
  set_waiting (negb selected) (isPrefetcherWaiting t) (isUfhandlerWaiting t) (set_write_list h t).

Lemma HASH_CNT_nil h : wl_ok h -> entries h = [] -> HASH_CNT h = 0.
Proof.
  intros [[[Hok _] _] _] He. unfold HASH_CNT. destruct (tbl h) as [tb|] eqn:Et; [|done].
  assert (Hn : HASH_ITER h = []).
  { destruct (HASH_ITER h) as [|p ps] eqn:Ei; [done|]. destruct (iter_elt h p Hok) as [x Hx]; [rewrite Ei; by left|].
    unfold entries in He. rewrite Ei in He. simpl in He. by rewrite Hx in He. }
  unfold hash_ok in Hok. rewrite Et in Hok. rewrite (ok_items _ _ Hok). unfold HASH_ITER in Hn. rewrite Et in Hn.
  by rewrite Hn.
Qed.

(** A turn takes a batch, or marks the thread as waiting. *)
Lemma select_batch_run flushing t : wl_ok (write_list t) ->
  let es := entries (write_list t) in
  (exists h' more, es <> [] /\
     select_batch flushing t = Ok ((Some (Batch (first_ufd es) (entry_page <$> chosen es)), more), top_state true h' t) /\
     keyed w_key h' /\ marked (w_key <$> chosen es) (write_list t) h' /\
     more = (Z.of_nat (length (chosen es)) <? s32 (HASH_CNT (write_list t)))) \/
  (exists t', select_batch flushing t = Ok ((None, flushing), t') /\
     write_list t' = write_list t /\ isUfhandlerWaiting t' = isUfhandlerWaiting t /\
     ufhandler_sem t' = ufhandler_sem t /\ writer_sem t' = writer_sem t /\
     flushWriteListNeeded t' = flushWriteListNeeded t /\ isWriterWaiting t' = true /\
     (0 < s32 (HASH_CNT (write_list t)) -> flushWriteListNeeded t = false /\ flushing = false /\
        isUfhandlerWaiting t = false)).
Proof.
  intros Hok es. unfold select_batch, get_write_list_size, mbind, M_bind, mgets, mget.
  destruct (Z.ltb_spec 0 (s32 (HASH_CNT (write_list t)))) as [Hpos|Hneg]; cbn [andb].
  destruct (_ || _)%bool eqn:Ewant.
  - left.
    destruct (collect_loop_spec (HASH_ITER (write_list t)) t true 0 [] Hok) as (h' & E & Hk & Hm & _);
      [done|apply iter_NoDup, Hok|].
    exists h'. eexists. change (payloads (HASH_ITER (write_list t)) (write_list t)) with es in E, Hm.
    change (taken (length (@nil (Z * ptr))) (default 0 (w_ufd <$> head es)) es) with (chosen es) in E, Hm.
    rewrite E. split; [|split; [reflexivity|]].
    + intros Hn. rewrite (HASH_CNT_nil _ Hok Hn) in Hpos. by vm_compute in Hpos.
    + split; [done|]. split; [done|]. simpl. by rewrite length_fmap.
  - right. apply orb_false_iff in Ewant as [Ewant Efl]. apply orb_false_iff in Ewant as [Ewant Eflu].
    apply orb_false_iff in Ewant as [_ Euf]. rewrite Efl. eexists. split; [reflexivity|].
    by do 6 (split; [done|]).
  - right. destruct (flushWriteListNeeded t) eqn:Efl; eexists; (split; [reflexivity|]);
      (do 6 (split; [done|])); intros; lia.
Qed.

(** Removing the entries of a batch. *)
Lemma del_keys_run u keys : forall t d, wl_ok (write_list t) -> is_s32 u -> NoDup keys ->
  (forall a, a ∈ keys -> is_u64 a /\ is_Some (wl_get (write_list t) u a)) ->
  exists h', miter (del_write_info u) keys (t, d) = Ok (tt, (set_write_list h' t, d)) /\ wl_ok h' /\
    forall u' a', is_s32 u' -> is_u64 a' ->
      wl_get h' u' a' = if decide (u' = u /\ a' ∈ keys) then None else wl_get (write_list t) u' a'.
Proof.
  induction keys as [|a keys IH]; intros t d Hok Hu Hnd Hin.
  - exists (write_list t). split; [by destruct t|]. split; [done|]. intros u' a' _ _. by rewrite decide_False by set_solver.
  - apply NoDup_cons in Hnd as [Hna Hnd]. destruct (Hin a) as [Ha [x Hx]]; [by left|].
    unfold wl_get in Hx.
    destruct (HASH_FIND (info_key u a) (write_list t)) as [p|] eqn:Fd.
    2:{ unfold get in Hx. by rewrite Fd in Hx. }
    destruct (wl_drop_ok (write_list t) u a p Hok Hu Ha Fd) as [Hok1 Hg1].
    set (h1 := free_elt p (HASH_DELETE p (write_list t))) in *.
    destruct (IH (set_write_list h1 t) d) as (h' & E & Hok' & Hg); try done.
    { intros b Hb. destruct (Hin b) as [? ?]; [by right|]. split; [done|]. simpl. rewrite Hg1 by done.
      by rewrite decide_False by (intros [_ ->]; done). }
    exists h'. split; [|split; [done|]].
    + cbn [miter]. unfold mbind, M_bind, del_write_info. simpl. rewrite Fd. unfold drop_write_info. exact E.
    + intros u' a' Hu' Ha'. rewrite Hg by done. simpl. rewrite Hg1 by done.
      destruct (decide (u' = u /\ a' = a)) as [[-> ->]|Hne].
      * rewrite (decide_True (P := u = u /\ a ∈ a :: keys)) by (split; [done|by left]). by case_decide.
      * destruct (decide (u' = u /\ a' ∈ keys)) as [[-> Hk]|Hk].
        -- by rewrite decide_True by (split; [done|by right]).
        -- rewrite decide_False; [done|]. intros [-> [->|?]%elem_of_cons]; [by apply Hne|by apply Hk].
Qed.
End sections.
