(* ===== verification/Consistency.v ===== *)
(** Memory consistency of the synchronous handlers: what a process would read at
    an address of its region, whether the page is resident or in external
    memory, is not changed by evicting pages or by serving faults; a served
    fault leaves the page resident.

    This is the build without page cache and without helper threads, over any
    kernel with [OSLaws] and any backend with [ExternRAMLaws]. *)
From S2P Require Import Prelude Config MonitorStats Os LruBuffer UtHash ExternRam ThreadedIo Upid.
From S2P Require Import BufferAllocator PageCache World PageCacheRead Userfault.

(** The configurations of this file; [CACHE] and [MONITORSTATS] are free. *)
Class SyncBuild (F : BuildFlags) : Prop := {
  sync_pagecache : PAGECACHE = false;
  sync_zeropage : PAGECACHE_ZEROPAGE_OPTIMIZATION = false;
  sync_write : THREADED_WRITE_TO_EXTERNRAM = false;
  sync_prefetch : THREADED_PREFETCH = false;
  sync_reinit : THREADED_REINIT = false;
  sync_asyn : ASYNREAD = false
}.

(** Buffers are mapped and unmapped one at a time. *)
Class NoReinit (F : BuildFlags) : Prop := no_reinit : THREADED_REINIT = false.
#[export] Instance sync_noreinit F : SyncBuild F -> NoReinit F.
Proof. intros H. exact (sync_reinit (SyncBuild := H)). Qed.

#[export] Instance default_sync : SyncBuild default_build.
Proof. by split. Qed.

(** Addresses, by descriptor, whose content the kernel refused to put back; an
    error was reported for each, and nothing is promised of them. *)
Class Lost : Type := lost : Z -> Z -> Prop.
Definition none_lost : Lost := fun _ _ => False.
Definition also_lost (LO : Lost) (u a : Z) : Lost := fun u' a' => lost u' a' \/ (u', a') = (u, a).

Section view.
Context `{X : ExternRAM} {L : ExternRAMLaws X} {LO : Lost}.

(** The client that holds a descriptor's pages. *)
Definition client_of (w : world) (u : Z) : option ptr := m_client <$> find_fd u (fdUpidMap (w_fd w)).
Definition stored_at (w : world) (u a : Z) : option page :=
  c ← client_of w u; stored (w_ext w) (w_os w) c a.

(** What a process reads: the resident page, else the page in external memory,
    else zeros. *)
Definition view (w : world) (u a : Z) : page :=
  match app_page (w_os w) u a with
  | Some pg => pg
  | None => default zero_page (stored_at w u a)
  end.

(** A page that may be moved out: resident, or nowhere, or given up. *)
Definition movable (w : world) (u a : Z) : Prop :=
  is_Some (app_page (w_os w) u a) \/ stored_at w u a = None \/ lost u a.

Record wok (w : world) : Prop := {
  ok_fd : fdmap_ok (w_fd w);
  ok_ext : ext_ok (w_ext w) (w_os w);
  ok_client : forall u c, is_s32 u -> client_of w u = Some c -> c ∈ clients (w_ext w) /\ c <> NULL;
  ok_distinct : forall u u' c, is_s32 u -> is_s32 u' ->
    client_of w u = Some c -> client_of w u' = Some c -> u = u';
  ok_read : copies_out = true ->
    is_Some (buf_page (w_os w) (read_tmp_page w)) /\ read_tmp_page w ∉ owned (w_ext w);
  ok_lru : lru_inv (w_lru w);
  ok_nodes : forall u a, (a, u) ∈ lru_abs (w_lru w) -> is_Some (client_of w u) /\ movable w u a
}.

(** Views agree at every address of every descriptor, but the lost ones. *)
Definition same_view (w w' : world) : Prop :=
  forall u a, is_s32 u -> ~ lost u a -> view w' u a = view w u a.

(** Errors reported so far. *)
Definition errors (w : world) : nat := sigint (w_dbg w).
End view.

(** * Kernel-level effects *)

Section effects.
Context `{OSI : OS} {OL : OSLaws OSI}.

(** Buffers in use before are in use, unchanged, after. *)
Definition keep (o o' : os) : Prop := forall p, is_Some (buf_page o p) -> buf_page o' p = buf_page o p.

Lemma keep_refl o : keep o o.
Proof. by intros p _. Qed.
Lemma keep_trans o o1 o2 : keep o o1 -> keep o1 o2 -> keep o o2.
Proof. intros H1 H2 p Hp. rewrite H2; [by apply H1|]. by rewrite H1. Qed.
Lemma same_buf_keep o o' : same_buf o o' -> keep o o'.
Proof. intros H p _. by apply same_buf_at. Qed.
Lemma same_buf_but_keep p o o' : buf_page o p = None -> same_buf_but {[p]} o o' -> keep o o'.
Proof.
  intros Hp H q Hq. apply H. apply not_elem_of_singleton. intros ->. rewrite Hp in Hq. by destruct Hq.
Qed.
Lemma keep_None o o' p : keep o o' -> buf_page o' p = None -> buf_page o p = None.
Proof.
  intros H Hp. destruct (buf_page o p) eqn:E; [|done].
  assert (Hs : is_Some (buf_page o p)) by by rewrite E. apply H in Hs. congruence.
Qed.

(** The counter of errors does not go down. *)
Definition err_le (s s' : sys) : Prop := (sigint (s_dbg s) <= sigint (s_dbg s'))%nat.

Lemma mmap_spec o p o' : mmap_page o = (p, o') ->
  same_app o o' /\ keep o o' /\ p <> NULL /\ buf_page o p = None /\
  (p <> MAP_FAILED -> buf_page o' p = Some zero_page).
Proof.
  intros E. destruct (decide (p = MAP_FAILED)) as [->|Hp].
  - destruct (mmap_fail _ _ _ E eq_refl) as [? ?]. split; [done|]. split; [by apply same_buf_keep|].
    split; [done|]. split; [apply failed_unmapped|done].
  - destruct (mmap_ok _ _ _ E Hp) as (? & ? & ? & _ & ? & ?). split; [done|].
    split; [by eapply same_buf_but_keep|done].
Qed.
End effects.

(** The retry loop of the wrapper outlasts the backend's refusals. *)
Class EnoughFuel `{X : ExternRAM} (L : ExternRAMLaws X) (WF : WriteFuel) : Prop :=
  enough_fuel : forall e, (write_debt e < write_fuel)%nat.

(** * Moving a page out of its region *)

Section moving.
Context {OSI : OS} {OL : OSLaws OSI} {X : ExternRAM} {F : BuildFlags} {NR : NoReinit F}.

Lemma free_page_checked_run p s w : exists s', free_page_checked p (set_sys s w) = Ok (tt, set_sys s' w) /\
  same_app (s_os s) (s_os s') /\ same_buf_but {[p]} (s_os s) (s_os s') /\
  s_stats s' = s_stats s /\ err_le s s'.
Proof.
  unfold free_page_checked, free_page. rewrite no_reinit.
  unfold in_sys, sys_munmap, syscall0, syscall. mrun.
  destruct (munmap_page p (s_os s)) as [r o'] eqn:E. destruct (munmap_app _ _ _ _ E) as [Ha Hb]. simpl.
  destruct (rc r <? 0); eexists; (split; [reflexivity|]); (split; [done|]); (split; [done|]);
    (split; [done|]); unfold err_le; simpl; destruct (rc r =? 0); simpl; lia.
Qed.

(** What one [evict_page] does to the kernel state. *)
Definition moved_out (u a : Z) (p : ptr) (o o' : os) : Prop :=
  is_Some (buf_page o p) /\ app_page o' u a = None /\ same_app_but u a o o' /\
  same_buf_but {[p]} o o' /\
  buf_page o' p = match app_page o u a with Some pg => Some pg | None => buf_page o p end.

Lemma evict_page_run u p a s w : exists ret s', evict_page u p a (set_sys s w) = Ok (ret, set_sys s' w) /\
  s_stats s' = s_stats s /\ err_le s s' /\
  (if decide (ret = 0) then moved_out u (page_of a) p (s_os s) (s_os s')
   else same_app (s_os s) (s_os s') /\ same_buf (s_os s) (s_os s')).
Proof.
  unfold evict_page, get_errno, in_sys, syscall0, syscall. mrun.
  destruct (uffdio_remap u evict_mode p (page_of a) (s_os s)) as [r o'] eqn:E. simpl.
  destruct (Z.eqb_spec (rc r) 0) as [Hr|Hr].
  - exists 0. eexists. split; [reflexivity|]. split; [done|]. split; [unfold err_le; simpl; lia|].
    rewrite decide_True by done. simpl.
    destruct (remap_out_ok _ _ _ _ _ _ _ E Hr) as (? & ? & ? & ? & _ & ?); done.
  - pose proof (remap_errno _ _ _ _ _ _ _ E Hr) as He. destruct (remap_fail _ _ _ _ _ _ _ E Hr) as [Ha Hb].
    unfold w_dbg. simpl. destruct (Z.eqb_spec (sys_errno r) PAGE_SIZE) as [Hp|_]; [unfold PAGE_SIZE in Hp; lia|].
    destruct (negb _); eexists _, _; (split; [reflexivity|]); (split; [done|]);
      (split; [unfold err_le; simpl; lia|]); (rewrite decide_False by lia); done.
Qed.

Lemma evict_failure_run ret s w : exists r s', evict_failure ret (set_sys s w) = Ok (r, set_sys s' w) /\
  s_os s' = s_os s /\ s_stats s' = s_stats s /\ err_le s s' /\ r.1 <> 0.
Proof.
  unfold evict_failure.
  repeat match goal with |- context [if ?b then _ else _] => destruct b end;
    try (eexists _, s; split; [reflexivity|]; repeat (split; [done|]); split; [unfold err_le; lia|done]).
  - unfold w_log_recoverable_err, sys_log_recoverable_err, log_recoverable_err, in_sys, on_dbg. mrun.
    destruct (exit_on_recoverable_error (s_dbg s) =? 1); eexists _, _; (split; [reflexivity|]);
      repeat (split; [done|]); (split; [unfold err_le; simpl; lia|done]).
  - eexists _, _. split; [reflexivity|]. repeat (split; [done|]). split; [unfold err_le; simpl; lia|done].
Qed.

(** The buffer an eviction ends with: fresh, holding the page if it was moved. *)
Record evict_result (u a : Z) (s : sys) (ret : Z) (p : ptr) (s' : sys) : Prop := {
  er_fresh : buf_page (s_os s) p = None /\ p <> NULL;
  er_keep : keep (s_os s) (s_os s');
  er_stats : s_stats s' = s_stats s;
  er_err : err_le s s';
  er_app : same_app_but u a (s_os s) (s_os s');
  er_page : if decide (ret = 0) then
      app_page (s_os s') u a = None /\
      buf_page (s_os s') p = Some (default zero_page (app_page (s_os s) u a))
    else app_page (s_os s') u a = app_page (s_os s) u a
}.

Lemma get_evict_page_run s w : exists p o', mmap_page (s_os s) = (p, o') /\ p <> NULL /\
  get_evict_page (set_sys s w) = Ok (p, set_sys (Sys o' (s_dbg s) (s_stats s)) w).
Proof.
  unfold get_evict_page. rewrite no_reinit. unfold in_sys, get_local_tmp_page, sys_mmap. mrun.
  destruct (mmap_page (s_os s)) as [p o'] eqn:E. exists p, o'.
  destruct (mmap_spec _ _ _ E) as (_ & _ & Hn & _). split; [done|]. split; [done|].
  by rewrite decide_False.
Qed.

(** A failed attempt and the release of its buffer leave the kernel as it was. *)
Lemma evict_result_after u a s s1 ret p s' : same_app (s_os s) (s_os s1) -> keep (s_os s) (s_os s1) ->
  s_stats s1 = s_stats s -> err_le s s1 -> evict_result u a s1 ret p s' -> evict_result u a s ret p s'.
Proof.
  intros Ha Hk Hst He [[Hf Hn] Hk' Hst' He' Ha' Hp]. split.
  - split; [by eapply keep_None|done].
  - by eapply keep_trans.
  - congruence.
  - unfold err_le in *. lia.
  - intros u' a' Hne. rewrite Ha' by done. apply Ha.
  - case_decide; by rewrite <- Ha.
Qed.

Lemma moved_result u a p s o1 s2 : mmap_page (s_os s) = (p, o1) ->
  moved_out u a p o1 (s_os s2) -> s_stats s2 = s_stats s -> err_le s s2 -> evict_result u a s 0 p s2.
Proof.
  intros Em (Hmap & Hgone & Hother & Hbuf & Hcont) Hst He.
  destruct (mmap_spec _ _ _ Em) as (Ha & Hk & Hn & Hp & Hz).
  assert (Hne : p <> MAP_FAILED). { intros ->. rewrite failed_unmapped in Hmap. by destruct Hmap. }
  split; [done| |done|done| |].
  - intros q Hq. destruct (Hbuf q) as [-> _]; [|by apply Hk].
    apply not_elem_of_singleton. intros ->. rewrite Hp in Hq. by destruct Hq.
  - intros u' a' H. rewrite Hother by done. apply Ha.
  - rewrite decide_True by done. split; [done|]. rewrite Hcont, Ha, Hz by done.
    by destruct (app_page (s_os s) u a).
Qed.

Lemma failed_result u a p s o1 s2 r : mmap_page (s_os s) = (p, o1) -> r <> 0 ->
  same_app o1 (s_os s2) -> same_buf o1 (s_os s2) -> s_stats s2 = s_stats s -> err_le s s2 ->
  evict_result u a s r p s2.
Proof.
  intros Em Hr Ha2 Hb2 Hst He. destruct (mmap_spec _ _ _ Em) as (Ha & Hk & Hn & Hp & _).
  split; [done| |done|done| |].
  - eapply keep_trans; [done|by apply same_buf_keep].
  - intros u' a' _. by rewrite Ha2, Ha.
  - rewrite decide_False by done. by rewrite Ha2, Ha.
Qed.

Lemma evict_retry_run n u a ret0 p0 s w : aligned a ->
  exists ret p s', evict_retry (S n) u a ret0 p0 (set_sys s w) = Ok (Some (ret, p), set_sys s' w) /\
    evict_result u a s ret p s'.
Proof.
  intros Hal. revert ret0 p0 s. induction n as [|n IH]; intros ret0 p0 s.
  all: cbn [evict_retry]; unfold mbind at 1, M_bind at 1.
  all: destruct (get_evict_page_run s w) as (p & o1 & Em & Hn & ->).
  all: rewrite decide_False by done; unfold mbind at 1, M_bind at 1.
  all: set (s1 := Sys o1 (s_dbg s) (s_stats s)).
  all: destruct (evict_page_run u p a s1 w) as (r & s2 & -> & Hst2 & He2 & Hev); rewrite page_of_id in Hev by done;
    subst s1; cbn [s_os s_dbg s_stats] in *.
  all: destruct (Z.eqb_spec r 0) as [->|Hr].
  1, 3: eexists _, _, s2; split; [reflexivity|]; by apply (moved_result _ _ _ _ o1).
  all: rewrite decide_False in Hev by done; destruct Hev as [Ha2 Hb2].
  all: unfold mbind at 1, M_bind at 1; destruct (evict_failure_run r s2 w) as ([r3 again] & s3 & -> & Ho3 & Hst3 & He3 & Hr3).
  all: assert (R3 : evict_result u a s r3 p s3) by
    (apply (failed_result _ _ _ _ o1); [done|done|by rewrite Ho3|by rewrite Ho3|congruence|unfold err_le in *; simpl in *; lia]).
  all: destruct again; [|eexists _, _, s3; split; [reflexivity|done]].
  - eexists _, _, s3. split; [reflexivity|done].
  - unfold mbind at 1, M_bind at 1, mwhen. rewrite (proj2 (Z.ltb_lt 0 (Z.of_nat (S n)))) by lia.
    destruct (free_page_checked_run p s3 w) as (s4 & -> & Ha4 & Hb4 & Hst4 & He4).
    destruct (IH r3 p s4) as (ret & q & s5 & E5 & R5). exists ret, q, s5. split; [done|].
    destruct R3 as [[Hf3 _] Hk3 Hs3 Hee3 Ha3 Hp3]. rewrite decide_False in Hp3 by done.
    apply (evict_result_after u a s s4); try done.
    + intros u' a'. rewrite Ha4. destruct (decide ((u', a') = (u, a))) as [[= -> ->]|Hne]; [done|by apply Ha3].
    + intros x Hx. destruct (Hb4 x) as [-> _]; [|by apply Hk3].
      apply not_elem_of_singleton. intros ->. rewrite Hf3 in Hx. by destruct Hx.
    + congruence.
    + unfold err_le in *. lia.
Qed.

End moving.

Section sync.
Context {OSI : OS} {OL : OSLaws OSI} {X : ExternRAM} {L : ExternRAMLaws X}.
Context {F : BuildFlags} {SB : SyncBuild F} {I : StaleIterator} {WF : WriteFuel} {EF : EnoughFuel L WF}.
Context {LO : Lost}.

(** ** Eviction of one page *)

Lemma write_out_run u a p s w c pg : fdmap_ok (w_fd w) -> client_of w u = Some c ->
  c ∈ clients (w_ext w) -> c <> NULL -> ext_ok (w_ext w) (s_os s) -> buf_page (s_os s) p = Some pg ->
  p ∉ owned (w_ext w) -> p <> NULL ->
  exists ret e' s',
    write_out u a p (set_sys s w) = Ok (if decide (ret = NULL) then None else Some ret, set_ext (e', s') w) /\
    page_written c a p pg (w_ext w) s ret e' s'.
Proof.
  intros Hfd Hc Hcl Hn Hok Hp Hown Hpn. unfold write_out. rewrite sync_write.
  destruct (writePage_loop_spec write_fuel 0 c a p (w_ext w) s pg) as (ret & e' & s' & E & W); try done.
  exists ret, e', s'. split; [|done].
  unfold in_fd, in_ext, mbind, M_bind, zoom. cbn [w_fd set_sys]. rewrite get_client_by_fd_run by done.
  unfold client_of in Hc. destruct (find_fd u (fdUpidMap (w_fd w))) as [ms|]; [|done]. injection Hc as Hc.
  rewrite Hc, decide_False by done. unfold writePage. cbn [w_ext w_sys set_fd set_sys]. rewrite E. done.
Qed.

Lemma ext_keep e o o' : ext_ok e o -> keep o o' ->
  ext_ok e o' /\ forall c k, stored e o' c k = stored e o c k.
Proof. intros Hok Hk. apply ext_frame; [done|]. intros p Hp. by apply Hk, (owned_mapped e o p). Qed.

Lemma fresh_not_owned e o p : ext_ok e o -> buf_page o p = None -> p ∉ owned e.
Proof. intros Hok Hp Hin. destruct (owned_mapped e o p Hok Hin) as [[? ?] _]. congruence. Qed.

Lemma wok_update w e' s' : wok w -> ext_ok e' (s_os s') -> clients e' = clients (w_ext w) ->
  (copies_out = true -> is_Some (buf_page (s_os s') (read_tmp_page w)) /\ read_tmp_page w ∉ owned e') ->
  (forall u a, (a, u) ∈ lru_abs (w_lru w) -> movable (set_ext (e', s') w) u a) ->
  wok (set_ext (e', s') w).
Proof.
  intros Hw Hext Hcl Hread Hmov. split.
  - apply Hw.
  - done.
  - intros u c Hu Hc. change (c ∈ clients e' /\ c <> NULL). rewrite Hcl. by apply (ok_client w Hw u).
  - apply (ok_distinct w Hw).
  - done.
  - apply Hw.
  - intros u a Hin. split; [apply (ok_nodes w Hw u a Hin)|by apply Hmov].
Qed.

(** A world that differs in the kernel only, with the same regions. *)
Lemma wok_keep w s' : wok w -> same_app (w_os w) (s_os s') -> keep (w_os w) (s_os s') ->
  wok (set_sys s' w) /\ same_view w (set_sys s' w) /\
  (forall u a, stored_at (set_sys s' w) u a = stored_at w u a).
Proof.
  intros Hw Ha Hk. destruct (ext_keep _ _ _ (ok_ext w Hw) Hk) as [Hok Hst].
  assert (Hsa : forall u a, stored_at (set_sys s' w) u a = stored_at w u a).
  { intros u a. unfold stored_at. change (client_of (set_sys s' w) u) with (client_of w u).
    destruct (client_of w u); [apply Hst|done]. }
  split; [|split; [|done]].
  - apply (wok_update w (w_ext w) s'); try done.
    + intros Hc. destruct (ok_read w Hw Hc) as [H1 H2]. split; [|done]. by rewrite Hk.
    + intros u a Hin. destruct (ok_nodes w Hw u a Hin) as [_ [Hr|[Hr|Hr]]].
      * left. change (is_Some (app_page (s_os s') u a)). by rewrite Ha.
      * right. left. by rewrite <- Hr, <- Hsa.
      * by right; right.
  - intros u a _ _. unfold view. rewrite Hsa. change (w_os (set_sys s' w)) with (s_os s'). by rewrite Ha.
Qed.

Lemma lru_node_s32 c u a : lru_inv c -> (a, u) ∈ lru_abs c -> 0 <= u < 4096 /\ aligned a.
Proof.
  intros (_ & Hok & _) (n & [= -> ->] & Hn)%list_elem_of_fmap. rewrite Forall_forall in Hok.
  destruct (Hok n Hn) as [_ ?]. split; [done|apply page_of_aligned].
Qed.

Lemma small_s32 u : 0 <= u < 4096 -> is_s32 u.
Proof. unfold is_s32. lia. Qed.

(** The kernel after a page was moved out, stored, and the buffer the backend
    returned was released. *)
Record stored_out (w : world) (u a : Z) (c : ptr) (e' : ext) (s' : sys) : Prop := {
  so_ok : ext_ok e' (s_os s');
  so_clients : clients e' = clients (w_ext w);
  so_read : copies_out = true -> is_Some (buf_page (s_os s') (read_tmp_page w)) /\ read_tmp_page w ∉ owned e';
  so_gone : app_page (s_os s') u a = None;
  so_app : same_app_but u a (w_os w) (s_os s');
  so_stored : forall c' k, stored e' (s_os s') c' k =
    if decide (c' = c /\ k = a) then Some (default zero_page (app_page (w_os w) u a))
    else stored (w_ext w) (w_os w) c' k;
  so_err : err_le (w_sys w) s'
}.

Lemma stored_out_intro w u a c p s1 ret e2 s2 s3 : wok w ->
  evict_result u a (w_sys w) 0 p s1 ->
  page_written c a p (default zero_page (app_page (w_os w) u a)) (w_ext w) s1 ret e2 s2 ->
  same_app (s_os s2) (s_os s3) -> err_le s2 s3 ->
  (forall q, (ret <> NULL -> q <> ret) -> buf_page (s_os s3) q = buf_page (s_os s2) q) ->
  stored_out w u a c e2 s3.
Proof.
  intros Hw [[Hp Hpn] Hk _ He1 Ha1 Hpg] W Ha3 He3 Hfree.
  rewrite decide_True in Hpg by done. destruct Hpg as [Hgone _].
  destruct (ext_keep _ _ _ (ok_ext w Hw) Hk) as [Hok1 Hst1].
  pose proof (fresh_not_owned _ _ _ (ok_ext w Hw) Hp) as Hno.
  destruct (ext_frame e2 (s_os s2) (s_os s3)) as [Hok3 Hst3].
  { apply W. }
  { intros q Hq. apply Hfree. intros Hr ->. by apply (pw_ret _ _ _ _ _ _ _ _ _ W Hr). }
  split.
  - done.
  - apply W.
  - intros Hc. destruct (ok_read w Hw Hc) as [Hr Hro].
    assert (Hrp : read_tmp_page w <> p). { intros Heq. rewrite Heq in Hr. unfold w_os in Hr. rewrite Hp in Hr. by destruct Hr. }
    split.
    + rewrite Hfree.
      * rewrite (same_buf_at _ _ _ (pw_buf _ _ _ _ _ _ _ _ _ W)). by rewrite Hk.
      * intros Hret <-. destruct (pw_ret _ _ _ _ _ _ _ _ _ W Hret) as [_ Hin]. set_solver.
    + pose proof (pw_owned _ _ _ _ _ _ _ _ _ W). set_solver.
  - rewrite Ha3, (pw_app _ _ _ _ _ _ _ _ _ W). done.
  - intros u' a' Hne. rewrite Ha3, (pw_app _ _ _ _ _ _ _ _ _ W). by apply Ha1.
  - intros c' k. rewrite Hst3, (pw_stored _ _ _ _ _ _ _ _ _ W). case_decide; [done|apply Hst1].
  - pose proof (pw_dbg _ _ _ _ _ _ _ _ _ W). unfold err_le in *. lia.
Qed.

Lemma stored_out_view w u a c e' s' : wok w -> is_s32 u -> client_of w u = Some c -> movable w u a ->
  (a, u) ∉ lru_abs (w_lru w) -> stored_out w u a c e' s' ->
  wok (set_ext (e', s') w) /\ same_view w (set_ext (e', s') w) /\
  (forall u' a', is_s32 u' -> (u', a') <> (u, a) -> movable w u' a' -> movable (set_ext (e', s') w) u' a').
Proof.
  intros Hw Hu Hc Hmov Hnin S. set (w' := set_ext (e', s') w).
  assert (Hother : forall u' a', is_s32 u' -> (u', a') <> (u, a) -> stored_at w' u' a' = stored_at w u' a').
  { intros u' a' Hu' Hne. unfold stored_at. change (client_of w' u') with (client_of w u').
    destruct (client_of w u') as [c'|] eqn:Hc'; [|done]. cbn. rewrite (so_stored _ _ _ _ _ _ S).
    case_decide as D; [|done]. destruct D as [-> ->]. destruct Hne.
    by rewrite (ok_distinct w Hw u' u c Hu' Hu Hc' Hc). }
  assert (Hhere : stored_at w' u a = Some (default zero_page (app_page (w_os w) u a))).
  { unfold stored_at. change (client_of w' u) with (client_of w u). rewrite Hc. cbn.
    rewrite (so_stored _ _ _ _ _ _ S). by rewrite decide_True. }
  assert (Hmv : forall u' a', is_s32 u' -> (u', a') <> (u, a) -> movable w u' a' -> movable w' u' a').
  { intros u' a' Hu' Hne [Hr|[Hr|Hr]].
    - left. change (is_Some (app_page (s_os s') u' a')). by rewrite (so_app _ _ _ _ _ _ S).
    - right. left. by rewrite Hother.
    - by right; right. }
  split; [|split; [|done]].
  - apply wok_update; try apply S; [done|]. intros u' a' Hin.
    destruct (lru_node_s32 _ _ _ (ok_lru w Hw) Hin) as [Hu' _]. apply small_s32 in Hu'.
    assert (Hne : (u', a') <> (u, a)) by (intros [= -> ->]; done).
    apply Hmv; [done|done|]. apply (ok_nodes w Hw u' a' Hin).
  - intros u' a' Hu' Hnl. unfold view. change (w_os w') with (s_os s').
    destruct (decide ((u', a') = (u, a))) as [[= -> ->]|Hne].
    + rewrite (so_gone _ _ _ _ _ _ S), Hhere. simpl. destruct (app_page (w_os w) u a) eqn:E; [done|].
      destruct Hmov as [Hr|[Hr|Hr]]; [rewrite E in Hr; by destruct Hr|by rewrite Hr|done].
    + by rewrite (so_app _ _ _ _ _ _ S), Hother.
Qed.

(** What an eviction may do to the world. *)
Record evicted (w : world) (u a ret : Z) (w' : world) : Prop := {
  ev_ok : wok w';
  ev_view : same_view w w';
  ev_lru : w_lru w' = w_lru w;
  ev_fd : w_fd w' = w_fd w;
  ev_app : same_app_but u a (w_os w) (w_os w');
  ev_here : app_page (w_os w') u a = if decide (ret = 0) then None else app_page (w_os w) u a;
  ev_movable : forall u' a', is_s32 u' -> (u', a') <> (u, a) \/ ret <> 0 -> movable w u' a' -> movable w' u' a';
  ev_err : (errors w <= errors w')%nat
}.

Lemma w_stats_run f w : exists s', w_stats f w = Ok (tt, set_sys s' w) /\
  s_os s' = w_os w /\ s_dbg s' = w_dbg w.
Proof.
  unfold w_stats, in_sys, with_stats. destruct w as [[o d st] ? ? ? ? ? ? ?]. mrun.
  destruct MONITORSTATS; by eexists.
Qed.

Lemma set_sys_sys w : set_sys (w_sys w) w = w.
Proof. by destruct w. Qed.

(** A page that was moved out is stored, and what the backend returns is freed. *)
Lemma store_and_free u a p s1 s2 w c : wok w -> is_s32 u -> client_of w u = Some c -> movable w u a ->
  (a, u) ∉ lru_abs (w_lru w) -> evict_result u a (w_sys w) 0 p s1 ->
  s_os s2 = s_os s1 -> s_dbg s2 = s_dbg s1 ->
  exists w', (to_free ← write_out u a p;
     match to_free with Some q => free_page_checked q | None => mret tt end) (set_sys s2 w) = Ok (tt, w') /\
    evicted w u a 0 w'.
Proof.
  intros Hw Hu Hc Hmov Hnin R Ho Hd. pose proof R as [[Hp Hpn] Hk _ He Ha Hpg].
  rewrite decide_True in Hpg by done. destruct Hpg as [Hgone Hbuf].
  destruct (ok_client w Hw u c Hu Hc) as [Hcl Hcn]. destruct (ext_keep _ _ _ (ok_ext w Hw) Hk) as [Hok1 _].
  destruct (write_out_run u a p s2 w c (default zero_page (app_page (w_os w) u a))) as (ret & e2 & s3 & E & W);
    try done; try apply Hw; [by rewrite Ho|by rewrite Ho|by eapply fresh_not_owned; [apply Hw|]|].
  assert (W1 : page_written c a p (default zero_page (app_page (w_os w) u a)) (w_ext w) s1 ret e2
                 (Sys (s_os s3) (s_dbg s3) (s_stats s1))).
  { destruct W as [W1 W2 W3 W4 W5 W6 W7 W8 W9]. rewrite Ho in W3, W4, W7. rewrite Hd in W6. by split. }
  assert (Hfin : forall s4, same_app (s_os s3) (s_os s4) -> err_le s3 s4 ->
    (forall q, (ret <> NULL -> q <> ret) -> buf_page (s_os s4) q = buf_page (s_os s3) q) ->
    evicted w u a 0 (set_ext (e2, s4) w)).
  { intros s4 Ha4 He4 Hb4. pose proof (stored_out_intro w u a c p s1 ret e2 _ s4 Hw R W1 Ha4 He4 Hb4) as S.
    destruct (stored_out_view w u a c e2 s4) as (H1 & H2 & H3); try done.
    split; try done; try apply S. intros u' a' Hu' [?|?]; [by apply H3|done]. }
  unfold mbind, M_bind. rewrite E. case_decide as Hr; cbn match.
  - eexists. split; [reflexivity|]. apply Hfin; [done|unfold err_le; lia|done].
  - change (set_ext (e2, s3) w) with (set_sys s3 (set_ext (e2, s3) w)).
    destruct (free_page_checked_run ret s3 (set_ext (e2, s3) w)) as (s4 & -> & Ha4 & Hb4 & _ & He4).
    eexists. split; [reflexivity|]. apply (Hfin s4); [done|done|]. intros q Hq. apply Hb4.
    apply not_elem_of_singleton. auto.
Qed.

Lemma evict_to_externram_run u a w c : wok w -> aligned a -> is_s32 u -> client_of w u = Some c ->
  movable w u a -> (a, u) ∉ lru_abs (w_lru w) ->
  exists ret w', evict_to_externram u a w = Ok (ret, w') /\ evicted w u a ret w'.
Proof.
  intros Hw Hal Hu Hc Hmov Hnin. unfold evict_to_externram. unfold mbind at 1, M_bind at 1.
  destruct (evict_retry_run 4 u a (-1) NULL (w_sys w) w Hal) as (ret & p & s1 & E & R).
  rewrite set_sys_sys in E. rewrite E. clear E. exists ret. destruct (Z.eqb_spec ret 0) as [->|Hr].
  - destruct (w_stats_run StatsIncrPageEvicted_notlocked (set_sys s1 w)) as (s2 & E2 & Ho & Hd).
    destruct (store_and_free u a p s1 s2 w c) as (w' & E3 & V); try done. exists w'. split; [|done].
    unfold mbind, M_bind in E3 |- *. rewrite E2. unfold is_zero_page. rewrite sync_zeropage, sync_pagecache.
    cbn [mret M_ret mwhen]. change (set_sys s2 (set_sys s1 w)) with (set_sys s2 w).
    destruct (write_out u a p (set_sys s2 w)) as [[tf w2]| |]; try done.
    unfold mret, M_ret, mwhen in *. destruct tf; simpl in *; [by rewrite E3|by simplify_eq].
  - cbn [mret M_ret]. unfold mbind, M_bind, mret, M_ret.
    destruct (free_page_checked_run p s1 w) as (s2 & -> & Ha2 & Hb2 & _ & He2). eexists. split; [reflexivity|].
    destruct R as [[Hp Hpn] Hk _ He Ha Hpg]. rewrite decide_False in Hpg by done.
    assert (Happ : same_app (w_os w) (s_os s2)).
    { intros u' a'. rewrite Ha2. destruct (decide ((u', a') = (u, a))) as [[= -> ->]|Hne]; [done|by apply Ha]. }
    destruct (wok_keep w s2 Hw Happ) as (H1 & H2 & H3).
    { intros q Hq. destruct (Hb2 q) as [-> _]; [|by apply Hk].
      apply not_elem_of_singleton. intros ->. unfold w_os in Hq. rewrite Hp in Hq. by destruct Hq. }
    split; try done.
    + intros u' a' _. apply Happ.
    + rewrite decide_False by done. apply Happ.
    + intros u' a' _ _ [Hm|[Hm|Hm]]; [left|right; left; by rewrite H3|by right; right].
      change (is_Some (app_page (s_os s2) u' a')). by rewrite Happ.
    + unfold err_le, errors, w_dbg in *. simpl. lia.
Qed.

(** ** Keeping track of resident pages *)

(** What the handlers guarantee of every run. *)
Record handled (w w' : world) : Prop := {
  ha_ok : wok w';
  ha_view : same_view w w';
  ha_fd : w_fd w' = w_fd w;
  ha_max : LruList.max_num_items (w_lru w') = LruList.max_num_items (w_lru w);
  ha_err : (errors w <= errors w')%nat
}.

Lemma handled_refl w : wok w -> handled w w.
Proof. intros H. split; try done. Qed.
Lemma handled_trans w w1 w2 : handled w w1 -> handled w1 w2 -> handled w w2.
Proof.
  intros H1 H2. split.
  - apply H2.
  - intros u a Hu Hnl. by rewrite (ha_view _ _ H2), (ha_view _ _ H1).
  - by rewrite (ha_fd _ _ H2), (ha_fd _ _ H1).
  - by rewrite (ha_max _ _ H2), (ha_max _ _ H1).
  - pose proof (ha_err _ _ H1). pose proof (ha_err _ _ H2). lia.
Qed.
Lemma evicted_handled w u a ret w' : evicted w u a ret w' -> handled w w'.
Proof. intros []. split; try done. congruence. Qed.

Lemma client_of_fd w w' u : w_fd w' = w_fd w -> client_of w' u = client_of w u.
Proof. unfold client_of. by intros ->. Qed.

(** Replacing the list of resident pages. *)
Lemma handled_lru w c' st' : wok w -> lru_inv c' -> LruList.max_num_items c' = LruList.max_num_items (w_lru w) ->
  (forall u a, (a, u) ∈ lru_abs c' ->
     (a, u) ∈ lru_abs (w_lru w) \/ is_Some (client_of w u) /\ movable w u a) ->
  handled w (set_lru (mkLRUBuffer c' st') w).
Proof.
  intros Hw Hinv Hmax Hin. split; try done. split; try apply Hw; [done|].
  intros u a H. destruct (Hin u a H) as [H'|H']; [apply (ok_nodes w Hw u a H')|done].
Qed.

(** Counters and error reports do not matter. *)
Lemma handled_sys w s' : wok w -> s_os s' = w_os w -> err_le (w_sys w) s' -> handled w (set_sys s' w).
Proof.
  intros Hw Ho He. destruct (wok_keep w s' Hw) as (H1 & H2 & _).
  - intros u a. by rewrite Ho.
  - intros p _. by rewrite Ho.
  - split; done.
Qed.

(** A step that touches counters and error reports only. *)
Definition quiet (w w' : world) : Prop :=
  handled w w' /\ w_os w' = w_os w /\ w_lru w' = w_lru w /\ w_ext w' = w_ext w.

Lemma quiet_refl w : wok w -> quiet w w.
Proof. intros H. split; [by apply handled_refl|done]. Qed.

Lemma movable_quiet w w' u a : quiet w w' -> movable w u a -> movable w' u a.
Proof.
  intros (H & Ho & _ & He). unfold movable, stored_at. by rewrite Ho, He, (client_of_fd w w' u (ha_fd _ _ H)).
Qed.

Lemma w_stats_quiet f w : wok w -> exists w', w_stats f w = Ok (tt, w') /\ quiet w w' /\ errors w' = errors w.
Proof.
  intros Hw. destruct (w_stats_run f w) as (s' & E & Ho & Hd). eexists. split; [exact E|]. split.
  - split; [|done]. apply handled_sys; [done|done|]. unfold err_le. unfold w_dbg in Hd. rewrite Hd. lia.
  - unfold errors, w_dbg in *. simpl. by rewrite Hd.
Qed.

Lemma w_log_err_quiet w : wok w -> exists w', w_log_err w = Ok (tt, w') /\ quiet w w' /\ (errors w < errors w')%nat.
Proof.
  intros Hw. eexists. split; [reflexivity|]. split.
  - split; [|done]. apply handled_sys; [done|done|unfold err_le; simpl; lia].
  - unfold errors, w_dbg. simpl. lia.
Qed.

(** ** The results of an eviction *)

Definition evict_code (r : Z) : Prop := r = -1 \/ r = 0 \/ r = 1 \/ r = 2.

Lemma evict_failure_code r : returns (fun x => evict_code x.1) (evict_failure r).
Proof.
  unfold evict_failure, evict_code.
  repeat match goal with |- context [if ?b then _ else _] => destruct b end;
    try (apply returns_ret; simpl; lia);
    (eapply returns_bind; [apply returns_any|]; intros; apply returns_ret; simpl; lia).
Qed.

Lemma evict_retry_code n u a r p : evict_code r ->
  returns (fun x => from_option (fun y => evict_code y.1) True x) (evict_retry n u a r p).
Proof.
  revert r p. induction n as [|n IH]; intros r p Hr; [by apply returns_ret|]. cbn [evict_retry].
  eapply returns_bind; [apply returns_any|]. intros q _. case_decide.
  { eapply returns_bind; [apply returns_any|]. intros. by apply returns_ret. }
  eapply returns_bind; [apply returns_any|]. intros r1 _. destruct (r1 =? 0).
  { apply returns_ret. simpl. unfold evict_code. lia. }
  eapply returns_bind; [apply evict_failure_code|]. intros [r2 []] Hr2; simpl in Hr2.
  - eapply returns_bind; [apply returns_any|]. intros. by apply IH.
  - by apply returns_ret.
Qed.

Lemma evict_to_externram_code u a : returns evict_code (evict_to_externram u a).
Proof.
  unfold evict_to_externram. eapply returns_bind; [apply evict_retry_code; unfold evict_code; lia|].
  intros [[r p]|] Hr; simpl in Hr.
  - do 2 (eapply returns_bind; [apply returns_any|]; intros ? _). by apply returns_ret.
  - apply returns_ret. unfold evict_code. lia.
Qed.

(** A positive result of a handler is a registered descriptor. *)
Definition ret_ok (w : world) (ret : Z) : Prop := ret <= 0 \/ is_Some (client_of w ret).

Lemma ret_ok_fd w w' ret : w_fd w' = w_fd w -> ret_ok w ret -> ret_ok w' ret.
Proof. intros H [?|?]; [by left|right]. by rewrite (client_of_fd w w'). Qed.

(** The page just faulted in, [(a, u)], after the handler made room for it. *)
Record made_room (w : world) (u a : Z) (w' : world) : Prop := {
  mr_handled : handled w w';
(** with room for a page, it is not the one evicted *)
  mr_here : 1 <= LruList.max_num_items (w_lru w) -> app_page (w_os w') u a = app_page (w_os w) u a;
  mr_len : Z.of_nat (length (lru_abs (w_lru w))) <= LruList.max_num_items (w_lru w) ->
    Z.of_nat (length (lru_abs (w_lru w'))) <= LruList.max_num_items (w_lru w) \/
    Z.of_nat (length (lru_abs (w_lru w'))) = LruList.max_num_items (w_lru w) + 1 /\
      (1 <= LruList.max_num_items (w_lru w) -> (a, u) ∈ take 2 (lru_abs (w_lru w')))
}.

(** The victim of an insertion is not the page inserted, unless there is no room at all. *)
Lemma victim_differs p q l l' : NoDup (l' ++ [q]) -> LruSpec.touch p l = l' ++ [q] -> (0 < length l')%nat ->
  q <> p /\ head l' = Some p.
Proof.
  unfold LruSpec.touch. intros Hnd E Hl. destruct l' as [|x l']; simpl in *; [lia|].
  injection E as -> _. split; [|done]. apply NoDup_cons in Hnd as [Hnin _]. set_solver.
Qed.

Lemma touch_absent p l : p ∉ l -> LruSpec.touch p l = p :: l.
Proof. intros H. unfold LruSpec.touch. rewrite filter_all; [done|]. rewrite Forall_forall. set_solver. Qed.

Lemma NoDup_touch p l : NoDup l -> NoDup (LruSpec.touch p l).
Proof.
  intros H. apply NoDup_cons. split; [|by apply NoDup_filter]. intros [? _]%list_elem_of_filter. done.
Qed.

Lemma length_touch p l : (length (LruSpec.touch p l) <= S (length l))%nat.
Proof. unfold LruSpec.touch. simpl. pose proof (length_filter (fun q => q <> p) l). lia. Qed.

Lemma in_lru_run {A} (m : M LRUBuffer A) w x b :
  m (mkLRUBuffer (w_lru w) (s_stats (w_sys w))) = Ok (x, b) -> in_lru m w = Ok (x, set_lru b w).
Proof. unfold in_lru, zoom. by intros ->. Qed.

(** The victim of an insertion: moved out, given up, or put back. *)
Definition after_victim (n : cache_node) (w w' : world) : Prop :=
  handled w w' /\ same_app_but (cn_ufd n) (page_of (cn_hashcode n)) (w_os w) (w_os w') /\
  (lru_abs (w_lru w') = lru_abs (w_lru w) \/ lru_abs (w_lru w') = abs_node n :: lru_abs (w_lru w)).

Lemma after_victim_step n w w1 w2 : after_victim n w w1 -> quiet w1 w2 -> after_victim n w w2.
Proof.
  intros (H & Ha & Hl) (H2 & Ho & Hl2 & _). split; [by eapply handled_trans|]. rewrite Ho, Hl2. done.
Qed.

Lemma put_back_run n w w1 : node_ok n -> is_Some (client_of w (cn_ufd n)) -> abs_node n ∉ lru_abs (w_lru w) ->
  movable w1 (cn_ufd n) (page_of (cn_hashcode n)) -> w_lru w1 = w_lru w -> after_victim n w w1 ->
  exists w2, in_lru (insertCacheNode (page_of (cn_hashcode n)) (cn_ufd n)) w1 = Ok (tt, w2) /\ after_victim n w w2.
Proof.
  intros [_ Hu] Hc Hnin Hmov Hlru (H & Ha & _).
  destruct (insertCacheNode_abs (page_of (cn_hashcode n)) (cn_ufd n) (w_lru w1) (s_stats (w_sys w1)))
    as (c' & st' & E & Hinv & Hmax & Habs); [apply H|apply page_of_aligned|done|].
  rewrite Hlru, touch_absent in Habs by done.
  eexists. split; [by apply in_lru_run|]. split; [|by split; [|right]].
  eapply handled_trans; [done|]. apply handled_lru; [apply H|done|done|].
  rewrite Hlru. intros u a. rewrite Habs. intros [[= -> ->]|?]%elem_of_cons; [right|by left].
  split; [by rewrite (client_of_fd w w1 _ (ha_fd _ _ H))|done].
Qed.

Lemma victim_run n w : wok w -> node_ok n -> is_Some (client_of w (cn_ufd n)) ->
  movable w (cn_ufd n) (page_of (cn_hashcode n)) -> abs_node n ∉ lru_abs (w_lru w) ->
  exists ret w',
    (let key := page_of (cn_hashcode n) in
      ret2 ← evict_to_externram (cn_ufd n) key;
      if ret2 =? 0 then mret 0
      else if ret2 =? 1 then
        w_stats StatsIncrWriteSkippedInvalid_notlocked;; mret (cn_ufd n)
      else if ret2 =? 2 then
        w_stats StatsIncrWriteSkippedZero_notlocked;;
        in_lru (insertCacheNode key (cn_ufd n));; mret 0
      else w_log_err;; mret ret2) w = Ok (ret, w') /\ after_victim n w w' /\ ret_ok w ret.
Proof.
  intros Hw Hn Hc Hmov Hnin. pose proof Hn as [_ Hu]. pose proof Hc as [c Hcc]. cbn zeta.
  destruct (evict_to_externram_run (cn_ufd n) (page_of (cn_hashcode n)) w c) as (r & w1 & E & V); try done;
    [apply page_of_aligned|by apply small_s32|].
  unfold mbind, M_bind. rewrite E.
  assert (A1 : after_victim n w w1).
  { split; [by eapply evicted_handled|]. split; [apply V|]. left. by rewrite (ev_lru _ _ _ _ _ V). }
  destruct (Z.eqb_spec r 0); [eexists _, _; split; [reflexivity|]; split; [done|by left]|].
  assert (Hmov1 : movable w1 (cn_ufd n) (page_of (cn_hashcode n))).
  { apply (ev_movable _ _ _ _ _ V); [by apply small_s32|by right|done]. }
  pose proof (ev_ok _ _ _ _ _ V) as Hw1.
  destruct (Z.eqb_spec r 1).
  { destruct (w_stats_quiet StatsIncrWriteSkippedInvalid_notlocked w1 Hw1) as (w2 & -> & Q & _).
    eexists _, _. split; [reflexivity|]. split; [by eapply after_victim_step|by right]. }
  destruct (Z.eqb_spec r 2).
  - destruct (w_stats_quiet StatsIncrWriteSkippedZero_notlocked w1 Hw1) as (w2 & -> & Q & _).
    destruct (put_back_run n w w2) as (w3 & -> & A3); try done.
    + by apply (movable_quiet w1).
    + destruct Q as (_ & _ & -> & _). apply V.
    + by eapply after_victim_step.
    + eexists _, _. split; [reflexivity|]. split; [done|by left].
  - destruct (w_log_err_quiet w1 Hw1) as (w2 & -> & Q & _).
    eexists _, _. split; [reflexivity|]. split; [by eapply after_victim_step|left].
    destruct (evict_to_externram_code _ _ _ _ _ E) as [?|[?|[?|?]]]; lia.
Qed.

(** After the insertion of [(a, u)], from the list [l] to [lru_abs c']. *)
Lemma insertion_handled w u a c' st' : wok w -> is_Some (client_of w u) -> movable w u a ->
  lru_inv c' -> LruList.max_num_items c' = LruList.max_num_items (w_lru w) ->
  (forall q, q ∈ lru_abs c' -> q ∈ LruSpec.touch (a, u) (lru_abs (w_lru w))) ->
  handled w (set_lru (mkLRUBuffer c' st') w).
Proof.
  intros Hw Hc Hmov Hinv Hmax Hin. apply handled_lru; [done|done|done|].
  intros u' a' [[= -> ->]|?]%Hin%elem_of_touch; [by right|by left].
Qed.

Lemma victim_ok w u a n l' : wok w -> is_Some (client_of w u) -> movable w u a -> node_ok n ->
  LruSpec.touch (a, u) (lru_abs (w_lru w)) = l' ++ [abs_node n] ->
  is_Some (client_of w (cn_ufd n)) /\ movable w (cn_ufd n) (page_of (cn_hashcode n)) /\ (abs_node n ∉ l') /\
  ((0 < length l')%nat -> (cn_ufd n, page_of (cn_hashcode n)) <> (u, a) /\ head l' = Some (a, u)).
Proof.
  intros Hw Hc Hmov Hn Ht.
  assert (Hin : abs_node n ∈ LruSpec.touch (a, u) (lru_abs (w_lru w))) by (rewrite Ht; set_solver).
  assert (Hnd : NoDup (l' ++ [abs_node n])) by (rewrite <- Ht; apply NoDup_touch, lru_abs_NoDup, Hw).
  assert (H : is_Some (client_of w (cn_ufd n)) /\ movable w (cn_ufd n) (page_of (cn_hashcode n))).
  { apply elem_of_touch in Hin as [[= -> ->]|Hin]; [done|]. by apply (ok_nodes w Hw). }
  split; [apply H|]. split; [apply H|]. split.
  - apply NoDup_app in Hnd as (_ & Hd & _). intros Hx. apply (Hd _ Hx). set_solver.
  - intros Hl. destruct (victim_differs _ _ _ _ Hnd Ht Hl) as [Hne Hh]. split; [|done].
    intros [= ? ?]. apply Hne. unfold abs_node. congruence.
Qed.

(** The page just inserted is among the two most recent ones. *)
Lemma recent_two (p q : LruSpec.entry) l l' : head l = Some p -> l' = l \/ l' = q :: l -> p ∈ take 2 l'.
Proof.
  destruct l as [|x l]; [done|]. intros [= ->] [->| ->]; simpl; set_solver.
Qed.

Lemma evict_if_needed_run u a ty w : wok w -> aligned a -> 0 <= u < 4096 -> is_Some (client_of w u) ->
  movable w u a ->
  exists ret w', evict_if_needed u a ty w = Ok (ret, w') /\ made_room w u a w' /\ ret_ok w ret.
Proof.
  intros Hw Hal Hu Hc Hmov. unfold evict_if_needed. destruct CACHE; simpl.
  2:{ eexists _, _. split; [reflexivity|]. split; [|by left]. split; [by apply handled_refl|done|by left]. }
  destruct (insert_evict_abs a u (w_lru w) (s_stats (w_sys w))) as (n & c' & st' & E & Hinv & Hmax & Hcase);
    [apply Hw|done|done|].
  unfold mbind at 1, M_bind at 1. rewrite (in_lru_run _ _ _ _ E). set (w1 := set_lru _ w).
  pose proof (length_touch (a, u) (lru_abs (w_lru w))) as Hlt.
  destruct Hcase as [(-> & Habs & Hlen)|(Hn & Ht & Hlen)].
  { simpl. eexists _, _. split; [reflexivity|]. split; [|by left]. split; [|done|by left].
    apply (insertion_handled w u a); try done. by rewrite Habs. }
  assert (H1 : handled w w1) by (apply (insertion_handled w u a); try done; rewrite Ht; set_solver).
  assert (Hl1 : (length (lru_abs c') <= length (lru_abs (w_lru w)))%nat) by (rewrite Ht, length_app in Hlt; simpl in Hlt; lia).
  destruct (Z.eqb_spec (cn_hashcode n) 0) as [Hz|Hz].
  { eexists _, _. split; [reflexivity|]. split; [|by left].
    split; [done|done|]. intros. left. change (w_lru w1) with c'. lia. }
  destruct (victim_ok w u a n (lru_abs c')) as (Hcn & Hmn & Hnin & Hdiff); try done.
  destruct (victim_run n w1) as (ret & w' & Ev & (H2 & Ha2 & Hl2) & Hret); try done; [apply H1|].
  eexists _, _. split; [exact Ev|]. split; [|exact Hret]. split.
  - by eapply handled_trans.
  - intros Hmx. destruct Hdiff as [Hne _]; [lia|]. apply (Ha2 u a). congruence.
  - intros Hle. change (lru_abs (w_lru w1)) with (lru_abs c') in Hl2.
    destruct (decide (Z.of_nat (length (lru_abs (w_lru w'))) <= LruList.max_num_items (w_lru w))); [by left|right].
    assert (length (lru_abs (w_lru w')) <= S (length (lru_abs c')))%nat by (destruct Hl2 as [-> | ->]; simpl; lia).
    split; [lia|]. intros Hmx. destruct Hdiff as [_ Hh]; [lia|]. by eapply recent_two.
Qed.

(** ** Evicting several pages *)

(** Nodes that were taken off the list and may be moved out. *)
Definition evictable (w : world) (nodes : list cache_node) : Prop :=
  NoDup (abs_node <$> nodes) /\
  Forall (fun n => node_ok n /\ is_Some (client_of w (cn_ufd n)) /\
                   movable w (cn_ufd n) (page_of (cn_hashcode n)) /\ (abs_node n ∉ lru_abs (w_lru w))) nodes.

Lemma evictable_step w n nodes ret w' : evictable w (n :: nodes) ->
  evicted w (cn_ufd n) (page_of (cn_hashcode n)) ret w' -> evictable w' nodes.
Proof.
  intros [Hnd Hall] V. apply NoDup_cons in Hnd as [Hnin Hnd]. apply Forall_cons in Hall as [_ Hall].
  split; [done|]. rewrite Forall_forall in Hall |- *. intros m Hm. destruct (Hall m Hm) as (Hn & Hc & Hmov & Hl).
  pose proof Hn as [_ Hu]. split; [done|]. rewrite (client_of_fd w w' _ (ev_fd _ _ _ _ _ V)). split; [done|].
  split; [|by rewrite (ev_lru _ _ _ _ _ V)].
  apply (ev_movable _ _ _ _ _ V); [by apply small_s32| |done]. left. intros [= E1 E2].
  apply Hnin. apply list_elem_of_fmap. exists m. split; [|done]. unfold abs_node. congruence.
Qed.

Lemma evictable_quiet w w' nodes : quiet w w' -> evictable w nodes -> evictable w' nodes.
Proof.
  intros Q [Hnd Hall]. split; [done|]. eapply Forall_impl; [exact Hall|]. intros m (Hn & Hc & Hmov & Hl).
  pose proof Q as (H & _ & Hlru & _). rewrite (client_of_fd w w' _ (ha_fd _ _ H)), Hlru.
  split; [done|]. split; [done|]. split; [by apply (movable_quiet w)|done].
Qed.

(** The body of the loop. *)
Lemma evict_one_run n w : wok w -> evictable w [n] ->
  exists cnt w', (ret ← evict_to_externram (cn_ufd n) (page_of (cn_hashcode n));
    (if ret =? 0 then mret 1
     else if ret =? 1 then w_stats StatsIncrWriteSkippedInvalid_notlocked;; mret 0
     else if ret =? 2 then mret 0
     else w_log_err;; mret 0)) w = Ok (cnt, w') /\
    handled w w' /\ w_lru w' = w_lru w /\
    same_app_but (cn_ufd n) (page_of (cn_hashcode n)) (w_os w) (w_os w') /\
    (forall nodes, evictable w (n :: nodes) -> evictable w' nodes).
Proof.
  intros Hw [_ Hall]. apply Forall_singleton in Hall as (Hn & [c Hc] & Hmov & Hnin). pose proof Hn as [_ Hu].
  destruct (evict_to_externram_run (cn_ufd n) (page_of (cn_hashcode n)) w c) as (r & w1 & E & V); try done;
    [apply page_of_aligned|by apply small_s32|].
  assert (Hgo : forall w2, quiet w1 w2 -> handled w w2 /\ w_lru w2 = w_lru w /\
    same_app_but (cn_ufd n) (page_of (cn_hashcode n)) (w_os w) (w_os w2) /\
    (forall nodes, evictable w (n :: nodes) -> evictable w2 nodes)).
  { intros w2 Q. pose proof Q as (H & Ho & Hl & _). split; [eapply handled_trans; [by eapply evicted_handled|done]|].
    split; [rewrite Hl; apply V|]. split; [rewrite Ho; apply V|].
    intros nodes Hev. apply (evictable_quiet w1 w2 nodes Q). by eapply evictable_step. }
  pose proof (ev_ok _ _ _ _ _ V) as Hw1. pose proof (quiet_refl _ Hw1) as Q1.
  unfold mbind, M_bind. rewrite E.
  destruct (r =? 0); [by eexists _, _; split; [reflexivity|apply Hgo]|].
  destruct (r =? 1).
  { destruct (w_stats_quiet StatsIncrWriteSkippedInvalid_notlocked w1 Hw1) as (w2 & -> & Q & _).
    eexists _, _. split; [reflexivity|by apply Hgo]. }
  destruct (r =? 2); [by eexists _, _; split; [reflexivity|apply Hgo]|].
  destruct (w_log_err_quiet w1 Hw1) as (w2 & -> & Q & _). eexists _, _. split; [reflexivity|by apply Hgo].
Qed.

(** The loop over all the nodes, and the loop that is asked for more than there are. *)
Lemma evict_multi_loop_run nodes w : wok w -> evictable w nodes ->
  exists r w', evict_multi_loop (length nodes) nodes w = Ok (r, w') /\ handled w w' /\ w_lru w' = w_lru w /\
    forall u a, (a, u) ∉ abs_node <$> nodes -> app_page (w_os w') u a = app_page (w_os w) u a.
Proof.
  revert w. induction nodes as [|n nodes IH]; intros w Hw Hev.
  { eexists _, _. split; [reflexivity|]. split; [by apply handled_refl|done]. }
  destruct (evict_one_run n w Hw) as (cnt & w1 & E & H1 & Hl1 & Ha1 & Hev1).
  { destruct Hev as [_ Hall]. apply Forall_cons in Hall as [Hall _]. split; [apply NoDup_singleton|by apply Forall_singleton]. }
  destruct (IH w1) as (r & w2 & E2 & H2 & Hl2 & Ha2); [apply H1|by apply Hev1|].
  exists (cnt + r), w2. split.
  - cbn [length evict_multi_loop]. unfold mbind, M_bind in E |- *.
    destruct (evict_to_externram _ _ w) as [[ret wx]| |]; try done. rewrite E, E2. done.
  - split; [by eapply handled_trans|]. split; [congruence|]. intros u a Hnin.
    rewrite fmap_cons in Hnin. apply not_elem_of_cons in Hnin as [Hne Hnin]. rewrite Ha2 by done. apply Ha1.
    unfold abs_node in Hne. congruence.
Qed.

Lemma evict_multi_loop_over nodes k w : wok w -> evictable w nodes -> (length nodes < k)%nat ->
  evict_multi_loop k nodes w = UB OutOfBounds.
Proof.
  revert w k. induction nodes as [|n nodes IH]; intros w k Hw Hev Hk; (destruct k as [|k]; [simpl in Hk; lia|]); [done|].
  destruct (evict_one_run n w Hw) as (cnt & w1 & E & H1 & Hl1 & Ha1 & Hev1).
  { destruct Hev as [_ Hall]. apply Forall_cons in Hall as [Hall _]. split; [apply NoDup_singleton|by apply Forall_singleton]. }
  cbn [evict_multi_loop]. unfold mbind, M_bind in E |- *.
  destruct (evict_to_externram _ _ w) as [[ret wx]| |]; try done. rewrite E, IH; [done|apply H1|by apply Hev1|simpl in Hk; lia].
Qed.

(** Popped nodes may be moved out. *)
Lemma popped_evictable w nodes c' st' : wok w -> lru_inv c' ->
  LruList.max_num_items c' = LruList.max_num_items (w_lru w) -> Forall node_ok nodes ->
  lru_abs (w_lru w) = lru_abs c' ++ reverse (abs_node <$> nodes) ->
  handled w (set_lru (mkLRUBuffer c' st') w) /\ evictable (set_lru (mkLRUBuffer c' st') w) nodes.
Proof.
  intros Hw Hinv Hmax Hok Habs. pose proof (lru_abs_NoDup _ (ok_lru w Hw)) as Hnd. rewrite Habs in Hnd.
  apply NoDup_app in Hnd as (_ & Hdis & Hnd). split.
  - apply handled_lru; [done|done|done|]. intros u a H. left. rewrite Habs. set_solver.
  - split; [by rewrite reverse_Permutation in Hnd|].
    rewrite Forall_forall in Hok |- *. intros n Hn. split; [by apply Hok|].
    assert (Hin : abs_node n ∈ reverse (abs_node <$> nodes)).
    { apply elem_of_reverse, list_elem_of_fmap. by exists n. }
    destruct (ok_nodes w Hw (cn_ufd n) (page_of (cn_hashcode n))) as [Hc Hm].
    { rewrite Habs. apply elem_of_app. by right. }
    split; [done|]. split; [done|]. intros Hx. by apply (Hdis _ Hx).
Qed.

Lemma evict_to_externram_multi_run k w : wok w -> 0 <= k <= Z.of_nat (length (lru_abs (w_lru w))) ->
  Z.of_nat (length (lru_abs (w_lru w))) < 2 ^ 31 ->
  exists r w' gone, evict_to_externram_multi k w = Ok (r, w') /\ handled w w' /\
    Z.of_nat (length gone) = k /\ lru_abs (w_lru w) = lru_abs (w_lru w') ++ gone /\
    forall u a, (a, u) ∉ gone -> app_page (w_os w') u a = app_page (w_os w) u a.
Proof.
  intros Hw Hk Hlen. unfold lru_abs in Hk, Hlen. rewrite length_fmap in Hk, Hlen.
  destruct (popNLRU_abs k (w_lru w) (s_stats (w_sys w))) as (nodes & c' & st' & E & Hinv & Hmax & Hok & Hn & Habs);
    [apply Hw|done|done|].
  destruct (popped_evictable w nodes c' st') as [H1 Hev]; try done.
  destruct (evict_multi_loop_run nodes _ (ha_ok _ _ H1) Hev) as (r & w' & E2 & H2 & Hl2 & Ha2).
  exists r, w', (reverse (abs_node <$> nodes)). split.
  - unfold evict_to_externram_multi, mbind, M_bind. rewrite (in_lru_run _ _ _ _ E). by rewrite <- Hn, Nat2Z.id.
  - split; [by eapply handled_trans|]. split; [by rewrite length_reverse, length_fmap|]. split; [by rewrite Hl2|].
    intros u a Hg. rewrite elem_of_reverse in Hg. by rewrite Ha2.
Qed.

Lemma max_s32 w : wok w -> s32 (LruList.max_num_items (w_lru w)) = LruList.max_num_items (w_lru w).
Proof. intros Hw. destruct (ok_lru w Hw) as (_ & _ & Hm). apply s32_id. unfold is_s32. lia. Qed.

Lemma size_s32 w : Z.of_nat (length (lru_abs (w_lru w))) < 2 ^ 31 ->
  s32 (Z.of_nat (length (LruList.il (w_lru w)))) = Z.of_nat (length (lru_abs (w_lru w))).
Proof. intros H. unfold lru_abs in *. rewrite length_fmap in *. apply s32_id. unfold is_s32. lia. Qed.

Lemma in_lru_get {A} (f : LRUBuffer -> A) w :
  in_lru (mgets f) w = Ok (f (mkLRUBuffer (w_lru w) (s_stats (w_sys w))), w).
Proof. by destruct w as [[]]. Qed.

(** Trimming the list to its limit. *)
Lemma trim_lru_run w : wok w -> Z.of_nat (length (lru_abs (w_lru w))) < 2 ^ 31 ->
  exists w' gone, trim_lru w = Ok (tt, w') /\ handled w w' /\ lru_abs (w_lru w) = lru_abs (w_lru w') ++ gone /\
    Z.of_nat (length gone) = Z.max 0 (Z.of_nat (length (lru_abs (w_lru w))) - LruList.max_num_items (w_lru w)) /\
    forall u a, (a, u) ∉ gone -> app_page (w_os w') u a = app_page (w_os w) u a.
Proof.
  intros Hw Hlen. unfold trim_lru, getLRUBufferSize, getLRUBufferMaxSize, mbind, M_bind.
  rewrite !in_lru_get. unfold LruList.getSize, LruList.getMaxSize. simpl. rewrite max_s32, size_s32 by done.
  destruct (ok_lru w Hw) as (_ & _ & Hm).
  destruct (Z.ltb_spec 0 (Z.of_nat (length (lru_abs (w_lru w))) - LruList.max_num_items (w_lru w))) as [Hlt|Hge].
  - destruct (evict_to_externram_multi_run (Z.of_nat (length (lru_abs (w_lru w))) - LruList.max_num_items (w_lru w)) w Hw)
      as (r & w' & gone & -> & H & Hg & Habs & Ha); [lia|lia|].
    exists w', gone. split; [done|]. split; [done|]. split; [done|]. split; [lia|done].
  - exists w, []. split; [done|]. split; [by apply handled_refl|]. rewrite app_nil_r. simpl. split; [done|]. split; [lia|done].
Qed.

Lemma resize_step w size : wok w -> 0 <= size < 2 ^ 31 -> Z.of_nat (length (lru_abs (w_lru w))) < 2 ^ 31 ->
  exists w' gone, resizeLRUBuffer size w = Ok (tt, w') /\ wok w' /\ same_view w w' /\ w_fd w' = w_fd w /\
    LruList.max_num_items (w_lru w') = size /\ lru_abs (w_lru w) = lru_abs (w_lru w') ++ gone /\
    Z.of_nat (length gone) = Z.max 0 (Z.of_nat (length (lru_abs (w_lru w))) - size) /\
    (errors w <= errors w')%nat /\
    forall u a, (a, u) ∉ gone -> app_page (w_os w') u a = app_page (w_os w) u a.
Proof.
  intros Hw Hs Hlen.
  assert (Hset : forall w1, wok w1 -> exists w2, in_lru (setLRUBufferSize size) w1 = Ok (size, w2) /\ wok w2 /\
    same_view w1 w2 /\ w_fd w2 = w_fd w1 /\ LruList.max_num_items (w_lru w2) = size /\
    lru_abs (w_lru w2) = lru_abs (w_lru w1) /\ errors w2 = errors w1 /\ w_os w2 = w_os w1).
  { intros w1 Hw1. unfold in_lru, zoom, setLRUBufferSize, lru_with_stats. mrun.
    assert (E : u64 size = size) by (apply u64_id; unfold is_u64; lia). unfold LruList.setSize. simpl. rewrite E.
    rewrite (s32_id size) by (unfold is_s32; lia).
    destruct MONITORSTATS; eexists; (split; [reflexivity|]); (split; [|done]); split; try apply Hw1;
      destruct (ok_lru w1 Hw1) as (? & ? & _); done. }
  unfold resizeLRUBuffer, getLRUBufferSize, mbind, M_bind. rewrite in_lru_get. unfold LruList.getSize. simpl.
  rewrite size_s32 by done. destruct (Z.ltb_spec (Z.of_nat (length (lru_abs (w_lru w)))) size) as [Hlt|Hge].
  - destruct (Hset w Hw) as (w1 & -> & Hw1 & Hv1 & Hf1 & Hm1 & Ha1 & He1 & Ho1). exists w1, [].
    rewrite app_nil_r, Ha1, He1, Ho1. simpl. split_and!; try done; lia.
  - destruct (evict_to_externram_multi_run (Z.of_nat (length (lru_abs (w_lru w))) - size) w Hw)
      as (r & w1 & gone & -> & H & Hg & Habs & Ha); [lia|lia|].
    destruct (Hset w1 (ha_ok _ _ H)) as (w2 & -> & Hw2 & Hv2 & Hf2 & Hm2 & Ha2 & He2 & Ho2). exists w2, gone.
    rewrite Ha2, He2, Ho2. split_and!; try done; try lia.
    + intros u a Hu Hnl. by rewrite Hv2, (ha_view _ _ H).
    + by rewrite Hf2, (ha_fd _ _ H).
    + apply H.
Qed.

(** C21: an eviction returns; it either moves the page out (result 0) or leaves it
    where it was; in both cases every address still has its content, either in the
    region or in external memory, and no other page of any region is touched. *)
Theorem evict_to_externram_preserves u a w c (Hw : wok w) (Hal : aligned a) (Hu : is_s32 u)
    (Hc : client_of w u = Some c) (Hmov : movable w u a) (Hnin : (a, u) ∉ lru_abs (w_lru w)) :
  exists ret w', evict_to_externram u a w = Ok (ret, w') /\ wok w' /\ same_view w w' /\
    app_page (w_os w') u a = (if decide (ret = 0) then None else app_page (w_os w) u a) /\
    same_app_but u a (w_os w) (w_os w').
Proof.
  destruct (evict_to_externram_run u a w c) as (ret & w' & E & []); try done. by exists ret, w'.
Qed.


(** Asked for a negative size, [resizeLRUBuffer] evicts more pages than the list
    has: the loop of [evict_to_externram_multi] runs to the number asked for, not
    to the number popped, and reads past the end of the array of nodes. *)
Lemma resizeLRUBuffer_negative w size (Hw : wok w) (Hs : size < 0)
    (Hlen : Z.of_nat (length (lru_abs (w_lru w))) - size < 2 ^ 31) :
  resizeLRUBuffer size w = UB OutOfBounds.
Proof.
  unfold resizeLRUBuffer, getLRUBufferSize, mbind, M_bind. rewrite in_lru_get. unfold LruList.getSize. simpl.
  rewrite size_s32 by lia. destruct (Z.ltb_spec (Z.of_nat (length (lru_abs (w_lru w)))) size); [lia|].
  unfold evict_to_externram_multi, mbind, M_bind.
  set (k := Z.of_nat (length (lru_abs (w_lru w))) - size) in *.
  assert (Hlen' : length (lru_abs (w_lru w)) = length (LruList.il (w_lru w))) by apply length_fmap.
  destruct (popNLRU_abs (Z.of_nat (length (LruList.il (w_lru w)))) (w_lru w) (s_stats (w_sys w)))
    as (nodes & c' & st' & E & Hinv & Hmax & Hok & Hn & Habs); [apply Hw|lia|lia|].
  rewrite <- (popNLRU_all k) in E by lia. rewrite (in_lru_run _ _ _ _ E).
  destruct (popped_evictable w nodes c' st') as [H1 Hev]; try done.
  rewrite evict_multi_loop_over; [done|apply H1|done|lia].
Qed.
End sync.
