(* ===== verification/Async.v ===== *)
(** The handler and the write thread together, in the build with
    [THREADED_WRITE_TO_EXTERNRAM]: whatever the order of their steps and of the stores
    of the processes, no page is lost or goes stale, and a handler that waits for the
    write thread is woken.

    The handler is described by its program points between the calls that the write
    thread can observe: the system calls on a page, the critical sections on the write
    list, the calls of the backend.  Which page is evicted is left open, so the results
    hold for every order of the list of resident pages. *)
From S2P Require Import Prelude Config MonitorStats Os LruBuffer UtHash ExternRam ThreadedIo Upid.
From S2P Require Import BufferAllocator PageCache World PageCacheRead Userfault WriteThread Consistency.

Class AsyncBuild (F : BuildFlags) : Prop := {
  async_pagecache : PAGECACHE = false;
  async_zeropage : PAGECACHE_ZEROPAGE_OPTIMIZATION = false;
  async_write : THREADED_WRITE_TO_EXTERNRAM = true;
  async_prefetch : THREADED_PREFETCH = false;
  async_reinit : THREADED_REINIT = false;
  async_asyn : ASYNREAD = false
}.
#[export] Instance async_noreinit F : AsyncBuild F -> NoReinit F.
Proof. intros H. exact (async_reinit (AsyncBuild := H)). Qed.

(** * The handler's program points *)

Inductive hpc : Type :=
| HIdle
(** a page was moved out of its region into [p] and is not on the list yet; [back] is a
    buffer the interrupted fault still has to unmap *)
| HMoved (back : option ptr) (u a : Z) (p : ptr)
| HLook (u a : Z)                 (** at the top of the loop on the write list *)
| HWait (u a : Z)                 (** before [sem_wait(&ufhandler_sem)] *)
| HTaken (u a : Z) (p : ptr)      (** the page was pulled off the list *)
| HMiss (u a : Z)                 (** the page is not on the list *)
| HFetched (u a len : Z)          (** the page, if any, is in [read_tmp_page] *)
| HPlaced (p : ptr).              (** the page from the list is in place *)

(** What the handler does next: go on from where it is, or, where it is free to choose,
    evict a page or serve a fault.  Between any two of these it may work on the list of
    resident pages and the counters, which no other thread uses, or report an error. *)
Inductive choice : Type :=
| Go
| EvictPage (u a : Z)
| ServeFault (u a : Z)
| Book (b : LRUBuffer)
| Report.

Definition resume (back : option ptr) : hpc := match back with Some q => HPlaced q | None => HIdle end.

Section handler.
Context `{X : ExternRAM} `{F : BuildFlags, I : StaleIterator, WF : WriteFuel}.

(** The first half of [evict_to_externram]. *)
Definition move_out (back : option ptr) (u a : Z) : M world hpc :=
  r ← evict_retry 5 u a (-1) NULL;
  match r with
  | None => mret (resume back)
  | Some (ret, p) =>
      if ret =? 0 then w_stats StatsIncrPageEvicted_notlocked;; mret (HMoved back u a p)
      else free_page_checked p;; mret (resume back)
  end.

Definition handler_step (h : hpc) (ch : choice) : M world hpc :=
  match ch, h with
  | Book b, _ => mmod (set_lru b);; mret h
  | Report, _ => w_log_err;; mret h
  | Go, HIdle => mret HIdle
  | EvictPage u a, HIdle => move_out None u a
  | ServeFault u a, HIdle => w_stats StatsIncrPageFault_notlocked;; mret (HLook u a)
  | _, HMoved back u a p =>
      to_free ← write_out u a p;
      match to_free with Some q => free_page_checked q | None => mret tt end;;
      mret (resume back)
  | _, HLook u a =>
      r ← take_once u a;
      match r with
      | TakePage p => mret (HTaken u a p)
      | TakeNone => mret (HMiss u a)
      | TakeWait waiting => mwhen waiting (in_tio (sem_post Writer));; mret (HWait u a)
      end
  | _, HWait u a => in_tio (sem_wait Ufhandler);; mret (HLook u a)
  | _, HTaken u a p => copy_page u a p;; mret (HPlaced p)
  | _, HMiss u a => '(len, _) ← fetch_page u a; mret (HFetched u a len)
  | _, HFetched u a len =>
      if len =? PAGE_SIZE then src ← mgets read_tmp_page; copy_page u a src;; mret HIdle
      else if len =? 0 then fill_zero_page u a;; mret HIdle
      else mub BadFormat
  | EvictPage u a, HPlaced p => move_out (Some p) u a
  | _, HPlaced p => r ← in_sys (sys_munmap p); mwhen (r <? 0) w_log_err;; mret HIdle
  end.
End handler.

(** * The invariant *)

Section invariant.
Context `{X : ExternRAM} {L : ExternRAMLaws X} {B : BatchLaws L}.

Definition wlist (w : world) : uthash write_info := write_list (w_tio w).
Definition listed (w : world) (u a : Z) : option write_info := wl_get (wlist w) u a.

(** The page the handler has in its hands, and all buffers it will unmap or hand over. *)
Definition in_hand (h : hpc) : option (Z * Z * ptr) :=
  match h with HMoved _ u a p | HTaken u a p => Some (u, a, p) | _ => None end.
Definition hand_bufs (h : hpc) : list ptr :=
  match h with
  | HMoved back _ _ p => p :: option_list back
  | HTaken _ _ p | HPlaced p => [p]
  | _ => []
  end.
Definition private (w : world) (h : hpc) : list ptr :=
  hand_bufs h ++ (if copies_out then [read_tmp_page w] else []).

(** Buffers the write thread will unmap. *)
Definition garbage (t : wthread) : list ptr :=
  match pc t with
  | WtFinish _ true bufs | WtRelease true bufs _ => filter (fun q => q <> NULL) bufs
  | _ => []
  end.

(** What a process reads: the resident page, else the one in the handler's hands, else
    the one waiting to be written, else the stored one. *)
Definition aview (w : world) (h : hpc) (u a : Z) : page :=
  match app_page (w_os w) u a with
  | Some pg => pg
  | None =>
      default zero_page
        (match in_hand h with
         | Some (u', a', p) =>
             if decide (u = u' /\ a = a') then buf_page (w_os w) p
             else match listed w u a with
                  | Some e => buf_page (w_os w) (w_page e)
                  | None => stored_at w u a
                  end
         | None => match listed w u a with
                   | Some e => buf_page (w_os w) (w_page e)
                   | None => stored_at w u a
                   end
         end)
  end.

(** The batch of the write thread is exactly what is in flight. *)
Record flying (b : batch) (l : uthash write_info) : Prop := {
  fl_some : b_pages b <> [];
  fl_ufd : is_s32 (b_ufd b);
  fl_keys : NoDup (b_keys b);
  fl_here : forall a p, (a, p) ∈ b_pages b ->
    is_u64 a /\ wl_get l (b_ufd b) a = Some (WriteInfo (b_ufd b) a p true);
  fl_only : forall k e, get k l = Some e -> in_flight e = true -> e = WriteInfo (b_ufd b) (w_pageaddr e) (w_page e) true /\
    (w_pageaddr e, w_page e) ∈ b_pages b
}.
Definition grounded (l : uthash write_info) : Prop := forall k e, get k l = Some e -> in_flight e = false.

Definition writer_inv (w : world) (t : wthread) : Prop :=
  match pc t with
  | WtTop | WtWait => grounded (wlist w)
  | WtWrite b => flying b (wlist w) /\ forall p, p ∈ b_bufs b -> p ∉ owned (w_ext w)
  | WtFinish b _ _ => flying b (wlist w) /\
      forall a p, (a, p) ∈ b_pages b -> stored_at w (b_ufd b) a = buf_page (w_os w) p
  | WtRelease _ _ _ => grounded (wlist w)
  end.

(** A page of a registered region. *)
Definition page_addr (w : world) (u a : Z) : Prop := aligned a /\ is_s32 u /\ is_Some (client_of w u).

Definition fetched (w : world) (u a len : Z) : Prop :=
  match stored_at w u a with
  | Some pg => len = PAGE_SIZE /\ buf_page (w_os w) (read_tmp_page w) = Some pg /\
      (copies_out = false -> exists c, client_of w u = Some c /\ at_rest (w_ext w) c a = Some (read_tmp_page w))
  | None => len = 0
  end.

Definition handler_inv (w : world) (h : hpc) : Prop :=
  match h with
  | HIdle | HPlaced _ => True
  | HMoved _ u a _ | HTaken u a _ => page_addr w u a /\ app_page (w_os w) u a = None /\ listed w u a = None
  | HLook u a | HWait u a => page_addr w u a
  | HMiss u a => page_addr w u a /\ listed w u a = None
  | HFetched u a len => page_addr w u a /\ listed w u a = None /\ fetched w u a len
  end.

Record ainv (m : Z -> Z -> page) (w : world) (h : hpc) (t : wthread) : Prop := {
  ai_fd : fdmap_ok (w_fd w);
  ai_ext : ext_ok (w_ext w) (w_os w);
  ai_client : forall u c, is_s32 u -> client_of w u = Some c -> c ∈ clients (w_ext w) /\ c <> NULL;
  ai_distinct : forall u u' c, is_s32 u -> is_s32 u' ->
    client_of w u = Some c -> client_of w u' = Some c -> u = u';
  ai_list : wl_ok (wlist w);
(** pending pages are not resident, and belong to registered regions *)
  ai_entry : forall k e, get k (wlist w) = Some e ->
    page_addr w (w_ufd e) (w_pageaddr e) /\ app_page (w_os w) (w_ufd e) (w_pageaddr e) = None /\
    w_page e <> NULL /\ is_Some (buf_page (w_os w) (w_page e)) /\
    (in_flight e = false -> w_page e ∉ owned (w_ext w));
(** no buffer has two uses *)
  ai_bufs : forall k e k' e', get k (wlist w) = Some e -> get k' (wlist w) = Some e' ->
    w_page e = w_page e' -> k = k';
  ai_private : NoDup (private w h) /\ forall p, p ∈ private w h ->
    p <> NULL /\ (p ∉ owned (w_ext w)) /\ is_Some (buf_page (w_os w) p) /\
    forall k e, get k (wlist w) = Some e -> w_page e <> p;
  ai_garbage : NoDup (garbage t) /\ forall q, q ∈ garbage t ->
    (q ∉ owned (w_ext w)) /\ is_Some (buf_page (w_os w) q) /\ (q ∉ private w h) /\
    forall k e, get k (wlist w) = Some e -> in_flight e = false -> w_page e <> q;
  ai_writer : writer_inv w t;
  ai_handler : handler_inv w h;
  ai_view : forall u a, is_s32 u -> is_u64 a -> aview w h u a = m u a
}.
End invariant.

(** * Frame lemmas *)

Section frames.
Context `{X : ExternRAM} {L : ExternRAMLaws X} {B : BatchLaws L}.
Implicit Types (w : world) (h : hpc) (t : wthread).

(** Buffers someone relies on. *)
Definition inuse w h t (p : ptr) : Prop :=
  p ∈ owned (w_ext w) \/ p ∈ private w h \/ (exists k e, get k (wlist w) = Some e /\ w_page e = p) \/ p ∈ garbage t.

Lemma inuse_mapped m w h t p : ainv m w h t -> inuse w h t p -> is_Some (buf_page (w_os w) p).
Proof.
  intros A [H|[H|[(k & e & H & <-)|H]]].
  - by apply (owned_mapped _ _ _ (ai_ext _ _ _ _ A)).
  - by apply (ai_private _ _ _ _ A).
  - by apply (ai_entry _ _ _ _ A k).
  - by apply (ai_garbage _ _ _ _ A).
Qed.

(** A buffer nobody uses. *)
Definition unused w t (p : ptr) : Prop :=
  p <> NULL /\ (p ∉ owned (w_ext w)) /\ (forall k e, get k (wlist w) = Some e -> w_page e <> p) /\ p ∉ garbage t.

Lemma unmapped_unused m w h t p : ainv m w h t -> buf_page (w_os w) p = None -> p <> NULL ->
  unused w t p /\ p ∉ private w h.
Proof.
  intros A Hp Hn.
  assert (Hno : ~ inuse w h t p). { intros [x Hx]%(inuse_mapped m w h t p A). congruence. }
  split; [split; [done|]|]; [|intros H; apply Hno; by right; left].
  split; [intros H; apply Hno; by left|]. split; [intros k e H1 H2; apply Hno; right; right; left; eauto|].
  intros H. apply Hno. by right; right; right.
Qed.

(** The stored pages when the buffers in use are kept. *)
Lemma ainv_stored m w h t s' : ainv m w h t ->
  (forall p, inuse w h t p -> buf_page (s_os s') p = buf_page (w_os w) p) ->
  ext_ok (w_ext w) (s_os s') /\ forall u a, stored_at (set_sys s' w) u a = stored_at w u a.
Proof.
  intros A Hb. destruct (ext_frame (w_ext w) (w_os w) (s_os s')) as [Hok Hst].
  { apply A. }
  { intros p Hp. apply Hb. by left. }
  split; [done|]. intros u a. unfold stored_at. change (client_of (set_sys s' w) u) with (client_of w u).
  destruct (client_of w u); [apply Hst|done].
Qed.

Lemma fetched_sys m w h t s' u a len : ainv m w h t -> h = HFetched u a len ->
  (forall p, inuse w h t p -> buf_page (s_os s') p = buf_page (w_os w) p) ->
  fetched w u a len -> fetched (set_sys s' w) u a len.
Proof.
  intros A Hh Hb. unfold fetched. rewrite (proj2 (ainv_stored m w h t s' A Hb) u a).
  destruct (stored_at w u a) as [pg|]; [|done]. intros (Hl & Hpg & Hr). split; [done|]. split; [|exact Hr].
  change (buf_page (s_os s') (read_tmp_page w) = Some pg). rewrite Hb; [done|].
  destruct copies_out eqn:Ec.
  - right. left. unfold private. rewrite Ec. set_solver.
  - left. destruct (Hr eq_refl) as (c & _ & H). eapply at_rest_owned; [apply A|exact H].
Qed.

(** The write thread's part does not look at the regions. *)
Lemma writer_inv_sys m w h t s' : ainv m w h t ->
  (forall p, inuse w h t p -> buf_page (s_os s') p = buf_page (w_os w) p) -> writer_inv (set_sys s' w) t.
Proof.
  intros A Hb. pose proof (ai_writer _ _ _ _ A) as W. unfold writer_inv in *.
  destruct (pc t) as [|b|b fv bufs| |]; try done. destruct W as [Hf Hst]. split; [done|]. intros a p Hp.
  rewrite (proj2 (ainv_stored m w h t s' A Hb)), (Hst a p Hp). symmetry. apply Hb. right. right. left.
  destruct (fl_here _ _ Hf a p Hp) as [_ Hg]. eauto.
Qed.

(** The kernel and the handler move, the buffers in use stay. *)
Lemma ainv_kernel m m' w h h' t s' : ainv m w h t ->
  (forall p, inuse w h t p -> buf_page (s_os s') p = buf_page (w_os w) p) ->
  (forall k e, get k (wlist w) = Some e -> app_page (s_os s') (w_ufd e) (w_pageaddr e) = None) ->
  NoDup (private w h') ->
  (forall p, p ∈ private w h' -> p ∈ private w h \/ (unused w t p /\ is_Some (buf_page (s_os s') p))) ->
  handler_inv (set_sys s' w) h' ->
  (forall u a, is_s32 u -> is_u64 a -> aview (set_sys s' w) h' u a = m' u a) ->
  ainv m' (set_sys s' w) h' t.
Proof.
  intros A Hb Happ Hnd Hpriv Hh Hv. destruct (ainv_stored m w h t s' A Hb) as [Hok Hst].
  split; try apply A; try done.
  - intros k e He. destruct (ai_entry _ _ _ _ A k e He) as (H1 & H2 & H3 & H4 & H5).
    split; [done|]. split; [by eapply Happ|]. split; [done|]. split; [|done].
    change (is_Some (buf_page (s_os s') (w_page e))). rewrite Hb; [done|]. right. right. left. eauto.
  - split; [done|]. intros p Hp. change (w_os (set_sys s' w)) with (s_os s').
    destruct (Hpriv p Hp) as [Hp'|[(H1 & H2 & H3 & _) H4]]; [|done].
    destruct (proj2 (ai_private _ _ _ _ A) p Hp') as (H1 & H2 & H3 & H4).
    split; [done|]. split; [done|]. split; [|done]. rewrite Hb; [done|]. by right; left.
  - destruct (ai_garbage _ _ _ _ A) as [Hn Hg]. split; [done|]. intros q Hq.
    destruct (Hg q Hq) as (H1 & H2 & H3 & H4). split; [done|]. split; [|split; [|done]].
    + change (is_Some (buf_page (s_os s') q)). rewrite Hb; [done|]. by right; right; right.
    + intros Hin. destruct (Hpriv q Hin) as [?|[(_ & _ & _ & ?) _]]; done.
  - by eapply writer_inv_sys.
Qed.

Lemma aview_sys m w h t s' u a : ainv m w h t ->
  (forall p, inuse w h t p -> buf_page (s_os s') p = buf_page (w_os w) p) ->
  app_page (s_os s') u a = app_page (w_os w) u a -> aview (set_sys s' w) h u a = aview w h u a.
Proof.
  intros A Hb Ha. unfold aview. change (w_os (set_sys s' w)) with (s_os s'). rewrite Ha.
  destruct (app_page (w_os w) u a); [done|]. f_equal. change (listed (set_sys s' w)) with (listed w).
  rewrite (proj2 (ainv_stored m w h t s' A Hb)).
  assert (Hl : match listed w u a with Some e => buf_page (s_os s') (w_page e) | None => stored_at w u a end =
               match listed w u a with Some e => buf_page (w_os w) (w_page e) | None => stored_at w u a end).
  { destruct (listed w u a) as [e|] eqn:E; [|done]. apply Hb. right. right. left. eauto. }
  rewrite Hl. destruct (in_hand h) as [[[u' a'] p]|] eqn:Eh; [|done]. case_decide; [|done].
  apply Hb. right. left. unfold private. destruct h; simplify_eq/=; set_solver.
Qed.

(** The kernel moves, nothing the monitor relies on changes. *)
Lemma ainv_quiet m w h t s' : ainv m w h t -> same_app (w_os w) (s_os s') ->
  (forall p, inuse w h t p -> buf_page (s_os s') p = buf_page (w_os w) p) -> ainv m (set_sys s' w) h t.
Proof.
  intros A Ha Hb. apply (ainv_kernel m m w h h t s' A Hb).
  - intros k e He. rewrite Ha. by apply (ai_entry _ _ _ _ A k).
  - apply A.
  - by left.
  - pose proof (ai_handler _ _ _ _ A) as H. unfold handler_inv in *. destruct h; try done.
    + change (w_os (set_sys s' w)) with (s_os s'). by rewrite Ha.
    + change (w_os (set_sys s' w)) with (s_os s'). by rewrite Ha.
    + destruct H as (H1 & H2 & H3). split; [done|]. split; [done|]. by eapply fetched_sys.
  - intros u a Hu Hw. rewrite (aview_sys m w h t s') by done. by apply A.
Qed.

(** Flags and semaphores do not matter. *)
Lemma ainv_tio m w h t (x : tio) : ainv m w h t -> write_list x = wlist w -> ainv m (set_tio x w) h t.
Proof.
  intros A Hl. destruct A as [A1 A2 A3 A4 A5 A6 A7 A8 A9 A10 A11 A12].
  assert (Hwl : wlist (set_tio x w) = wlist w) by done. split; try done; rewrite ?Hwl; try done.
  - unfold writer_inv in *. rewrite Hwl. destruct (pc t); done.
  - unfold handler_inv, listed in *. rewrite Hwl. destruct h; done.
  - intros u a Hu Hv. rewrite <- (A12 u a Hu Hv). unfold aview, listed. by rewrite Hwl.
Qed.
End frames.

(** * The write thread *)

Section writer.
Context {OSI : OS} {OL : OSLaws OSI} {X : ExternRAM} {L : ExternRAMLaws X} {B : BatchLaws L}.
Context {F : BuildFlags} {AB : AsyncBuild F} {WF : WriteFuel} {EF : EnoughFuel L WF}.
Implicit Types (w : world) (h : hpc) (t : wthread).

Lemma wlist_tio (x : tio) w : wlist (set_tio x w) = write_list x.
Proof. done. Qed.

(** ** Taking a batch *)

Lemma chosen_entry es e : e ∈ chosen es -> e ∈ es /\ w_ufd e = first_ufd es.
Proof. intros H%subseteq_take. apply list_elem_of_filter in H. tauto. Qed.

Lemma entries_NoDup l : wl_ok l -> NoDup (w_key <$> entries l).
Proof. intros Hok. apply keyed_NoDup, Hok. Qed.

Lemma marked_get ks l l' k e' : marked ks l l' -> get k l' = Some e' ->
  exists e, get k l = Some e /\ e' = if decide (k ∈ ks) then mark_in_flight e else e.
Proof. intros [_ M] H. rewrite M in H. destruct (get k l) as [e|]; [|done]. injection H as <-. eauto. Qed.

Lemma chosen_get l e : wl_ok l -> e ∈ chosen (entries l) -> get (w_key e) l = Some e.
Proof. intros Hok [He _]%chosen_entry. by apply (elem_of_entries w_key l e (wl_keyed _ Hok)). Qed.

Lemma flying_chosen l l' : wl_ok l -> grounded l -> marked (w_key <$> chosen (entries l)) l l' -> entries l <> [] ->
  flying (Batch (first_ufd (entries l)) (entry_page <$> chosen (entries l))) l'.
Proof.
  intros Hok Hg M Hne. set (es := entries l) in *.
  assert (Hr : forall e, e ∈ chosen es -> is_s32 (w_ufd e) /\ is_u64 (w_pageaddr e) /\ w_ufd e = first_ufd es).
  { intros e He. pose proof (chosen_get l e Hok He) as G. destruct (wl_range l Hok _ _ G).
    by destruct (chosen_entry _ _ He). }
  split; simpl.
  - unfold chosen, first_ufd. destruct es as [|e es']; [done|]. simpl. by rewrite filter_cons_True.
  - destruct es as [|e es'] eqn:E; [done|]. assert (He : e ∈ entries l) by (fold es; rewrite E; by left).
    apply (elem_of_entries w_key l e (wl_keyed _ Hok)) in He. by destruct (wl_range l Hok _ _ He).
  - unfold b_keys. simpl. rewrite <- list_fmap_compose.
    assert (Hnd : NoDup (w_key <$> chosen es)).
    { unfold chosen. rewrite fmap_take. eapply sublist_NoDup; [|apply sublist_take]. apply NoDup_fmap_filter, entries_NoDup, Hok. }
    clear -Hnd Hr. revert Hnd Hr. generalize (chosen es). intros sel. induction sel as [|e sel IH]; intros Hnd Hr; [by constructor|].
    rewrite fmap_cons in Hnd. rewrite fmap_cons. apply NoDup_cons in Hnd as [Hn Hnd]. apply NoDup_cons.
    split; [|apply IH; [done|intros x Hx; apply Hr; by right]].
    intros (e' & Ea & He')%list_elem_of_fmap. apply Hn, list_elem_of_fmap. exists e'. split; [|done].
    unfold w_key. simpl in Ea. rewrite Ea. destruct (Hr e) as (_ & _ & ->); [by left|].
    destruct (Hr e') as (_ & _ & ->); [by right|done].
  - intros a p (e & [= -> ->] & He)%list_elem_of_fmap. destruct (Hr e He) as (? & ? & Hu). split; [done|].
    unfold wl_get. rewrite <- Hu. change (info_key (w_ufd e) (w_pageaddr e)) with (w_key e).
    rewrite (proj2 M), (chosen_get l e Hok He). simpl. by rewrite decide_True by by apply list_elem_of_fmap_2.
  - intros k e' Hk Hfl. destruct (marked_get _ _ _ _ _ M Hk) as (e & He & ->). case_decide as D.
    2:{ rewrite (Hg k e He) in Hfl. done. }
    apply list_elem_of_fmap in D as (e1 & -> & He1). rewrite (chosen_get l e1 Hok He1) in He. injection He as <-.
    destruct (Hr e1 He1) as (_ & _ & <-). split; [done|]. apply list_elem_of_fmap. by exists e1.
Qed.

Lemma ainv_marked m w h t l' (x : tio) t' : ainv m w h t -> grounded (wlist w) -> entries (wlist w) <> [] ->
  keyed w_key l' -> marked (w_key <$> chosen (entries (wlist w))) (wlist w) l' -> write_list x = l' ->
  pc t' = WtWrite (Batch (first_ufd (entries (wlist w))) (entry_page <$> chosen (entries (wlist w)))) ->
  ainv m (set_tio x w) h t'.
Proof.
  intros A Hg Hne Hk M Hx Ht.
  assert (Hl : wlist (set_tio x w) = l') by done.
  assert (Hlist : forall u a, listed (set_tio x w) u a =
            (fun e => if decide (info_key u a ∈ w_key <$> chosen (entries (wlist w))) then mark_in_flight e else e) <$> listed w u a).
  { intros u a. unfold listed, wl_get. rewrite Hl. apply M. }
  pose proof A as [A1 A2 A3 A4 A5 A6 A7 A8 A9 A10 A11 A12].
  assert (Hgt : garbage t' = []) by (unfold garbage; by rewrite Ht).
  split; try done; rewrite ?Hl.
  - by eapply wl_ok_marked.
  - intros k e' He'. destruct (marked_get _ _ _ _ _ M He') as (e & He & ->). destruct (A6 k e He) as (H1 & H2 & H3 & H4 & H5).
    case_decide; done.
  - intros k1 e1 k2 e2 (e1' & H1 & ->)%(marked_get _ _ _ _ _ M) (e2' & H2 & ->)%(marked_get _ _ _ _ _ M) E.
    apply (A7 k1 e1' k2 e2' H1 H2). by repeat case_decide.
  - destruct A8 as [Hn Hp]. split; [done|]. intros p Hin. destruct (Hp p Hin) as (H1 & H2 & H3 & H4).
    do 3 (split; [done|]). intros k e (e' & He & ->)%(marked_get _ _ _ _ _ M). specialize (H4 k e' He). by case_decide.
  - rewrite Hgt. split; [by constructor|set_solver].
  - unfold writer_inv. rewrite Ht, Hl. split; [by apply flying_chosen|].
    intros p (a & -> & (e & [= ->] & He)%list_elem_of_fmap)%list_elem_of_fmap.
    pose proof (chosen_get _ e A5 He) as G. apply (A6 _ e G). by apply (Hg _ e G).
  - unfold handler_inv in *. destruct h; try done; rewrite Hlist; destruct_and?; split_and?; try done;
      by match goal with H : listed w _ _ = None |- _ => rewrite H end.
  - intros u a Hu Ha. rewrite <- (A12 u a Hu Ha). unfold aview.
    change (w_os (set_tio x w)) with (w_os w). change (stored_at (set_tio x w) u a) with (stored_at w u a).
    rewrite Hlist. destruct (listed w u a) as [e|]; [|done]. cbn [fmap option_fmap option_map].
    by case_decide.
Qed.

(** ** Writing the batch *)

Lemma flying_buf b l a p : flying b l -> (a, p) ∈ b_pages b ->
  exists e, wl_get l (b_ufd b) a = Some e /\ w_page e = p /\ in_flight e = true.
Proof. intros Hf Hp. destruct (fl_here _ _ Hf a p Hp) as [_ H]. eauto. Qed.

Lemma b_bufs_elem b p : p ∈ b_bufs b -> exists a, (a, p) ∈ b_pages b.
Proof. intros ([a q] & -> & H)%list_elem_of_fmap. eauto. Qed.

Lemma b_keys_elem b a : a ∈ b_keys b -> exists p, (a, p) ∈ b_pages b.
Proof. intros ([x p] & -> & H)%list_elem_of_fmap. eauto. Qed.

Lemma requests_keys b : req_key <$> b_requests b = b_keys b.
Proof. unfold b_requests, b_keys. by rewrite <- list_fmap_compose. Qed.
Lemma requests_bufs b : req_buf <$> b_requests b = b_bufs b.
Proof. unfold b_requests, b_bufs. by rewrite <- list_fmap_compose. Qed.

(** The buffers of a batch are distinct, because those of the list are. *)
Lemma flying_bufs_NoDup m w h t b : ainv m w h t -> flying b (wlist w) -> NoDup (b_bufs b).
Proof.
  intros A Hf. pose proof (fl_keys _ _ Hf) as Hk. pose proof (fl_here _ _ Hf) as Hh. unfold b_keys in Hk. unfold b_bufs.
  induction (b_pages b) as [|[a p] ps IH]; [by constructor|]. simpl in Hk |- *. apply NoDup_cons in Hk as [Hn Hk].
  apply NoDup_cons. split; [|apply IH; [done|intros; apply Hh; by right]].
  intros ([a' p'] & -> & Hp)%list_elem_of_fmap. simpl in *.
  destruct (Hh a p') as [Ha G]; [by left|]. destruct (Hh a' p') as [Ha' G']; [by right|].
  pose proof (ai_bufs _ _ _ _ A _ _ _ _ G G' eq_refl) as E.
  apply info_key_inj in E as [_ ->]; [|apply Hf|apply Hf|done|done]. apply Hn, list_elem_of_fmap. by exists (a', p').
Qed.

Lemma flying_batch_ok m w h t b : ainv m w h t -> flying b (wlist w) -> (forall p, p ∈ b_bufs b -> p ∉ owned (w_ext w)) ->
  batch_ok (b_requests b) (w_ext w) (w_os w).
Proof.
  intros A Hf Ho. split.
  - rewrite requests_keys. apply Hf.
  - rewrite requests_bufs. by eapply flying_bufs_NoDup.
  - intros r ([a p] & -> & Hp)%list_elem_of_fmap. unfold req_buf. simpl.
    destruct (flying_buf _ _ _ _ Hf Hp) as (e & G & <- & _).
    destruct (ai_entry _ _ _ _ A _ e G) as (_ & _ & Hn & Hm & _). split; [done|]. split; [done|]. split; [|done].
    apply Ho, list_elem_of_fmap. by exists (a, w_page e).
Qed.

(** The key of a page that is not listed is not in the batch. *)
Lemma not_in_batch m w h t b c u a c' : ainv m w h t -> flying b (wlist w) -> client_of w (b_ufd b) = Some c ->
  is_s32 u -> client_of w u = Some c' -> listed w u a = None -> ~ (c' = c /\ a ∈ req_key <$> b_requests b).
Proof.
  intros A Hf Hc Hu Hc' Hl [-> Ha]. rewrite requests_keys in Ha. apply b_keys_elem in Ha as [p Hp].
  assert (u = b_ufd b) as ->. { apply (ai_distinct _ _ _ _ A u (b_ufd b) c Hu); [apply Hf|done|done]. }
  destruct (flying_buf _ _ _ _ Hf Hp) as (e & G & _). unfold listed in Hl. congruence.
Qed.

Lemma written_garbage b w c sf data e' s' fr : batch_written at_rest c (b_requests b) (w_ext w) (w_sys w) sf data e' s' ->
  forall q, q ∈ garbage (WThread fr (WtFinish b sf data)) -> (q ∉ owned e') /\ (q ∈ b_bufs b \/ q ∈ owned (w_ext w)).
Proof.
  intros W q Hq. unfold garbage in Hq. simpl in Hq. destruct sf; [|set_solver].
  apply list_elem_of_filter in Hq as [Hn Hq]. destruct (bw_free _ _ _ _ _ _ _ _ _ W eq_refl) as [_ H].
  destruct (H q Hq Hn) as [H1 H2]. by rewrite requests_bufs in H2.
Qed.

Lemma ainv_written m w h t b c fr sf data e' s' : ainv m w h t -> pc t = WtWrite b ->
  client_of w (b_ufd b) = Some c ->
  batch_written at_rest c (b_requests b) (w_ext w) (w_sys w) sf data e' s' ->
  ainv m (set_ext (e', s') w) h (WThread fr (WtFinish b sf data)).
Proof.
  intros A Ht Hc W. pose proof (ai_writer _ _ _ _ A) as Wi. unfold writer_inv in Wi. rewrite Ht in Wi. destruct Wi as [Hf Hbo].
  pose proof (bw_tried _ _ _ _ _ _ _ _ _ W) as T. set (w' := set_ext (e', s') w).
  assert (Happ : same_app (w_os w) (w_os w')) by apply T.
  assert (Hbuf : forall p, buf_page (w_os w') p = buf_page (w_os w) p) by (intros p; apply same_buf_at, T).
  assert (Hown : forall p, p ∈ owned e' -> p ∈ b_bufs b \/ p ∈ owned (w_ext w)).
  { intros p [H|H]%(bw_owned _ _ _ _ _ _ _ _ _ W)%elem_of_union; [left|by right]. rewrite requests_bufs in H. by apply elem_of_list_to_set in H. }
  assert (Hst : forall u a, is_s32 u -> listed w u a = None -> stored_at w' u a = stored_at w u a /\
            forall c', client_of w u = Some c' -> at_rest e' c' a = at_rest (w_ext w) c' a).
  { intros u a Hu Hl. unfold stored_at. change (client_of w' u) with (client_of w u).
    destruct (client_of w u) as [c'|] eqn:Hc'; [|done].
    destruct (bt_other _ _ _ _ _ _ _ T c' a) as [H1 H2]; [by eapply not_in_batch|]. split; [exact H1|]. by intros ? [= <-]. }
  assert (Hlist : forall u a, listed w' u a = listed w u a) by done.
  assert (Hbent : forall p, p ∈ b_bufs b -> exists k e, get k (wlist w) = Some e /\ w_page e = p /\ in_flight e = true).
  { intros p [a Hp]%b_bufs_elem. destruct (flying_buf _ _ _ _ Hf Hp) as (e & G & H). eauto. }
  pose proof A as [A1 A2 A3 A4 A5 A6 A7 [Hpn Hpriv] A9 A10 A11 A12].
  split; try done.
  - apply T.
  - intros u c' Hu Hc'. change (c' ∈ clients e' /\ c' <> NULL). rewrite (bt_clients _ _ _ _ _ _ _ T). by apply (A3 u).
  - intros k e He. change (wlist w') with (wlist w) in He.
    destruct (A6 k e He) as (H1 & H2 & H3 & H4 & H5). split; [done|]. split; [by rewrite Happ|].
    split; [done|]. split; [by rewrite Hbuf|]. intros Hfl [H|H]%Hown; [|by apply H5].
    destruct (Hbent _ H) as (k' & x & G & Hx & Hxf). rewrite (A7 k e k' x He G) in He by done. congruence.
  - split; [done|]. intros p Hp. destruct (Hpriv p Hp) as (H1 & H2 & H3 & H4). split; [done|].
    split; [|split; [by rewrite Hbuf|done]]. intros [H|H]%Hown; [|done].
    destruct (Hbent _ H) as (k' & x & G & Hx & _). by apply (H4 k' x).
  - split.
    { unfold garbage. simpl. destruct sf; [|by constructor]. by apply (bw_free _ _ _ _ _ _ _ _ _ W). }
    intros q Hq. destruct (written_garbage b w c sf data e' s' fr W q Hq) as [H1 H2]. split; [done|]. rewrite Hbuf.
    destruct H2 as [H2|H2].
    + destruct (Hbent _ H2) as (k & x & G & <- & Hxf). destruct (A6 k x G) as (_ & _ & _ & H4 & _). split; [done|]. split.
      * intros Hp. by apply (proj2 (proj2 (proj2 (Hpriv _ Hp))) k x).
      * intros k' e He Hfl E. change (wlist w') with (wlist w) in He. rewrite (A7 k' e k x He G E) in He. congruence.
    + split; [by apply (owned_mapped _ _ _ A2)|]. split.
      * intros Hp. by apply (Hpriv q Hp).
      * intros k e He Hfl <-. by apply (A6 k e He).
  - split; [exact Hf|]. intros a p Hp. unfold stored_at. change (client_of w' (b_ufd b)) with (client_of w (b_ufd b)). rewrite Hc, Hbuf.
    apply (bw_stored _ _ _ _ _ _ _ _ _ W ((a, p), PAGE_SIZE)). apply list_elem_of_fmap. by exists (a, p).
  - unfold handler_inv in *. destruct h; try done; rewrite ?Hlist, ?Happ; try done.
    destruct A11 as ((Hal & Hu & Hcu) & Hl & Hft). split; [done|]. split; [done|]. unfold fetched in *.
    destruct (Hst u a Hu Hl) as [-> Hrest]. destruct (stored_at w u a); [|done]. rewrite Hbuf. destruct Hft as (? & ? & Hr).
    split; [done|]. split; [done|]. intros Hco. destruct (Hr Hco) as (c' & Hc' & Hrr). exists c'. split; [done|].
    change (at_rest e' c' a = Some (read_tmp_page w)). by rewrite (Hrest c' Hc').
  - intros u a Hu Ha. rewrite <- (A12 u a Hu Ha). unfold aview. rewrite Happ, Hlist. destruct (app_page (w_os w) u a); [done|].
    f_equal.
    assert (E : match listed w u a with Some e => buf_page (w_os w') (w_page e) | None => stored_at w' u a end =
                match listed w u a with Some e => buf_page (w_os w) (w_page e) | None => stored_at w u a end).
    { destruct (listed w u a) eqn:El; [apply Hbuf|by apply Hst]. }
    rewrite E. destruct (in_hand h) as [[[u' a'] p]|]; [|done]. by rewrite Hbuf.
Qed.

Lemma get_client_run w u c : fdmap_ok (w_fd w) -> client_of w u = Some c -> in_fd (get_client_by_fd u) w = Ok (c, w).
Proof.
  intros Hfd Hc. unfold in_fd, zoom. rewrite get_client_by_fd_run by done. unfold client_of in Hc.
  destruct (find_fd u (fdUpidMap (w_fd w))) as [ms|]; [|done]. injection Hc as <-. by destruct w.
Qed.

(** A batch is never empty, so its descriptor has a client. *)
Lemma flying_client m w h t b : ainv m w h t -> flying b (wlist w) ->
  exists c, client_of w (b_ufd b) = Some c.
Proof.
  intros A Hf. pose proof (fl_some _ _ Hf) as Hne. destruct (b_pages b) as [|[a p] ps] eqn:E; [done|].
  destruct (flying_buf b (wlist w) a p Hf) as (e & G & _); [rewrite E; by left|].
  destruct (ai_entry _ _ _ _ A _ e G) as ((_ & _ & [c Hc]) & _).
  destruct (fl_here _ _ Hf a p) as [_ G']; [rewrite E; by left|]. unfold wl_get in *. rewrite G in G'. injection G' as ->. by exists c.
Qed.

Lemma write_batch_run m w h t b fr : ainv m w h t -> pc t = WtWrite b ->
  exists sf data e' s', write_batch b w = Ok ((sf, data), set_ext (e', s') w) /\
    ainv m (set_ext (e', s') w) h (WThread fr (WtFinish b sf data)) /\
    err_le (w_sys w) s' /\ same_app (w_os w) (s_os s').
Proof.
  intros A Ht. pose proof (ai_writer _ _ _ _ A) as Wi. unfold writer_inv in Wi. rewrite Ht in Wi. destruct Wi as [Hf Hbo].
  destruct (flying_client m w h t b A Hf) as [c Hc].
  destruct (ai_client _ _ _ _ A (b_ufd b) c) as [Hcl Hcn]; [apply Hf|done|].
  destruct (writePages_loop_spec write_fuel 0 c (b_requests b) (w_ext w) (w_sys w)) as (sf & data & e' & s' & E & W);
    [apply A|done|by eapply flying_batch_ok|apply enough_fuel|].
  exists sf, data, e', s'. split; [|split; [by eapply ainv_written|split; apply (bw_tried _ _ _ _ _ _ _ _ _ W)]].
  unfold write_batch, mbind, M_bind. rewrite (get_client_run w _ c) by (done || apply A). rewrite decide_False by done.
  unfold in_ext, zoom, writePages. by rewrite E.
Qed.

(** ** Removing the batch from the list *)

Lemma miter_tio_dbg {A} (f : A -> M (tio * dbg) unit) l w :
  miter (fun x => in_tio_dbg (f x)) l w = in_tio_dbg (miter f l) w.
Proof.
  revert w. induction l as [|x l IH]; intros w.
  - unfold in_tio_dbg, zoom. simpl. by destruct w as [[]].
  - cbn [miter]. unfold mbind, M_bind. unfold in_tio_dbg at 1 3, zoom.
    destruct (f x (w_tio w, s_dbg (w_sys w))) as [[[] [t1 d1]]| |]; [|done|done].
    rewrite IH. unfold in_tio_dbg, zoom. simpl. by destruct (miter f l (t1, d1)) as [[[] [t2 d2]]| |].
Qed.

Lemma ainv_finished m w h t b fr sf data (x : tio) waiting : ainv m w h t -> pc t = WtFinish b sf data ->
  wl_ok (write_list x) ->
  (forall u a, is_s32 u -> is_u64 a -> wl_get (write_list x) u a =
     if decide (u = b_ufd b /\ a ∈ b_keys b) then None else listed w u a) ->
  ainv m (set_tio x w) h (WThread fr (WtRelease sf data waiting)).
Proof.
  intros A Ht Hok Hget. pose proof (ai_writer _ _ _ _ A) as Wi. unfold writer_inv in Wi. rewrite Ht in Wi. destruct Wi as [Hf Hst].
  assert (Hl : wlist (set_tio x w) = write_list x) by done.
  assert (Hsub : forall k e, get k (write_list x) = Some e -> get k (wlist w) = Some e /\
            ~ (w_ufd e = b_ufd b /\ w_pageaddr e ∈ b_keys b)).
  { intros k e He. destruct (wl_range _ Hok k e He) as [H1 H2]. pose proof (get_key w_key _ k e (wl_keyed _ Hok) He) as <-.
    specialize (Hget (w_ufd e) (w_pageaddr e) H1 H2). change (wl_get (write_list x) (w_ufd e) (w_pageaddr e)) with (get (w_key e) (write_list x)) in Hget.
    rewrite He in Hget. by case_decide. }
  assert (Hlist : forall u a, is_s32 u -> is_u64 a -> listed (set_tio x w) u a =
            if decide (u = b_ufd b /\ a ∈ b_keys b) then None else listed w u a) by exact Hget.
  pose proof A as [A1 A2 A3 A4 A5 A6 A7 [Hpn Hpriv] [Hgn Hgar] A10 A11 A12].
  assert (Hg : garbage (WThread fr (WtRelease sf data waiting)) = garbage t) by (unfold garbage; by rewrite Ht).
  split; try done; rewrite ?Hl.
  - intros k e [He _]%Hsub. by apply (A6 k e).
  - intros k1 e1 k2 e2 [H1 _]%Hsub [H2 _]%Hsub. by apply A7.
  - split; [done|]. intros p Hp. destruct (Hpriv p Hp) as (H1 & H2 & H3 & H4). do 3 (split; [done|]).
    intros k e [He _]%Hsub. by apply (H4 k).
  - rewrite Hg. split; [done|]. intros q Hq. destruct (Hgar q Hq) as (H1 & H2 & H3 & H4). do 3 (split; [done|]).
    intros k e [He _]%Hsub. by apply (H4 k).
  - intros k e [He Hn]%Hsub. destruct (in_flight e) eqn:Efl; [|done]. destruct Hn.
    destruct (fl_only _ _ Hf k e He Efl) as [E Hp]. split; [by rewrite E|]. unfold b_keys. apply list_elem_of_fmap.
    by exists (w_pageaddr e, w_page e).
  - unfold handler_inv, page_addr in *. destruct h; try done; destruct_and?; split_and?; try done;
      (rewrite Hlist; [|done|by match goal with H : aligned _ |- _ => apply H end]); by case_decide.
  - intros u a Hu Ha. rewrite <- (A12 u a Hu Ha). unfold aview. rewrite Hlist by done.
    change (w_os (set_tio x w)) with (w_os w). change (stored_at (set_tio x w) u a) with (stored_at w u a).
    destruct (app_page (w_os w) u a) eqn:Eapp; [done|]. f_equal.
    assert (E : match (if decide (u = b_ufd b /\ a ∈ b_keys b) then None else listed w u a) with
                | Some e => buf_page (w_os w) (w_page e) | None => stored_at w u a end =
                match listed w u a with Some e => buf_page (w_os w) (w_page e) | None => stored_at w u a end).
    { case_decide as D; [|done]. destruct D as [-> [p Hp]%b_keys_elem]. rewrite (Hst a p Hp).
      destruct (fl_here _ _ Hf a p Hp) as [_ G]. unfold listed. by rewrite G. }
    by rewrite E.
Qed.

Lemma finish_batch_run m w h t b fr sf data : ainv m w h t -> pc t = WtFinish b sf data ->
  exists x, finish_batch b w = Ok (isUfhandlerWaiting (w_tio w), set_tio x w) /\
    ainv m (set_tio x w) h (WThread fr (WtRelease sf data (isUfhandlerWaiting (w_tio w)))) /\
    x = set_write_list (write_list x) (w_tio w) /\
    (forall u a, is_s32 u -> is_u64 a -> wl_get (write_list x) u a =
       if decide (u = b_ufd b /\ a ∈ b_keys b) then None else listed w u a).
Proof.
  intros A Ht. pose proof (ai_writer _ _ _ _ A) as Wi. unfold writer_inv in Wi. rewrite Ht in Wi. destruct Wi as [Hf _].
  destruct (del_keys_run (b_ufd b) (b_keys b) (w_tio w) (s_dbg (w_sys w))) as (h' & E & Hok & Hget).
  { apply A. } { apply Hf. } { apply Hf. }
  { intros a [p Hp]%b_keys_elem. destruct (fl_here _ _ Hf a p Hp) as [? G]. split; [done|]. by eexists. }
  exists (set_write_list h' (w_tio w)). split; [|split; [by eapply ainv_finished|by split]].
  unfold finish_batch, mbind, M_bind. rewrite miter_tio_dbg. unfold in_tio_dbg, zoom. rewrite E. by destruct w as [[]].
Qed.

(** ** Releasing buffers and waking the others *)

Lemma ainv_writer m w h t t' : ainv m w h t -> garbage t' `sublist_of` garbage t -> writer_inv w t' -> ainv m w h t'.
Proof.
  intros A Hs Hw. destruct A as [A1 A2 A3 A4 A5 A6 A7 A8 [Hn Hg] A10 A11 A12]. split; try done. split.
  - by eapply sublist_NoDup.
  - intros q Hq. apply Hg. revert q Hq. by apply sublist_subseteq.
Qed.

Lemma free_bufs_run m h fr waiting bufs : forall w, ainv m w h (WThread fr (WtRelease true bufs waiting)) ->
  exists s', miter (fun p => if decide (p = NULL) then mret tt else free_page_checked p) bufs w = Ok (tt, set_sys s' w) /\
    ainv m (set_sys s' w) h (WThread fr WtTop) /\ err_le (w_sys w) s' /\ same_app (w_os w) (s_os s').
Proof.
  induction bufs as [|p bufs IH]; intros w A.
  - exists (w_sys w). rewrite set_sys_sys. split; [done|]. split; [|by split; [unfold err_le|]].
    eapply ainv_writer; [done|apply sublist_nil_l|]. exact (ai_writer _ _ _ _ A).
  - cbn [miter]. unfold mbind, M_bind.
    assert (A1 : ainv m w h (WThread fr (WtRelease true bufs waiting))).
    { eapply ainv_writer; [exact A| |exact (ai_writer _ _ _ _ A)]. unfold garbage. cbn [pc].
      destruct (decide (p = NULL)); [rewrite filter_cons_False by tauto; done|].
      rewrite filter_cons_True by done. by constructor. }
    destruct (decide (p = NULL)) as [->|Hp].
    { exact (IH w A1). }
    destruct (free_page_checked_run p (w_sys w) w) as (s1 & E1 & Ha1 & Hb1 & _ & He1).
    rewrite set_sys_sys in E1. rewrite E1.
    assert (A2 : ainv m (set_sys s1 w) h (WThread fr (WtRelease true bufs waiting))).
    { apply (ainv_quiet m w h); [done|done|]. intros q Hq. apply Hb1, not_elem_of_singleton. intros ->.
      destruct (ai_garbage _ _ _ _ A) as [Hn Hg]. unfold garbage in Hn, Hg. simpl in Hn, Hg.
      rewrite filter_cons_True in Hn, Hg by done. apply NoDup_cons in Hn as [Hn _].
      destruct (Hg p) as (H1 & H2 & H3 & H4); [by left|].
      destruct Hq as [H|[H|[(k & e & G & H)|H]]]; [done|done| |done].
      by apply (H4 k e G (ai_writer _ _ _ _ A k e G)). }
    destruct (IH _ A2) as (s2 & E2 & A3 & He2 & Ha2). exists s2. rewrite E2. split; [done|]. split; [done|].
    split; [unfold err_le in *; simpl in He2; lia|]. by eapply same_app_trans.
Qed.

(** ** One step *)

(** A handler about to wait finds the semaphore raised, or the write thread on its way
    to raise it. *)
Definition live w h t : Prop :=
  0 <= ufhandler_sem (w_tio w) /\
  match h with
  | HWait _ _ =>
      0 < ufhandler_sem (w_tio w) \/
      match pc t with
      | WtWrite _ | WtFinish _ _ _ => isUfhandlerWaiting (w_tio w) = true
      | WtRelease _ _ waiting => waiting = true
      | _ => False
      end
  | _ => True
  end.

(** What a step of the write thread leaves alone. *)
Record writer_frame w w' : Prop := {
  wf_fd : w_fd w' = w_fd w;
  wf_app : same_app (w_os w) (w_os w');
  wf_err : (errors w <= errors w')%nat;
  wf_flush : flushWriteListNeeded (w_tio w') = flushWriteListNeeded (w_tio w)
}.

Lemma select_step_ok m w h fr : ainv m w h (WThread fr WtTop) -> live w h (WThread fr WtTop) ->
  exists t' w', writer_step (WThread fr WtTop) w = Ok (t', w') /\
    ainv m w' h t' /\ live w' h t' /\ writer_frame w w'.
Proof.
  intros A [Hs Hl]. pose proof (ai_writer _ _ _ _ A) as Hg. unfold writer_step. cbn [pc flushRemaining]. unfold mbind, M_bind, in_tio, zoom.
  destruct (select_batch_run fr (w_tio w) (ai_list _ _ _ _ A)) as
    [(h' & more & Hne & -> & Hk & M & Hmore)|(x & -> & Hwl & Huf & Hus & _ & Hfl & _)].
  - eexists _, _. split; [reflexivity|]. split; [by eapply ainv_marked|]. split; [|by split]. split; [done|].
    destruct h; try done. destruct Hl as [Hl|[]]. by left.
  - eexists _, _. split; [reflexivity|]. split; [|split; [|by split]].
    + apply ainv_tio; [|done]. destruct fr; [done|]. eapply ainv_writer; [exact A|done|exact Hg].
    + unfold live. simpl. rewrite Hus. split; [done|]. destruct h; try done. destruct Hl as [Hl|[]]. by left.
Qed.

Lemma release_step_ok m w h fr fv bufs waiting (t := WThread fr (WtRelease fv bufs waiting)) : ainv m w h t -> live w h t ->
  exists t' w', writer_step t w = Ok (t', w') /\ ainv m w' h t' /\ live w' h t' /\ writer_frame w w' /\ wlist w' = wlist w.
Proof.
  intros A [Hs Hl]. unfold writer_step, t. cbn [pc flushRemaining]. unfold release_batch.
  assert (Hpost : forall y (b : bool) w1 t1, ainv m w1 h t1 -> exists x, mwhen b (in_tio (sem_post y)) w1 = Ok (tt, set_tio x w1) /\
    ainv m (set_tio x w1) h t1 /\ (b = false -> x = w_tio w1) /\ (b = true -> y = Ufhandler -> ufhandler_sem x = ufhandler_sem (w_tio w1) + 1) /\
    (y <> Ufhandler -> ufhandler_sem x = ufhandler_sem (w_tio w1)) /\
    write_list x = wlist w1 /\ flushWriteListNeeded x = flushWriteListNeeded (w_tio w1)).
  { intros y b w1 t1 A1. destruct b.
    - eexists. split; [reflexivity|]. split; [by apply ainv_tio; [|destruct y]|]. split; [done|].
      split; [by intros _ ->|]. by destruct y.
    - exists (w_tio w1). split; [by destruct w1|]. split; [by apply ainv_tio|done]. }
  destruct (Hpost FlushedWrite (negb fr) w t A) as (x1 & E1 & A1 & _ & _ & Hs1 & Hw1 & Hn1).
  assert (Hfree : exists s2, mwhen fv (miter (fun p => if decide (p = NULL) then mret tt else free_page_checked p) bufs) (set_tio x1 w)
    = Ok (tt, set_sys s2 (set_tio x1 w)) /\ ainv m (set_sys s2 (set_tio x1 w)) h (WThread fr WtTop) /\ err_le (w_sys w) s2 /\ same_app (w_os w) (s_os s2)).
  { destruct fv; cbn [mwhen].
    - destruct (free_bufs_run m h fr waiting bufs (set_tio x1 w) A1) as (s2 & E2 & A2 & He2 & Ha2). by exists s2.
    - exists (w_sys w). split; [by destruct w|]. split; [|by split; [unfold err_le|]].
      eapply ainv_writer; [destruct w; exact A1|done|]. exact (ai_writer _ _ _ _ A1). }
  destruct Hfree as (s2 & E2 & A2 & He2 & Ha2).
  destruct (Hpost Ufhandler waiting _ _ A2) as (x3 & E3 & A3 & Hf3 & Ht3 & _ & Hw3 & Hn3).
  unfold mbind, M_bind. rewrite E1, E2, E3. eexists _, _. split; [reflexivity|]. split; [exact A3|].
  assert (Hlist : write_list x3 = wlist w) by (rewrite Hw3; exact Hw1).
  assert (Hneed : flushWriteListNeeded x3 = flushWriteListNeeded (w_tio w)) by (rewrite Hn3; exact Hn1).
  split; [|by split; [split|]].
  unfold live. simpl. destruct waiting.
  - rewrite Ht3 by done. simpl. rewrite Hs1 by done. split; [lia|]. destruct h; try done. left. lia.
  - rewrite Hf3 by done. simpl. rewrite Hs1 by done. split; [done|]. destruct h; try done. by destruct Hl as [Hl|Hl]; [left|].
Qed.

(** A step of the write thread keeps the invariant; it stops only at its own semaphore. *)
Lemma writer_step_ok m w h t : ainv m w h t -> live w h t ->
  (exists t' w', writer_step t w = Ok (t', w') /\ ainv m w' h t' /\ live w' h t' /\ writer_frame w w') \/
  (pc t = WtWait /\ writer_step t w = Blocked).
Proof.
  intros A Hl. destruct t as [fr [|b|b fv bufs|fv bufs waiting|]].
  - left. by apply select_step_ok.
  - left. destruct (write_batch_run m w h _ b fr A eq_refl) as (sf & data & e' & s' & E & A' & He & Ha).
    unfold writer_step, mbind, M_bind. cbn [pc flushRemaining]. rewrite E.
    eexists _, _. split; [reflexivity|]. split; [done|]. split; [exact Hl|]. by split.
  - left. destruct (finish_batch_run m w h _ b fr fv bufs A eq_refl) as (x & E & A' & Hx & _).
    unfold writer_step, mbind, M_bind. cbn [pc flushRemaining]. rewrite E.
    eexists _, _. split; [reflexivity|]. split; [exact A'|]. rewrite Hx. split; [exact Hl|by split].
  - left. destruct (release_step_ok m w h fr fv bufs waiting A Hl) as (t' & w' & ? & ? & ? & ? & _). by exists t', w'.
  - unfold writer_step, mbind, M_bind. cbn [pc flushRemaining]. unfold in_tio, zoom, sem_wait. simpl.
    destruct (0 <? writer_sem (w_tio w)); [left|by right].
    eexists _, _. split; [reflexivity|]. split; [|by split].
    apply ainv_tio; [|done]. eapply ainv_writer; [exact A|done|exact (ai_writer _ _ _ _ A)].
Qed.
End writer.
