(* ===== verification/AsyncHandler.v ===== *)
(** The handler beside the write thread: every step of the handler, from any of its
    program points, keeps the invariant of [Async]. *)
From S2P Require Import Prelude Config MonitorStats Os LruBuffer UtHash ExternRam ThreadedIo Upid.
From S2P Require Import BufferAllocator PageCache World PageCacheRead Userfault WriteThread Consistency Async.

Section handler.
Context {OSI : OS} {OL : OSLaws OSI} {X : ExternRAM} {L : ExternRAMLaws X} {B : BatchLaws L}.
Context {F : BuildFlags} {AB : AsyncBuild F} {I : StaleIterator} {WF : WriteFuel}.
Implicit Types (w : world) (h : hpc) (t : wthread).

(** A page that may be evicted: resident, or never seen. *)
Definition amovable w (u a : Z) : Prop :=
  is_Some (app_page (w_os w) u a) \/ (listed w u a = None /\ stored_at w u a = None).
Definition choice_ok w (ch : choice) : Prop :=
  match ch with
  | Go => True
  | EvictPage u a => page_addr w u a /\ amovable w u a
  | ServeFault u a => page_addr w u a
  | Book _ | Report => True
  end.

(** The outcome of a step: unless it reported an error, the invariant holds. *)
Record stepped (m : Z -> Z -> page) w t h' w' : Prop := {
  sd_fd : w_fd w' = w_fd w;
  sd_err : (errors w <= errors w')%nat;
  sd_inv : errors w' = errors w -> ainv m w' h' t /\ live w' h' t
}.

(** Program points that hold the same buffers and no page. *)
Lemma ainv_goto m w h h' t : ainv m w h t -> private w h' `sublist_of` private w h -> in_hand h = None -> in_hand h' = None ->
  handler_inv w h' -> ainv m w h' t.
Proof.
  intros A Hs Hh Hh' Hi. destruct A as [A1 A2 A3 A4 A5 A6 A7 [Hn Hp] [Hgn Hg] A10 A11 A12]. split; try done.
  - split; [by eapply sublist_NoDup; [exact Hn|]|]. intros p Hin. apply Hp. revert p Hin. by apply sublist_subseteq.
  - split; [done|]. intros q Hq. destruct (Hg q Hq) as (H1 & H2 & H3 & H4). do 2 (split; [done|]). split; [|done].
    intros Hin. apply H3. clear -Hs Hin. revert q Hin. by apply sublist_subseteq.
  - intros u a Hu Ha. rewrite <- (A12 u a Hu Ha). unfold aview. by rewrite Hh, Hh'.
Qed.

Lemma private_resume w back u a p : private w (HMoved back u a p) = p :: private w (resume back).
Proof. by destruct back. Qed.

(** A resident page is not on the list. *)
Lemma resident_not_listed m w h t u a : ainv m w h t -> is_s32 u -> is_u64 a -> is_Some (app_page (w_os w) u a) -> listed w u a = None.
Proof.
  intros A Hu Ha [pg Hpg]. destruct (listed w u a) as [e|] eqn:E; [|done].
  destruct (wl_get_fields _ u a e (ai_list _ _ _ _ A) Hu Ha E) as [E1 E2].
  destruct (ai_entry _ _ _ _ A _ e E) as (_ & H & _). rewrite E1, E2 in H. congruence.
Qed.

(** ** Moving a page out *)

Lemma moved_view m w t back u a p s' : ainv m w (resume back) t -> page_addr w u a -> amovable w u a ->
  (forall q, inuse w (resume back) t q -> buf_page (s_os s') q = buf_page (w_os w) q) ->
  app_page (s_os s') u a = None -> same_app_but u a (w_os w) (s_os s') ->
  buf_page (s_os s') p = Some (default zero_page (app_page (w_os w) u a)) ->
  forall u' a', is_s32 u' -> is_u64 a' -> aview (set_sys s' w) (HMoved back u a p) u' a' = m u' a'.
Proof.
  intros A (Hal & Hu & _) Hmov Hb Hgone Happ Hpg u' a' Hu' Ha'. rewrite <- (ai_view _ _ _ _ A u' a' Hu' Ha').
  destruct (decide ((u', a') = (u, a))) as [[= -> ->]|Hne].
  - unfold aview. cbn [in_hand]. change (w_os (set_sys s' w)) with (s_os s'). rewrite Hgone, decide_True, Hpg by done.
    destruct (app_page (w_os w) u a) eqn:E; [done|]. destruct Hmov as [[? Hm]|[Hm1 Hm2]]; [congruence|].
    rewrite Hm1, Hm2. by destruct back.
  - rewrite <- (aview_sys m w (resume back) t s' u' a' A Hb) by by apply Happ. unfold aview. cbn [in_hand].
    rewrite decide_False by (intros [-> ->]; done). by destruct back.
Qed.

Lemma move_out_ok m w t back u a : ainv m w (resume back) t -> live w (resume back) t -> page_addr w u a -> amovable w u a ->
  exists h' w', move_out back u a w = Ok (h', w') /\ stepped m w t h' w'.
Proof.
  intros A Hl Hpa Hmov. pose proof Hpa as (Hal & Hu & Hc). unfold move_out, mbind, M_bind.
  destruct (evict_retry_run 4 u a (-1) NULL (w_sys w) w Hal) as (ret & p & s1 & E & R).
  rewrite set_sys_sys in E. rewrite E. pose proof R as [[Hp Hpn] Hk _ He Happ Hpg].
  change (s_os (w_sys w)) with (w_os w) in *.
  destruct (unmapped_unused m w (resume back) t p A Hp Hpn) as [Hun Hnp].
  assert (Hb : forall q, inuse w (resume back) t q -> buf_page (s_os s1) q = buf_page (w_os w) q).
  { intros q Hq. apply Hk. by eapply inuse_mapped. }
  destruct (Z.eqb_spec ret 0) as [->|Hr].
  - rewrite decide_True in Hpg by done. destruct Hpg as [Hgone Hbuf].
    destruct (w_stats_run StatsIncrPageEvicted_notlocked (set_sys s1 w)) as (s2 & -> & Ho & Hd).
    change (w_os (set_sys s1 w)) with (s_os s1) in Ho. change (w_dbg (set_sys s1 w)) with (s_dbg s1) in Hd.
    eexists _, _. split; [reflexivity|]. split; [done|unfold errors, w_dbg, err_le in *; simpl; rewrite Hd; lia|].
    intros _. split; [|by destruct Hl].
    apply (ainv_kernel m m w (resume back) (HMoved back u a p) t s2 A).
    + intros q Hq. rewrite Ho. by apply Hb.
    + intros k e G. rewrite Ho. destruct (decide ((w_ufd e, w_pageaddr e) = (u, a))) as [[= -> ->]|Hne]; [done|].
      rewrite Happ by done. by apply (ai_entry _ _ _ _ A k).
    + rewrite private_resume. apply NoDup_cons. split; [done|apply A].
    + rewrite private_resume. intros q [->|Hq]%elem_of_cons; [right|by left]. split; [done|]. by rewrite Ho, Hbuf.
    + cbn [handler_inv]. split; [done|]. change (w_os (set_sys s2 w)) with (s_os s2). rewrite Ho. split; [done|].
      change (listed w u a = None). destruct Hmov as [Hm|[Hm _]]; [|done]. eapply resident_not_listed; [done|done|apply Hal|done].
    + apply (moved_view m w t back u a p s2 A Hpa Hmov); by rewrite ?Ho.
  - rewrite decide_False in Hpg by done.
    destruct (free_page_checked_run p s1 w) as (s2 & -> & Ha2 & Hb2 & _ & He2).
    eexists _, _. split; [reflexivity|]. split; [done|unfold errors, w_dbg, err_le in *; simpl; lia|].
    intros _. split; [|exact Hl]. apply ainv_quiet; [done| |].
    + intros u' a'. rewrite Ha2. destruct (decide ((u', a') = (u, a))) as [[= -> ->]|Hne]; [done|by apply Happ].
    + intros q Hq. destruct (Hb2 q) as [-> _]; [|by apply Hb]. apply not_elem_of_singleton. intros ->.
      apply (inuse_mapped m w) in Hq as [x Hx]; [congruence|done].
Qed.

(** ** Putting it on the list *)

Lemma flying_add b (l l' : uthash write_info) x : flying b l -> (forall k, get k l' = if decide (k = w_key x) then Some x else get k l) ->
  get (w_key x) l = None -> in_flight x = false -> flying b l'.
Proof.
  intros Hf Hg Hn Hx. split; try apply Hf.
  - intros a p Hp. destruct (fl_here _ _ Hf a p Hp) as [Ha G]. split; [done|]. unfold wl_get in *. rewrite Hg.
    rewrite decide_False; [done|]. intros E. rewrite E in G. congruence.
  - intros k e. rewrite Hg. case_decide; [intros [= <-]; congruence|]. apply Hf.
Qed.

Lemma ainv_added m w t back u a p (x : tio) : ainv m w (HMoved back u a p) t ->
  let e := WriteInfo u a p false in
  wl_ok (write_list x) -> (forall k, get k (write_list x) = if decide (k = w_key e) then Some e else get k (wlist w)) ->
  ainv m (set_tio x w) (resume back) t.
Proof.
  intros A e Hok Hg. assert (Hl : wlist (set_tio x w) = write_list x) by done.
  pose proof A as [A1 A2 A3 A4 A5 A6 A7 [Hn Hp] [Hgn Hgar] A10 ((Hal & Hu & Hcu) & Hno & Hnl) A12].
  rewrite private_resume in Hn, Hp, Hgar. apply NoDup_cons in Hn as [Hnp Hn].
  destruct (Hp p) as (Hpn & Hpo & Hpm & Hpe); [by left|].
  assert (Hpriv : private (set_tio x w) (resume back) = private w (resume back)) by by destruct back.
  split; try done; rewrite ?Hl, ?Hpriv.
  - intros k y. rewrite Hg. case_decide; [intros [= <-]|by apply A6]. simpl. done.
  - intros k1 y1 k2 y2. rewrite !Hg. repeat case_decide; try (by apply A7).
    + intros _ _ _. congruence.
    + intros [= <-] G E. by destruct (Hpe _ _ G).
    + intros G [= <-] E. by destruct (Hpe _ _ G).
  - split; [done|]. intros q Hq. destruct (Hp q) as (H1 & H2 & H3 & H4); [by right|]. do 3 (split; [done|]).
    intros k y. rewrite Hg. case_decide; [intros [= <-] E|by apply H4]. simpl in E. by subst.
  - split; [done|]. intros q Hq. destruct (Hgar q Hq) as (H1 & H2 & H3 & H4). apply not_elem_of_cons in H3 as [H3 H3'].
    do 3 (split; [done|]). intros k y. rewrite Hg. case_decide; [intros [= <-] _ E|by apply H4]. simpl in E. by subst.
  - unfold writer_inv in *. rewrite Hl.
    assert (Hgr : grounded (wlist w) -> grounded (write_list x)).
    { intros Hgr k y. rewrite Hg. case_decide; [by intros [= <-]|apply Hgr]. }
    destruct (pc t) as [|b|b fv bufs| |]; try (by apply Hgr); destruct A10 as [Hf Hr]; (split; [by eapply flying_add|done]).
  - by destruct back.
  - intros u' a' Hu' Ha'. rewrite <- (A12 u' a' Hu' Ha'). unfold aview. cbn [in_hand].
    assert (Hh : in_hand (resume back) = None) by by destruct back. rewrite Hh.
    change (w_os (set_tio x w)) with (w_os w). change (stored_at (set_tio x w) u' a') with (stored_at w u' a').
    destruct (app_page (w_os w) u' a'); [done|]. f_equal. unfold listed at 1, wl_get. rewrite Hl, Hg.
    destruct (decide (u' = u /\ a' = a)) as [[-> ->]|Hne]; [by rewrite decide_True|].
    rewrite decide_False; [done|]. intros [-> ->]%info_key_inj; try done; [by destruct Hne|apply Hal].
Qed.

Lemma list_step_ok m w t back u a p : ainv m w (HMoved back u a p) t -> live w (HMoved back u a p) t -> can_grow (wlist w) ->
  exists h' w', handler_step (HMoved back u a p) Go w = Ok (h', w') /\ stepped m w t h' w'.
Proof.
  intros A Hl Hgrow. pose proof (ai_handler _ _ _ _ A) as ((Hal & Hu & Hcu) & Hno & Hnl).
  set (e := WriteInfo u a p false). set (l' := HASH_ADD (fresh_ptr (elts (wlist w))) (info_key u a) e (wlist w)).
  destruct (keyed_add w_key (wlist w) e) as (Hk & Hg & _); [apply A|done|exact Hnl|].
  destruct (wl_add_ok (wlist w) u a p) as [Hok _]; [apply A|done|done|apply Hal|done|].
  assert (Hfin : forall x, write_list x = l' -> ufhandler_sem x = ufhandler_sem (w_tio w) ->
    stepped m w t (resume back) (set_tio x w)).
  { intros x Hx Hs. split; [done|done|]. intros _. split.
    - eapply ainv_added; [exact A|by rewrite Hx|]. intros k. rewrite Hx. apply Hg.
    - destruct Hl as [Hl _]. split; [simpl; lia|by destruct back]. }
  unfold handler_step, write_out. rewrite async_write. unfold mbind, M_bind, mgets, in_tio, zoom, add_write_info, get_write_list_size, mmod.
  fold (wlist w). fold e. fold l'. cbn [w_tio set_tio]. unfold mgets.
  destruct (isWriterWaiting (w_tio w) && _)%bool; eexists _, _; (split; [reflexivity|]); by apply Hfin.
Qed.

(** ** Looking for the page on the list *)

Lemma take_once_run m w h t u a : ainv m w h t -> is_s32 u -> is_u64 a ->
  match listed w u a with
  | None => exists x, take_once u a w = Ok (TakeNone, set_tio x w) /\ write_list x = wlist w /\
      ufhandler_sem x = ufhandler_sem (w_tio w)
  | Some e =>
      if in_flight e then
        exists x, take_once u a w = Ok (TakeWait (isWriterWaiting (w_tio w)), set_tio x w) /\ write_list x = wlist w /\
          ufhandler_sem x = ufhandler_sem (w_tio w) /\ isUfhandlerWaiting x = true
      else
        exists x, take_once u a w = Ok (TakePage (w_page e), set_tio x w) /\ wl_ok (write_list x) /\
          (forall k, get k (write_list x) = if decide (k = info_key u a) then None else get k (wlist w)) /\
          ufhandler_sem x = ufhandler_sem (w_tio w)
  end.
Proof.
  intros A Hu Ha. unfold take_once, mbind, M_bind, mgets, in_tio, zoom, find_write_info, mgets. fold (wlist w).
  unfold listed, wl_get. destruct (HASH_FIND (info_key u a) (wlist w)) as [q|] eqn:Fd.
  2:{ unfold get. rewrite Fd. simpl. by eexists. }
  destruct (get_find w_key _ _ q (wl_keyed _ (ai_list _ _ _ _ A)) Fd) as (e & He & Hg). rewrite Hg.
  cbn [w_tio set_tio]. unfold extract_page_from_write_list, deref. fold (wlist w). rewrite He.
  destruct (in_flight (payload e)) eqn:Efl.
  { cbn [default from_option]. rewrite decide_True by done. by eexists. }
  cbn [default from_option]. destruct (ai_entry _ _ _ _ A _ _ Hg) as (_ & _ & Hn & _). rewrite decide_False by done.
  rewrite async_pagecache. eexists. split; [reflexivity|].
  destruct (wl_drop_ok (wlist w) u a q (ai_list _ _ _ _ A) Hu Ha Fd) as [Hok _].
  destruct (keyed_drop w_key (wlist w) (info_key u a) q (wl_keyed _ (ai_list _ _ _ _ A)) Fd) as (_ & Hget & _).
  by split.
Qed.

Lemma flying_drop b (l l' : uthash write_info) k0 : flying b l -> (forall k, get k l' = if decide (k = k0) then None else get k l) ->
  (forall e, get k0 l = Some e -> in_flight e = false) -> flying b l'.
Proof.
  intros Hf Hg Hk. split; try apply Hf.
  - intros a p Hp. destruct (fl_here _ _ Hf a p Hp) as [Ha G]. split; [done|]. unfold wl_get in *. rewrite Hg.
    rewrite decide_False; [done|]. intros E. rewrite E in G. by specialize (Hk _ G).
  - intros k e. rewrite Hg. case_decide; [done|]. apply Hf.
Qed.

Lemma ainv_taken m w t u a e (x : tio) : ainv m w (HLook u a) t -> listed w u a = Some e -> in_flight e = false ->
  wl_ok (write_list x) ->
  (forall k, get k (write_list x) = if decide (k = info_key u a) then None else get k (wlist w)) ->
  ainv m (set_tio x w) (HTaken u a (w_page e)) t.
Proof.
  intros A He Hfl Hok Hg. assert (Hl : wlist (set_tio x w) = write_list x) by done.
  pose proof A as [A1 A2 A3 A4 A5 A6 A7 [Hn Hp] [Hgn Hgar] A10 Hpa A12]. pose proof Hpa as (Hal & Hu & Hcu).
  assert (Hua : is_u64 a) by apply Hal. destruct (wl_get_fields _ u a e A5 Hu Hua He) as [Eu Ea].
  destruct (A6 _ e He) as (_ & Hno & Hpn & Hpm & Hpo). specialize (Hpo Hfl). rewrite Eu, Ea in Hno.
  assert (Hsub : forall k y, get k (write_list x) = Some y -> k <> info_key u a /\ get k (wlist w) = Some y).
  { intros k y. rewrite Hg. by case_decide. }
  assert (Hnp : w_page e ∉ private w (HLook u a)).
  { intros Hin. destruct (Hp _ Hin) as (_ & _ & _ & H). by apply (H _ e He). }
  assert (Hpe : private (set_tio x w) (HTaken u a (w_page e)) = w_page e :: private w (HLook u a)) by done.
  split; try done; rewrite ?Hl, ?Hpe.
  - intros k y [_ Hy]%Hsub. by apply (A6 k).
  - intros k1 y1 k2 y2 [_ H1]%Hsub [_ H2]%Hsub. by apply A7.
  - split; [by apply NoDup_cons|]. intros q [->|Hq]%elem_of_cons.
    + do 3 (split; [done|]). intros k y [Hk Hy]%Hsub E. by apply Hk, (A7 k y _ e Hy He).
    + destruct (Hp q Hq) as (H1 & H2 & H3 & H4). do 3 (split; [done|]). intros k y [_ Hy]%Hsub. by apply (H4 k).
  - split; [done|]. intros q Hq. destruct (Hgar q Hq) as (H1 & H2 & H3 & H4). do 2 (split; [done|]). split.
    + apply not_elem_of_cons. split; [|done]. intros ->. by apply (H4 _ e He).
    + intros k y [_ Hy]%Hsub. by apply (H4 k).
  - unfold writer_inv in *. rewrite Hl.
    assert (Hgr : grounded (wlist w) -> grounded (write_list x)) by (intros Hgr k y [_ Hy]%Hsub; by apply (Hgr k)).
    destruct (pc t) as [|b|b fv bufs| |]; try (by apply Hgr); destruct A10 as [Hf Hr];
      (split; [eapply flying_drop; [done|exact Hg|]|done]); unfold listed, wl_get in He; rewrite He; by intros ? [= <-].
  - split; [done|]. split; [done|]. unfold listed, wl_get. rewrite Hl, Hg. by rewrite decide_True.
  - intros u' a' Hu' Ha'. rewrite <- (A12 u' a' Hu' Ha'). unfold aview. cbn [in_hand].
    change (w_os (set_tio x w)) with (w_os w). change (stored_at (set_tio x w) u' a') with (stored_at w u' a').
    destruct (app_page (w_os w) u' a'); [done|]. f_equal. case_decide as D; [destruct D as [-> ->]; by rewrite He|].
    unfold listed, wl_get. rewrite Hl, Hg. rewrite decide_False; [done|]. intros E. by apply D, info_key_inj.
Qed.

(** Some entry is in flight only while the write thread has a batch. *)
Lemma in_flight_busy m w h t k e : ainv m w h t -> get k (wlist w) = Some e -> in_flight e = true ->
  match pc t with WtWrite _ | WtFinish _ _ _ => True | _ => False end.
Proof.
  intros A G Hfl. pose proof (ai_writer _ _ _ _ A) as W. unfold writer_inv in W.
  destruct (pc t); try done; specialize (W k e G); congruence.
Qed.

Lemma look_step_ok m w t u a : ainv m w (HLook u a) t -> live w (HLook u a) t ->
  exists h' w', handler_step (HLook u a) Go w = Ok (h', w') /\ stepped m w t h' w'.
Proof.
  intros A [Hs _]. pose proof (ai_handler _ _ _ _ A) as (Hal & Hu & Hcu).
  pose proof (take_once_run m w _ t u a A Hu (proj1 Hal)) as R. unfold handler_step, mbind, M_bind.
  destruct (listed w u a) as [e|] eqn:El; [destruct (in_flight e) eqn:Efl|].
  - destruct R as (x & -> & Hwl & Hsem & Hflag).
    assert (Hfin : forall y, write_list y = wlist w -> ufhandler_sem y = ufhandler_sem (w_tio w) -> isUfhandlerWaiting y = true ->
      stepped m w t (HWait u a) (set_tio y w)).
    { intros y Hy Hys Hyf. split; [done|done|]. intros _. split.
      - apply (ainv_goto m _ (HLook u a)); [by apply ainv_tio|done|done|done|done].
      - split; [simpl; lia|]. right. pose proof (in_flight_busy m w _ t _ e A El Efl). simpl. by destruct (pc t). }
    destruct (isWriterWaiting (w_tio w)); eexists _, _; (split; [reflexivity|]); by apply Hfin.
  - destruct R as (x & -> & Hok & Hg & Hsem). eexists _, _. split; [reflexivity|]. split; [done|done|].
    intros _. split; [by eapply ainv_taken|]. split; [simpl; lia|done].
  - destruct R as (x & -> & Hwl & Hsem). eexists _, _. split; [reflexivity|]. split; [done|done|]. intros _. split.
    + apply (ainv_goto m _ (HLook u a)); [by apply ainv_tio|done|done|done|]. split; [done|].
      unfold listed. by rewrite wlist_tio, Hwl.
    + split; [simpl; lia|done].
Qed.

Lemma wait_step_ok m w t u a : ainv m w (HWait u a) t -> live w (HWait u a) t ->
  (exists h' w', handler_step (HWait u a) Go w = Ok (h', w') /\ stepped m w t h' w') \/
  (handler_step (HWait u a) Go w = Blocked /\ ufhandler_sem (w_tio w) = 0).
Proof.
  intros A [Hs _]. unfold handler_step, mbind, M_bind, in_tio, zoom, sem_wait. simpl.
  destruct (Z.ltb_spec 0 (ufhandler_sem (w_tio w))); [left|right; split; [done|lia]].
  eexists _, _. split; [reflexivity|]. split; [done|done|]. intros _. split.
  - apply (ainv_goto m _ (HWait u a)); [by apply ainv_tio|done|done|done|]. exact (ai_handler _ _ _ _ A).
  - split; [simpl; lia|done].
Qed.

(** ** Putting the page in place *)

Lemma copy_page_run u a src w pg : buf_page (w_os w) src = Some pg ->
  exists ret s', copy_page u a src w = Ok (ret, set_sys s' w) /\
    ((app_page (w_os w) u a = None /\ app_page (s_os s') u a = Some pg /\ same_app_but u a (w_os w) (s_os s') /\
      same_buf (w_os w) (s_os s') /\ s_dbg s' = w_dbg w) \/
     (sigint (w_dbg w) < sigint (s_dbg s'))%nat).
Proof.
  intros Hpg. unfold copy_page, mbind, M_bind, in_sys, zoom, syscall.
  destruct (uffdio_copy u a src (s_os (w_sys w))) as [[r cp] o'] eqn:E.
  destruct (Z.eqb_spec (rc r) 0) as [Hr|Hr]; cbn [negb andb].
  - destruct (copy_ok _ _ _ _ _ _ _ _ E Hr Hpg) as (? & ? & ? & ?). eexists _, _. split; [reflexivity|]. left. simpl. done.
  - pose proof (copy_field _ _ _ _ _ _ _ E Hr) as Hneg.
    destruct (Z.eqb_spec cp PAGE_SIZE) as [->|Hcp]; [unfold PAGE_SIZE in Hneg; lia|]. cbn [negb andb].
    rewrite bool_decide_eq_false_2; [|unfold EBUSY, ENOENT, ESRCH; set_solver by lia]. cbn [negb mwhen].
    eexists _, _. split; [reflexivity|]. right. unfold w_dbg. simpl. lia.
Qed.

Lemma ainv_placed m w h h' t u a pg s' : ainv m w h t -> page_addr w u a -> listed w u a = None -> in_hand h' = None ->
  match in_hand h with Some (u', a', _) => u' = u /\ a' = a | None => True end ->
  private w h' = private w h -> handler_inv (set_sys s' w) h' ->
  app_page (w_os w) u a = None -> aview w h u a = pg -> app_page (s_os s') u a = Some pg ->
  same_app_but u a (w_os w) (s_os s') -> same_buf (w_os w) (s_os s') -> ainv m (set_sys s' w) h' t.
Proof.
  intros A (Hal & Hu & _) Hnl Hh' Hh Hp Hi Hno Hv Hpg Happ Hbuf.
  assert (Hb : forall q, inuse w h t q -> buf_page (s_os s') q = buf_page (w_os w) q) by (intros q _; by apply same_buf_at).
  apply (ainv_kernel m m w h h' t s' A Hb).
  - intros k e G. rewrite Happ; [by apply (ai_entry _ _ _ _ A k)|]. intros [= E1 E2].
    pose proof (get_key w_key _ k e (wl_keyed _ (ai_list _ _ _ _ A)) G) as Hk. unfold w_key in Hk. rewrite E1, E2 in Hk.
    unfold listed, wl_get in Hnl. rewrite Hk in Hnl. congruence.
  - rewrite Hp. apply A.
  - rewrite Hp. by left.
  - done.
  - intros u' a' Hu' Ha'. destruct (decide ((u', a') = (u, a))) as [[= -> ->]|Hne].
    + unfold aview. change (w_os (set_sys s' w)) with (s_os s'). rewrite Hpg, <- Hv. by apply A.
    + rewrite <- (ai_view _ _ _ _ A u' a' Hu' Ha'), <- (aview_sys m w h t s' u' a' A Hb) by by apply Happ.
      unfold aview. rewrite Hh'. destruct (in_hand h) as [[[u1 a1] q]|]; [|done]. destruct Hh as [-> ->].
      by rewrite decide_False by (intros [-> ->]; done).
Qed.

Lemma errors_set_sys s' w : errors (set_sys s' w) = sigint (s_dbg s').
Proof. done. Qed.

Lemma taken_step_ok m w t u a p : ainv m w (HTaken u a p) t -> live w (HTaken u a p) t ->
  exists h' w', handler_step (HTaken u a p) Go w = Ok (h', w') /\ stepped m w t h' w'.
Proof.
  intros A Hl. pose proof (ai_handler _ _ _ _ A) as (Hpa & Hno & Hnl).
  destruct (proj2 (ai_private _ _ _ _ A) p) as (_ & _ & [pg Hpg] & _); [by left|].
  destruct (copy_page_run u a p w pg Hpg) as (ret & s' & E & Hcase). unfold handler_step, mbind, M_bind. rewrite E.
  eexists _, _. split; [reflexivity|]. split; [done| |]; rewrite errors_set_sys; unfold errors;
    (destruct Hcase as [(H1 & H2 & H3 & H4 & ->)|Hlt]; [|lia]); [lia|].
  intros _. split; [|exact Hl]. apply (ainv_placed m w (HTaken u a p) (HPlaced p) t u a pg); try done.
  unfold aview. cbn [in_hand]. by rewrite Hno, decide_True, Hpg.
Qed.

Lemma fill_zero_page_run u a w : aligned a -> exists ret s', fill_zero_page u a w = Ok (ret, set_sys s' w) /\
  ((app_page (w_os w) u a = None /\ app_page (s_os s') u a = Some zero_page /\ same_app_but u a (w_os w) (s_os s') /\
    same_buf (w_os w) (s_os s') /\ sigint (s_dbg s') = sigint (w_dbg w)) \/
   (same_app (w_os w) (s_os s') /\ same_buf (w_os w) (s_os s') /\ sigint (s_dbg s') = sigint (w_dbg w)) \/
   (sigint (w_dbg w) < sigint (s_dbg s'))%nat).
Proof.
  intros Hal. unfold fill_zero_page, mbind, M_bind, in_sys, zoom, syscall0, syscall. mrun. rewrite page_of_id by done.
  destruct (uffdio_zeropage u a (s_os (w_sys w))) as [r o'] eqn:E. simpl. unfold get_errno, mgets. simpl.
  destruct (Z.eqb_spec (rc r) 0) as [Hr|Hr]; simpl.
  - destruct (zeropage_ok _ _ _ _ _ E Hr) as (? & ? & ? & ?). eexists _, _. split; [reflexivity|]. left. simpl.
    by destruct (rc r =? 0).
  - destruct (zeropage_fail _ _ _ _ _ E Hr) as [? ?]. destruct (negb _); eexists _, _; (split; [reflexivity|]).
    + right. right. unfold w_dbg. simpl. lia.
    + right. left. simpl. done.
Qed.

Lemma fetched_step_ok m w t u a len : ainv m w (HFetched u a len) t -> live w (HFetched u a len) t ->
  exists h' w', handler_step (HFetched u a len) Go w = Ok (h', w') /\ stepped m w t h' w'.
Proof.
  intros A Hl. pose proof (ai_handler _ _ _ _ A) as (Hpa & Hnl & Hft). unfold fetched in Hft.
  assert (Hv : app_page (w_os w) u a = None -> aview w (HFetched u a len) u a = default zero_page (stored_at w u a)).
  { intros Hno. unfold aview. cbn [in_hand]. by rewrite Hno, Hnl. }
  unfold handler_step, mbind, M_bind, mgets. destruct (stored_at w u a) as [pg|] eqn:Est.
  - destruct Hft as (-> & Hpg & _). change (PAGE_SIZE =? PAGE_SIZE) with true. cbn beta iota.
    destruct (copy_page_run u a (read_tmp_page w) w pg Hpg) as (ret & s' & E & Hcase). rewrite E.
    eexists _, _. split; [reflexivity|]. split; [done| |]; rewrite errors_set_sys; unfold errors;
      (destruct Hcase as [(H1 & H2 & H3 & H4 & ->)|Hlt]; [|lia]); [lia|].
    intros _. split; [|by destruct Hl]. apply (ainv_placed m w (HFetched u a PAGE_SIZE) HIdle t u a pg); try done. by apply Hv.
  - subst len. change (0 =? PAGE_SIZE) with false. change (0 =? 0) with true. cbn beta iota.
    destruct (fill_zero_page_run u a w) as (ret & s' & E & Hcase); [apply Hpa|]. rewrite E.
    eexists _, _. split; [reflexivity|]. split; [done| |]; rewrite errors_set_sys; unfold errors.
    + destruct Hcase as [(_ & _ & _ & _ & ->)|[(_ & _ & ->)|Hlt]]; lia.
    + intros He. split; [|by destruct Hl]. destruct Hcase as [(H1 & H2 & H3 & H4 & _)|[(H1 & H2 & _)|Hlt]]; [| |lia].
      * apply (ainv_placed m w (HFetched u a 0) HIdle t u a zero_page); try done. by apply Hv.
      * apply (ainv_goto m _ (HFetched u a 0)); try done. apply ainv_quiet; [done|done|]. intros q _. by apply same_buf_at.
Qed.

(** ** Reading the page from the backend *)

Lemma miss_step_ok m w t u a : ainv m w (HMiss u a) t -> live w (HMiss u a) t ->
  exists h' w', handler_step (HMiss u a) Go w = Ok (h', w') /\ stepped m w t h' w'.
Proof.
  intros A Hl. pose proof A as [A1 A2 A3 A4 A5 A6 A7 [Hpn Hpriv] [Hgn Hgar] A10 ((Hal & Hu & c & Hc) & Hnl) A12].
  destruct (A3 u c Hu Hc) as [Hcl Hcn].
  assert (Hread : copies_out = true -> is_Some (buf_page (w_os w) (read_tmp_page w)) /\ read_tmp_page w ∉ owned (w_ext w)).
  { intros Eco. destruct (Hpriv (read_tmp_page w)) as (_ & ? & ? & _); [|done]. unfold private. rewrite Eco. by left. }
  destruct (read_law c a (read_tmp_page w) (w_ext w) (w_sys w))
    as (len & v' & e' & s' & E & Hok & Hcl' & Hown & Hst & Ha & Hb & Hss & Hd & Hco & Hres); [done|done|done|].
  destruct (read_at_rest c a (read_tmp_page w) (w_ext w) (w_sys w) len v' e' s' A2 Hcl E) as [Hrest Hv'].
  set (w1 := set_read_tmp_page v' (set_ext (e', s') w)).
  exists (HFetched u a len), w1. split.
  { unfold handler_step, fetch_page. rewrite async_pagecache, async_asyn. unfold mbind, M_bind, mgets.
    rewrite (get_client_run w u c A1 Hc). rewrite decide_False by done. unfold in_ext, zoom, readPage. by rewrite E. }
  split; [done|unfold errors, w_dbg; simpl; rewrite Hd; lia|]. intros _. split; [|exact Hl].
  assert (Happ : same_app (w_os w) (w_os w1)) by exact Ha.
  assert (Hlist : forall u a, listed w1 u a = listed w u a) by done.
  assert (Hsa : forall u a, stored_at w1 u a = stored_at w u a).
  { intros u' a'. unfold stored_at. change (client_of w1 u') with (client_of w u'). destruct (client_of w u'); [apply Hst|done]. }
  assert (Hpv : private w1 (HFetched u a len) = private w (HMiss u a)).
  { unfold private. simpl. destruct copies_out; [|done]. by destruct (Hco eq_refl) as [-> _]. }
  assert (Hbuf : forall p, p ∉ private w (HMiss u a) -> buf_page (w_os w1) p = buf_page (w_os w) p).
  { intros p Hp. apply Hb. unfold private in Hp. simpl in Hp. destruct copies_out; set_solver. }
  assert (Hent : forall k e, get k (wlist w) = Some e -> buf_page (w_os w1) (w_page e) = buf_page (w_os w) (w_page e)).
  { intros k e G. apply Hbuf. intros Hin. destruct (Hpriv _ Hin) as (_ & _ & _ & H). by apply (H k e). }
  split; try done; rewrite ?Hpv; change (wlist w1) with (wlist w); change (owned (w_ext w1)) with (owned e'); rewrite ?Hown.
  - intros u' c' Hu' Hc'. change (c' ∈ clients e' /\ c' <> NULL). rewrite Hcl'. by apply (A3 u').
  - intros k e G. destruct (A6 k e G) as (H1 & H2 & H3 & H4 & H5). split; [done|]. rewrite Happ, (Hent k e G). done.
  - split; [done|]. intros p Hp. destruct (Hpriv p Hp) as (H1 & H2 & H3 & H4). do 2 (split; [done|]). split; [|done].
    unfold private in Hp. simpl in Hp. destruct copies_out; [|set_solver]. apply list_elem_of_singleton in Hp as ->. by apply Hco.
  - split; [done|]. intros q Hq. destruct (Hgar q Hq) as (H1 & H2 & H3 & H4). split; [done|]. split; [by rewrite Hbuf|done].
  - unfold writer_inv in *. change (wlist w1) with (wlist w). change (owned (w_ext w1)) with (owned e'). rewrite Hown.
    destruct (pc t); try done. destruct A10 as [Hf Hr]. split; [done|]. intros a' p Hp. rewrite Hsa, (Hr a' p Hp).
    destruct (fl_here _ _ Hf a' p Hp) as [_ G]. symmetry. exact (Hent _ _ G).
  - split; [by split; [|split; [|exists c]]|]. split; [done|]. unfold fetched. rewrite Hsa. unfold stored_at. rewrite Hc.
    cbn [mbind option_bind]. destruct (stored (w_ext w) (w_os w) c a) as [pg|] eqn:Est; unfold w_os in Est; rewrite Est in Hres; [|done].
    destruct Hres as [-> Hpg]. split; [done|]. split; [exact Hpg|]. intros Eco. exists c. split; [done|].
    change (at_rest e' c a = Some v'). rewrite Hrest. by apply Hv'.
  - intros u' a' Hu' Ha'. rewrite <- (A12 u' a' Hu' Ha'). unfold aview. cbn [in_hand]. rewrite Happ, Hlist, Hsa.
    destruct (app_page (w_os w) u' a'); [done|]. f_equal. destruct (listed w u' a') as [e|] eqn:El; [|done]. by apply (Hent _ e El).
Qed.

Lemma placed_step_ok m w t p : ainv m w (HPlaced p) t -> live w (HPlaced p) t ->
  exists h' w', handler_step (HPlaced p) Go w = Ok (h', w') /\ stepped m w t h' w'.
Proof.
  intros A Hl. unfold handler_step, mbind, M_bind, in_sys, zoom, sys_munmap, syscall0, syscall. mrun.
  destruct (munmap_page p (s_os (w_sys w))) as [r o'] eqn:E. destruct (munmap_app _ _ _ _ E) as [Ha Hb]. simpl.
  assert (A' : ainv m w HIdle t) by (apply (ainv_goto m w (HPlaced p)); [done|by apply sublist_cons|done|done|done]).
  assert (Hfin : forall d, (sigint (w_dbg w) <= sigint d)%nat -> stepped m w t HIdle (set_sys (Sys o' d (s_stats (w_sys w))) w)).
  { intros d Hd. split; [done|done|]. intros _. split; [|by destruct Hl]. apply ainv_quiet; [done|done|].
    intros q Hq. apply Hb, not_elem_of_singleton. intros ->. destruct (ai_private _ _ _ _ A) as [Hn Hp].
    destruct (Hp p) as (_ & H2 & _ & H4); [by left|]. apply NoDup_cons in Hn as [Hn _].
    destruct Hq as [H|[H|[(k & e & G & H)|H]]]; [done|done|by apply (H4 k e)|].
    destruct (ai_garbage _ _ _ _ A) as [_ Hg]. destruct (Hg p H) as (_ & _ & H3 & _). apply H3. by left. }
  destruct (rc r <? 0); eexists _, _; (split; [reflexivity|]); apply Hfin; unfold w_dbg; destruct (rc r =? 0); simpl; lia.
Qed.

(** ** All program points *)

(** A step of the handler returns with the invariant intact, or with an error report, or
    waits for the write thread. *)
(** Steps that leave the handler where it is. *)
Definition aside (ch : choice) : Prop := match ch with Book _ | Report => True | _ => False end.
#[local] Instance aside_dec ch : Decision (aside ch).
Proof. destruct ch; solve_decision. Defined.

(** Only an idle handler, or one whose page is in place, has a choice. *)
Lemma go_step h ch w : ~ aside ch -> match h with HIdle | HPlaced _ => False | _ => True end ->
  handler_step h ch w = handler_step h Go w.
Proof. by destruct ch, h. Qed.

Lemma aside_step_ok m w h t ch : ainv m w h t -> live w h t -> aside ch ->
  exists h' w', handler_step h ch w = Ok (h', w') /\ stepped m w t h' w'.
Proof.
  intros A Hl Ha. destruct ch as [| | |b|]; try done.
  - exists h, (set_lru b w). split; [by destruct h|]. split; [done|done|]. intros _. split; [by destruct A|done].
  - destruct h; (eexists _, _; split; [reflexivity|]; split; [done| |]; unfold errors, w_dbg; simpl; [lia|intros; lia]).
Qed.

Lemma handler_step_ok m w h t ch : ainv m w h t -> live w h t -> choice_ok w ch -> can_grow (wlist w) ->
  (exists h' w', handler_step h ch w = Ok (h', w') /\ stepped m w t h' w') \/
  (handler_step h ch w = Blocked /\ ufhandler_sem (w_tio w) = 0 /\ exists u a, h = HWait u a).
Proof.
  intros A Hl Hch Hg.
  destruct (decide (aside ch)) as [Ha|Ha]; [left; by apply aside_step_ok|].
  destruct h as [|back u a p|u a|u a|u a p|u a|u a len|p].
  - left. destruct ch as [|u a|u a| |]; try done; cbn [handler_step].
    + eexists _, _. split; [reflexivity|]. by split.
    + destruct Hch. by apply (move_out_ok m w t None).
    + destruct (w_stats_run StatsIncrPageFault_notlocked w) as (s' & E & Ho & Hd). unfold mbind, M_bind. rewrite E.
      eexists _, _. split; [reflexivity|]. split; [done|unfold errors, w_dbg in *; simpl; rewrite Hd; lia|].
      intros _. split; [|by destruct Hl]. apply (ainv_goto m _ HIdle); try done. apply ainv_quiet; [done| |]; by rewrite Ho.
  - left. rewrite (go_step _ ch) by done. by apply list_step_ok.
  - left. rewrite (go_step _ ch) by done. by apply look_step_ok.
  - rewrite (go_step _ ch) by done.
    destruct (wait_step_ok m w t u a A Hl) as [?|[? ?]]; [by left|right]. split; [done|]. eauto.
  - left. rewrite (go_step _ ch) by done. by apply taken_step_ok.
  - left. rewrite (go_step _ ch) by done. by apply miss_step_ok.
  - left. rewrite (go_step _ ch) by done. by apply fetched_step_ok.
  - left. destruct ch as [|u a|u a| |]; try done; [by apply placed_step_ok| |by apply placed_step_ok].
    destruct Hch. by apply (move_out_ok m w t (Some p)).
Qed.
End handler.
