(* ===== verification/AsyncRuns.v ===== *)
(** Runs of the monitor with the write thread: any interleaving of the handler, the
    write thread and the processes' stores. *)
From S2P Require Import Prelude Config MonitorStats Os LruBuffer UtHash ExternRam ThreadedIo Upid.
From S2P Require Import BufferAllocator PageCache World PageCacheRead Userfault WriteThread Consistency Async.
From S2P Require Import AsyncHandler.

Inductive aevent : Type :=
| AHandler (ch : choice)
| AWriter
| AStore (u a : Z) (pg : page).

Definition amem_step (m : Z -> Z -> page) (ev : aevent) : Z -> Z -> page :=
  match ev with
  | AStore u a pg => fun u' a' => if decide ((u', a') = (u, a)) then pg else m u' a'
  | _ => m
  end.
Definition amem_run (m : Z -> Z -> page) (tr : list aevent) : Z -> Z -> page := foldl amem_step m tr.

Section runs.
Context {OSI : OS} {OL : OSLaws OSI} {X : ExternRAM} {L : ExternRAMLaws X} {B : BatchLaws L}.
Context {F : BuildFlags} {AB : AsyncBuild F} {I : StaleIterator} {WF : WriteFuel} {EF : EnoughFuel L WF}.
Implicit Types (w : world) (h : hpc) (t : wthread).

(** One step of one of the parties; a store is to a resident page. *)
Inductive astep : world * hpc * wthread -> aevent -> world * hpc * wthread -> Prop :=
| as_handler ch w h t w' h' : choice_ok w ch -> handler_step h ch w = Ok (h', w') ->
    astep (w, h, t) (AHandler ch) (w', h', t)
| as_writer w h t w' t' : writer_step t w = Ok (t', w') -> astep (w, h, t) AWriter (w', h, t')
| as_store u a pg w h t s' : is_s32 u -> aligned a -> is_Some (app_page (w_os w) u a) ->
    app_page (s_os s') u a = Some pg -> same_app_but u a (w_os w) (s_os s') ->
    same_buf (w_os w) (s_os s') -> s_dbg s' = w_dbg w ->
    astep (w, h, t) (AStore u a pg) (set_sys s' w, h, t).

Definition a_world (st : world * hpc * wthread) : world := st.1.1.

(** Runs without an error report, while the hash table of the list can still grow. *)
Inductive arun : world * hpc * wthread -> list aevent -> world * hpc * wthread -> Prop :=
| arun_nil st : arun st [] st
| arun_snoc st tr st1 ev st2 : arun st tr st1 -> can_grow (wlist (a_world st1)) -> astep st1 ev st2 ->
    errors (a_world st2) = errors (a_world st1) -> arun st (tr ++ [ev]) st2.

(** A good state: the invariant, and a handler that waits will be woken. *)
Definition agood (m : Z -> Z -> page) (st : world * hpc * wthread) : Prop :=
  let '(w, h, t) := st in ainv m w h t /\ live w h t.

Lemma store_good m w h t u a pg s' : ainv m w h t -> is_s32 u -> aligned a -> is_Some (app_page (w_os w) u a) ->
  app_page (s_os s') u a = Some pg -> same_app_but u a (w_os w) (s_os s') -> same_buf (w_os w) (s_os s') ->
  ainv (amem_step m (AStore u a pg)) (set_sys s' w) h t.
Proof.
  intros A Hu Hal Hres Hpg Happ Hbuf.
  assert (Hb : forall q, inuse w h t q -> buf_page (s_os s') q = buf_page (w_os w) q) by (intros q _; by apply same_buf_at).
  assert (Hsame : forall u' a', app_page (w_os w) u' a' = None -> app_page (s_os s') u' a' = None).
  { intros u' a' Hn. rewrite Happ; [done|]. intros [= -> ->]. rewrite Hn in Hres. by destruct Hres. }
  apply (ainv_kernel m _ w h h t s' A Hb).
  - intros k e G. by apply Hsame, (ai_entry _ _ _ _ A k).
  - apply A.
  - by left.
  - pose proof (ai_handler _ _ _ _ A) as Hi. unfold handler_inv in *. destruct h; try done.
    + destruct Hi as (? & ? & ?). split; [done|]. split; [by apply Hsame|done].
    + destruct Hi as (? & ? & ?). split; [done|]. split; [by apply Hsame|done].
    + destruct Hi as (? & ? & ?). split; [done|]. split; [done|]. by eapply fetched_sys.
  - intros u' a' Hu' Ha'. cbn [amem_step]. case_decide as D.
    + injection D as -> ->. unfold aview. change (w_os (set_sys s' w)) with (s_os s'). by rewrite Hpg.
    + rewrite (aview_sys m w h t s') by (done || by apply Happ). by apply A.
Qed.

Lemma astep_good m st ev st' : agood m st -> can_grow (wlist (a_world st)) -> astep st ev st' ->
  errors (a_world st') = errors (a_world st) -> agood (amem_step m ev) st'.
Proof.
  intros G Hg S He. destruct S as [ch w h t w' h' Hch E|w h t w' t' E|u a pg w h t s' Hu Hal Hres Hpg Happ Hbuf Hd];
    destruct G as [A Hl]; cbn [a_world fst snd] in *.
  - destruct (handler_step_ok m w h t ch A Hl Hch Hg) as [(h1 & w1 & E1 & S1)|(E1 & _)]; [|congruence].
    rewrite E in E1. injection E1 as <- <-. by apply (sd_inv _ _ _ _ _ S1).
  - destruct (writer_step_ok m w h t A Hl) as [(t1 & w1 & E1 & A1 & L1 & _)|[_ E1]]; [|congruence].
    rewrite E in E1. by injection E1 as <- <-.
  - split; [by apply store_good|exact Hl].
Qed.

Lemma arun_good m st tr st' : agood m st -> arun st tr st' -> agood (amem_run m tr) st'.
Proof.
  intros G R. induction R as [st|st tr st1 ev st2 R IH Hg S He]; [done|].
  unfold amem_run. rewrite foldl_app. simpl. apply (astep_good _ st1); [by apply IH|done|done|done].
Qed.

(** The state of the page at an address. *)
Lemma aview_cases m w h t u a : ainv m w h t -> is_s32 u -> is_u64 a ->
  match app_page (w_os w) u a with
  | Some pg => pg = m u a
  | None =>
      match listed w u a with
      | Some e => buf_page (w_os w) (w_page e) = Some (m u a)
      | None => (exists p, in_hand h = Some (u, a, p) /\ buf_page (w_os w) p = Some (m u a)) \/
                default zero_page (stored_at w u a) = m u a
      end
  end.
Proof.
  intros A Hu Ha. pose proof (ai_view _ _ _ _ A u a Hu Ha) as Hv. unfold aview in Hv.
  destruct (app_page (w_os w) u a); [done|].
  assert (Hbuf : forall p, is_Some (buf_page (w_os w) p) -> default zero_page (buf_page (w_os w) p) = m u a ->
    buf_page (w_os w) p = Some (m u a)) by (intros p [pg ->]; simpl; congruence).
  destruct (in_hand h) as [[[u' a'] p]|] eqn:Eh.
  - case_decide as D.
    + destruct D as [<- <-].
      assert (Hnl : listed w u a = None).
      { pose proof (ai_handler _ _ _ _ A) as Hi. destruct h; simplify_eq/=; apply Hi. }
      rewrite Hnl. left. exists p. split; [done|]. apply Hbuf; [|done].
      apply (inuse_mapped (amem_run m []) w h t); [done|]. right. left. destruct h; simplify_eq/=; by left.
    + destruct (listed w u a) as [e|] eqn:El; [|by right]. apply Hbuf; [|done]. by apply (ai_entry _ _ _ _ A _ e El).
  - destruct (listed w u a) as [e|] eqn:El; [|by right]. apply Hbuf; [|done]. by apply (ai_entry _ _ _ _ A _ e El).
Qed.


(** C9: the threads do not get in each other's way.  After any such run no step of the
    handler or of the write thread is undefined, the handler stops only at
    [ufhandler_sem] and the write thread only at [writer_sem], and they never both stop. *)
Theorem async_no_deadlock m st tr w h t ch (Hg : agood m st) (Hrun : arun st tr (w, h, t))
    (Hgrow : can_grow (wlist w)) (Hch : choice_ok w ch) :
  ((exists h' w', handler_step h ch w = Ok (h', w')) \/
   (handler_step h ch w = Blocked /\ exists u a, h = HWait u a)) /\
  ((exists t' w', writer_step t w = Ok (t', w')) \/ (writer_step t w = Blocked /\ pc t = WtWait)) /\
  ~ (handler_step h ch w = Blocked /\ writer_step t w = Blocked).
Proof.
  destruct (arun_good m st tr _ Hg Hrun) as [A Hl].
  destruct (handler_step_ok _ w h t ch A Hl Hch Hgrow) as [(h' & w' & E & _)|(E & Hs & u & a & Hh)];
    destruct (writer_step_ok _ w h t A Hl) as [(t1 & w1 & E1 & _)|[Hp E1]].
  - split; [left; eauto|]. split; [left; eauto|]. intros [? ?]. congruence.
  - split; [left; eauto|]. split; [by right|]. intros [? ?]. congruence.
  - split; [right; eauto|]. split; [left; eauto|]. intros [? ?]. congruence.
  - destruct Hl as [_ Hl]. rewrite Hh in Hl. rewrite Hp in Hl. destruct Hl as [Hl|[]]. lia.
Qed.

(** * A waiting handler is woken *)

(** The program points of a turn, in order. *)
Lemma write_next fr b w t' w' : writer_step (WThread fr (WtWrite b)) w = Ok (t', w') ->
  exists fv bufs, t' = WThread fr (WtFinish b fv bufs).
Proof.
  unfold writer_step, mbind, M_bind. cbn [pc flushRemaining].
  destruct (write_batch b w) as [[[fv bufs] w1]| |]; [|done|done]. intros [= <- _]. by exists fv, bufs.
Qed.

Lemma finish_next fr b fv bufs w t' w' : writer_step (WThread fr (WtFinish b fv bufs)) w = Ok (t', w') ->
  exists waiting, t' = WThread fr (WtRelease fv bufs waiting).
Proof.
  unfold writer_step, mbind, M_bind. cbn [pc flushRemaining].
  destruct (finish_batch b w) as [[waiting w1]| |]; [|done|done]. intros [= <- _]. by exists waiting.
Qed.

Lemma release_next fr fv bufs waiting w t' w' : writer_step (WThread fr (WtRelease fv bufs waiting)) w = Ok (t', w') ->
  t' = WThread fr WtTop.
Proof.
  unfold writer_step, mbind, M_bind. cbn [pc flushRemaining].
  destruct (release_batch fr fv bufs waiting w) as [[[] w1]| |]; [|done|done]. by intros [= <- _].
Qed.

Lemma writer_run_S n t w t1 w1 : writer_step t w = Ok (t1, w1) -> writer_run (S n) t w = writer_run n t1 w1.
Proof. intros E. cbn [writer_run]. unfold mbind at 1, M_bind at 1. by rewrite E. Qed.

Lemma writer_run_app n k t w t1 w1 : writer_run n t w = Ok (t1, w1) -> writer_run (n + k) t w = writer_run k t1 w1.
Proof.
  revert t w. induction n as [|n IH]; intros t w; cbn [writer_run Nat.add].
  - by intros [= -> ->].
  - unfold mbind, M_bind. destruct (writer_step t w) as [[t' w']| |]; [|done|done]. apply IH.
Qed.

(** A turn that has its batch comes back to the top. *)
Lemma turn_ends m w h t : ainv m w h t -> live w h t ->
  match pc t with WtWrite _ | WtFinish _ _ _ | WtRelease _ _ _ => True | _ => False end ->
  exists n w', (n <= 3)%nat /\ writer_run n t w = Ok (WThread (flushRemaining t) WtTop, w') /\
    ainv m w' h (WThread (flushRemaining t) WtTop) /\ live w' h (WThread (flushRemaining t) WtTop).
Proof.
  assert (Hrel : forall fr fv bufs waiting w (t := WThread fr (WtRelease fv bufs waiting)), ainv m w h t -> live w h t ->
    exists w', writer_run 1 t w = Ok (WThread fr WtTop, w') /\ ainv m w' h (WThread fr WtTop) /\ live w' h (WThread fr WtTop)).
  { intros fr fv bufs waiting w0 t0 A Hl.
    destruct (writer_step_ok m w0 h t0 A Hl) as [(t1 & w1 & E & A1 & L1 & _)|[Hp _]]; [|done].
    pose proof (release_next _ _ _ _ _ _ _ E) as ->. exists w1. by rewrite (writer_run_S 0 _ _ _ _ E). }
  assert (Hfin : forall fr b fv bufs w (t := WThread fr (WtFinish b fv bufs)), ainv m w h t -> live w h t ->
    exists w', writer_run 2 t w = Ok (WThread fr WtTop, w') /\ ainv m w' h (WThread fr WtTop) /\ live w' h (WThread fr WtTop)).
  { intros fr b fv bufs w0 t0 A Hl.
    destruct (writer_step_ok m w0 h t0 A Hl) as [(t1 & w1 & E & A1 & L1 & _)|[Hp _]]; [|done].
    destruct (finish_next _ _ _ _ _ _ _ E) as [waiting ->]. rewrite (writer_run_S 1 _ _ _ _ E). by apply Hrel. }
  intros A Hl. destruct t as [fr [|b|b fv bufs|fv bufs waiting|]]; try done; intros _; cbn [flushRemaining].
  - destruct (writer_step_ok m w h _ A Hl) as [(t1 & w1 & E & A1 & L1 & _)|[Hp _]]; [|done].
    destruct (write_next _ _ _ _ _ E) as (fv & bufs & ->). exists 3%nat. rewrite (writer_run_S 2 _ _ _ _ E).
    destruct (Hfin fr b fv bufs w1 A1 L1) as (w' & ?). by exists w'.
  - exists 2%nat. destruct (Hfin fr b fv bufs w A Hl) as (w' & ?). exists w'. split; [lia|done].
  - exists 1%nat. destruct (Hrel fr fv bufs waiting w A Hl) as (w' & ?). exists w'. split; [lia|done].
Qed.

(** C10: a handler that found its page in flight does not wait for ever.  After any run, a
    handler at [sem_wait(&ufhandler_sem)] either can go on or finds the semaphore raised
    after at most three steps of the write thread. *)
Theorem waiting_handler_released m st tr w u a t (Hg : agood m st) (Hrun : arun st tr (w, HWait u a, t)) :
  exists n t' w', (n <= 3)%nat /\ writer_run n t w = Ok (t', w') /\
    0 < ufhandler_sem (w_tio w') /\ handler_step (HWait u a) Go w' <> Blocked.
Proof.
  destruct (arun_good m st tr _ Hg Hrun) as [A Hl].
  assert (Hgo : forall w', 0 < ufhandler_sem (w_tio w') -> handler_step (HWait u a) Go w' <> Blocked).
  { intros w' Hp. unfold handler_step, mbind, M_bind, in_tio, zoom, sem_wait. simpl.
    by rewrite (proj2 (Z.ltb_lt 0 (ufhandler_sem (w_tio w')))). }
  destruct (decide (0 < ufhandler_sem (w_tio w))) as [Hp|Hn].
  { exists 0%nat, t, w. split; [lia|]. split; [done|]. split; [done|by apply Hgo]. }
  destruct (turn_ends _ w _ t A Hl) as (n & w' & Hle & E & _ & Hl').
  { destruct Hl as [_ [Hl|Hl]]; [lia|]. by destruct (pc t). }
  destruct Hl' as [_ [Hp|[]]]. exists n, (WThread (flushRemaining t) WtTop), w'. split; [done|]. split; [exact E|]. split; [done|by apply Hgo].
Qed.

(** * A requested flush empties the list *)

Lemma cnt_entries l : wl_ok l -> HASH_CNT l = u32 (Z.of_nat (length (entries l))).
Proof.
  intros [Hk _]. destruct (kd_wf _ _ Hk) as [Hok _].
  assert (Hlen : length (entries l) = length (HASH_ITER l)).
  { assert (H : forall ps, (forall p, p ∈ ps -> p ∈ HASH_ITER l) -> length (payloads ps l) = length ps).
    { unfold payloads. induction ps as [|p ps IH]; intros Hin; [done|]. simpl.
      destruct (iter_elt l p Hok) as [x Hx]; [apply Hin; by left|]. rewrite Hx. simpl. f_equal. apply IH. intros q Hq. apply Hin. by right. }
    by apply H. }
  rewrite Hlen. unfold HASH_CNT, HASH_ITER. unfold hash_ok in Hok. destruct (tbl l) as [tb|]; [apply Hok|done].
Qed.

Lemma entries_keys l k : wl_ok l -> k ∈ w_key <$> entries l <-> is_Some (get k l).
Proof.
  intros Hok. pose proof (wl_keyed _ Hok) as Hk. rewrite list_elem_of_fmap. split.
  - intros (e & -> & He). apply (elem_of_entries w_key l e Hk) in He. by eexists.
  - intros [e He]. pose proof (get_key w_key l k e Hk He) as <-. exists e. split; [done|]. by apply (elem_of_entries w_key l e Hk).
Qed.

(** A list that lost an entry is shorter. *)
Lemma entries_shrink l l' k : wl_ok l -> wl_ok l' -> (forall x, is_Some (get x l') -> is_Some (get x l)) ->
  is_Some (get k l) -> get k l' = None -> (length (entries l') < length (entries l))%nat.
Proof.
  intros Hok Hok' Hsub Hk Hk'. rewrite <- (length_fmap w_key (entries l)), <- (length_fmap w_key (entries l')).
  assert (Hnd : NoDup (k :: (w_key <$> entries l'))).
  { apply NoDup_cons. split; [|by apply entries_NoDup]. intros H%entries_keys; [|done]. rewrite Hk' in H. by destruct H. }
  apply (submseteq_length (k :: (w_key <$> entries l'))). apply NoDup_submseteq; [done|].
  intros x [->|Hx]%elem_of_cons; apply entries_keys; [done|done|done|]. apply Hsub. by apply entries_keys in Hx.
Qed.

Lemma writer_frame_trans w w1 w2 : writer_frame w w1 -> writer_frame w1 w2 -> writer_frame w w2.
Proof.
  intros [? ? ? ?] [? ? ? ?]. split; [congruence|by eapply same_app_trans|lia|congruence].
Qed.

(** A turn with a batch takes at least one page off the list. *)
Lemma turn_drains m w h fr : ainv m w h (WThread fr WtTop) -> live w h (WThread fr WtTop) ->
  flushWriteListNeeded (w_tio w) = true -> entries (wlist w) <> [] -> Z.of_nat (length (entries (wlist w))) < 2 ^ 31 ->
  exists fr' w', writer_run 4 (WThread fr WtTop) w = Ok (WThread fr' WtTop, w') /\
    ainv m w' h (WThread fr' WtTop) /\ live w' h (WThread fr' WtTop) /\ writer_frame w w' /\
    (length (entries (wlist w')) < length (entries (wlist w)))%nat.
Proof.
  intros A Hl Hfl Hne Hlen. pose proof (ai_list _ _ _ _ A) as Hok.
  destruct (select_step_ok m w h fr A Hl) as (t1 & w1 & E1 & A1 & L1 & F1).
  assert (Hsel : exists b, pc t1 = WtWrite b /\ forall x, is_Some (get x (wlist w1)) -> is_Some (get x (wlist w))).
  { unfold writer_step, mbind, M_bind, in_tio, zoom in E1. cbn [pc flushRemaining] in E1.
    destruct (select_batch_run fr (w_tio w) Hok) as [(l1 & more & _ & Es & _ & M & _)|(x & _ & _ & _ & _ & _ & _ & _ & Hno)].
    - rewrite Es in E1. injection E1 as <- <-. eexists. split; [reflexivity|]. intros x Hx. change (is_Some (get x l1)) in Hx. rewrite (proj2 M x), fmap_is_Some in Hx. exact Hx.
    - destruct Hno as [Hno _]; [|congruence]. change (write_list (w_tio w)) with (wlist w). rewrite (cnt_entries _ Hok).
      destruct (entries (wlist w)); [done|]. cbn [length] in *. unfold u32.
      rewrite Z.mod_small by lia. rewrite s32_id by (unfold is_s32; lia). lia. }
  destruct Hsel as (b & Hb & Hsub). destruct t1 as [fr' pc1]. simpl in Hb. subst pc1.
  destruct (write_batch_run m w1 h _ b fr' A1 eq_refl) as (sf & data & e' & s' & E2 & A2 & He & Ha).
  set (w2 := set_ext (e', s') w1) in *.
  destruct (finish_batch_run m w2 h _ b fr' sf data A2 eq_refl) as (x & E3 & A3 & Hx & Hget).
  destruct (release_step_ok m _ h fr' sf data _ A3) as (t4 & w4 & E4 & A4 & L4 & F4 & Hw4); [rewrite Hx; exact L1|].
  pose proof (release_next _ _ _ _ _ _ _ E4) as ->. exists fr', w4.
  assert (S2 : writer_step (WThread fr' (WtWrite b)) w1 = Ok (WThread fr' (WtFinish b sf data), w2)).
  { unfold writer_step, mbind, M_bind. cbn [pc flushRemaining]. by rewrite E2. }
  assert (S3 : writer_step (WThread fr' (WtFinish b sf data)) w2 =
    Ok (WThread fr' (WtRelease sf data (isUfhandlerWaiting (w_tio w2))), set_tio x w2)).
  { unfold writer_step, mbind, M_bind. cbn [pc flushRemaining]. by rewrite E3. }
  rewrite (writer_run_S 3 _ _ _ _ E1), (writer_run_S 2 _ _ _ _ S2), (writer_run_S 1 _ _ _ _ S3), (writer_run_S 0 _ _ _ _ E4).
  split; [done|]. split; [done|]. split; [done|].
  pose proof (ai_writer _ _ _ _ A1) as [Hf _]. rewrite Hw4.
  assert (F3 : writer_frame w1 (set_tio x w2)) by (rewrite Hx; by split).
  split; [by do 2 (eapply writer_frame_trans; [eassumption|])|].
  destruct (b_pages b) as [|[a p] ps] eqn:Eb; [by destruct (fl_some _ _ Hf)|].
  destruct (fl_here _ _ Hf a p) as [Hua Hg]; [rewrite Eb; by left|].
  apply (entries_shrink _ _ (info_key (b_ufd b) a)); [done|apply A3| | |].
  - intros k [e Hk]. apply Hsub. pose proof (ai_list _ _ _ _ A3) as Hok3. destruct (wl_range _ Hok3 k e Hk) as [Hu Hau].
    pose proof (get_key w_key _ k e (wl_keyed _ Hok3) Hk) as <-.
    assert (Hgx : wl_get (write_list x) (w_ufd e) (w_pageaddr e) = Some e) by exact Hk.
    rewrite Hget in Hgx by done. case_decide; [done|]. exists e. exact Hgx.
  - apply Hsub. eexists. exact Hg.
  - pose proof (Hget (b_ufd b) a (fl_ufd _ _ Hf) Hua) as Hn. rewrite decide_True in Hn; [exact Hn|].
    split; [done|]. unfold b_keys. rewrite Eb. by left.
Qed.

(** C11: a flush that was asked for terminates.  With [flushWriteListNeeded] set, the write
    thread alone empties the list in at most one turn of four steps for each page on it,
    however the pages are spread over descriptors, and then every page that is not
    resident is in external memory with the content last stored in it. *)
Theorem flush_drains m st tr w h fr (Hg : agood m st) (Hrun : arun st tr (w, h, WThread fr WtTop))
    (Hh : in_hand h = None) (Hneed : flushWriteListNeeded (w_tio w) = true)
    (Hlen : Z.of_nat (length (entries (wlist w))) < 2 ^ 31) :
  exists n fr' w', (n <= length (entries (wlist w)))%nat /\
    writer_run (4 * n) (WThread fr WtTop) w = Ok (WThread fr' WtTop, w') /\ entries (wlist w') = [] /\
    same_app (w_os w) (w_os w') /\
    forall u a, is_s32 u -> aligned a -> app_page (w_os w) u a = None ->
      default zero_page (stored_at w' u a) = amem_run m tr u a.
Proof.
  destruct (arun_good m st tr _ Hg Hrun) as [A Hl]. clear Hg Hrun.
  remember (length (entries (wlist w))) as k eqn:Hk.
  assert (Hdrain : exists n fr' w', (n <= k)%nat /\ writer_run (4 * n) (WThread fr WtTop) w = Ok (WThread fr' WtTop, w') /\
    entries (wlist w') = [] /\ ainv (amem_run m tr) w' h (WThread fr' WtTop) /\ same_app (w_os w) (w_os w')).
  { revert w fr A Hl Hneed Hlen Hk. induction k as [k IH] using lt_wf_ind. intros w fr A Hl Hneed Hlen Hk.
    destruct (decide (entries (wlist w) = [])) as [He|He].
    { exists 0%nat, fr, w. split; [lia|]. by do 3 (split; [done|]). }
    destruct (turn_drains _ w h fr A Hl Hneed He) as (fr1 & w1 & E1 & A1 & L1 & F1 & Hlt); [by rewrite <- Hk|].
    rewrite <- Hk in Hlt.
    destruct (IH _ Hlt w1 fr1 A1 L1) as (n & fr' & w' & Hn & E & He' & A' & Ha'); [by rewrite (wf_flush _ _ F1)|lia|done|].
    exists (S n), fr', w'. split; [lia|]. split; [|split; [done|split; [done|]]].
    - replace (4 * S n)%nat with (4 + 4 * n)%nat by lia. by rewrite (writer_run_app 4 _ _ _ _ _ E1).
    - eapply same_app_trans; [apply F1|done]. }
  destruct Hdrain as (n & fr' & w' & Hn & E & He & A' & Ha). exists n, fr', w'. do 4 (split; [done|]).
  intros u a Hu Hal Hno. pose proof (aview_cases _ w' h _ u a A' Hu (proj1 Hal)) as V. rewrite Ha, Hno in V.
  assert (Hnl : listed w' u a = None).
  { destruct (listed w' u a) as [e|] eqn:El; [|done].
    assert (H : w_key e ∈ w_key <$> entries (wlist w')).
    { apply entries_keys; [apply A'|]. pose proof (get_key w_key _ _ e (wl_keyed _ (ai_list _ _ _ _ A')) El) as ->. by eexists. }
    rewrite He in H. by apply elem_of_nil in H. }
  rewrite Hnl in V. destruct V as [(p & Hp & _)|V]; [congruence|done].
Qed.

(** * A flush that does not wait *)

Lemma empty_not_listed l u a : wl_ok l -> entries l = [] -> wl_get l u a = None.
Proof.
  intros Hok He. destruct (wl_get l u a) as [e|] eqn:G; [|done].
  assert (H : info_key u a ∈ w_key <$> entries l) by (apply entries_keys; [done|by eexists]).
  rewrite He in H. by apply elem_of_nil in H.
Qed.

(** After the first flush a flush no longer waits.  [flushWriteListNeeded] is never
    reset, so a write thread that finds its list empty raises [flushed_write_sem] for
    nobody before it sleeps; when a page is then put on the list and a flush is asked for,
    the flush returns at once and the page is still on the list. *)
Theorem flush_returns_early w u a p (Hok : wl_ok (wlist w)) (Hempty : entries (wlist w) = [])
    (Hneed : flushWriteListNeeded (w_tio w) = true) (Hsem : 0 <= flushed_write_sem (w_tio w))
    (Hgrow : can_grow (wlist w)) (Hu : is_s32 u) (Ha : is_u64 a) :
  exists w1 w2 w3, writer_step (WThread false WtTop) w = Ok (WThread false WtWait, w1) /\
    in_tio (add_write_info u a p) w1 = Ok (tt, w2) /\ flush_write_list w2 = Ok (tt, w3) /\
    listed w3 u a = Some (WriteInfo u a p false).
Proof.
  set (x1 := set_waiting true (isPrefetcherWaiting (w_tio w)) (isUfhandlerWaiting (w_tio w))
    (sem_set FlushedWrite (flushed_write_sem (w_tio w) + 1) (w_tio w))).
  exists (set_tio x1 w). eexists _, _. split; [|split; [reflexivity|split]].
  - unfold writer_step, select_batch, mbind, M_bind, in_tio, zoom, get_write_list_size, mgets, mget. cbn [pc flushRemaining].
    change (write_list (w_tio w)) with (wlist w). rewrite (HASH_CNT_nil _ Hok Hempty). change (s32 0) with 0. cbn [andb Z.ltb Z.compare].
    by rewrite Hneed.
  - unfold flush_write_list. rewrite async_write. unfold mbind, M_bind, in_tio, zoom, sem_wait, sem_post, mmod. simpl.
    rewrite (proj2 (Z.ltb_lt 0 (flushed_write_sem (w_tio w) + 1))) by lia. reflexivity.
  - destruct (wl_add_ok (wlist w) u a p Hok Hgrow Hu Ha (empty_not_listed _ u a Hok Hempty)) as [_ Hget].
    unfold listed, wlist. simpl. rewrite Hget by done. by rewrite decide_True.
Qed.

(** * The start *)

(** A monitor that has just started, or whose list has been emptied, is in a good state. *)
Lemma agood_start w : wok (LO := none_lost) w -> wlist w = empty_hash -> 0 <= ufhandler_sem (w_tio w) ->
  (copies_out = true -> read_tmp_page w <> NULL) -> agood (view w) (w, HIdle, writer_start).
Proof.
  intros O Hl Hs Hn. split; [|done].
  assert (Hno : forall k, get k (wlist w) = None) by (intros k; by rewrite Hl).
  assert (Hnl : forall u a, listed w u a = None) by (intros u a; apply Hno).
  split; try apply O; try (intros k e G; rewrite Hno in G; done).
  - rewrite Hl. apply empty_wl_ok.
  - intros k e k' e' G. by rewrite Hno in G.
  - unfold private. cbn [hand_bufs app]. destruct copies_out eqn:Ec; [|by split; [constructor|intros p ?%elem_of_nil]].
    split; [apply NoDup_singleton|]. intros p ->%list_elem_of_singleton. destruct (ok_read _ O Ec) as [? ?].
    split; [by apply Hn|]. split; [done|]. split; [done|]. intros k e G. by rewrite Hno in G.
  - split; [constructor|]. by intros q ?%elem_of_nil.
  - done.
  - intros u a _ _. unfold aview, view. by rewrite Hnl.
Qed.
End runs.
