(* ===== verification/AsyncCode.v ===== *)
(** The functions of the fault handler are runs of the steps of [Async]: run alone,
    [evict_to_externram] and [read_from_externram] pass through the handler's program
    points and end in exactly the state the steps lead to. *)
From S2P Require Import Prelude Config MonitorStats Os LruBuffer UtHash ExternRam ThreadedIo Upid.
From S2P Require Import BufferAllocator PageCache World PageCacheRead Userfault WriteThread Consistency Async.

Section code.
Context {OSI : OS} {X : ExternRAM}.
Context {F : BuildFlags} {AB : AsyncBuild F} {I : StaleIterator} {WF : WriteFuel}.
Implicit Types (w : world) (h : hpc).

(** The handler alone, making the given choices. *)
Fixpoint handler_run (chs : list choice) (h : hpc) : M world hpc :=
  match chs with
  | [] => mret h
  | ch :: chs => h ← handler_step h ch; handler_run chs h
  end.

Definition leads h w h' w' : Prop := exists chs, handler_run chs h w = Ok (h', w').

Lemma leads_refl h w : leads h w h w.
Proof. by exists []. Qed.

Lemma handler_run_app chs chs' : forall h w h1 w1, handler_run chs h w = Ok (h1, w1) ->
  handler_run (chs ++ chs') h w = handler_run chs' h1 w1.
Proof.
  induction chs as [|ch chs IH]; intros h w h1 w1; cbn [handler_run app].
  - by intros [= -> ->].
  - unfold mbind, M_bind. destruct (handler_step h ch w) as [[h2 w2]| |]; [|done|done]. apply IH.
Qed.

Lemma leads_trans h w h1 w1 h2 w2 : leads h w h1 w1 -> leads h1 w1 h2 w2 -> leads h w h2 w2.
Proof. intros [c1 E1] [c2 E2]. exists (c1 ++ c2). by rewrite (handler_run_app _ _ _ _ _ _ E1). Qed.

Lemma leads_step h ch w h' w' : handler_step h ch w = Ok (h', w') -> leads h w h' w'.
Proof. intros E. exists [ch]. cbn [handler_run]. unfold mbind, M_bind. by rewrite E. Qed.

Lemma leads_cons h ch w h1 w1 h2 w2 : handler_step h ch w = Ok (h1, w1) -> leads h1 w1 h2 w2 -> leads h w h2 w2.
Proof. intros E. apply leads_trans. by eapply leads_step. Qed.

(** ** What does not move the handler *)

Lemma bind_Ok {S A B} (m : M S A) (f : A -> M S B) s y s' : (x ← m; f x) s = Ok (y, s') ->
  exists x s1, m s = Ok (x, s1) /\ f x s1 = Ok (y, s').
Proof. unfold mbind, M_bind. destruct (m s) as [[x s1]| |]; [|done|done]. intros E. by exists x, s1. Qed.

(** Computations that leave the handler at a program point. *)
Definition stays h {A} (m : M world A) : Prop := forall w x w', m w = Ok (x, w') -> leads h w h w'.

Lemma stays_ret h {A} (x : A) : stays h (mret x).
Proof. intros w y w' [= _ <-]. apply leads_refl. Qed.

Lemma stays_get h {A} (f : world -> A) : stays h (mgets f).
Proof. intros w y w' [= _ <-]. apply leads_refl. Qed.

Lemma stays_bind h {A B} (m : M world A) (f : A -> M world B) : stays h m -> (forall x, stays h (f x)) -> stays h (x ← m; f x).
Proof. intros Hm Hf w y w' (x & w1 & E1 & E2)%bind_Ok. eapply leads_trans; [by eapply Hm|by eapply Hf]. Qed.

Lemma stays_if h {A} (b : bool) (m m' : M world A) : stays h m -> stays h m' -> stays h (if b then m else m').
Proof. by destruct b. Qed.

Lemma stays_when h (b : bool) (m : M world unit) : stays h m -> stays h (mwhen b m).
Proof. intros Hm. destruct b; [exact Hm|apply stays_ret]. Qed.

Lemma stays_ub h {A} f : stays h (mub f : M world A).
Proof. by intros w x w'. Qed.

Lemma stays_lru h {A} (m : M LRUBuffer A) : stays h (in_lru m).
Proof.
  intros w x w' E. unfold in_lru, zoom in E. destruct (m _) as [[y b]| |]; [|done|done]. injection E as _ <-.
  apply (leads_step h (Book b)). by destruct h.
Qed.

Lemma stays_stats h f : stays h (w_stats f).
Proof.
  intros w x w' E. unfold w_stats, in_sys, zoom, with_stats in E. destruct MONITORSTATS; injection E as _ <-.
  - apply (leads_step h (Book (mkLRUBuffer (w_lru w) (f (s_stats (w_sys w)))))). by destruct h.
  - replace (set_sys (w_sys w) w) with w by by destruct w. apply leads_refl.
Qed.

Lemma stays_log_err h : stays h w_log_err.
Proof. intros w [] w' E. apply (leads_step h Report). cbn. unfold mbind, M_bind. destruct h; by rewrite E. Qed.

(** ** Eviction *)

Lemma evict_to_externram_stays back u a : stays (resume back) (evict_to_externram u a).
Proof.
  intros w ret w'. unfold evict_to_externram. intros (r & w1 & E1 & E2)%bind_Ok.
  assert (Hmove : forall h w2, (match r with None => mret (resume back) | Some (ret, p) =>
      if ret =? 0 then w_stats StatsIncrPageEvicted_notlocked;; mret (HMoved back u a p)
      else free_page_checked p;; mret (resume back) end) w1 = Ok (h, w2) -> handler_step (resume back) (EvictPage u a) w = Ok (h, w2)).
  { intros h w2 E. assert (E' : move_out back u a w = Ok (h, w2)) by (unfold move_out, mbind at 1, M_bind at 1; by rewrite E1).
    by destruct back. }
  destruct r as [[r p]|].
  2:{ injection E2 as _ <-. by eapply leads_step, Hmove. }
  apply bind_Ok in E2 as (to_free & w2 & E2 & E3). destruct (r =? 0).
  - apply bind_Ok in E2 as ([] & w3 & E2 & E4). unfold is_zero_page in E4. rewrite async_zeropage in E4.
    apply bind_Ok in E4 as (z & w4 & [= <- <-] & E4). apply bind_Ok in E4 as (q & w5 & E4 & E5).
    rewrite async_pagecache in E5. injection E5 as <- <-.
    eapply leads_cons; [apply Hmove; unfold mbind, M_bind; rewrite E2; reflexivity|].
    apply (leads_step _ Go). cbn [handler_step]. unfold mbind at 1, M_bind at 1. rewrite E4.
    apply bind_Ok in E3 as ([] & w6 & E3 & [= _ <-]). unfold mbind, M_bind. by rewrite E3.
  - injection E2 as <- <-. apply bind_Ok in E3 as ([] & w6 & E3 & [= _ <-]).
    eapply leads_step, Hmove. unfold mbind, M_bind. by rewrite E3.
Qed.

#[local] Hint Resolve stays_ret stays_get stays_ub stays_lru stays_stats : stays.
#[local] Hint Resolve stays_log_err evict_to_externram_stays : stays.
#[local] Ltac stays := repeat first [progress intros | solve [eauto 2 with stays nocore] | apply stays_bind | apply stays_if | apply stays_when].

Lemma evict_if_needed_stays back u dst ty : stays (resume back) (evict_if_needed u dst ty).
Proof. unfold evict_if_needed. stays. Qed.

Lemma evict_multi_loop_stays back n : forall nodes, stays (resume back) (evict_multi_loop n nodes).
Proof. induction n as [|n IH]; intros [|node nodes]; cbn [evict_multi_loop]; stays. Qed.

Lemma evict_to_externram_multi_stays back n : stays (resume back) (evict_to_externram_multi n).
Proof. unfold evict_to_externram_multi. stays. destruct x. apply evict_multi_loop_stays. Qed.

Lemma trim_lru_stays back : stays (resume back) trim_lru.
Proof. pose proof evict_to_externram_multi_stays. unfold trim_lru. stays. Qed.
#[local] Hint Resolve evict_if_needed_stays trim_lru_stays : stays.

(** ** Serving a fault *)

Lemma take_from_write_list_leads fuel u a : forall w r w', take_from_write_list fuel u a w = Ok (r, w') ->
  leads (HLook u a) w (match r with Some p => HTaken u a p | None => HMiss u a end) w'.
Proof.
  induction fuel as [|fuel IH]; intros w r w'; cbn [take_from_write_list]; intros (x & w1 & E1 & E2)%bind_Ok.
  all: assert (Hlook : forall h w2, (match x with TakePage p => mret (HTaken u a p) | TakeNone => mret (HMiss u a)
      | TakeWait waiting => mwhen waiting (in_tio (sem_post Writer));; mret (HWait u a) end) w1 = Ok (h, w2) ->
      handler_step (HLook u a) Go w = Ok (h, w2)) by
    (intros h w2 E; cbn [handler_step]; unfold mbind at 1, M_bind at 1; by rewrite E1).
  all: destruct x as [p| |waiting]; [injection E2 as <- <-; by eapply leads_step, Hlook..|].
  all: apply bind_Ok in E2 as ([] & w2 & E2 & E3); apply bind_Ok in E3 as ([] & w3 & E3 & E4).
  1: discriminate E4.
  eapply leads_cons; [apply Hlook; unfold mbind, M_bind; rewrite E2; reflexivity|].
  eapply (leads_cons _ Go); [cbn [handler_step]; unfold mbind, M_bind; rewrite E3; reflexivity|]. by apply IH.
Qed.

(** Placing a page that was read: from the program point before the copy to the end. *)
Lemma place_page_out_leads u a len w src ret w' : src = read_tmp_page w -> place_page_out u a len src w = Ok (ret, w') ->
  leads (HFetched u a len) w HIdle w'.
Proof.
  intros ->. unfold place_page_out, place_data_page, place_zero_page. rewrite async_asyn.
  destruct (len =? PAGE_SIZE) eqn:El; [|destruct (len =? 0) eqn:E0; [|done]].
  - intros (r & w1 & (r1 & w2 & E1 & E2)%bind_Ok & E3)%bind_Ok.
    eapply (leads_cons _ Go); [cbn [handler_step]; rewrite El; unfold mbind, M_bind, mgets; rewrite E1; reflexivity|].
    assert (S : stays HIdle (ret ← evict_if_needed u a COPY_PAGE; w_stats StatsIncrPlacedPage_notlocked;; mret ret)).
    { apply (stays_bind (resume None)); [apply evict_if_needed_stays|]. stays. }
    eapply leads_trans; [by eapply S|].
    assert (S' : stays HIdle (mwhen (r <? 0) w_log_err;; mret r)) by stays. exact (S' _ _ _ E3).
  - intros (r & w1 & (r1 & w2 & E1 & E2)%bind_Ok & E3)%bind_Ok.
    eapply (leads_cons _ Go); [cbn [handler_step]; rewrite El, E0; unfold mbind, M_bind; rewrite E1; reflexivity|].
    eapply leads_trans; [by eapply (evict_if_needed_stays None)|].
    assert (S' : stays HIdle (mwhen (r <? 0) w_log_err;; mret r)) by stays. exact (S' _ _ _ E3).
Qed.

Lemma place_taken_leads u a p w ret w' : place_page_out u a PAGE_SIZE p w = Ok (ret, w') ->
  leads (HTaken u a p) w (HPlaced p) w'.
Proof.
  unfold place_page_out, place_data_page. rewrite async_asyn. rewrite Z.eqb_refl.
  intros (r & w1 & (r1 & w2 & E1 & E2)%bind_Ok & E3)%bind_Ok.
  eapply (leads_cons _ Go); [cbn [handler_step]; unfold mbind, M_bind; rewrite E1; reflexivity|].
  eapply leads_trans.
  - assert (S : stays (HPlaced p) (ret ← evict_if_needed u a COPY_PAGE; w_stats StatsIncrPlacedPage_notlocked;; mret ret)).
    { apply (stays_bind (resume (Some p))); [apply evict_if_needed_stays|]. stays. }
    exact (S _ _ _ E2).
  - assert (S' : stays (HPlaced p) (mwhen (r <? 0) w_log_err;; mret r)) by stays. exact (S' _ _ _ E3).
Qed.

End code.

