(* ===== verification/Faults.v ===== *)
(** Serving a page fault in the synchronous build: the handler returns, the
    contents a process sees are those it had, and the page is resident. *)
From S2P Require Import Prelude Config MonitorStats Os LruBuffer UtHash ExternRam ThreadedIo Upid.
From S2P Require Import BufferAllocator PageCache World PageCacheRead Userfault Consistency SimOs.
From S2P Require Import Noop.

Section faults.
Context {OSI : OS} {OL : OSLaws OSI} {X : ExternRAM} {L : ExternRAMLaws X}.
Context {F : BuildFlags} {SB : SyncBuild F} {I : StaleIterator} {WF : WriteFuel} {EF : EnoughFuel L WF}.

(** The kernel left a zero page out, for a reason the monitor only warns of. *)
Definition zero_refused (o : os) (u a : Z) : Prop := exists r o', uffdio_zeropage u a o = (r, o') /\ rc r <> 0 /\
  sys_errno r ∈ [EBUSY; ENOENT; EINVAL; ESRCH].

(** The same when a fault is handled in [w]: the page is not stored, and the kernel
    refuses when it is asked, after the lookup. *)
Definition fault_refused (w : world) (u a : Z) : Prop :=
  stored_at w u a = None /\
  exists w1 x w2, w_stats StatsIncrPageFault_notlocked w = Ok (tt, w1) /\ fetch_page u a w1 = Ok (x, w2) /\
    zero_refused (w_os w2) u a.

(** What a fault at [(u, a)] has done; [refused] is the excuse for a page left out. *)
Record fault_served {LO : Lost} (refused : Prop) (w : world) (u a : Z) (w' : world) : Prop := {
  fs_len : Z.of_nat (length (lru_abs (w_lru w'))) <= LruList.max_num_items (w_lru w);
  fs_case :
    (handled w w' /\
     (2 <= LruList.max_num_items (w_lru w) -> ~ lost u a ->
      app_page (w_os w') u a = Some (view w u a) \/ refused \/ (errors w < errors w')%nat)) \/
    ((errors w < errors w')%nat /\ handled (LO := also_lost LO u a) w w')
}.

Section step.
Context {LO : Lost}.

(** Giving up an address weakens what is promised. *)
Lemma wok_lost w u a : wok w -> wok (LO := also_lost LO u a) w.
Proof.
  intros Hw. split; try apply Hw. intros u' a' Hin. destruct (ok_nodes w Hw u' a' Hin) as [Hc [?|[?|?]]];
    (split; [done|]); unfold movable; [by left|by right; left|right; right; by left].
Qed.

(** A page that was absent is put in place with the content it should have. *)
Lemma wok_placed w s' u a : wok w -> app_page (w_os w) u a = None ->
  app_page (s_os s') u a = Some (view w u a) -> same_app_but u a (w_os w) (s_os s') ->
  same_buf (w_os w) (s_os s') -> err_le (w_sys w) s' -> handled w (set_sys s' w).
Proof.
  intros Hw Hno Hpg Ha Hb He. apply same_buf_keep in Hb.
  destruct (ext_keep _ _ _ (ok_ext w Hw) Hb) as [Hok Hst].
  assert (Hsa : forall u' a', stored_at (set_sys s' w) u' a' = stored_at w u' a').
  { intros u' a'. unfold stored_at. change (client_of (set_sys s' w) u') with (client_of w u').
    destruct (client_of w u'); [apply Hst|done]. }
  assert (Hmov : forall u' a', movable w u' a' -> movable (set_sys s' w) u' a').
  { intros u' a' [Hm|[Hm|Hm]]; [left|right; left; by rewrite Hsa|by right; right].
    change (is_Some (app_page (s_os s') u' a')). destruct (decide ((u', a') = (u, a))) as [[= -> ->]|Hne].
    - by rewrite Hpg.
    - by rewrite Ha. }
  split; try done.
  - apply (wok_update w (w_ext w) s'); try done.
    + intros Hc. destruct (ok_read w Hw Hc) as [H1 H2]. split; [|done]. by rewrite Hb.
    + intros u' a' Hin. apply Hmov. apply (ok_nodes w Hw u' a' Hin).
  - intros u' a' _ _. unfold view. rewrite Hsa. change (w_os (set_sys s' w)) with (s_os s').
    destruct (decide ((u', a') = (u, a))) as [[= -> ->]|Hne]; [|by rewrite Ha].
    rewrite Hpg, Hno. unfold view. by rewrite Hno.
Qed.

(** ** Fetching the page *)

Lemma fetch_page_run u a w : wok w -> is_s32 u -> is_Some (client_of w u) ->
  exists len w', fetch_page u a w = Ok ((len, -1), w') /\ handled w w' /\
    same_app (w_os w) (w_os w') /\ w_lru w' = w_lru w /\ errors w' = errors w /\
    stored_at w' u a = stored_at w u a /\
    match stored_at w u a with
    | Some pg => len = PAGE_SIZE /\ buf_page (w_os w') (read_tmp_page w') = Some pg
    | None => len = 0
    end.
Proof.
  intros Hw Hu [c Hc]. destruct (ok_client w Hw u c Hu Hc) as [Hcl Hcn].
  destruct (read_law c a (read_tmp_page w) (w_ext w) (w_sys w))
    as (len & v' & e' & s' & E & Hok & Hcl' & Hown & Hst & Ha & Hb & Hss & Hd & Hco & Hres);
    [apply Hw|done|apply Hw|].
  set (w1 := set_read_tmp_page v' (set_ext (e', s') w)).
  assert (Hsa : forall u' a', stored_at w1 u' a' = stored_at w u' a').
  { intros u' a'. unfold stored_at. change (client_of w1 u') with (client_of w u').
    destruct (client_of w u'); [apply Hst|done]. }
  exists len, w1. split.
  { unfold fetch_page. rewrite sync_pagecache, sync_asyn. unfold mbind, M_bind, mgets, in_fd, zoom, mmod.
    rewrite get_client_by_fd_run by apply Hw. unfold client_of in Hc.
    destruct (find_fd u (fdUpidMap (w_fd w))) as [ms|]; [|done]. injection Hc as Hc. rewrite Hc, decide_False by done.
    unfold in_ext, zoom, readPage. cbn [w_ext w_sys set_fd]. by rewrite E. }
  split; [|split; [done|split; [done|split; [unfold errors, w_dbg; simpl; by rewrite Hd|]]]].
  - split; try done.
    + split; try done; try apply Hw.
      * intros u' c' Hu' Hc'. change (c' ∈ clients e' /\ c' <> NULL). rewrite Hcl'. by apply (ok_client w Hw u').
      * intros Hcp. destruct (Hco Hcp) as [-> Hs]. split; [done|]. change (read_tmp_page w ∉ owned e'). rewrite Hown.
        by apply Hw.
      * intros u' a' Hin. destruct (ok_nodes w Hw u' a' Hin) as [Hc' Hm]. split; [done|].
        destruct Hm as [Hm|[Hm|Hm]]; [left|right; left; by rewrite Hsa|by right; right].
        change (is_Some (app_page (s_os s') u' a')). by rewrite Ha.
    + intros u' a' _ _. unfold view. rewrite Hsa. change (w_os w1) with (s_os s'). by rewrite Ha.
    + unfold errors, w_dbg. simpl. by rewrite Hd.
  - split; [apply Hsa|]. unfold stored_at. rewrite Hc. exact Hres.
Qed.
End step.

(** ** Placing the page *)

(** The fault once the page is in place, or given up. *)
Definition placed {LO : Lost} (w : world) (u a : Z) (w' : world) : Prop :=
  (exists w1, handled w w1 /\ w_lru w1 = w_lru w /\ made_room w1 u a w' /\
     (app_page (w_os w1) u a = Some (view w u a) \/ (stored_at w u a = None /\ zero_refused (w_os w) u a) \/ (errors w < errors w1)%nat)) \/
  (exists w1, handled (LO := also_lost LO u a) w w1 /\ w_lru w1 = w_lru w /\ (errors w < errors w1)%nat /\
     made_room (LO := also_lost LO u a) w1 u a w').

Lemma made_room_quiet {LO : Lost} w u a w1 w2 : made_room w u a w1 -> quiet w1 w2 -> made_room w u a w2.
Proof.
  intros [H Hh Hl] (H2 & Ho & Hlru & _). split; [by eapply handled_trans|by rewrite Ho|by rewrite Hlru].
Qed.

Lemma placed_quiet {LO : Lost} w u a w1 w2 : placed w u a w1 -> (forall LO : Lost, wok w1 -> quiet w1 w2) -> placed w u a w2.
Proof.
  intros [(w0 & H & Hl & Hm & Hc)|(w0 & H & Hl & He & Hm)] Q; [left|right]; exists w0.
  - split; [done|]. split; [done|]. split; [|done]. eapply made_room_quiet; [done|]. apply Q, Hm.
  - split; [done|]. split; [done|]. split; [done|]. eapply made_room_quiet; [done|]. apply Q, Hm.
Qed.

Lemma placed_stats {LO : Lost} f w u a w1 : placed w u a w1 ->
  exists w2, w_stats f w1 = Ok (tt, w2) /\ placed w u a w2.
Proof.
  intros P. destruct (w_stats_run f w1) as (s' & E & Ho & Hd). eexists. split; [exact E|].
  eapply placed_quiet; [exact P|]. intros LO' Hw1. split; [|done]. apply handled_sys; [done|done|].
  unfold err_le. unfold w_dbg in Hd. rewrite Hd. lia.
Qed.

Lemma placed_log_err {LO : Lost} w u a w1 (b : bool) : placed w u a w1 ->
  exists w2, mwhen b w_log_err w1 = Ok (tt, w2) /\ placed w u a w2.
Proof.
  intros P. destruct b; [|by eexists]. eexists. split; [reflexivity|].
  eapply placed_quiet; [exact P|]. intros LO' Hw1. split; [|done]. apply handled_sys; [done|done|].
  unfold err_le. simpl. lia.
Qed.

Lemma handled_kernel {LO : Lost} w s' : wok w -> same_app (w_os w) (s_os s') -> same_buf (w_os w) (s_os s') ->
  err_le (w_sys w) s' -> handled w (set_sys s' w).
Proof.
  intros Hw Ha Hb He. destruct (wok_keep w s' Hw Ha (same_buf_keep _ _ Hb)) as (? & ? & _). by split.
Qed.

Lemma place_data_page_run {LO : Lost} u a src w : wok w -> aligned a -> 0 <= u < 4096 -> is_Some (client_of w u) ->
  (app_page (w_os w) u a = None -> buf_page (w_os w) src = Some (view w u a)) ->
  is_Some (buf_page (w_os w) src) ->
  exists ret w', place_data_page u a src w = Ok (ret, w') /\ placed w u a w' /\ ret_ok w ret.
Proof.
  intros Hw Hal Hu Hc Hsrc [pg Hpg].
  unfold place_data_page, copy_page. rewrite sync_asyn. unfold mbind, M_bind, in_sys, zoom, syscall.
  destruct (uffdio_copy u a src (s_os (w_sys w))) as [[r cp] o'] eqn:E.
  destruct (Z.eqb_spec (rc r) 0) as [Hr|Hr]; cbn [negb andb mret M_ret].
  - destruct (copy_ok _ _ _ _ _ _ _ _ E Hr Hpg) as (Hno & Hpl & Ha & Hb).
    specialize (Hsrc Hno). rewrite Hpg in Hsrc. injection Hsrc as ->. set (w1 := set_sys _ w).
    assert (H1 : handled w w1) by (apply (wok_placed w _ u a); try done; unfold err_le; simpl; lia).
    destruct (evict_if_needed_run u a COPY_PAGE w1) as (ret & w2 & E2 & M2 & R2); try done; [apply H1|by left|].
    unfold mret, M_ret. rewrite E2.
    destruct (placed_stats StatsIncrPlacedPage_notlocked w u a w2) as (w3 & -> & P3);
      [|eexists _, _; split; [reflexivity|]; split; [done|by apply (ret_ok_fd w1)]].
    left. exists w1. split; [done|]. split; [done|]. split; [exact M2|by left].
  - destruct (copy_fail _ _ _ _ _ _ _ E Hr) as [Ha Hb]. pose proof (copy_field _ _ _ _ _ _ _ E Hr) as Hneg.
    destruct (Z.eqb_spec cp PAGE_SIZE) as [->|Hcp]; [unfold PAGE_SIZE in Hneg; lia|]. cbn [negb andb].
    rewrite bool_decide_eq_false_2; [|unfold EBUSY, ENOENT, ESRCH; set_solver by lia]. cbn [negb mwhen].
    set (s1 := Sys o' _ _). set (w1 := set_sys s1 w).
    assert (H1 : handled (LO := also_lost LO u a) w w1).
    { apply handled_kernel; [by apply wok_lost|done|done|unfold err_le; simpl; lia]. }
    destruct (w_log_err_quiet (LO := also_lost LO u a) w1 (ha_ok _ _ H1)) as (w2 & -> & Q2 & He2).
    assert (Hfd2 : w_fd w2 = w_fd w) by (rewrite (ha_fd _ _ (proj1 Q2)); apply H1).
    destruct (evict_if_needed_run (LO := also_lost LO u a) u a COPY_PAGE w2) as (ret & w3 & E3 & M3 & R3);
      try done; [apply Q2|by rewrite (client_of_fd w w2 u Hfd2)|right; right; by right|].
    unfold mret, M_ret. rewrite E3.
    destruct (placed_stats StatsIncrPlacedPage_notlocked w u a w3) as (w4 & -> & P4);
      [|eexists _, _; split; [reflexivity|]; split; [done|by apply (ret_ok_fd w2)]].
    right. exists w2. split; [eapply handled_trans; [exact H1|apply Q2]|].
    split; [by destruct Q2 as (_ & _ & -> & _)|]. split; [|exact M3]. pose proof (ha_err _ _ H1). lia.
Qed.

Lemma in_sys_syscall0 f w r o : f (w_os w) = (r, o) ->
  in_sys (syscall0 f) w = Ok (rc r, set_sys (Sys o
    (if rc r =? 0 then w_dbg w
     else Dbg (sys_errno r) (return_val (w_dbg w)) (sigint (w_dbg w)) (exit_on_recoverable_error (w_dbg w)))
    (s_stats (w_sys w))) w).
Proof. unfold w_os. intros E. unfold in_sys, zoom, syscall0, syscall. mrun. by rewrite E. Qed.

(** The handling of a failed [UFFDIO_ZEROPAGE]. *)
Lemma zero_failure_run {LO : Lost} u a o r o' w : wok w -> uffdio_zeropage u a o = (r, o') -> rc r <> 0 ->
  errno (w_dbg w) = sys_errno r ->
  exists w', (e ← get_errno;
     mwhen (negb (bool_decide (e ∈ [EBUSY; ENOENT; EINVAL; ESRCH]))) w_log_err;; mret e) w = Ok (sys_errno r, w') /\
    quiet w w' /\ (zero_refused o u a \/ (errors w < errors w')%nat).
Proof.
  intros Hw E Hr He. unfold get_errno, mbind, M_bind, mgets. rewrite He. case_bool_decide as Hin; cbn [negb mwhen].
  - exists w. split; [done|]. split; [by apply quiet_refl|]. left. by exists r, o'.
  - destruct (w_log_err_quiet w Hw) as (w1 & -> & Q & H). exists w1. split; [done|]. split; [done|by right].
Qed.

Lemma place_zero_page_run {LO : Lost} u a w : wok w -> aligned a -> 0 <= u < 4096 -> is_Some (client_of w u) ->
  stored_at w u a = None -> exists ret w', place_zero_page u a w = Ok (ret, w') /\ placed w u a w' /\ ret_ok w ret.
Proof.
  intros Hw Hal Hu Hc Hst. unfold place_zero_page, fill_zero_page. rewrite sync_asyn, page_of_id by done.
  destruct (uffdio_zeropage u a (w_os w)) as [r o'] eqn:E.
  unfold mbind at 1 2, M_bind at 1 2. rewrite (in_sys_syscall0 _ _ _ _ E).
  destruct (Z.eqb_spec (rc r) 0) as [Hr|Hr].
  - destruct (zeropage_ok _ _ _ _ _ E Hr) as (Hno & Hpl & Ha & Hb). set (w1 := set_sys _ w).
    assert (Hv : view w u a = zero_page) by (unfold view; by rewrite Hno, Hst).
    assert (H1 : handled w w1).
    { apply (wok_placed w _ u a); try done; [by rewrite Hv|unfold err_le, w_dbg; simpl; destruct (rc r =? 0); simpl; lia]. }
    destruct (evict_if_needed_run u a ZERO_PAGE w1) as (ret & w2 & E2 & M2 & R2); try done; [apply H1|by left|].
    exists ret, w2. split; [exact E2|]. split; [|by apply (ret_ok_fd w1)]. left. exists w1. split; [done|]. split; [done|]. split; [exact M2|].
    left. by rewrite Hv.
  - destruct (zeropage_fail _ _ _ _ _ E Hr) as [Ha Hb]. set (w1 := set_sys _ w).
    assert (H1 : handled w w1) by (apply handled_kernel; [done|done|done|unfold err_le, w_dbg; simpl; destruct (rc r =? 0); simpl; lia]).
    destruct (zero_failure_run u a _ r o' w1 (ha_ok _ _ H1) E Hr) as (w2 & E2 & Q2 & Hcase).
    { unfold w1, w_dbg. simpl. destruct (Z.eqb_spec (rc r) 0); [done|reflexivity]. }
    assert (Hfd2 : w_fd w2 = w_fd w) by (rewrite (ha_fd _ _ (proj1 Q2)); apply H1).
    rewrite E2.
    destruct (evict_if_needed_run u a ZERO_PAGE w2) as (ret & w3 & E3 & M3 & R3); try done; [apply Q2| | |].
    + by rewrite (client_of_fd w w2).
    + apply (movable_quiet w1); [done|]. right. left. rewrite <- Hst. unfold stored_at.
      change (client_of w1 u) with (client_of w u). destruct (client_of w u); [|done].
      apply (ext_keep (w_ext w) (w_os w) o' (ok_ext w Hw)). by apply same_buf_keep.
    + exists ret, w3. split; [exact E3|]. split; [|by apply (ret_ok_fd w2)]. left. exists w2. split; [eapply handled_trans; [exact H1|apply Q2]|].
      split; [by destruct Q2 as (_ & _ & -> & _)|]. split; [exact M3|]. right.
      destruct Hcase as [?|?]; [left; by split|right]. pose proof (ha_err _ _ H1). lia.
Qed.

Lemma place_page_out_run {LO : Lost} u a len src w : wok w -> aligned a -> 0 <= u < 4096 -> is_Some (client_of w u) ->
  match stored_at w u a with
  | Some pg => len = PAGE_SIZE /\ buf_page (w_os w) src = Some pg
  | None => len = 0
  end -> exists ret w', place_page_out u a len src w = Ok (ret, w') /\ placed w u a w' /\ ret_ok w ret.
Proof.
  intros Hw Hal Hu Hc Hlen. unfold place_page_out, mbind, M_bind. destruct (stored_at w u a) as [pg|] eqn:Est.
  - destruct Hlen as [-> Hpg]. destruct (place_data_page_run u a src w) as (ret & w1 & E & P & R); try done.
    + intros Hno. unfold view. by rewrite Hno, Est.
    + change (PAGE_SIZE =? PAGE_SIZE) with true. cbn beta iota. rewrite E.
      destruct (placed_log_err w u a w1 (ret <? 0) P) as (w2 & -> & P2). by exists ret, w2.
  - subst len. destruct (place_zero_page_run u a w) as (ret & w1 & E & P & R); try done.
    change (0 =? PAGE_SIZE) with false. change (0 =? 0) with true. cbn beta iota. rewrite E.
    destruct (placed_log_err w u a w1 (ret <? 0) P) as (w2 & -> & P2). by exists ret, w2.
Qed.

(** ** Trimming, and the whole fault *)

(** Within its limit, and so far from the largest [int]. *)
Definition within (w : world) : Prop :=
  Z.of_nat (length (lru_abs (w_lru w))) <= LruList.max_num_items (w_lru w) < 2 ^ 31 - 1.

(** Dropping the last of three or more pages keeps the first two. *)
Lemma recent_kept {A} (p : A) l l' gone : NoDup l -> l = l' ++ gone -> p ∈ take 2 l -> (2 <= length l')%nat -> p ∉ gone.
Proof.
  intros Hnd -> Hp Hl Hg. rewrite take_app_le in Hp by done. apply NoDup_app in Hnd as (_ & Hd & _).
  apply (Hd p); [|done]. by apply subseteq_take in Hp.
Qed.

Lemma made_room_trim {LO : Lost} w u a w1 : made_room w u a w1 -> within w ->
  exists w2, trim_lru w1 = Ok (tt, w2) /\ handled w w2 /\
    Z.of_nat (length (lru_abs (w_lru w2))) <= LruList.max_num_items (w_lru w) /\
    (2 <= LruList.max_num_items (w_lru w) -> app_page (w_os w2) u a = app_page (w_os w) u a).
Proof.
  intros [H Hh Hl] [Hlen Hmax]. specialize (Hl Hlen). pose proof (ha_max _ _ H) as Hm.
  destruct (trim_lru_run w1 (ha_ok _ _ H)) as (w2 & gone & E & H2 & Habs & Hg & Ha); [destruct Hl as [?|[? _]]; lia|].
  exists w2. split; [done|]. split; [by eapply handled_trans|].
  assert (Hlen2 : length (lru_abs (w_lru w1)) = (length (lru_abs (w_lru w2)) + length gone)%nat)
    by (rewrite Habs; apply length_app).
  split; [destruct Hl as [?|[? _]]; lia|]. intros H2m. rewrite Ha; [apply Hh; lia|].
  destruct Hl as [Hle|[Hle Hin]].
  - destruct gone; [set_solver|]. simpl in Hg. lia.
  - apply (recent_kept _ _ _ _ (lru_abs_NoDup _ (ok_lru _ (ha_ok _ _ H))) Habs); [apply Hin; lia|lia].
Qed.

Lemma placed_trim {LO : Lost} w u a w1 : placed w u a w1 -> within w ->
  exists w2, trim_lru w1 = Ok (tt, w2) /\ fault_served (stored_at w u a = None /\ zero_refused (w_os w) u a) w u a w2.
Proof.
  intros P Hin. destruct P as [(w0 & H0 & Hl & M & Hc)|(w0 & H0 & Hl & He & M)].
  - destruct (made_room_trim w0 u a w1 M) as (w2 & E & H2 & Hlen & Ha); [unfold within; by rewrite Hl|].
    exists w2. split; [done|]. rewrite Hl in Hlen, Ha. split; [done|]. left. split; [by eapply handled_trans|].
    intros Hm _. rewrite Ha by done. pose proof (ha_err _ _ H2). destruct Hc as [?|[?|?]]; [by left|by right; left|right; right; lia].
  - destruct (made_room_trim w0 u a w1 M) as (w2 & E & H2 & Hlen & Ha); [unfold within; by rewrite Hl|].
    exists w2. split; [done|]. rewrite Hl in Hlen. split; [done|]. right. pose proof (ha_err _ _ H2).
    split; [lia|by eapply handled_trans].
Qed.

Lemma handled_lost {LO : Lost} u a w w' : handled w w' -> handled (LO := also_lost LO u a) w w'.
Proof.
  intros [? Hv ? ? ?]. split; [by apply wok_lost| |done|done|done]. intros u' a' Hu' Hnl. apply Hv; [done|].
  intros Hl. apply Hnl. by left.
Qed.

Lemma served_after {LO : Lost} (Q R : Prop) u a w w1 w2 : handled w w1 -> w_lru w1 = w_lru w ->
  fault_served Q w1 u a w2 -> is_s32 u -> (Q -> R) -> fault_served R w u a w2.
Proof.
  intros H1 Hl [Hlen Hc] Hu HQR. rewrite Hl in Hlen, Hc. split; [done|]. pose proof (ha_err _ _ H1).
  destruct Hc as [[H2 Hr]|[He H2]]; [left|right].
  - split; [by eapply handled_trans|]. intros Hm Hnl. rewrite <- (ha_view _ _ H1) by done.
    destruct (Hr Hm Hnl) as [?|[?|?]]; [by left|right; left; by apply HQR|right; right; lia].
  - split; [lia|]. eapply handled_trans; [by apply handled_lost|done].
Qed.

Lemma served_stats {LO : Lost} Q f u a w w1 : fault_served Q w u a w1 ->
  exists w2, w_stats f w1 = Ok (tt, w2) /\ fault_served Q w u a w2.
Proof.
  intros [Hlen Hc]. destruct Hc as [[H Hr]|[He H]].
  - destruct (w_stats_quiet f w1 (ha_ok _ _ H)) as (w2 & E & (H2 & Ho & Hl & _) & Her). exists w2. split; [done|].
    split; [by rewrite Hl|]. left. split; [by eapply handled_trans|]. by rewrite Ho, Her.
  - destruct (w_stats_quiet f w1 (ha_ok _ _ H)) as (w2 & E & (H2 & Ho & Hl & _) & Her). exists w2. split; [done|].
    split; [by rewrite Hl|]. right. split; [by rewrite Her|by eapply handled_trans].
Qed.

Lemma read_from_externram_run {LO : Lost} u a w : wok w -> within w -> aligned a -> 0 <= u < 4096 ->
  is_Some (client_of w u) ->
  exists ret w', read_from_externram u a w = Ok (ret, w') /\
    fault_served (fault_refused w u a) w u a w' /\ ret_ok w ret.
Proof.
  intros Hw Hin Hal Hu Hc. unfold read_from_externram. rewrite sync_write, sync_prefetch, sync_asyn.
  unfold mbind, M_bind.
  destruct (w_stats_quiet StatsIncrPageFault_notlocked w Hw) as (w1 & E1 & (H1 & Ho1 & Hl1 & He1) & _).
  rewrite E1. cbn [mgets mret M_ret mwhen].
  destruct (fetch_page_run u a w1 (ha_ok _ _ H1)) as (len & w2 & E2 & H2 & Ha2 & Hl2 & Her2 & Hst2 & Hlen);
    [by apply small_s32|by rewrite (client_of_fd w w1 u (ha_fd _ _ H1))|].
  unfold mgets, mret, M_ret. rewrite E2. pose proof (handled_trans _ _ _ H1 H2) as H.
  destruct (place_page_out_run u a len (read_tmp_page w2) w2) as (ret & w3 & -> & P & R); try done.
  { apply H. }
  { by rewrite (client_of_fd w w2 u (ha_fd _ _ H)). }
  { by rewrite Hst2. }
  cbn [andb negb]. destruct (placed_trim w2 u a w3 P) as (w4 & -> & S4); [unfold within; by rewrite Hl2, Hl1|].
  unfold mget. destruct (served_stats _ (StatsSetLastFaultTime (gettimeofday (w_os w4))) u a w2 w4 S4) as (w5 & -> & S5).
  eexists _, _. split; [reflexivity|]. split; [|apply (ret_ok_fd w2); [symmetry; apply H|done]]. eapply served_after; [exact H|congruence|exact S5|by apply small_s32|].
  intros [Hns Hz]. split; [|by exists w1, (len, -1), w2]. rewrite <- Hns, Hst2. unfold stored_at.
  by rewrite (client_of_fd w w1 u (ha_fd _ _ H1)), He1, Ho1.
Qed.

(** A fault on a descriptor without a client is not handled as an error: the
    length stays at -1, and reporting it passes an integer to a string conversion.
    Descriptors whose registration failed end up here, because the result of
    [register_with_externram] is not looked at. *)
Theorem unregistered_fault_undefined u a w (Hfd : fdmap_ok (w_fd w))
    (Hc : client_of w u = None \/ client_of w u = Some NULL) :
  read_from_externram u a w = UB BadFormat.
Proof.
  assert (Hn : forall m, m = w_fd w -> get_client_by_fd u m = Ok (NULL, m)).
  { intros m ->. rewrite get_client_by_fd_run by done. f_equal. f_equal. unfold client_of in Hc.
    destruct (find_fd u (fdUpidMap (w_fd w))) as [ms|]; [|done]. by destruct Hc as [|[= ->]]. }
  destruct (w_stats_run StatsIncrPageFault_notlocked w) as (s1 & E & _ & _).
  assert (Hf : exists w2, fetch_page u a (set_sys s1 w) = Ok ((-1, -1), w2)).
  { eexists. unfold fetch_page. rewrite sync_pagecache, sync_asyn. unfold mbind, M_bind, mgets, in_fd, zoom.
    change (w_fd (set_sys s1 w)) with (w_fd w). rewrite (Hn _ eq_refl). by rewrite decide_True by done. }
  destruct Hf as [w2 Hf]. unfold read_from_externram. rewrite sync_write, sync_prefetch, sync_asyn.
  unfold mbind, M_bind. rewrite E. cbn [mgets mret M_ret mwhen]. unfold mgets, mret, M_ret. by rewrite Hf.
Qed.
End faults.
