(* ===== verification/Memory.v ===== *)
(** The monitor as a memory: over any run of faults, stores by the processes,
    resizes of the local memory and registrations of new regions, every address
    holds what was last stored there, whatever the monitor has moved where.

    This is the refinement of the whole synchronous monitor to a plain map from
    addresses to pages. *)
From S2P Require Import Prelude Config MonitorStats Os LruBuffer UtHash ExternRam ThreadedIo Upid.
From S2P Require Import BufferAllocator PageCache World PageCacheRead Userfault Consistency Faults.
From S2P Require Import SimOs Noop.

(** * Specification *)

(** What happens to a process's memory. *)
Inductive event : Type :=
| Fault (u a : Z)
| Store (u a : Z) (pg : page)
| Resize (size : Z).

Definition memory : Type := Z -> Z -> page.
Definition mem_step (m : memory) (e : event) : memory :=
  match e with
  | Store u a pg => fun u' a' => if decide ((u', a') = (u, a)) then pg else m u' a'
  | Fault _ _ | Resize _ => m
  end.
Definition mem_run (m : memory) (tr : list event) : memory := foldl mem_step m tr.

Section monitor.
Context {OSI : OS} {OL : OSLaws OSI} {X : ExternRAM} {L : ExternRAMLaws X}.
Context {F : BuildFlags} {SB : SyncBuild F} {I : StaleIterator} {WF : WriteFuel} {EF : EnoughFuel L WF}.

(** * The monitor's runs *)

(** A process stores to a page that is resident; a fault and a resize run the
    monitor's code. *)
Inductive step : world -> event -> world -> Prop :=
| step_fault u a w ret w' : read_from_externram u a w = Ok (ret, w') -> step w (Fault u a) w'
| step_store u a pg w s' : is_Some (app_page (w_os w) u a) ->
    app_page (s_os s') u a = Some pg -> same_app_but u a (w_os w) (s_os s') ->
    same_buf (w_os w) (s_os s') -> s_dbg s' = w_dbg w -> step w (Store u a pg) (set_sys s' w)
| step_resize size w w' : resizeLRUBuffer size w = Ok (tt, w') -> step w (Resize size) w'.

(** Runs in which the monitor reports no error; the first error report raises
    [SIGINT], which ends it. *)
Inductive run : world -> list event -> world -> Prop :=
| run_nil w : run w [] w
| run_snoc w tr w1 e w2 : run w tr w1 -> step w1 e w2 -> errors w2 = errors w1 -> run w (tr ++ [e]) w2.

(** Faults and stores at pages of registered regions, sizes that leave room for
    two pages. *)
Definition event_ok (w : world) (e : event) : Prop :=
  match e with
  | Fault u a | Store u a _ => aligned a /\ 0 <= u < 4096 /\ is_Some (client_of w u)
  | Resize size => 2 <= size < 2 ^ 31 - 1
  end.

(** The monitor's state, between events. *)
Record monitor_ok (w : world) : Prop := {
  mo_wok : wok (LO := none_lost) w;
  mo_within : within w;
  mo_room : 2 <= LruList.max_num_items (w_lru w)
}.

(** The monitor shows the memory [m]. *)
Definition shows (w : world) (m : memory) : Prop := forall u a, is_s32 u -> view w u a = m u a.

Lemma not_none_lost u a : ~ lost (Lost := none_lost) u a.
Proof. by intros []. Qed.

Lemma store_ok u a pg w s' : monitor_ok w -> is_Some (app_page (w_os w) u a) ->
  app_page (s_os s') u a = Some pg -> same_app_but u a (w_os w) (s_os s') ->
  same_buf (w_os w) (s_os s') ->
  monitor_ok (set_sys s' w) /\
  (forall u' a', view (set_sys s' w) u' a' = if decide ((u', a') = (u, a)) then pg else view w u' a').
Proof.
  intros [Hw Hin Hroom] Hres Hpg Ha Hb%same_buf_keep.
  destruct (ext_keep _ _ _ (ok_ext w Hw) Hb) as [Hok Hst].
  assert (Hsa : forall u' a', stored_at (set_sys s' w) u' a' = stored_at w u' a').
  { intros u' a'. unfold stored_at. change (client_of (set_sys s' w) u') with (client_of w u').
    destruct (client_of w u'); [apply Hst|done]. }
  split; [split; [|done|done]|].
  - apply (wok_update w (w_ext w) s'); try done.
    + intros Hc. destruct (ok_read w Hw Hc) as [H1 H2]. split; [|done]. by rewrite Hb.
    + intros u' a' Hn. destruct (ok_nodes w Hw u' a' Hn) as [_ [Hr|[Hr|[]]]]; [left|right; left; by rewrite <- Hr, <- Hsa].
      change (is_Some (app_page (s_os s') u' a')). destruct (decide ((u', a') = (u, a))) as [[= -> ->]|Hne].
      * by rewrite Hpg.
      * by rewrite Ha.
  - intros u' a'. unfold view. rewrite Hsa. change (w_os (set_sys s' w)) with (s_os s').
    case_decide as D; [injection D as -> ->; by rewrite Hpg|by rewrite Ha].
Qed.

(** One event without an error: the state stays good and shows the next memory. *)
Lemma step_refines w e w' m : monitor_ok w -> shows w m -> event_ok w e -> step w e w' ->
  errors w' = errors w -> monitor_ok w' /\ shows w' (mem_step m e) /\ w_fd w' = w_fd w.
Proof.
  intros Hm Hs He St Herr. pose proof Hm as [Hw Hin Hroom]. destruct St as [u a w ret w' E|u a pg w s' Hres Hpg Ha Hb Hd|size w w' E].
  - destruct He as (Hal & Hu & Hc).
    destruct (read_from_externram_run (LO := none_lost) u a w Hw Hin Hal Hu Hc) as (r & w1 & E1 & [Hlen Hcase] & _).
    assert (w1 = w') as -> by congruence.
    destruct Hcase as [[H _]|[Hlt _]]; [|lia].
    split; [split|split].
    + apply H.
    + unfold within. rewrite (ha_max _ _ H). destruct Hin. lia.
    + by rewrite (ha_max _ _ H).
    + intros u' a' Hu'. rewrite (ha_view _ _ H) by (done || apply not_none_lost). by apply Hs.
    + apply H.
  - destruct (store_ok u a pg w s') as [Hm' Hv]; try done.
    split; [done|]. split; [|done].
    intros u' a' Hu'. rewrite Hv. simpl. case_decide; [done|by apply Hs].
  - simpl in He. destruct (resize_step (LO := none_lost) w size Hw) as
      (w1 & gone & E1 & Hw1 & Hv1 & Hf1 & Hm1 & Ha1 & Hg1 & He1 & _); [lia|unfold within in Hin; lia|].
    assert (w1 = w') as -> by congruence.
    assert (length (lru_abs (w_lru w)) = (length (lru_abs (w_lru w')) + length gone)%nat) by (rewrite Ha1; apply length_app).
    split; [split; [done|unfold within; lia|lia]|]. split; [|done].
    intros u' a' Hu'. rewrite Hv1 by (done || apply not_none_lost). by apply Hs.
Qed.

Lemma run_shows w tr w' m : monitor_ok w -> shows w m -> Forall (event_ok w) tr -> run w tr w' ->
  monitor_ok w' /\ shows w' (mem_run m tr) /\ w_fd w' = w_fd w.
Proof.
  intros Hm Hs Hev R. induction R as [w|w tr w1 e w2 R IH St Herr]; [done|].
  apply Forall_app in Hev as [Hev He]. apply Forall_cons in He as [He _].
  destruct (IH Hm Hs Hev) as (Hm1 & Hs1 & Hf1). clear IH.
  destruct (step_refines w1 e w2 _ Hm1 Hs1) as (Hm2 & Hs2 & Hf2); [|done|done|].
  - destruct e; cbn [event_ok] in He |- *; try done; by rewrite (client_of_fd w w1 _ Hf1).
  - unfold mem_run. rewrite foldl_app. split; [done|]. split; [done|congruence].
Qed.

(** C1: the monitor is a memory.  In every run of faults, stores and resizes without
    an error report, a resident page holds exactly what the specification memory
    holds at its address, an evicted page is in external memory with that content,
    and the number of tracked pages stays within the limit. *)
Theorem monitor_refines_memory w tr w' m (Hm : monitor_ok w) (Hs : shows w m)
    (Hev : Forall (event_ok w) tr) (Hrun : run w tr w') :
  (forall u a pg, is_s32 u -> app_page (w_os w') u a = Some pg -> pg = mem_run m tr u a) /\
  (forall u a, is_s32 u -> app_page (w_os w') u a = None ->
     default zero_page (stored_at w' u a) = mem_run m tr u a) /\
  Z.of_nat (length (lru_abs (w_lru w'))) <= LruList.max_num_items (w_lru w').
Proof.
  destruct (run_shows w tr w' m Hm Hs Hev Hrun) as (Hm' & Hs' & _). split; [|split].
  - intros u a pg Hu Hpg. rewrite <- Hs' by done. unfold view. by rewrite Hpg.
  - intros u a Hu Hno. rewrite <- Hs' by done. unfold view. by rewrite Hno.
  - apply Hm'.
Qed.

(** C2: no fault is left unserved.  After any such run, serving a fault at a page of
    a registered region returns, and unless an error is reported or the kernel
    refuses the zero page, the page is then resident with the content of the
    specification memory. *)
Theorem faults_are_served w tr w' m u a (Hm : monitor_ok w) (Hs : shows w m)
    (Hev : Forall (event_ok w) tr) (Hrun : run w tr w') (Hok : event_ok w (Fault u a)) :
  exists ret w2, read_from_externram u a w' = Ok (ret, w2) /\
    ((errors w' < errors w2)%nat \/ fault_refused w' u a \/ app_page (w_os w2) u a = Some (mem_run m tr u a)).
Proof.
  destruct (run_shows w tr w' m Hm Hs Hev Hrun) as (Hm' & Hs' & Hf). destruct Hok as (Hal & Hu & Hc).
  destruct (read_from_externram_run (LO := none_lost) u a w') as (ret & w2 & E & [_ Hcase] & _); try apply Hm'; try done.
  { by rewrite (client_of_fd w w'). }
  exists ret, w2. split; [done|]. destruct Hcase as [[_ Hr]|[? _]]; [|by left].
  destruct (Hr (mo_room _ Hm') (not_none_lost u a)) as [Hr'|[?|?]]; [|by right; left|by left].
  right. right. rewrite Hr'. f_equal. apply Hs'. by apply small_s32.
Qed.

(** * Registering a region *)

(** What [recv_fd] does with a new descriptor and its identifier. *)
Definition register (config : string) (fd upid : Z) : M world Z :=
  in_fd (add_upid_in_map fd upid);;
  in_fd_ext (register_with_externram config fd).

Lemma wok_registered {LO : Lost} w m' e' s' c fd upid : wok w -> is_s32 fd -> client_of w fd = None ->
  ext_ok e' (s_os s') -> same_app (w_os w) (s_os s') -> same_buf (w_os w) (s_os s') ->
  owned e' = owned (w_ext w) -> (c ∉ clients (w_ext w)) -> clients e' = {[c]} ∪ clients (w_ext w) -> c <> NULL ->
  (forall c' k, c' <> c -> stored e' (s_os s') c' k = stored (w_ext w) (w_os w) c' k) ->
  fdmap_ok m' ->
  (forall fd', is_s32 fd' -> find_fd fd' (fdUpidMap m') =
     if decide (fd' = fd) then Some (MapStruct fd upid c) else find_fd fd' (fdUpidMap (w_fd w))) ->
  let w' := set_fd_ext (m', (e', s')) w in
  wok w' /\ client_of w' fd = Some c /\
  (forall u, is_s32 u -> u <> fd -> client_of w' u = client_of w u) /\
  (forall u a, is_s32 u -> u <> fd -> view w' u a = view w u a).
Proof.
  intros Hw Hfd Hnew Hok Ha Hb Hown Hcn Hcl Hc Hst Hm Hfind w'.
  assert (Hcli : forall u, is_s32 u -> client_of w' u = if decide (u = fd) then Some c else client_of w u).
  { intros u Hu. unfold client_of. simpl. rewrite Hfind by done. by case_decide. }
  assert (Hne : forall u, is_s32 u -> client_of w u <> Some c).
  { intros u Hu E. apply Hcn. by apply (ok_client w Hw u). }
  assert (Hsa : forall u a, is_s32 u -> u <> fd -> stored_at w' u a = stored_at w u a).
  { intros u a Hu Hne'. unfold stored_at. rewrite Hcli, decide_False by done.
    destruct (client_of w u) as [c'|] eqn:E; [|done]. apply Hst. intros ->. by apply (Hne u). }
  split; [|split; [by rewrite Hcli, decide_True|split]].
  2:{ intros u Hu Hne'. by rewrite Hcli, decide_False. }
  2:{ intros u a Hu Hne'. unfold view. rewrite Hsa by done. change (w_os w') with (s_os s'). by rewrite Ha. }
  split; try done.
  - intros u c' Hu. rewrite Hcli by done. change (clients (w_ext w')) with (clients e'). rewrite Hcl.
    case_decide; [intros [= <-]; set_solver|]. intros Hc'. destruct (ok_client w Hw u c' Hu Hc'). set_solver.
  - intros u1 u2 c' H1 H2. rewrite !Hcli by done. repeat case_decide; subst; try done.
    + by intros [= <-] ?%Hne.
    + intros ? [= <-]. by destruct (Hne u1 H1).
    + by apply (ok_distinct w Hw).
  - intros Hcp. destruct (ok_read w Hw Hcp) as [H1 H2]. change (owned (w_ext w')) with (owned e'). rewrite Hown.
    split; [|done]. change (is_Some (buf_page (s_os s') (read_tmp_page w))). by rewrite (same_buf_at _ _ _ Hb).
  - apply Hw.
  - intros u a Hin. destruct (lru_node_s32 _ _ _ (ok_lru w Hw) Hin) as [Hu%small_s32 _].
    destruct (ok_nodes w Hw u a Hin) as [Hcu Hm']. 
    assert (u <> fd). { intros ->. rewrite Hnew in Hcu. by destruct Hcu. }
    rewrite Hcli, decide_False by done. split; [done|].
    destruct Hm' as [?|[?|?]]; [left|right; left; by rewrite Hsa|by right; right].
    change (is_Some (app_page (s_os s') u a)). by rewrite Ha.
Qed.

Lemma register_run {LO : Lost} config fd upid w : wok w -> is_s32 fd -> client_of w fd = None ->
  can_grow (fdUpidMap (w_fd w)) ->
  exists ret w', register config fd upid w = Ok (ret, w') /\
    (exists c, find_fd fd (fdUpidMap (w_fd w')) = Some (MapStruct fd upid c) /\ (ret <> 0 -> c = NULL)) /\
    (ret <> 0 -> (errors w < errors w')%nat) /\
    (ret = 0 -> wok w' /\ is_Some (client_of w' fd) /\ w_lru w' = w_lru w /\
      same_app (w_os w) (w_os w') /\
      (forall u, is_s32 u -> u <> fd -> client_of w' u = client_of w u) /\
      (forall u a, is_s32 u -> u <> fd -> view w' u a = view w u a)).
Proof.
  intros Hw Hfd Hnew Hgrow.
  assert (Hnf : find_fd fd (fdUpidMap (w_fd w)) = None).
  { unfold client_of in Hnew. by destruct (find_fd fd (fdUpidMap (w_fd w))). }
  destruct (add_upid_in_map_run (w_fd w) fd upid (ok_fd w Hw) Hgrow Hfd Hnf) as (m1 & E1 & Hm1 & Hf1).
  assert (Hf : find_fd fd (fdUpidMap m1) = Some (MapStruct fd upid NULL)) by by rewrite Hf1, decide_True.
  destruct (create_law config upid (w_ext w) (w_sys w) (ok_ext w Hw))
    as (c & e' & s' & Ec & Hok & Ha & Hb & Hown & Hd & Hst & Hnull & Hcl).
  unfold register, mbind, M_bind, in_fd, in_fd_ext, zoom. rewrite E1. cbn [w_fd w_ext w_sys set_fd].
  destruct (decide (c = NULL)) as [->|Hc].
  - destruct (register_with_externram_null config fd m1 (w_ext w) (w_sys w) _ e' s' Hm1 Hf Ec) as (m2 & s2 & E2 & Hs2 & Hfm).
    rewrite E2. eexists _, _. split; [reflexivity|]. split; [exists NULL; split; [exact Hfm|done]|].
    split; [|done]. intros _. unfold errors, w_dbg. simpl. lia.
  - destruct (register_with_externram_run config fd m1 (w_ext w) (w_sys w) _ c e' s' Hm1 Hfd Hf Ec Hc) as (m2 & E2 & Hm2 & Hf2).
    rewrite E2. eexists _, _. split; [reflexivity|].
    split; [exists c; split; [simpl; by rewrite Hf2, decide_True|done]|]. split; [done|]. intros _.
    destruct (Hcl Hc) as [Hcn Hcl'].
    destruct (wok_registered w m2 e' s' c fd upid) as (H1 & H2 & H3 & H4); try done.
    { intros fd' Hfd'. rewrite Hf2 by done. simpl. case_decide; [done|]. by rewrite Hf1, decide_False. }
Qed.

(** C22: registering a new descriptor either reports an error or gives it a client
    of its own: the state stays good, and the contents every other descriptor sees
    and the resident pages are unchanged. *)
Theorem register_consistent config fd upid w (Hw : wok (LO := none_lost) w) (Hfd : is_s32 fd)
    (Hnew : client_of w fd = None) (Hgrow : can_grow (fdUpidMap (w_fd w))) :
  exists ret w', register config fd upid w = Ok (ret, w') /\
    (ret <> 0 -> (errors w < errors w')%nat) /\
    (ret = 0 -> wok (LO := none_lost) w' /\ is_Some (client_of w' fd) /\ w_lru w' = w_lru w /\
      same_app (w_os w) (w_os w') /\
      (forall u, is_s32 u -> u <> fd -> client_of w' u = client_of w u) /\
      (forall u a, is_s32 u -> u <> fd -> view w' u a = view w u a)).
Proof.
  destruct (register_run config fd upid w Hw Hfd Hnew Hgrow) as (ret & w' & ? & _ & ? & ?). by exists ret, w'.
Qed.
End monitor.
