(* ===== verification/Application.v ===== *)
(** Programs that run in memory the monitor serves: a program loads and stores
    bytes of its region; on the monitor a load or store of a page that is not
    resident faults, and between two accesses other processes fault and store and
    the local memory is resized.  Whatever program it is, it computes what it
    computes in plain memory. *)
From S2P Require Import Prelude Config MonitorStats Os LruBuffer UtHash ExternRam ThreadedIo Upid.
From S2P Require Import BufferAllocator PageCache World PageCacheRead Userfault Consistency Faults Memory.

(** A program with result in [A], by what it does with its region. *)
Inductive prog (A : Type) : Type :=
| Return (r : A)
| LoadByte (a : Z) (k : Byte.byte -> prog A)
| StoreByte (a : Z) (b : Byte.byte) (k : prog A).
Arguments Return {A} r.
Arguments LoadByte {A} a k.
Arguments StoreByte {A} a b k.

#[export] Instance prog_ret : MRet prog := fun _ r => Return r.
#[export] Instance prog_bind : MBind prog := fun A B f =>
  fix bind p := match p with
    | Return r => f r
    | LoadByte a k => LoadByte a (fun b => bind (k b))
    | StoreByte a b k => StoreByte a b (bind k)
    end.

Definition load (a : Z) : prog Byte.byte := LoadByte a Return.
Definition store (a : Z) (b : Byte.byte) : prog unit := StoreByte a b (Return tt).

(** The place of an address in its page. *)
Definition place_of (a : Z) : nat := Z.to_nat (a mod PAGE_SIZE).
Definition byte_of (pg : page) (a : Z) : Byte.byte := nth (place_of a) pg Byte.x00.
Definition put_byte (pg : page) (a : Z) (b : Byte.byte) : page := <[place_of a := b]> (pg : list Byte.byte).

(** * Plain memory *)
Definition put (m : Z -> page) (a : Z) (b : Byte.byte) : Z -> page :=
  fun p => if decide (p = page_of a) then put_byte (m p) a b else m p.

Fixpoint run_plain {A} (p : prog A) (m : Z -> page) : A * (Z -> page) :=
  match p with
  | Return r => (r, m)
  | LoadByte a k => run_plain (k (byte_of (m (page_of a)) a)) m
  | StoreByte a b k => run_plain k (put m a b)
  end.

(** The address of the next access. *)
Definition next_access {A} (p : prog A) : option Z :=
  match p with Return _ => None | LoadByte a _ | StoreByte a _ _ => Some a end.

(** A process can write to its resident pages. *)
Class AppStores `(O : OS) : Prop :=
  app_stores : forall o u a pg, is_Some (app_page o u a) ->
    exists o', app_page o' u a = Some pg /\ same_app_but u a o o' /\ same_buf o o'.

Section monitor.
Context {OSI : OS} {OL : OSLaws OSI} {X : ExternRAM} {L : ExternRAMLaws X}.
Context {F : BuildFlags} {SB : SyncBuild F} {I : StaleIterator} {WF : WriteFuel} {EF : EnoughFuel L WF}.
Variable u : Z.

(** * On the monitor *)

(** Anything but a store to the region itself. *)
Definition elsewhere (e : event) : Prop := match e with Store u' _ _ => u' <> u | Fault _ _ | Resize _ => True end.

(** The program runs in the region of descriptor [u] and ends with a result, no
    error being reported. *)
Inductive runs_on {A} : prog A -> world -> A -> world -> Prop :=
| on_return r w : runs_on (Return r) w r w
| on_load a k w pg r w' :
    app_page (w_os w) u (page_of a) = Some pg -> runs_on (k (byte_of pg a)) w r w' -> runs_on (LoadByte a k) w r w'
| on_store a b k w pg w1 r w' :
    app_page (w_os w) u (page_of a) = Some pg ->
    step w (Store u (page_of a) (put_byte pg a b)) w1 -> errors w1 = errors w ->
    runs_on k w1 r w' -> runs_on (StoreByte a b k) w r w'
| on_event p e w w1 r w' :
    elsewhere e -> event_ok w e -> step w e w1 -> errors w1 = errors w -> runs_on p w1 r w' -> runs_on p w r w'.

(** Running the program alone, a fault is reported as an error or the kernel
    refuses a zero page. *)
Inductive fails_on {A} : prog A -> world -> Prop :=
| fail_fault p a w ret w1 : next_access p = Some a -> read_from_externram u (page_of a) w = Ok (ret, w1) ->
    (errors w < errors w1)%nat \/ fault_refused w u (page_of a) -> fails_on p w
| fail_load a k w pg :
    app_page (w_os w) u (page_of a) = Some pg -> fails_on (k (byte_of pg a)) w -> fails_on (LoadByte a k) w
| fail_store a b k w pg w1 :
    app_page (w_os w) u (page_of a) = Some pg -> step w (Store u (page_of a) (put_byte pg a b)) w1 ->
    errors w1 = errors w -> fails_on k w1 -> fails_on (StoreByte a b k) w
| fail_event p a w w1 : next_access p = Some a -> step w (Fault u (page_of a)) w1 -> errors w1 = errors w ->
    fails_on p w1 -> fails_on p w.

Hypothesis Hu : 0 <= u < 4096.

Lemma client_step w e w1 : monitor_ok w -> event_ok w e -> step w e w1 -> errors w1 = errors w ->
  is_Some (client_of w u) -> monitor_ok w1 /\ is_Some (client_of w1 u) /\ (forall a, view w1 u a = mem_step (view w) e u a).
Proof.
  intros Hm He St Herr Hc. destruct (step_refines w e w1 (view w) Hm ltac:(by intros ?) He St Herr) as (Hm1 & Hs1 & Hf).
  split; [done|]. split; [by rewrite (client_of_fd w w1 _ Hf)|]. intros a. apply Hs1. by apply small_s32.
Qed.

Lemma runs_on_plain {A} (p : prog A) w r w' : runs_on p w r w' -> forall m, monitor_ok w -> is_Some (client_of w u) ->
  (forall a, view w u a = m a) -> (run_plain p m).1 = r /\ (forall a, view w' u a = (run_plain p m).2 a) /\ monitor_ok w'.
Proof.
  induction 1 as [r w|a k w pg r w' Hpg R IH|a b k w pg w1 r w' Hpg St Herr R IH|p e w w1 r w' Hel He St Herr R IH]; intros m Hm Hc Hv.
  - done.
  - cbn [run_plain]. assert (Epg : m (page_of a) = pg) by (rewrite <- Hv; unfold view; by rewrite Hpg). rewrite Epg. by apply IH.
  - cbn [run_plain]. assert (Epg : m (page_of a) = pg) by (rewrite <- Hv; unfold view; by rewrite Hpg).
    destruct (client_step w (Store u (page_of a) (put_byte pg a b)) w1 Hm (conj (page_of_aligned a) (conj Hu Hc)) St Herr Hc) as (Hm1 & Hc1 & Hv1).
    apply IH; [done|done|]. intros a'. rewrite Hv1. cbn [mem_step]. unfold put. rewrite <- Epg.
    destruct (decide (a' = page_of a)) as [->|Hne]; [by rewrite decide_True|by rewrite decide_False by congruence].
  - destruct (client_step w e w1 Hm He St Herr Hc) as (Hm1 & Hc1 & Hv1). apply IH; [done|done|].
    intros a. rewrite Hv1, <- Hv. destruct e; cbn [mem_step] in *; try done. rewrite decide_False; [done|]. intros H. congruence.
Qed.

(** After a fault the page is there, or the fault failed. *)
Lemma access_served {A} (p : prog A) a w : next_access p = Some a -> monitor_ok w -> is_Some (client_of w u) ->
  fails_on p w \/ exists w1, step w (Fault u (page_of a)) w1 /\ errors w1 = errors w /\ monitor_ok w1 /\
    is_Some (client_of w1 u) /\ is_Some (app_page (w_os w1) u (page_of a)).
Proof.
  intros Hp Hm Hc.
  assert (He : event_ok w (Fault u (page_of a))) by (exact (conj (page_of_aligned a) (conj Hu Hc))).
  destruct (read_from_externram_run (LO := none_lost) u (page_of a) w) as (ret & w1 & E & [_ Hcase] & _); try apply Hm; try apply He.
  destruct (decide (errors w < errors w1)%nat) as [Hlt|Hge]; [left; eapply fail_fault; eauto|].
  destruct Hcase as [[Hh Hr]|[? _]]; [|lia].
  pose proof (ha_err _ _ Hh) as Hle. assert (Herr : errors w1 = errors w) by lia.
  destruct (Hr (mo_room _ Hm) (not_none_lost u _)) as [Hr'|[?|?]]; [|left; eapply fail_fault; eauto|lia].
  right. assert (St : step w (Fault u (page_of a)) w1) by (by eapply step_fault).
  destruct (client_step w _ w1 Hm He St Herr Hc) as (Hm1 & Hc1 & _). exists w1. by rewrite Hr'.
Qed.

Lemma runs_or_fails {AS : AppStores OSI} {A} (p : prog A) : forall w, monitor_ok w -> is_Some (client_of w u) ->
  (exists r w', runs_on p w r w') \/ fails_on p w.
Proof.
  induction p as [r|a k IH|a b k IH]; intros w Hm Hc.
  - left. exists r, w. apply on_return.
  - destruct (access_served (LoadByte a k) a w eq_refl Hm Hc) as [?|(w1 & St & Herr & Hm1 & Hc1 & [pg Hpg])]; [by right|].
    destruct (IH (byte_of pg a) w1 Hm1 Hc1) as [(r & w' & R)|Hf].
    + left. exists r, w'. apply (on_event _ (Fault u (page_of a)) _ w1); try done; [exact (conj (page_of_aligned a) (conj Hu Hc))|].
      by apply on_load with pg.
    + right. apply (fail_event _ a _ w1); try done. by apply fail_load with pg.
  - destruct (access_served (StoreByte a b k) a w eq_refl Hm Hc) as [?|(w1 & St & Herr & Hm1 & Hc1 & [pg Hpg])]; [by right|].
    destruct (app_stores (w_os w1) u (page_of a) (put_byte pg a b) ltac:(by exists pg)) as (o' & Ho & Hs & Hb).
    set (w2 := set_sys (Sys o' (w_dbg w1) (s_stats (w_sys w1))) w1).
    assert (St2 : step w1 (Store u (page_of a) (put_byte pg a b)) w2) by (apply step_store; [by exists pg|done..]).
    destruct (client_step w1 (Store u (page_of a) (put_byte pg a b)) w2 Hm1 (conj (page_of_aligned a) (conj Hu Hc1)) St2 eq_refl Hc1) as (Hm2 & Hc2 & _).
    destruct (IH w2 Hm2 Hc2) as [(r & w' & R)|Hf].
    + left. exists r, w'. apply (on_event _ (Fault u (page_of a)) _ w1); try done; [exact (conj (page_of_aligned a) (conj Hu Hc))|].
      by apply on_store with pg w2.
    + right. apply (fail_event _ a _ w1); try done. by apply fail_store with pg w2.
Qed.

(** C3: applications cannot tell the monitor from memory.  A program that loads and
    stores bytes of its region, with faults, with stores of other processes and
    with resizes of the local memory in between, ends with the result it has in
    plain memory and leaves the same bytes; and it does end, unless one of its
    faults is reported as an error or the kernel refuses a zero page. *)
Theorem application_transparent {AS : AppStores OSI} {A} (p : prog A) w m
  (Hm : monitor_ok w) (Hc : is_Some (client_of w u)) (Hv : forall a, view w u a = m a) :
  (forall r w', runs_on p w r w' -> r = (run_plain p m).1 /\ forall a, view w' u a = (run_plain p m).2 a) /\
  ((exists r w', runs_on p w r w') \/ fails_on p w).
Proof.
  split; [|by apply runs_or_fails]. intros r w' R. destruct (runs_on_plain p w r w' R m Hm Hc Hv) as (H1 & H2 & _). by subst r.
Qed.
End monitor.
