(* ===== verification/TestPrograms.v ===== *)
(** The programs of [test/] that look for corrupted memory, as programs over the
    memory of their region: [test_for_corruption.c], [test_nofluidmem.c] and
    [test_cases.c].  A test passes on memory that keeps what is stored, so it
    passes on the monitor; and it notices a byte that changed. *)
From S2P Require Import Prelude Config MonitorStats Os LruBuffer UtHash UtSort ExternRam ThreadedIo Upid.
From S2P Require Import BufferAllocator PageCache World PageCacheRead Userfault Consistency Faults Memory Text Application.

(** * Random numbers: the results of [rand] still to come *)
Definition RAND_MAX : Z := 2147483647.

Fixpoint rand_loop (divisor limit : Z) (rs : list Z) : outcome (Z * list Z) :=
  match rs with
  | [] => Blocked
  | r :: rs => let retval := Z.quot r divisor in if limit <? retval then rand_loop divisor limit rs else Ok (retval, rs)
  end.
Definition rand_lim (limit : Z) (rs : list Z) : outcome (Z * list Z) :=
  if (limit =? 2 ^ 31 - 1) || (limit + 1 =? 0) then UB Arithmetic
  else rand_loop (Z.quot RAND_MAX (limit + 1)) limit rs.

(** Conversion of an [int] to [uint8_t] or [char]. *)
Definition to_byte (z : Z) : Byte.byte := default Byte.x00 (Byte.of_N (Z.to_N (z mod 256))).
Definition byte_code (b : Byte.byte) : Z := Z.of_N (Byte.to_N b).

(** * Accesses to many bytes *)
Fixpoint load_range (n : nat) (a : Z) : prog (list Byte.byte) :=
  match n with
  | O => mret []
  | S n => b ← load a; bs ← load_range n (a + 1); mret (b :: bs)
  end.
Fixpoint store_range (n : nat) (a : Z) (b : Byte.byte) : prog unit :=
  match n with O => mret tt | S n => store a b;; store_range n (a + 1) b end.

(** [jenkins_hash(&arr[i], PAGE_SIZE)]. *)
Definition page_hash (a : Z) : prog (outcome Z) :=
  bs ← load_range (Z.to_nat PAGE_SIZE) a;
  mret (noop_jenkins_hash (byte_code <$> bs) (Z.to_nat PAGE_SIZE)).

(** * [test_for_corruption] *)

(** The process returns, or reports an error, which ends it by [SIGINT]. *)
Inductive verdict := Exit (code : Z) | Interrupted.

(** A line of the protocol. *)
Inductive line := READ (i : Z) (value : Byte.byte) (hash : outcome Z) | WRITE (i : Z) (c : Byte.byte) (hash : outcome Z).

Record test_options := TestOptions { num_iters : Z; t_len : Z; dirty : bool }.

Fixpoint corruption_args (args : list (list Z)) (o : test_options) : test_options + Z :=
  match args with
  | [] => inl o
  | arg :: args =>
      if bool_decide (arg = txt "-i") then
        match args with [] => inr 1 | v :: args => corruption_args args (TestOptions (atoi v) (t_len o) (dirty o)) end
      else if bool_decide (arg = txt "-l") then
        match args with [] => inr 1 | v :: args => corruption_args args (TestOptions (num_iters o) (atoi v) (dirty o)) end
      else if bool_decide (arg = txt "-d") then corruption_args args (TestOptions (num_iters o) (t_len o) true)
      else corruption_args args o
  end.

(** A failed check: the message has the hash of the page, and that of the same
    bytes of the shadow array, which ends after [len]. *)
Definition check_failed (base len i : Z) (out : list line) : prog (outcome (verdict * list line)) :=
  page_hash (base + i);;
  mret (if len <? i + PAGE_SIZE then UB OutOfBounds else Ok (Interrupted, out)).

Fixpoint corruption_loop (n : nat) (base len : Z) (c : Byte.byte) (shadow : Z -> Byte.byte) (rs : list Z) (out : list line)
  : prog (outcome (verdict * list line)) :=
  match n with
  | O => mret (Ok (Exit 0, out))
  | S n =>
      match rand_lim (len - 1) rs with
      | UB f => mret (UB f)
      | Blocked => mret Blocked
      | Ok (r, rs) =>
          let i := Z.quot r PAGE_SIZE * PAGE_SIZE in
          value ← load (base + i);
          if negb (bool_decide (shadow i = value)) then check_failed base len i out else
          h ← page_hash (base + i);
          let out := out ++ [READ i value h] in
          store (base + i) c;;
          v ← load (base + i);
          let shadow := fun j => if j =? i then v else shadow j in
          h ← page_hash (base + i);
          let out := out ++ [WRITE i c h] in
          if negb (bool_decide (shadow i = c)) then mret (Ok (Interrupted, out)) else
          match rand_lim 255 rs with
          | UB f => mret (UB f)
          | Blocked => mret Blocked
          | Ok (c, rs) => corruption_loop n base len (to_byte c) shadow rs out
          end
      end
  end.

(** [memset] of the region and [memcpy] to the shadow array, if asked for. *)
Definition corruption_fill (o : test_options) (base : Z) : prog (Z -> Byte.byte) :=
  if dirty o then
    store_range (Z.to_nat (t_len o)) base Byte.x00;;
    bs ← load_range (Z.to_nat (t_len o)) base;
    mret (fun i => nth (Z.to_nat i) bs Byte.x00)
  else mret (fun _ => Byte.x00).

Definition corruption_test (o : test_options) (base : Z) (rs : list Z) : prog (outcome (verdict * list line)) :=
  shadow ← corruption_fill o base;
  corruption_loop (Z.to_nat (num_iters o)) base (t_len o) Byte.x01 shadow rs [].

(** [main]: whether the score can be set, the region, and whether there is memory
    for the shadow array are results of calls. *)
Definition corruption_main (args : list (list Z)) (oom : bool) (arr : option Z) (shadow : bool) (rs : list Z)
  : prog (outcome (verdict * list line)) :=
  match corruption_args args (TestOptions 100 (1024 * 500) false) with
  | inr code => mret (Ok (Exit code, []))
  | inl o =>
      if negb oom then mret (Ok (Interrupted, [])) else
      match arr with
      | None => mret (Ok (Interrupted, []))
      | Some base => if negb shadow then mret (Ok (Interrupted, [])) else corruption_test o base rs
      end
  end.

(** * [test_nofluidmem]: the same on ordinary memory *)

(** The arrays come from [malloc]: [None] is a byte never set. *)
Fixpoint nofluidmem_loop (n : nat) (base len : Z) (c : Byte.byte) (shadow : Z -> option Byte.byte) (rs : list Z) : prog (outcome verdict) :=
  match n with
  | O => mret (Ok (Exit 0))
  | S n =>
      match rand_lim (len - 1) rs with
      | UB f => mret (UB f)
      | Blocked => mret Blocked
      | Ok (r, rs) =>
          let i := Z.quot r 1024 * 1024 in
          value ← load (base + i);
          match shadow i with
          | None => mret (UB Uninitialised)
          | Some s =>
              if negb (bool_decide (s = value)) then mret (Ok Interrupted) else
              store (base + i) c;;
              v ← load (base + i);
              if negb (bool_decide (v = c)) then mret (Ok Interrupted) else
              match rand_lim 255 rs with
              | UB f => mret (UB f)
              | Blocked => mret Blocked
              | Ok (c, rs) => nofluidmem_loop n base len (to_byte c) (fun j => if j =? i then Some v else shadow j) rs
              end
          end
      end
  end.

Definition nofluidmem_test (o : test_options) (base : Z) (rs : list Z) : prog (outcome verdict) :=
  if dirty o then
    store_range (Z.to_nat (t_len o)) base Byte.x00;;
    bs ← load_range (Z.to_nat (t_len o)) base;
    nofluidmem_loop (Z.to_nat (num_iters o)) base (t_len o) Byte.x01 (fun i => Some (nth (Z.to_nat i) bs Byte.x00)) rs
  else nofluidmem_loop (Z.to_nat (num_iters o)) base (t_len o) Byte.x01 (fun _ => None) rs.

(** * [test_cases] *)

(** One byte in each of [unique_writes] pages, and its copy in [cmp_bytes]. *)
Fixpoint write_pages (n : nat) (i num_pages base : Z) (val : Byte.byte) (cmp : Z -> Byte.byte) : prog (Z -> Byte.byte) :=
  match n with
  | O => mret cmp
  | S n =>
      let p := Z.rem i num_pages * PAGE_SIZE in
      store (base + p) val;;
      write_pages n (i + 1) num_pages base val (fun j => if j =? p then val else cmp j)
  end.

Fixpoint compare_pages (n : nat) (i num_pages base : Z) (cmp : Z -> Byte.byte) (ret : Z) : prog Z :=
  match n with
  | O => mret ret
  | S n =>
      let p := Z.rem i num_pages * PAGE_SIZE in
      b ← load (base + p);
      compare_pages n (i + 1) num_pages base cmp (if bool_decide (b = cmp p) then ret else -1)
  end.

(** The uninitialised bytes of [cmp_bytes] are a parameter; no compared byte is
    one of them. *)
Fixpoint fault_cycles (n : nat) (num_pages unique_writes base : Z) (cmp : Z -> Byte.byte) (rs : list Z) : prog (outcome Z) :=
  match n with
  | O => mret (Ok 0)
  | S n =>
      match rand_lim 255 rs with
      | UB f => mret (UB f)
      | Blocked => mret Blocked
      | Ok (v, rs) =>
          cmp ← write_pages (Z.to_nat unique_writes) 0 num_pages base (to_byte v) cmp;
          ret ← compare_pages (Z.to_nat unique_writes) 0 num_pages base cmp 0;
          if ret <? 0 then mret (Ok ret) else fault_cycles n num_pages unique_writes base cmp rs
      end
  end.

Definition fault_test (num_pages unique_writes cycles : Z) (arr : option Z) (junk : Z -> Byte.byte) (rs : list Z) : prog (outcome Z) :=
  match arr with
  | None => mret (Ok (-1))
  | Some base => fault_cycles (Z.to_nat cycles) num_pages unique_writes base junk rs
  end.

(** [ThreadArgs]: the fields a thread reads; [None] is a field never set. *)
Record ThreadArgs := mkThreadArgs {
  ta_num_pages : option Z; ta_num_threads : option Z; ta_split : option Z; ta_threadindex : option Z }.

Definition field (x : option Z) : outcome Z := match x with None => UB Uninitialised | Some z => Ok z end.

(** The pages [write_arr] goes through: from the first to before the second. *)
Definition write_arr_pages (a : ThreadArgs) : outcome (Z * Z) :=
  num_pages ← field (ta_num_pages a);
  num_threads ← field (ta_num_threads a);
  split ← field (ta_split a);
  threadindex ← field (ta_threadindex a);
  Ok (threadindex * split, if threadindex + 1 =? num_threads then num_pages else threadindex * split + split).

(** [verify_arr] ends the last slice at the global [num_pages]. *)
Definition verify_arr_pages (global_num_pages : Z) (a : ThreadArgs) : outcome (Z * Z) :=
  _ ← field (ta_num_pages a);
  num_threads ← field (ta_num_threads a);
  split ← field (ta_split a);
  threadindex ← field (ta_threadindex a);
  Ok (threadindex * split, if threadindex + 1 =? num_threads then global_num_pages else threadindex * split + split).

Fixpoint write_slice (n : nat) (p base : Z) (c : Byte.byte) (cmp : Z -> Byte.byte) : prog (Z -> Byte.byte) :=
  match n with
  | O => mret cmp
  | S n =>
      store (base + p * PAGE_SIZE) c;;
      write_slice n (p + 1) base c (fun j => if j =? p * PAGE_SIZE then c else cmp j)
  end.
Definition write_arr (a : ThreadArgs) (base : Z) (cmp : Z -> Byte.byte) (rs : list Z) : prog (outcome ((Z -> Byte.byte) * list Z)) :=
  match write_arr_pages a with
  | UB f => mret (UB f)
  | Blocked => mret Blocked
  | Ok (s, e) =>
      match rand_lim 255 rs with
      | UB f => mret (UB f)
      | Blocked => mret Blocked
      | Ok (c, rs) => cmp ← write_slice (Z.to_nat (e - s)) s base (to_byte c) cmp; mret (Ok (cmp, rs))
      end
  end.

(** [None]: the result of the thread is left as it was. *)
Fixpoint verify_slice (n : nat) (p base : Z) (cmp : Z -> Byte.byte) (result : option Z) : prog (option Z) :=
  match n with
  | O => mret result
  | S n =>
      b ← load (base + p * PAGE_SIZE);
      verify_slice n (p + 1) base cmp (if bool_decide (b = cmp (p * PAGE_SIZE)) then result else Some (-1))
  end.
Definition verify_arr (global_num_pages : Z) (a : ThreadArgs) (base : Z) (cmp : Z -> Byte.byte) : prog (outcome (option Z)) :=
  match verify_arr_pages global_num_pages a with
  | UB f => mret (UB f)
  | Blocked => mret Blocked
  | Ok (s, e) => r ← verify_slice (Z.to_nat (e - s)) s base cmp None; mret (Ok r)
  end.

(** The arguments [threaded_fault_test] gives to its thread [i]. *)
Definition inner_args (num_pages num_threads i : Z) : ThreadArgs :=
  mkThreadArgs (Some num_pages) None (Some (Z.quot num_pages num_threads)) (Some i).

(** * Random numbers *)

Definition drawn (r : Z) : Prop := 0 <= r <= RAND_MAX.
(** The numbers that no limit rejects: the lower half. *)
Definition lows (rs : list Z) : nat := length (base.filter (fun r => r <= 1073741823) rs).

Lemma lower_half_accepted limit r : 0 <= limit < 2 ^ 31 - 1 -> 0 <= r <= 1073741823 -> Z.quot r (Z.quot RAND_MAX (limit + 1)) <= limit.
Proof.
  unfold RAND_MAX. intros Hl Hr. rewrite (Z.quot_div_nonneg 2147483647) by lia. set (q := limit + 1).
  pose proof (Z.div_mod 2147483647 q ltac:(lia)) as Hd. pose proof (Z.mod_pos_bound 2147483647 q ltac:(lia)) as Hm.
  assert (Hp : 1 <= 2147483647 / q) by (apply Z.div_le_lower_bound; lia).
  set (d := 2147483647 / q) in *. rewrite Z.quot_div_nonneg by lia.
  enough (r / d < q) by lia. apply Z.div_lt_upper_bound; [lia|]. nia.
Qed.

Lemma rand_loop_spec limit rs : 0 <= limit < 2 ^ 31 - 1 -> Forall drawn rs ->
  match rand_loop (Z.quot RAND_MAX (limit + 1)) limit rs with
  | Ok (v, rs') => 0 <= v <= limit /\ Forall drawn rs' /\ (lows rs <= S (lows rs'))%nat
  | Blocked => lows rs = O
  | UB _ => False
  end.
Proof.
  intros Hl. induction rs as [|r rs IH]; intros Hr; [done|]. apply Forall_cons in Hr as [Hr Hrs]. cbn [rand_loop].
  assert (Hd : 1 <= Z.quot RAND_MAX (limit + 1)).
  { unfold RAND_MAX. rewrite Z.quot_div_nonneg by lia. apply Z.div_le_lower_bound; lia. }
  unfold lows in *. rewrite filter_cons. unfold drawn in Hr. destruct (limit <? _) eqn:Hlt.
  - apply Z.ltb_lt in Hlt. rewrite decide_False; [by apply IH|]. intros Hlow.
    pose proof (lower_half_accepted limit r Hl ltac:(lia)). lia.
  - apply Z.ltb_ge in Hlt. split; [split; [apply Z.quot_pos; lia|done]|]. split; [done|]. case_decide; cbn; lia.
Qed.

Lemma rand_lim_spec limit rs : 0 <= limit < 2 ^ 31 - 1 -> Forall drawn rs ->
  match rand_lim limit rs with
  | Ok (v, rs') => 0 <= v <= limit /\ Forall drawn rs' /\ (lows rs <= S (lows rs'))%nat
  | Blocked => lows rs = O
  | UB _ => False
  end.
Proof.
  intros Hl Hr. unfold rand_lim. destruct (Z.eqb_spec limit (2 ^ 31 - 1)); [lia|]. destruct (Z.eqb_spec (limit + 1) 0); [lia|].
  by apply rand_loop_spec.
Qed.

(** * Bytes of plain memory *)

Definition peek (m : Z -> page) (a : Z) : Byte.byte := byte_of (m (page_of a)) a.
Definition full (m : Z -> page) : Prop := forall p, length (m p) = Z.to_nat PAGE_SIZE.

Lemma full_put m a b : full m -> full (put m a b).
Proof. intros Hm p. unfold put, put_byte. case_decide; [rewrite length_insert|]; apply Hm. Qed.

Lemma peek_put m a b a' : full m -> is_u64 a -> is_u64 a' -> peek (put m a b) a' = if decide (a' = a) then b else peek m a'.
Proof.
  intros Hm Ha Ha'. unfold peek, put, put_byte, byte_of, place_of, PAGE_SIZE in *. rewrite !page_of_small by done.
  assert (Hlt : (Z.to_nat (a mod 4096)%Z < length (m (a - a mod 4096)%Z))%nat).
  { rewrite Hm. unfold PAGE_SIZE. pose proof (Z.mod_pos_bound a 4096 ltac:(lia)). lia. }
  destruct (decide (a' = a)) as [->|Hne].
  - rewrite decide_True by done. apply nth_lookup_Some. by rewrite list_lookup_insert_eq.
  - destruct (decide (a' - a' mod 4096 = a - a mod 4096)) as [E|]; [|done]. rewrite E. rewrite !nth_lookup. f_equal.
    apply list_lookup_insert_ne. pose proof (Z.mod_pos_bound a 4096 ltac:(lia)). pose proof (Z.mod_pos_bound a' 4096 ltac:(lia)). lia.
Qed.

Lemma run_plain_bind {A B} (p : prog A) (f : A -> prog B) m :
  run_plain (p ≫= f) m = run_plain (f (run_plain p m).1) (run_plain p m).2.
Proof. revert m. induction p as [r|a k IH|a b k IH]; intros m; [done|apply IH|apply IH]. Qed.

Lemma run_plain_load a m : run_plain (load a) m = (peek m a, m).
Proof. done. Qed.
Lemma run_plain_store a b m : run_plain (store a b) m = (tt, put m a b).
Proof. done. Qed.

Lemma run_load_range n : forall a m, (run_plain (load_range n a) m).2 = m /\
  forall j, (j < n)%nat -> nth j (run_plain (load_range n a) m).1 Byte.x00 = peek m (a + Z.of_nat j).
Proof.
  induction n as [|n IH]; intros a m; [split; [done|lia]|]. cbn [load_range].
  rewrite run_plain_bind, run_plain_load. cbn [fst snd]. rewrite run_plain_bind. destruct (IH (a + 1) m) as [H2 H1].
  cbn [run_plain mret prog_ret fst snd]. rewrite H2. split; [done|]. intros [|j] Hj; cbn [nth].
  - by rewrite Z.add_0_r.
  - rewrite H1 by lia. f_equal. lia.
Qed.

Lemma run_page_hash a m : (run_plain (page_hash a) m).2 = m.
Proof. unfold page_hash. generalize (Z.to_nat PAGE_SIZE) as n. intros n. rewrite run_plain_bind. apply run_load_range. Qed.

Lemma run_store_range n b : forall a m, full m -> 0 <= a -> a + Z.of_nat n <= 2 ^ 64 ->
  full (run_plain (store_range n a b) m).2 /\
  forall a', is_u64 a' -> peek (run_plain (store_range n a b) m).2 a' = if decide (a <= a' < a + Z.of_nat n) then b else peek m a'.
Proof.
  induction n as [|n IH]; intros a m Hm Ha Hn.
  { split; [done|]. intros a' _. rewrite decide_False by lia. done. }
  cbn [store_range]. rewrite run_plain_bind, run_plain_store. cbn [fst snd].
  destruct (IH (a + 1) (put m a b) (full_put m a b Hm) ltac:(lia) ltac:(lia)) as [Hf Hp]. split; [done|].
  intros a' Ha'. rewrite Hp by done. rewrite peek_put; [|done|unfold is_u64; lia|done].
  repeat case_decide; try done; lia.
Qed.

(** * The corruption test *)

(** The shadow array mirrors the region. *)
Definition mirrors (m : Z -> page) (base len : Z) (shadow : Z -> Byte.byte) : Prop :=
  forall i, 0 <= i < len -> peek m (base + i) = shadow i.

(** A region of [len] bytes at a 64-bit address. *)
Definition region (base len : Z) : Prop := 0 <= base /\ 1 <= len < 2 ^ 31 /\ base + len <= 2 ^ 64.

(** The test found no fault: it returned zero, or it still draws a number. *)
Definition no_fault_found (x : outcome (verdict * list line)) : Prop :=
  match x with Ok (v, _) => v = Exit 0 | Blocked => True | UB _ => False end.

Lemma page_index len r : 0 <= r <= len - 1 -> 0 <= Z.quot r PAGE_SIZE * PAGE_SIZE < len.
Proof.
  unfold PAGE_SIZE. intros Hr. rewrite Z.quot_div_nonneg by lia. pose proof (Z.div_mod r 4096 ltac:(lia)).
  pose proof (Z.mod_pos_bound r 4096 ltac:(lia)). pose proof (Z.div_pos r 4096 ltac:(lia) ltac:(lia)). lia.
Qed.

Lemma corruption_loop_passes n : forall base len c shadow rs out m, region base len -> full m -> mirrors m base len shadow ->
  Forall drawn rs ->
  let x := (run_plain (corruption_loop n base len c shadow rs out) m).1 in
  no_fault_found x /\ ((2 * n <= lows rs)%nat -> exists out', x = Ok (Exit 0, out')).
Proof.
  induction n as [|n IH]; intros base len c shadow rs out m Hreg Hm Hs Hrs; cbn [corruption_loop].
  { split; [done|]. intros _. by exists out. }
  destruct Hreg as (Hb & Hl & He). pose proof (rand_lim_spec (len - 1) rs ltac:(lia) Hrs) as Hr.
  destruct (rand_lim (len - 1) rs) as [[r rs1]|f|]; [|done|split; [done|lia]]. destruct Hr as (Hr & Hrs1 & Hlow).
  pose proof (page_index len r Hr) as Hi. set (i := Z.quot r PAGE_SIZE * PAGE_SIZE) in *.
  assert (Hu : forall j, 0 <= j < len -> is_u64 (base + j)) by (unfold is_u64; lia).
  rewrite run_plain_bind, run_plain_load. cbn [fst snd]. rewrite (bool_decide_eq_true_2 (shadow i = _)) by (symmetry; by apply Hs).
  cbn [negb]. rewrite run_plain_bind, run_page_hash, run_plain_bind, run_plain_store. cbn [fst snd].
  rewrite run_plain_bind, run_plain_load. cbn [fst snd]. rewrite run_plain_bind, run_page_hash, Z.eqb_refl.
  rewrite peek_put, decide_True, bool_decide_eq_true_2 by (done || by apply Hu). cbn [negb].
  pose proof (rand_lim_spec 255 rs1 ltac:(lia) Hrs1) as Hc. destruct (rand_lim 255 rs1) as [[c' rs2]|f|]; [|done|split; [done|lia]].
  destruct Hc as (_ & Hrs2 & Hlow2).
  destruct (IH base len (to_byte c') (fun j => if j =? i then c else shadow j) rs2 ((out ++ [READ i (peek m (base + i)) (run_plain (page_hash (base + i)) m).1]) ++
    [WRITE i c (run_plain (page_hash (base + i)) (put m (base + i) c)).1]) (put m (base + i) c)) as [H1 H2]; try done.
  - by apply full_put.
  - intros j Hj. rewrite peek_put by (done || by apply Hu). destruct (Z.eqb_spec j i) as [->|Hn]; [by rewrite decide_True|].
    rewrite decide_False by lia. by apply Hs.
  - split; [exact H1|]. intros Hn. apply H2. lia.
Qed.

Lemma corruption_fill_mirrors o base m : region base (t_len o) -> full m ->
  (dirty o = false -> forall i, 0 <= i < t_len o -> peek m (base + i) = Byte.x00) ->
  full (run_plain (corruption_fill o base) m).2 /\
  mirrors (run_plain (corruption_fill o base) m).2 base (t_len o) (run_plain (corruption_fill o base) m).1.
Proof.
  intros (Hb & Hl & He) Hm Hz. unfold corruption_fill. destruct (dirty o); [|by split; [|intros i Hi; apply Hz]].
  assert (Hn : Z.of_nat (Z.to_nat (t_len o)) = t_len o) by lia. revert Hn. generalize (Z.to_nat (t_len o)) as n. intros n Hn.
  rewrite run_plain_bind, run_plain_bind. destruct (run_store_range n Byte.x00 base m Hm Hb ltac:(lia)) as [Hf _].
  destruct (run_load_range n base (run_plain (store_range n base Byte.x00) m).2) as [H2 H1].
  cbn [run_plain mret prog_ret fst snd]. rewrite H2. split; [done|].
  intros i Hi. rewrite H1 by lia. f_equal. lia.
Qed.

Lemma corruption_test_plain o base rs m : region base (t_len o) -> full m -> Forall drawn rs ->
  (dirty o = false -> forall i, 0 <= i < t_len o -> peek m (base + i) = Byte.x00) ->
  let x := (run_plain (corruption_test o base rs) m).1 in
  no_fault_found x /\ ((2 * Z.to_nat (num_iters o) <= lows rs)%nat -> exists out, x = Ok (Exit 0, out)).
Proof.
  intros Hr Hm Hrs Hz. unfold corruption_test. destruct (corruption_fill_mirrors o base m Hr Hm Hz) as [Hf Hs].
  rewrite run_plain_bind. by apply corruption_loop_passes.
Qed.

(** A byte of the region that differs from its mirror is noticed when its page is
    drawn; the message is only well defined when the region ends with a page. *)
Lemma corruption_noticed n base len c shadow rs rs' out m r : region base len -> len mod PAGE_SIZE = 0 ->
  rand_lim (len - 1) rs = Ok (r, rs') -> 0 <= r <= len - 1 ->
  let i := Z.quot r PAGE_SIZE * PAGE_SIZE in
  peek m (base + i) <> shadow i ->
  (run_plain (corruption_loop (S n) base len c shadow rs out) m).1 = Ok (Interrupted, out).
Proof.
  intros Hr Hmod Hd Hr' i Hne. cbn [corruption_loop]. rewrite Hd. fold i. rewrite run_plain_bind, run_plain_load. cbn [fst snd].
  rewrite bool_decide_eq_false_2 by congruence. cbn [negb]. unfold check_failed. rewrite run_plain_bind.
  cbn [run_plain mret prog_ret fst]. pose proof (page_index len r Hr') as Hi. fold i in Hi.
  destruct (Z.ltb_spec len (i + PAGE_SIZE)) as [Hlt|]; [|done]. exfalso. unfold PAGE_SIZE in *.
  assert (Him : i mod 4096 = 0) by (apply Z.mod_mul; lia).
  pose proof (Z.div_mod len 4096 ltac:(lia)). pose proof (Z.div_mod i 4096 ltac:(lia)). lia.
Qed.

(** On memory from [malloc] the comparison reads a byte that was never set, unless
    the arrays are cleared first. *)
Lemma nofluidmem_uninitialised o base rs m r rs' : dirty o = false -> 0 < num_iters o ->
  rand_lim (t_len o - 1) rs = Ok (r, rs') -> (run_plain (nofluidmem_test o base rs) m).1 = UB Uninitialised.
Proof.
  intros Hd Hn Hr. unfold nofluidmem_test. rewrite Hd. destruct (Z.to_nat (num_iters o)) as [|n] eqn:E; [lia|].
  cbn [nofluidmem_loop]. by rewrite Hr.
Qed.

(** * The fault test *)

Definition agree (m : Z -> page) (base : Z) (cmp : Z -> Byte.byte) (j : Z) : Prop := peek m (base + j) = cmp j.

Lemma page_start num_pages i : 1 <= num_pages -> 0 <= i -> 0 <= Z.rem i num_pages * PAGE_SIZE < num_pages * PAGE_SIZE.
Proof. unfold PAGE_SIZE. intros Hn Hi. rewrite Z.rem_mod_nonneg by lia. pose proof (Z.mod_pos_bound i num_pages ltac:(lia)). lia. Qed.

Lemma run_write_pages n val num_pages base : 1 <= num_pages -> 0 <= base -> base + num_pages * PAGE_SIZE <= 2 ^ 64 ->
  forall i cmp m, 0 <= i -> full m ->
  let '(cmp', m') := run_plain (write_pages n i num_pages base val cmp) m in
  full m' /\ (forall j, 0 <= j < num_pages * PAGE_SIZE -> agree m base cmp j -> agree m' base cmp' j) /\
  (forall k, i <= k < i + Z.of_nat n -> agree m' base cmp' (Z.rem k num_pages * PAGE_SIZE)).
Proof.
  intros Hn Hb He. induction n as [|n IH]; intros i cmp m Hi Hm; [split; [done|]; split; [done|lia]|]. cbn [write_pages].
  rewrite run_plain_bind, run_plain_store. cbn [fst snd]. pose proof (page_start num_pages i Hn Hi) as Hp.
  set (p := Z.rem i num_pages * PAGE_SIZE) in *.
  specialize (IH (i + 1) (fun j => if j =? p then val else cmp j) (put m (base + p) val) ltac:(lia) (full_put _ _ _ Hm)).
  destruct (run_plain _ _) as [cmp' m']. destruct IH as (Hf & Hk & Hw).
  assert (Hput : forall j, 0 <= j < num_pages * PAGE_SIZE -> (j = p \/ agree m base cmp j) ->
    agree (put m (base + p) val) base (fun j => if j =? p then val else cmp j) j).
  { intros j Hj Hor. unfold agree. rewrite peek_put by (done || (unfold is_u64; lia)).
    destruct (Z.eqb_spec j p) as [->|Hne]; [by rewrite decide_True|]. rewrite decide_False by lia. by destruct Hor. }
  split; [done|]. split; [intros j Hj Ha; apply Hk, Hput; auto|]. intros k Hki. destruct (decide (k = i)) as [->|Hne].
  - apply Hk, Hput; auto.
  - apply Hw. lia.
Qed.

Lemma run_compare_pages n num_pages base cmp m ret : forall i,
  (forall k, i <= k < i + Z.of_nat n -> agree m base cmp (Z.rem k num_pages * PAGE_SIZE)) ->
  run_plain (compare_pages n i num_pages base cmp ret) m = (ret, m).
Proof.
  induction n as [|n IH]; intros i Ha; [done|]. cbn [compare_pages]. rewrite run_plain_bind, run_plain_load. cbn [fst snd].
  rewrite bool_decide_eq_true_2 by (apply Ha; lia). apply IH. intros k Hk. apply Ha. lia.
Qed.

Lemma fault_cycles_pass n num_pages unique_writes base : 1 <= num_pages -> 0 <= base -> base + num_pages * PAGE_SIZE <= 2 ^ 64 ->
  forall cmp rs m, full m -> Forall drawn rs ->
  let x := (run_plain (fault_cycles n num_pages unique_writes base cmp rs) m).1 in
  (x = Ok 0 \/ x = Blocked) /\ ((n <= lows rs)%nat -> x = Ok 0).
Proof.
  intros Hn Hb He. induction n as [|n IH]; intros cmp rs m Hm Hrs; cbn [fault_cycles]; [by auto|].
  pose proof (rand_lim_spec 255 rs ltac:(lia) Hrs) as Hr. destruct (rand_lim 255 rs) as [[v rs1]|f|]; [|done|split; [auto|lia]].
  destruct Hr as (_ & Hrs1 & Hlow). rewrite run_plain_bind.
  pose proof (run_write_pages (Z.to_nat unique_writes) (to_byte v) num_pages base Hn Hb He 0 cmp m ltac:(lia) Hm) as Hw.
  destruct (run_plain (write_pages _ _ _ _ _ _) m) as [cmp' m']. destruct Hw as (Hf & _ & Hw). cbn [fst snd].
  rewrite run_plain_bind, (run_compare_pages _ _ _ _ _ _ 0 Hw). cbn [fst snd].
  destruct (IH cmp' rs1 m' Hf Hrs1) as [H1 H2]. split; [exact H1|]. intros Hl. apply H2. lia.
Qed.

(** What a thread wrote, the thread that verifies its slice finds. *)
Lemma run_write_slice n c base : 0 <= base -> forall p cmp m, 0 <= p -> full m -> base + (p + Z.of_nat n) * PAGE_SIZE <= 2 ^ 64 ->
  let '(cmp', m') := run_plain (write_slice n p base c cmp) m in
  (forall j, 0 <= j -> base + j < 2 ^ 64 -> agree m base cmp j -> agree m' base cmp' j) /\
  forall k, p <= k < p + Z.of_nat n -> agree m' base cmp' (k * PAGE_SIZE).
Proof.
  intros Hb. unfold PAGE_SIZE. induction n as [|n IH]; intros p cmp m Hp Hm He; [split; [done|lia]|]. cbn [write_slice].
  rewrite run_plain_bind, run_plain_store. cbn [fst snd]. unfold PAGE_SIZE.
  specialize (IH (p + 1) (fun j => if j =? p * 4096 then c else cmp j) (put m (base + p * 4096) c) ltac:(lia) (full_put _ _ _ Hm) ltac:(lia)).
  destruct (run_plain _ _) as [cmp' m']. destruct IH as (Hk & Hw).
  assert (Hput : forall j, 0 <= j -> base + j < 2 ^ 64 -> (j = p * 4096 \/ agree m base cmp j) ->
    agree (put m (base + p * 4096) c) base (fun j => if j =? p * 4096 then c else cmp j) j).
  { intros j Hj Hj' Hor. unfold agree. rewrite peek_put by (done || (unfold is_u64; lia)).
    destruct (Z.eqb_spec j (p * 4096)) as [->|Hne]; [by rewrite decide_True|]. rewrite decide_False by lia. by destruct Hor. }
  split; [intros j Hj Hj' Ha; apply Hk, Hput; auto|]. intros k Hki. destruct (decide (k = p)) as [->|Hne].
  - apply Hk, Hput; auto; lia.
  - apply Hw. lia.
Qed.

Lemma run_verify_slice n base cmp m r : forall p, (forall k, p <= k < p + Z.of_nat n -> agree m base cmp (k * PAGE_SIZE)) ->
  run_plain (verify_slice n p base cmp r) m = (r, m).
Proof.
  induction n as [|n IH]; intros p Ha; [done|]. cbn [verify_slice]. rewrite run_plain_bind, run_plain_load. cbn [fst snd].
  rewrite bool_decide_eq_true_2 by (apply Ha; lia). apply IH. intros k Hk. apply Ha. lia.
Qed.

Lemma verify_after_write num_pages num_threads split i base cmp rs m cmp' rs' m' :
  let a := mkThreadArgs (Some num_pages) (Some num_threads) (Some split) (Some i) in
  0 <= base -> 0 <= i -> 0 <= split -> base + num_pages * PAGE_SIZE <= 2 ^ 64 -> base + (i * split + split) * PAGE_SIZE <= 2 ^ 64 -> full m ->
  run_plain (write_arr a base cmp rs) m = (Ok (cmp', rs'), m') ->
  (run_plain (verify_arr num_pages a base cmp') m').1 = Ok None.
Proof.
  intros a; unfold PAGE_SIZE; intros Hb Hi Hs He1 He2 Hm. subst a. unfold write_arr, verify_arr, write_arr_pages, verify_arr_pages.
  cbn [ta_num_pages ta_num_threads ta_split ta_threadindex field mbind outcome_bind].
  set (e := if i + 1 =? num_threads then num_pages else i * split + split).
  destruct (rand_lim 255 rs) as [[c rs1]|f|]; [|done|done]. rewrite run_plain_bind. intros E. rewrite run_plain_bind.
  assert (Hend : base + (i * split + Z.of_nat (Z.to_nat (e - i * split))) * 4096 <= 2 ^ 64).
  { unfold e. destruct (_ =? _); destruct (decide (0 <= num_pages - i * split)); nia. }
  pose proof (run_write_slice (Z.to_nat (e - i * split)) (to_byte c) base Hb (i * split) cmp m ltac:(nia) Hm Hend) as Hw.
  destruct (run_plain (write_slice _ _ _ _ _) m) as [c1 m1]. cbn in E. injection E as <- <- <-. destruct Hw as [_ Hw].
  by rewrite run_verify_slice.
Qed.

(** The slices of the threads, when each knows how many they are, cover every page once. *)
Lemma write_slices_partition num_pages num_threads p : 1 <= num_threads <= num_pages -> 0 <= p < num_pages ->
  exists i, 0 <= i < num_threads /\
    forall j s e, 0 <= j < num_threads ->
      write_arr_pages (mkThreadArgs (Some num_pages) (Some num_threads) (Some (Z.quot num_pages num_threads)) (Some j)) = Ok (s, e) ->
      s <= p < e <-> j = i.
Proof.
  intros Hn Hp. rewrite Z.quot_div_nonneg by lia. set (d := num_pages / num_threads).
  assert (Hd : 1 <= d) by (apply Z.div_le_lower_bound; lia).
  pose proof (Z.div_mod p d ltac:(lia)) as Hpd. pose proof (Z.mod_pos_bound p d ltac:(lia)) as Hm.
  pose proof (Z.div_pos p d ltac:(lia) ltac:(lia)) as Hq.
  exists (Z.min (p / d) (num_threads - 1)). split; [lia|]. intros j s e Hj [= <- <-].
  destruct (Z.eqb_spec (j + 1) num_threads) as [Hl|Hl]; split; intros H.
  - apply Z.le_antisymm; [|lia]. enough (j <= p / d) by lia. apply Z.div_le_lower_bound; lia.
  - split; [|lia]. assert (j <= p / d) by lia. nia.
  - assert (j <= p / d) by (apply Z.div_le_lower_bound; lia). assert (p / d < j + 1) by (apply Z.div_lt_upper_bound; lia). lia.
  - assert (j = p / d) by lia. subst j. lia.
Qed.

(** [threaded_fault_test] does not tell its threads how many they are: the first
    one reads a field without a value. *)
Lemma threaded_test_undefined num_pages num_threads i :
  write_arr_pages (inner_args num_pages num_threads i) = UB Uninitialised /\
  verify_arr_pages num_pages (inner_args num_pages num_threads i) = UB Uninitialised.
Proof. done. Qed.

(** And the last slice would be verified up to a global count that is never set. *)
Lemma last_slice_not_verified num_pages num_threads : 1 <= num_threads <= num_pages ->
  exists s, verify_arr_pages 0 (mkThreadArgs (Some num_pages) (Some num_threads) (Some (Z.quot num_pages num_threads)) (Some (num_threads - 1)))
    = Ok (s, 0) /\ 0 <= s.
Proof.
  intros Hn. cbn. replace (num_threads - 1 + 1 =? num_threads) with true by (symmetry; apply Z.eqb_eq; lia). eexists. split; [done|].
  rewrite Z.quot_div_nonneg by lia. pose proof (Z.div_pos num_pages num_threads ltac:(lia) ltac:(lia)). nia.
Qed.

(** * On the monitor *)
Section monitor.
Context {OSI : OS} {OL : OSLaws OSI} {AS : AppStores OSI} {X : ExternRAM} {L : ExternRAMLaws X}.
Context {F : BuildFlags} {SB : SyncBuild F} {I : StaleIterator} {WF : WriteFuel} {EF : EnoughFuel L WF}.

(** C18: the tests of the repository pass on the monitor.  In a region that reads as
    zero, or that it clears itself, the corruption test finds no fault whatever
    numbers are drawn and whatever other processes do meanwhile, and the fault test
    returns zero; and given enough numbers of the lower half each ends with zero,
    unless a fault is reported as an error or the kernel refuses a zero page. *)
Theorem tests_pass_on_monitor u w o base num_pages unique_writes cycles junk rs
  (Hu : 0 <= u < 4096) (Hm : monitor_ok w) (Hc : is_Some (client_of w u)) (Hfull : full (view w u)) (Hrs : Forall drawn rs)
  (Hreg : region base (t_len o)) (Hz : dirty o = false -> forall i, 0 <= i < t_len o -> peek (view w u) (base + i) = Byte.x00)
  (Hn : 1 <= num_pages) (Hend : base + num_pages * PAGE_SIZE <= 2 ^ 64) :
  let p := corruption_test o base rs in
  let q := fault_test num_pages unique_writes cycles (Some base) junk rs in
  (forall x w', runs_on u p w x w' -> no_fault_found x) /\
  (forall x w', runs_on u q w x w' -> x = Ok 0 \/ x = Blocked) /\
  ((2 * Z.to_nat (num_iters o) <= lows rs)%nat -> (exists out w', runs_on u p w (Ok (Exit 0, out)) w') \/ fails_on u p w) /\
  ((Z.to_nat cycles <= lows rs)%nat -> (exists w', runs_on u q w (Ok 0) w') \/ fails_on u q w).
Proof.
  destruct (corruption_test_plain o base rs (view w u) Hreg Hfull Hrs Hz) as [Hp1 Hp2].
  destruct (fault_cycles_pass (Z.to_nat cycles) num_pages unique_writes base Hn ltac:(apply Hreg) Hend junk rs (view w u) Hfull Hrs) as [Hq1 Hq2].
  intros p q.
  assert (Hr : forall A (t : prog A) x w', runs_on u t w x w' -> (run_plain t (view w u)).1 = x).
  { intros A t x w' R. by destruct (runs_on_plain u Hu t w x w' R (view w u) Hm Hc ltac:(done)). }
  split; [intros x w' R; by rewrite <- (Hr _ p x w' R)|]. split; [intros x w' R; by rewrite <- (Hr _ q x w' R)|]. split; intros Hl.
  - destruct (runs_or_fails u Hu p w Hm Hc) as [(x & w' & R)|?]; [left|by right]. destruct (Hp2 Hl) as [out Ho].
    exists out, w'. rewrite <- Ho. by rewrite <- (Hr _ p x w' R) in R.
  - destruct (runs_or_fails u Hu q w Hm Hc) as [(x & w' & R)|?]; [left|by right]. exists w'. rewrite <- (Hq2 Hl).
    by rewrite <- (Hr _ q x w' R) in R.
Qed.
End monitor.
