(* ===== verification/ReadAhead.v ===== *)
(** The program [test/test_readahead.c]: it walks through a large array of integers,
    in order or at random, fills a page on its first visit and counts its integers up
    on each later one, and prints a character per visit.  On memory that keeps what
    is stored, hence on the monitor, it prints a printable character at every visit. *)
From S2P Require Import Prelude Config MonitorStats Os LruBuffer UtHash UtSort ExternRam ThreadedIo Upid.
From S2P Require Import BufferAllocator PageCache World PageCacheRead Userfault Consistency Faults Memory Text Application TestPrograms.

(** An [int] of the region, byte by byte. *)
Definition int_of (b0 b1 b2 b3 : Byte.byte) : Z :=
  s32 (byte_code b0 + 256 * byte_code b1 + 65536 * byte_code b2 + 16777216 * byte_code b3).
Definition load_int (a : Z) : prog Z :=
  b0 ← load a; b1 ← load (a + 1); b2 ← load (a + 2); b3 ← load (a + 3); mret (int_of b0 b1 b2 b3).
Definition store_int (a v : Z) : prog unit :=
  store a (to_byte v);; store (a + 1) (to_byte (v / 256));; store (a + 2) (to_byte (v / 65536));; store (a + 3) (to_byte (v / 16777216)).

(** The integers of a page. *)
Definition page_ints : nat := Z.to_nat 1024.

(** The next [n] integers are counted up, from 126 back to 32. *)
Fixpoint bump_page (n : nat) (a : Z) : prog (outcome unit) :=
  match n with
  | O => mret (Ok tt)
  | S n =>
      v ← load_int a;
      if v =? 2 ^ 31 - 1 then mret (UB Arithmetic) else
      store_int a (v + 1);;
      v ← load_int a;
      (if 126 <? v then store_int a 32 else mret tt);;
      bump_page n (a + 4)
  end.

(** The next [n] integers are drawn. *)
Fixpoint fill_page (n : nat) (a : Z) (rs : list Z) : prog (outcome (list Z)) :=
  match n with
  | O => mret (Ok rs)
  | S n =>
      match rand_lim 94 rs with
      | UB f => mret (UB f)
      | Blocked => mret Blocked
      | Ok (r, rs) => store_int a (r + 32);; fill_page n (a + 4) rs
      end
  end.

(** The index of the next visit. *)
Definition next_index (isSequential : bool) (len rand_index : Z) (rs : list Z) : outcome (Z * list Z) :=
  if isSequential then let i := rand_index + 4 in Ok (if len <=? i then 0 else i, rs)
  else rand_lim (len - 1) rs.

(** [printf("%c")] of a printable character, and of nothing otherwise. *)
Definition print_if (v : Z) (out : list Z) : list Z := if (32 <=? v) && (v <=? 126) then out ++ [v] else out.
Definition end_line (iter : Z) (out : list Z) : list Z := if Z.rem iter 100 =? 99 then out ++ [10] else out.

(** [n] visits are left; [pagehash] has an entry for each whole page. *)
Fixpoint readahead_loop (n : nat) (iter : Z) (seq : bool) (base len rand_index : Z) (pagehash : Z -> bool) (rs out : list Z)
  : prog (outcome (list Z)) :=
  match n with
  | O => mret (Ok out)
  | S n =>
      match next_index seq len rand_index rs with
      | UB f => mret (UB f)
      | Blocked => mret Blocked
      | Ok (i, rs) =>
          let pageIdx := Z.quot i 1024 in
          if Z.quot len 1024 <=? pageIdx then mret (UB OutOfBounds) else
          if pagehash pageIdx then
            v ← load_int (base + 4 * i);
            let out := print_if v out in
            r ← bump_page page_ints (base + 4 * (pageIdx * 1024));
            match r with
            | UB f => mret (UB f)
            | Blocked => mret Blocked
            | Ok _ => readahead_loop n (iter + 1) seq base len i pagehash rs (end_line iter out)
            end
          else
            r ← fill_page page_ints (base + 4 * (pageIdx * 1024)) rs;
            match r with
            | UB f => mret (UB f)
            | Blocked => mret Blocked
            | Ok rs =>
                v ← load_int (base + 4 * i);
                readahead_loop n (iter + 1) seq base len i (fun p => if p =? pageIdx then true else pagehash p) rs (end_line iter (out ++ [v mod 256]))
            end
      end
  end.

Definition readahead_test (seq : bool) (base len : Z) (rs : list Z) : prog (outcome (list Z)) :=
  store_range (Z.to_nat (4 * len)) base Byte.x00;;
  readahead_loop (Z.to_nat len) 0 seq base len 0 (fun _ => false) rs [].

(** The number of integers: the product is an [int], the quotient unsigned. *)
Definition very_large_len (megabytes : Z) : outcome Z :=
  let bytes := 1024 * 1024 * megabytes in
  if (bytes <? - 2 ^ 31) || (2 ^ 31 <=? bytes) then UB Arithmetic else Ok (s32 (bytes mod 2 ^ 64 / 4)).

(** [main]: whether the score can be set, the region, and whether there is memory for
    [pagehash] are results of calls.  Both arrays are cleared before they are tested. *)
Definition readahead_main (args : list text) (oom : bool) (arr : option Z) (pagehash : bool) (rs : list Z)
  : prog (outcome (verdict * list Z)) :=
  match args with
  | [_; megabytes; mode] =>
      let seq := bool_decide (take 12 mode = txt "--sequential") in
      match very_large_len (atoi megabytes) with
      | UB f => mret (UB f)
      | Blocked => mret Blocked
      | Ok len =>
          if negb oom then mret (Ok (Interrupted, [])) else
          match arr with
          | None => mret (UB NullDeref)
          | Some base =>
              if negb pagehash then mret (UB NullDeref) else
              r ← readahead_test seq base len rs;
              mret match r with Ok out => Ok (Exit 0, out) | UB f => UB f | Blocked => Blocked end
          end
      end
  | _ => mret (Ok (Exit 0, []))
  end.

(** * Integers of plain memory *)

Lemma byte_code_to_byte z : byte_code (to_byte z) = z mod 256.
Proof.
  unfold byte_code, to_byte. pose proof (Z.mod_pos_bound z 256 ltac:(lia)) as Hm.
  destruct (Byte.of_N (Z.to_N (z mod 256))) as [b|] eqn:E.
  - apply Byte.to_of_N in E. cbn. rewrite E. lia.
  - apply Byte.of_N_None_iff in E. lia.
Qed.

Definition peek_int (m : Z -> page) (a : Z) : Z := int_of (peek m a) (peek m (a + 1)) (peek m (a + 2)) (peek m (a + 3)).
(** Four bytes of a 64-bit address space. *)
Definition int_place (a : Z) : Prop := 0 <= a /\ a + 4 <= 2 ^ 64.

Lemma run_load_int a m : run_plain (load_int a) m = (peek_int m a, m).
Proof. done. Qed.

Lemma run_store_int a v m : full m -> int_place a -> 0 <= v < 2 ^ 31 ->
  let m' := (run_plain (store_int a v) m).2 in
  full m' /\ peek_int m' a = v /\
  forall a', int_place a' -> a' + 4 <= a \/ a + 4 <= a' -> peek_int m' a' = peek_int m a'.
Proof.
  intros Hm Ha Hv m'.
  assert (Em : m' = put (put (put (put m a (to_byte v)) (a + 1) (to_byte (v / 256))) (a + 2) (to_byte (v / 65536))) (a + 3) (to_byte (v / 16777216)))
    by reflexivity.
  clearbody m'. subst m'. unfold int_place in *.
  set (m' := put _ _ _). assert (Hp : forall a', is_u64 a' -> peek m' a' = if decide (a' = a + 3) then to_byte (v / 16777216) else
    if decide (a' = a + 2) then to_byte (v / 65536) else if decide (a' = a + 1) then to_byte (v / 256) else
    if decide (a' = a) then to_byte v else peek m a').
  { intros a' Ha'. unfold m'. rewrite !peek_put by (repeat apply full_put; try done; unfold is_u64; lia). done. }
  split; [by repeat apply full_put|]. unfold peek_int. split.
  - rewrite !Hp by (unfold is_u64; lia). repeat (case_decide; try lia). unfold int_of. rewrite !byte_code_to_byte.
    replace (v mod 256 + 256 * ((v / 256) mod 256) + 65536 * ((v / 65536) mod 256) + 16777216 * ((v / 16777216) mod 256)) with v.
    { unfold s32. rewrite Z.mod_small by lia. lia. }
    pose proof (Z.div_mod v 256 ltac:(lia)). pose proof (Z.div_mod (v / 256) 256 ltac:(lia)).
    pose proof (Z.div_mod (v / 65536) 256 ltac:(lia)). replace 65536 with (256 * 256) in * by lia. replace 16777216 with (256 * 256 * 256) in * by lia.
    rewrite <- !Z.div_div in * by lia. rewrite (Z.mod_small (v / 256 / 256 / 256)); [lia|].
    rewrite !Z.div_div by lia. split; [apply Z.div_pos; lia|apply Z.div_lt_upper_bound; lia].
  - intros a' Ha' Hsep. rewrite !Hp by (unfold is_u64; lia). repeat (case_decide; [lia|]). done.
Qed.

(** * Pages *)

Definition printable (v : Z) : Prop := 32 <= v <= 126.
(** What is not in the [n] integers from [a] stays. *)
Definition kept (a : Z) (n : nat) (m m' : Z -> page) : Prop :=
  forall a', int_place a' -> a' + 4 <= a \/ a + 4 * Z.of_nat n <= a' -> peek_int m' a' = peek_int m a'.

Lemma kept_next a n m m1 m' : kept a 1 m m1 -> kept (a + 4) n m1 m' -> kept a (S n) m m'.
Proof. intros H1 H2 a' Ha' Hs. rewrite H2 by (done || lia). apply H1; [done|lia]. Qed.

Lemma bump_page_spec n : forall a m, full m -> 0 <= a -> a + 4 * Z.of_nat n <= 2 ^ 64 ->
  (forall j, (j < n)%nat -> printable (peek_int m (a + 4 * Z.of_nat j))) ->
  exists m', run_plain (bump_page n a) m = (Ok tt, m') /\ full m' /\ kept a n m m' /\
    forall j, (j < n)%nat -> printable (peek_int m' (a + 4 * Z.of_nat j)).
Proof.
  induction n as [|n IH]; intros a m Hm Ha He Hp; [exists m; split; [done|]; split; [done|]; split; [by intros ?|lia]|].
  assert (Hpl : int_place a) by (unfold int_place; lia).
  pose proof (Hp 0%nat ltac:(lia)) as H0. replace (a + 4 * Z.of_nat 0) with a in H0 by lia. unfold printable in H0.
  cbn [bump_page]. rewrite run_plain_bind, run_load_int. cbn [fst snd]. destruct (Z.eqb_spec (peek_int m a) (2 ^ 31 - 1)); [lia|].
  rewrite run_plain_bind. destruct (run_store_int a (peek_int m a + 1) m Hm Hpl ltac:(lia)) as (Hm1 & Hv1 & Hk1).
  set (m1 := (run_plain (store_int a (peek_int m a + 1)) m).2) in *. rewrite run_plain_bind, run_load_int. cbn [fst snd]. rewrite Hv1.
  rewrite run_plain_bind.
  assert (exists m2, (run_plain (if 126 <? peek_int m a + 1 then store_int a 32 else mret tt) m1).2 = m2 /\ full m2 /\ kept a 1 m m2 /\ printable (peek_int m2 a))
    as (m2 & -> & Hm2 & Hk2 & Hv2).
  { eexists. split; [reflexivity|]. destruct (Z.ltb_spec 126 (peek_int m a + 1)).
    - destruct (run_store_int a 32 m1 Hm1 Hpl ltac:(lia)) as (? & Hv & Hk). split; [done|]. split; [|unfold printable; lia].
      intros a' ? ?. rewrite Hk by (done || lia). apply Hk1; [done|lia].
    - cbn [run_plain mret prog_ret snd]. split; [done|]. split; [|unfold printable; lia]. intros a' ? ?. apply Hk1; [done|lia]. }
  destruct (IH (a + 4) m2 Hm2 ltac:(lia) ltac:(lia)) as (m' & -> & Hm' & Hk' & Hp').
  { intros j Hj. rewrite Hk2; [|unfold int_place; lia|lia]. replace (a + 4 + 4 * Z.of_nat j) with (a + 4 * Z.of_nat (S j)) by lia. apply Hp. lia. }
  exists m'. split; [done|]. split; [done|]. split; [by eapply kept_next|]. intros [|j] Hj.
  - replace (a + 4 * Z.of_nat 0) with a by lia. by rewrite Hk' by (done || lia).
  - replace (a + 4 * Z.of_nat (S j)) with (a + 4 + 4 * Z.of_nat j) by lia. apply Hp'. lia.
Qed.

Lemma fill_page_spec n : forall a rs m, full m -> 0 <= a -> a + 4 * Z.of_nat n <= 2 ^ 64 -> Forall drawn rs ->
  match run_plain (fill_page n a rs) m with
  | (Ok rs', m') => full m' /\ kept a n m m' /\ (forall j, (j < n)%nat -> printable (peek_int m' (a + 4 * Z.of_nat j))) /\
      Forall drawn rs' /\ (lows rs <= n + lows rs')%nat
  | (Blocked, _) => (lows rs < n)%nat
  | (UB _, _) => False
  end.
Proof.
  induction n as [|n IH]; intros a rs m Hm Ha He Hrs; [split; [done|]; split; [by intros ?|]; split; [lia|by split]|].
  assert (Hpl : int_place a) by (unfold int_place; lia). cbn [fill_page].
  pose proof (rand_lim_spec 94 rs ltac:(lia) Hrs) as Hr. destruct (rand_lim 94 rs) as [[r rs1]|f|]; [|done|cbn; lia].
  destruct Hr as (Hr & Hrs1 & Hl). rewrite run_plain_bind. destruct (run_store_int a (r + 32) m Hm Hpl ltac:(lia)) as (Hm1 & Hv1 & Hk1).
  set (m1 := (run_plain (store_int a (r + 32)) m).2) in *. specialize (IH (a + 4) rs1 m1 Hm1 ltac:(lia) ltac:(lia) Hrs1).
  destruct (run_plain (fill_page n (a + 4) rs1) m1) as [[rs'|f|] m']; [|done|lia]. destruct IH as (Hm' & Hk' & Hp' & Hd & Hl').
  split; [done|]. split; [apply (kept_next a n m m1 m'); [|done]; intros a' ? ?; apply Hk1; [done|lia]|]. split; [|split; [done|lia]].
  intros [|j] Hj.
  - replace (a + 4 * Z.of_nat 0) with a by lia. rewrite Hk' by (done || lia). unfold printable. lia.
  - replace (a + 4 * Z.of_nat (S j)) with (a + 4 + 4 * Z.of_nat j) by lia. apply Hp'. lia.
Qed.

(** * The walk *)

Lemma page_ints_Z : Z.of_nat page_ints = 1024.
Proof. unfold page_ints. lia. Qed.
#[local] Opaque page_ints.

(** A region of [len] integers, a whole number of pages. *)
Definition int_region (base len : Z) : Prop := 0 <= base /\ 0 < len < 2 ^ 31 - 1 /\ len mod 1024 = 0 /\ base + 4 * len <= 2 ^ 64.
Definition good_page (base : Z) (m : Z -> page) (p : Z) : Prop :=
  forall j, (j < page_ints)%nat -> printable (peek_int m (base + 4 * (p * 1024) + 4 * Z.of_nat j)).

(** The characters printed, without the ends of lines. *)
Definition visits (out : list Z) : nat := length (base.filter (fun c => c <> 10) out).
Definition shown_char (c : Z) : Prop := c = 10 \/ printable c.

Lemma visits_visit out iter v : printable v -> Forall shown_char out ->
  Forall shown_char (end_line iter (out ++ [v])) /\ visits (end_line iter (out ++ [v])) = S (visits out).
Proof.
  intros Hv Ho. unfold visits, end_line, printable in *.
  assert (Hs : Forall shown_char (out ++ [v])) by (apply Forall_app; split; [done|]; constructor; [by right|done]).
  destruct (_ =? _); [split; [apply Forall_app; split; [done|]; constructor; [by left|done]|]|split; [done|]];
    rewrite !filter_app, !filter_cons, !filter_nil; repeat (case_decide; try lia); rewrite !length_app; cbn; lia.
Qed.

Lemma next_index_spec seq len i rs : 0 < len < 2 ^ 31 - 1 -> 0 <= i < len -> Forall drawn rs ->
  match next_index seq len i rs with
  | Ok (i', rs') => 0 <= i' < len /\ Forall drawn rs' /\ (lows rs <= S (lows rs'))%nat
  | Blocked => lows rs = O
  | UB _ => False
  end.
Proof.
  intros Hl Hi Hrs. unfold next_index. destruct seq.
  - destruct (Z.leb_spec len (i + 4)); (split; [lia|]; split; [done|lia]).
  - pose proof (rand_lim_spec (len - 1) rs ltac:(lia) Hrs) as Hr. destruct (rand_lim (len - 1) rs) as [[r rs']|f|]; [|done|done].
    destruct Hr as (? & ? & ?). split; [lia|]. by split.
Qed.

(** The page of an index is one of the region, and the index one of its integers. *)
Lemma page_of_index base len i : int_region base len -> 0 <= i < len ->
  let p := Z.quot i 1024 in
  0 <= p < Z.quot len 1024 /\ base + 4 * (p * 1024) + 4 * 1024 <= 2 ^ 64 /\
  exists j, (j < page_ints)%nat /\ base + 4 * i = base + 4 * (p * 1024) + 4 * Z.of_nat j.
Proof.
  intros (Hb & Hl & Hm & He) Hi p. pose proof page_ints_Z. unfold p. rewrite !Z.quot_div_nonneg by lia.
  pose proof (Z.div_mod i 1024 ltac:(lia)). pose proof (Z.mod_pos_bound i 1024 ltac:(lia)). pose proof (Z.div_mod len 1024 ltac:(lia)).
  pose proof (Z.div_pos i 1024 ltac:(lia) ltac:(lia)).
  assert (i / 1024 < len / 1024) by (apply Z.div_lt_upper_bound; lia).
  split; [lia|]. split; [lia|]. exists (Z.to_nat (i mod 1024)). lia.
Qed.

Lemma good_page_kept base m m' p q : 0 <= base -> 0 <= p -> base + 4 * (p * 1024) + 4 * 1024 <= 2 ^ 64 -> p <> q ->
  kept (base + 4 * (q * 1024)) page_ints m m' -> good_page base m p -> good_page base m' p.
Proof.
  intros Hb Hp He Hne Hk Hg j Hj. pose proof page_ints_Z. rewrite Hk; [by apply Hg|unfold int_place; lia|lia].
Qed.

(** What is known of the region during the walk: visited pages are printable. *)
Definition walked (base len : Z) (pagehash : Z -> bool) (m : Z -> page) : Prop :=
  full m /\ forall p, 0 <= p < Z.quot len 1024 -> pagehash p = true -> good_page base m p.

Lemma last_int base len p : int_region base len -> 0 <= p < Z.quot len 1024 -> base + 4 * (p * 1024) + 4 * 1024 <= 2 ^ 64.
Proof. intros (Hb & Hl & Hm & He) Hp. rewrite Z.quot_div_nonneg in Hp by lia. pose proof (Z.div_mod len 1024 ltac:(lia)). lia. Qed.

(** A page rewritten with printable integers is visited, the others are as before. *)
Lemma walked_write base len pagehash m m' q : int_region base len -> walked base len pagehash m -> full m' ->
  kept (base + 4 * (q * 1024)) page_ints m m' -> good_page base m' q ->
  walked base len (fun p => if p =? q then true else pagehash p) m'.
Proof.
  intros Hr [_ Hw] Hf Hk Hg. split; [done|]. intros p Hp. destruct (Z.eqb_spec p q) as [->|Hne]; [done|]. intros Hv.
  apply (good_page_kept base m m' p q); [apply Hr|lia|by apply (last_int base len)|done|done|by apply Hw].
Qed.

Lemma walked_same base len ph ph' m : (forall p, ph' p = ph p) -> walked base len ph m -> walked base len ph' m.
Proof. intros He [Hf Hw]. split; [done|]. intros p Hp. rewrite He. by apply Hw. Qed.

Lemma readahead_loop_prints seq base len : int_region base len -> forall n iter i pagehash rs out m,
  0 <= i < len -> walked base len pagehash m -> Forall drawn rs -> Forall shown_char out ->
  match (run_plain (readahead_loop n iter seq base len i pagehash rs out) m).1 with
  | Ok out' => Forall shown_char out' /\ visits out' = (visits out + n)%nat
  | Blocked => (lows rs < (1 + page_ints) * n)%nat
  | UB _ => False
  end.
Proof.
  intros Hreg. pose proof page_ints_Z as HN. induction n as [|n IH]; intros iter i pagehash rs out m Hi Hw Hrs Ho; [cbn; split; [done|lia]|].
  cbn [readahead_loop]. pose proof (next_index_spec seq len i rs ltac:(apply Hreg) Hi Hrs) as Hn.
  destruct (next_index seq len i rs) as [[i' rs1]|f|]; [|done|cbn; lia]. destruct Hn as (Hi' & Hrs1 & Hl).
  destruct (page_of_index base len i' Hreg Hi') as (Hp & He & j & Hj & Ej). set (p := Z.quot i' 1024) in *.
  assert (Hb : 0 <= base + 4 * (p * 1024)) by (destruct Hreg; lia).
  destruct (Z.leb_spec (Z.quot len 1024) p); [lia|]. destruct (pagehash p) eqn:Ep.
  - rewrite run_plain_bind, run_load_int. cbn [fst snd]. rewrite Ej.
    pose proof (proj2 Hw p Hp Ep j Hj) as Hv. unfold print_if. set (v := peek_int m _) in *. unfold printable in Hv.
    destruct (Z.leb_spec 32 v); [|lia]. destruct (Z.leb_spec v 126); [|lia]. cbn [andb]. rewrite run_plain_bind.
    destruct (bump_page_spec page_ints (base + 4 * (p * 1024)) m (proj1 Hw) Hb ltac:(lia) (proj2 Hw p Hp Ep)) as (m' & -> & Hf & Hk & Hg).
    cbn [fst snd]. destruct (visits_visit out iter v Hv Ho) as [Hs Hc].
    assert (Hw' : walked base len pagehash m').
    { apply (walked_same _ _ (fun q => if q =? p then true else pagehash q)); [intros q; destruct (Z.eqb_spec q p); congruence|].
      by apply (walked_write base len pagehash m). }
    specialize (IH (iter + 1) i' pagehash rs1 (end_line iter (out ++ [v])) m' Hi' Hw' Hrs1 Hs).
    destruct (run_plain _ _).1; [|done|nia]. destruct IH. split; [done|lia].
  - rewrite run_plain_bind. pose proof (fill_page_spec page_ints (base + 4 * (p * 1024)) rs1 m (proj1 Hw) Hb ltac:(lia) Hrs1) as Hfill.
    destruct (run_plain (fill_page _ _ _) _) as [[rs2|f|] m']; cbn [fst snd]; [|done|cbn; nia].
    destruct Hfill as (Hf & Hk & Hg & Hrs2 & Hl2). rewrite run_plain_bind, run_load_int. cbn [fst snd]. rewrite Ej.
    pose proof (Hg j Hj) as Hv. set (v := peek_int m' _) in *. rewrite Z.mod_small by (unfold printable in Hv; lia).
    destruct (visits_visit out iter v Hv Ho) as [Hs Hc].
    specialize (IH (iter + 1) i' (fun q => if q =? p then true else pagehash q) rs2 (end_line iter (out ++ [v])) m' Hi'
      (walked_write base len pagehash m m' p Hreg Hw Hf Hk Hg) Hrs2 Hs).
    destruct (run_plain _ _).1; [|done|nia]. destruct IH. split; [done|lia].
Qed.

Lemma very_large_len_region k : 1 <= k < 2048 -> exists len, very_large_len k = Ok len /\ len = 262144 * k /\ 0 < len < 2 ^ 31 - 1 /\ len mod 1024 = 0.
Proof.
  intros Hk. unfold very_large_len. destruct (Z.ltb_spec (1024 * 1024 * k) (- 2 ^ 31)); [lia|]. destruct (Z.leb_spec (2 ^ 31) (1024 * 1024 * k)); [lia|].
  exists (262144 * k). split; [|split; [done|split; [lia|]]].
  - cbn [orb]. f_equal. rewrite Z.mod_small by lia. replace (1024 * 1024 * k) with (262144 * k * 4) by lia. rewrite Z.div_mul by lia.
    unfold s32. rewrite Z.mod_small by lia. lia.
  - replace (262144 * k) with (256 * k * 1024) by lia. apply Z.mod_mul. lia.
Qed.

(** From two gigabytes on the length overflows, and without a region the test clears
    memory at the null pointer before it looks at the result. *)
Lemma readahead_undefined a b k oom arr ph rs m : (2048 <= atoi k -> (run_plain (readahead_main [a; k; b] oom arr ph rs) m).1 = UB Arithmetic) /\
  (1 <= atoi k < 2048 -> (run_plain (readahead_main [a; k; b] true None ph rs) m).1 = UB NullDeref).
Proof.
  split; intros Hk; unfold readahead_main.
  - unfold very_large_len. destruct (Z.ltb_spec (1024 * 1024 * atoi k) (- 2 ^ 31)); [lia|].
    by destruct (Z.leb_spec (2 ^ 31) (1024 * 1024 * atoi k)); [|lia].
  - by destruct (very_large_len_region (atoi k) Hk) as (len & -> & _).
Qed.

(** * On the monitor *)
Lemma readahead_test_plain seq base len rs m : int_region base len -> full m -> Forall drawn rs ->
  match (run_plain (readahead_test seq base len rs) m).1 with
  | Ok out => Forall shown_char out /\ visits out = Z.to_nat len
  | Blocked => (lows rs < 1025 * Z.to_nat len)%nat
  | UB _ => False
  end.
Proof.
  intros Hr Hm Hrs. unfold readahead_test. rewrite run_plain_bind. destruct Hr as (Hb & Hl & Hd & He).
  assert (Hn : Z.of_nat (Z.to_nat (4 * len)) = 4 * len) by lia. revert Hn. generalize (Z.to_nat (4 * len)) as n. intros n Hn.
  destruct (run_store_range n Byte.x00 base m Hm Hb ltac:(lia)) as [Hf _].
  assert (Hw : walked base len (fun _ => false) (run_plain (store_range n base Byte.x00) m).2) by (split; [done|by intros]).
  pose proof (readahead_loop_prints seq base len (conj Hb (conj Hl (conj Hd He))) (Z.to_nat len) 0 0 (fun _ => false) rs []
    (run_plain (store_range n base Byte.x00) m).2 ltac:(lia) Hw Hrs (Forall_nil_2 _)) as H.
  pose proof page_ints_Z. destruct (run_plain (readahead_loop _ _ _ _ _ _ _ _ _) _).1; [done|done|]. replace 1025%nat with (1 + page_ints)%nat by lia. done.
Qed.

Section monitor.
Context {OSI : OS} {OL : OSLaws OSI} {AS : AppStores OSI} {X : ExternRAM} {L : ExternRAMLaws X}.
Context {F : BuildFlags} {SB : SyncBuild F} {I : StaleIterator} {WF : WriteFuel} {EF : EnoughFuel L WF}.

(** On the monitor the test prints a printable character for every integer of its
    region, in either order and whatever it draws. *)
Theorem readahead_prints u w seq base len rs out w' : 0 <= u < 4096 -> monitor_ok w -> is_Some (client_of w u) -> full (view w u) ->
  int_region base len -> Forall drawn rs -> (1025 * Z.to_nat len <= lows rs)%nat ->
  runs_on u (readahead_test seq base len rs) w out w' ->
  exists cs, out = Ok cs /\ Forall shown_char cs /\ visits cs = Z.to_nat len.
Proof.
  intros Hu Hm Hc Hf Hr Hrs Hl R. destruct (runs_on_plain u Hu _ w out w' R (view w u) Hm Hc ltac:(done)) as [<- _].
  pose proof (readahead_test_plain seq base len rs (view w u) Hr Hf Hrs) as H.
  destruct (run_plain _ _).1 as [cs|f|]; [by exists cs|done|lia].
Qed.
End monitor.
