(* ===== verification/Zookeeper.v ===== *)
(** The registry of identifiers: [add_upid] and [del_upid] of
    [include/zookeeper_upid.h] over the ZooKeeper client library.

    The library is a parameter.  A call may run the watcher, which on an
    authentication failure or an expired session closes and drops the handle and
    sets [shutdownThisThing]; each operation reports whether it did.  The waits
    between attempts are left out. *)
From S2P Require Import Prelude Text Config MonitorStats Os.

Definition ZOOKEEPER_UPID_OK : Z := 0.
Definition ZOOKEEPER_UPID_EXIST : Z := 1.
Definition ZOOKEEPER_UPID_ERR : Z := 2.
Definition ZOK : Z := 0.
Definition ZBADARGUMENTS : Z := -8.
Definition ZNONODE : Z := -101.

(** * Paths *)

(** ["/upids"] and ["/upids/%lx"]. *)
Definition upidPath : list Z := [47; 117; 112; 105; 100; 115].
Definition upidFullPath (upid : Z) : list Z := upidPath ++ 47 :: print_lx upid.

(** * The library and the calls *)

Class ZooKeeper := {
  zk : Type;
  (** [zookeeper_init]: whether there is a handle. *)
  zookeeper_init : zk -> bool * zk;
  zookeeper_close : zk -> zk;
  (** Result code, and whether the watcher was told the session is lost. *)
  zoo_exists : list Z -> zk -> (Z * bool) * zk;
  zoo_create : list Z -> zk -> (Z * bool) * zk;
  zoo_delete : list Z -> zk -> (Z * bool) * zk
}.

(** The globals [zh] (null or not) and [shutdownThisThing], and the library. *)
Record zstate `{ZooKeeper} := Zstate { z_lib : zk; zh : bool; shutdownThisThing : bool }.
Arguments Zstate {_} _ _ _.

Section upid.
Context `{Z0 : ZooKeeper}.

Definition initialize : M zstate unit := mmod (fun z => Zstate (z_lib z) false false).

(** [watcher] on a session that is gone; the error report is the caller's. *)
Definition watcher_lost (z : zstate) : zstate := Zstate (zookeeper_close (z_lib z)) false true.

(** A call on the handle; a null one is an invalid argument. *)
Definition zcall (f : zk -> (Z * bool) * zk) : M (zstate * dbg) Z := fun zd =>
  let '(z, d) := zd in
  if zh z then
    let '((rc, dropped), l) := f (z_lib z) in
    let z := Zstate l true (shutdownThisThing z) in
    if dropped : bool then
      match log_err d with
      | Ok (_, d) => Ok (rc, (watcher_lost z, d)) | UB x => UB x | Blocked => Blocked
      end
    else Ok (rc, (z, d))
  else Ok (ZBADARGUMENTS, zd).

Definition on_z {A} (m : M zstate A) : M (zstate * dbg) A := zoom fst (fun z p => (z, p.2)) m.

(** [if( zh==NULL ) zh = zookeeper_init(...)]: whether there is a handle. *)
Definition connect : M zstate bool := fun z =>
  if zh z then Ok (true, z)
  else let '(ok, l) := zookeeper_init (z_lib z) in Ok (ok, Zstate l ok (shutdownThisThing z)).

(** [zookeeper_close(zh)], with or without the test for a null handle; the
    pointer is not reset. *)
Definition close : M zstate unit := fun z =>
  Ok (tt, if zh z then Zstate (zookeeper_close (z_lib z)) true (shutdownThisThing z) else z).

(** The part of the body before [add_retry]: a result, or another round. *)
Definition add_round (upid : Z) : M (zstate * dbg) (option Z) :=
  rc ← zcall (zoo_exists upidPath);
  ok ← (if rc =? ZNONODE then rc ← zcall (zoo_create upidPath); mret (rc =? ZOK)
        else mret (rc =? ZOK));
  if negb ok then mret None
  else
    rc ← zcall (zoo_exists (upidFullPath upid));
    if rc =? ZOK then on_z close;; mret (Some ZOOKEEPER_UPID_EXIST)
    else if rc =? ZNONODE then
      rc ← zcall (zoo_create (upidFullPath upid));
      if rc =? ZOK then on_z close;; mret (Some ZOOKEEPER_UPID_OK) else mret None
    else mret None.

(** [while(!shutdownThisThing)]. *)
Fixpoint add_rounds (fuel : nat) (upid : Z) : M (zstate * dbg) (option Z) :=
  zd ← mget;
  if shutdownThisThing zd.1 then mret None
  else match fuel with
       | O => mub OutOfFuel
       | S fuel =>
           r ← add_round upid;
           match r with Some x => mret (Some x) | None => add_rounds fuel upid end
       end.

(** [while(attemptCnt-->0)]. *)
Fixpoint add_attempts (attemptCnt fuel : nat) (upid : Z) : M (zstate * dbg) (option Z) :=
  match attemptCnt with
  | O => mret None
  | S attemptCnt =>
      ok ← on_z connect;
      r ← (if ok : bool then add_rounds fuel upid else mret None);
      match r with Some x => mret (Some x) | None => add_attempts attemptCnt fuel upid end
  end.

Definition add_upid (fuel : nat) (upid : Z) : M (zstate * dbg) Z :=
  on_z initialize;;
  r ← add_attempts 10 fuel upid;
  match r with
  | Some x => mret x
  | None => on_z close;; mret ZOOKEEPER_UPID_ERR
  end.

(** [del_upid]: a node that is not there, or an error, ends it. *)
Fixpoint del_rounds (fuel : nat) (upid : Z) : M (zstate * dbg) (option Z) :=
  zd ← mget;
  if shutdownThisThing zd.1 then mret None
  else match fuel with
       | O => mub OutOfFuel
       | S fuel =>
           rc ← zcall (zoo_exists (upidFullPath upid));
           if negb (rc =? ZOK) then on_z close;; mret (Some ZOOKEEPER_UPID_ERR)
           else
             rc ← zcall (zoo_delete (upidFullPath upid));
             if rc =? ZOK then on_z close;; mret (Some ZOOKEEPER_UPID_OK)
             else del_rounds fuel upid
       end.

Fixpoint del_attempts (attemptCnt fuel : nat) (upid : Z) : M (zstate * dbg) Z :=
  match attemptCnt with
  | O => on_z close;; mret ZOOKEEPER_UPID_ERR
  | S attemptCnt =>
      ok ← on_z connect;
      r ← (if ok : bool then del_rounds fuel upid else mret None);
      match r with Some x => mret x | None => del_attempts attemptCnt fuel upid end
  end.

Definition del_upid (fuel : nat) (upid : Z) : M (zstate * dbg) Z :=
  on_z initialize;; del_attempts 10 fuel upid.
End upid.

(** * Paths of identifiers *)

Lemma upidFullPath_inj u u' : is_u64 u -> is_u64 u' -> upidFullPath u = upidFullPath u' -> u = u'.
Proof.
  intros Hu Hu' E. apply app_inv_head in E. injection E as E. apply (f_equal hex_value) in E.
  by rewrite !print_lx_value in E.
Qed.

Lemma upidFullPath_ne u : upidFullPath u <> upidPath.
Proof.
  intros E. apply (f_equal length) in E. unfold upidFullPath in E. rewrite length_app in E. simpl in E. lia.
Qed.

(** * Contract of the library *)

(** Documented behaviour: an operation that succeeds has its effect; one that
    fails, with the connection lost, may or may not have had it. *)
Class ZooLaws `(Z0 : ZooKeeper) := {
  znodes : zk -> gset (list Z);
  (** Calls that will fail before the service is back. *)
  zfail : zk -> nat;
  init_law : forall l ok l', zookeeper_init l = (ok, l') -> znodes l' = znodes l /\ (zfail l' <= zfail l)%nat;
  close_law : forall l, znodes (zookeeper_close l) = znodes l /\ (zfail (zookeeper_close l) <= zfail l)%nat;
  exists_law : forall p l rc d l', zoo_exists p l = ((rc, d), l') ->
    znodes l' = znodes l /\ (zfail l' <= zfail l)%nat /\
    (rc = ZOK -> p ∈ znodes l) /\ (rc = ZNONODE -> p ∉ znodes l) /\
    (rc <> ZOK -> rc <> ZNONODE -> (zfail l' < zfail l)%nat);
  zcreate_law : forall p l rc d l', zoo_create p l = ((rc, d), l') -> (p ∉ znodes l) ->
    (zfail l' <= zfail l)%nat /\ (rc = ZOK -> znodes l' = {[p]} ∪ znodes l) /\
    (rc <> ZOK -> (znodes l' = znodes l \/ znodes l' = {[p]} ∪ znodes l) /\ (zfail l' < zfail l)%nat);
  zdelete_law : forall p l rc d l', zoo_delete p l = ((rc, d), l') -> p ∈ znodes l ->
    (zfail l' <= zfail l)%nat /\ (rc = ZOK -> znodes l' = znodes l ∖ {[p]}) /\
    (rc <> ZOK -> (znodes l' = znodes l \/ znodes l' = znodes l ∖ {[p]}) /\ (zfail l' < zfail l)%nat)
}.

Section spec.
Context `{Z0 : ZooKeeper} {ZL : ZooLaws Z0}.

(** Nodes between a set and the set with the two paths of [upid]. *)
Definition grown (upid : Z) (n n' : gset (list Z)) : Prop :=
  n ⊆ n' /\ n' ⊆ n ∪ {[upidPath; upidFullPath upid]}.

Lemma grown_refl upid n : grown upid n n.
Proof. split; set_solver. Qed.
Lemma grown_trans upid n n1 n2 : grown upid n n1 -> grown upid n1 n2 -> grown upid n n2.
Proof. intros [? ?] [? ?]. split; set_solver. Qed.

(** What a round may have done to the registry. *)
Definition round_done (upid : Z) (n : gset (list Z)) (r : option Z) (n' : gset (list Z)) : Prop :=
  grown upid n n' /\
  (r = Some ZOOKEEPER_UPID_OK -> (upidFullPath upid ∉ n) /\ upidFullPath upid ∈ n') /\
  (r = Some ZOOKEEPER_UPID_EXIST -> upidFullPath upid ∈ n') /\
  (r = None \/ r = Some ZOOKEEPER_UPID_OK \/ r = Some ZOOKEEPER_UPID_EXIST).

(** The state [z] with less left to fail, unless it is shutting down. *)
Definition less_fail (z z' : zstate) : Prop :=
  (zfail (z_lib z') < zfail (z_lib z))%nat \/ shutdownThisThing z' = true.

(** There is a handle, or the session is gone for good. *)
Definition live (z : zstate) : Prop := zh z = true \/ shutdownThisThing z = true.
Definition zle (z z' : zstate) : Prop :=
  (zfail (z_lib z') <= zfail (z_lib z))%nat /\ (shutdownThisThing z = true -> shutdownThisThing z' = true).

Lemma zle_refl z : zle z z.
Proof. by split. Qed.
Lemma zle_trans z z1 z2 : zle z z1 -> zle z1 z2 -> zle z z2.
Proof. intros [? ?] [? ?]. split; [lia|auto]. Qed.
Lemma less_trans_l z z1 z2 : zle z z1 -> less_fail z1 z2 -> less_fail z z2.
Proof. intros [? ?] [?|?]; [left; lia|by right]. Qed.
Lemma less_trans_r z z1 z2 : less_fail z z1 -> zle z1 z2 -> less_fail z z2.
Proof. intros [?|?] [? ?]; [left; lia|right; auto]. Qed.

(** A call on a live state: the library answers, or the session was gone already. *)
Lemma zcall_live f z d : live z -> (forall l rc dr l', f l = ((rc, dr), l') -> (zfail l' <= zfail l)%nat) ->
  exists rc z' d', zcall f (z, d) = Ok (rc, (z', d')) /\ live z' /\ zle z z' /\
    ((rc = ZBADARGUMENTS /\ z' = z /\ shutdownThisThing z = true) \/
     exists l dr, f (z_lib z) = ((rc, dr), l) /\ znodes (z_lib z') = znodes l /\ (zfail (z_lib z') <= zfail l)%nat).
Proof.
  intros Hlive Hf. unfold zcall. destruct (zh z) eqn:Hz.
  - destruct (f (z_lib z)) as [[rc dr] l] eqn:E. pose proof (Hf _ _ _ _ E) as Hle. destruct dr.
    + unfold log_err. mrun. eexists _, _, _. split; [reflexivity|]. split; [by right|].
      destruct (close_law l) as [Hn Hl]. split; [split; [simpl; lia|done]|]. right. exists l, true. done.
    + eexists _, _, _. split; [reflexivity|]. split; [by left|]. split; [by split|]. right. exists l, false. done.
  - destruct Hlive as [?|Hs]; [congruence|]. eexists _, _, _. split; [reflexivity|].
    split; [by right|]. split; [apply zle_refl|]. by left.
Qed.

Lemma exists_run p z d : live z -> exists rc z' d', zcall (zoo_exists p) (z, d) = Ok (rc, (z', d')) /\
  live z' /\ zle z z' /\ znodes (z_lib z') = znodes (z_lib z) /\
  (rc = ZOK -> p ∈ znodes (z_lib z)) /\ (rc = ZNONODE -> p ∉ znodes (z_lib z)) /\
  (rc <> ZOK -> rc <> ZNONODE -> less_fail z z').
Proof.
  intros Hlive. destruct (zcall_live (zoo_exists p) z d Hlive) as (rc & z' & d' & E & Hl & Hle & Hcase).
  { intros l rc dr l' E. by destruct (exists_law _ _ _ _ _ E) as (_ & ? & _). }
  exists rc, z', d'. split; [done|]. split; [done|]. split; [done|].
  destruct Hcase as [(-> & -> & Hs)|(l & dr & Ef & Hn & Hf)].
  - split; [done|]. split; [done|]. split; [done|]. intros _ _. by right.
  - destruct (exists_law _ _ _ _ _ Ef) as (Hn' & Hle' & Ho & Hno & Hfl). split; [congruence|].
    split; [done|]. split; [done|]. intros H1 H2. left. specialize (Hfl H1 H2). lia.
Qed.

Lemma create_run p z d : live z -> (p ∉ znodes (z_lib z)) ->
  exists rc z' d', zcall (zoo_create p) (z, d) = Ok (rc, (z', d')) /\ live z' /\ zle z z' /\
    (rc = ZOK -> znodes (z_lib z') = {[p]} ∪ znodes (z_lib z)) /\
    (rc <> ZOK -> (znodes (z_lib z') = znodes (z_lib z) \/ znodes (z_lib z') = {[p]} ∪ znodes (z_lib z)) /\ less_fail z z').
Proof.
  intros Hlive Hp. unfold zcall. destruct (zh z) eqn:Hz.
  - destruct (zoo_create p (z_lib z)) as [[rc dr] l] eqn:E.
    destruct (zcreate_law _ _ _ _ _ E Hp) as (Hle & Hok & Hno). destruct (close_law l) as [Hn Hl].
    destruct dr; unfold log_err; mrun; eexists _, _, _; (split; [reflexivity|]); unfold live, zle, less_fail; simpl.
    + split; [by right|]. split; [split; [lia|done]|]. rewrite Hn. split; [done|]. intros Hr.
      destruct (Hno Hr). split; [done|by right].
    + split; [by left|]. split; [by split|]. split; [done|]. intros Hr. destruct (Hno Hr). split; [done|by left].
  - destruct Hlive as [?|Hs]; [congruence|]. eexists _, _, _. split; [reflexivity|].
    split; [by right|]. split; [apply zle_refl|]. split; [done|]. intros _. split; [by left|by right].
Qed.

Lemma close_run z d : exists z', on_z close (z, d) = Ok (tt, (z', d)) /\ live z' = live z /\ zle z z' /\
  znodes (z_lib z') = znodes (z_lib z).
Proof.
  unfold on_z, close, zoom. simpl. destruct (zh z) eqn:Hz; eexists; (split; [reflexivity|]).
  - unfold live, zle. simpl. rewrite Hz. destruct (close_law (z_lib z)). done.
  - split; [done|]. split; [apply zle_refl|done].
Qed.

(** The first half of a round: the directory exists, or the round is over. *)
Lemma directory_run z d : live z -> exists ok z' d',
  (rc ← zcall (zoo_exists upidPath);
   if rc =? ZNONODE then rc ← zcall (zoo_create upidPath); mret (rc =? ZOK) else mret (rc =? ZOK)) (z, d)
    = Ok (ok, (z', d')) /\ live z' /\ zle z z' /\
  (znodes (z_lib z') = znodes (z_lib z) \/ znodes (z_lib z') = {[upidPath]} ∪ znodes (z_lib z)) /\
  (ok = false -> less_fail z z').
Proof.
  intros Hl. unfold mbind, M_bind.
  destruct (exists_run upidPath z d Hl) as (rc & z1 & d1 & -> & Hl1 & Hle1 & Hn1 & Hok1 & Hno1 & Hf1).
  destruct (Z.eqb_spec rc ZNONODE) as [->|Hne].
  - destruct (create_run upidPath z1 d1 Hl1) as (rc & z2 & d2 & -> & Hl2 & Hle2 & Hok2 & Hno2); [rewrite Hn1; auto|].
    rewrite Hn1 in Hok2, Hno2.
    eexists _, _, _. split; [reflexivity|]. split; [done|]. split; [by eapply zle_trans|].
    destruct (Z.eqb_spec rc ZOK) as [Hr|Hr].
    + split; [right; auto|done].
    + destruct (Hno2 Hr). split; [done|]. intros _. by eapply less_trans_l.
  - eexists _, _, _. split; [reflexivity|]. split; [done|]. split; [done|]. split; [by left|].
    destruct (Z.eqb_spec rc ZOK) as [Hr|Hr]; [done|]. auto.
Qed.

(** The second half: is the identifier taken, and if not, take it. *)
Lemma claim_run upid z d : live z -> exists r z' d',
  (rc ← zcall (zoo_exists (upidFullPath upid));
   if rc =? ZOK then on_z close;; mret (Some ZOOKEEPER_UPID_EXIST)
   else if rc =? ZNONODE then
     rc ← zcall (zoo_create (upidFullPath upid));
     if rc =? ZOK then on_z close;; mret (Some ZOOKEEPER_UPID_OK) else mret None
   else mret None) (z, d) = Ok (r, (z', d')) /\ live z' /\ zle z z' /\
  round_done upid (znodes (z_lib z)) r (znodes (z_lib z')) /\ (r = None -> less_fail z z').
Proof.
  intros Hl. unfold mbind, M_bind.
  destruct (exists_run (upidFullPath upid) z d Hl) as (rc & z1 & d1 & -> & Hl1 & Hle1 & Hn1 & Hok1 & Hno1 & Hf1).
  destruct (Z.eqb_spec rc ZOK) as [->|Hne].
  { destruct (close_run z1 d1) as (z2 & -> & Hl2 & Hle2 & Hn2). eexists _, _, _. split; [reflexivity|].
    split; [by rewrite Hl2|]. split; [by eapply zle_trans|]. rewrite Hn2, Hn1.
    split; [|done]. split; [apply grown_refl|]. split; [done|]. split; [auto|by right; right]. }
  destruct (Z.eqb_spec rc ZNONODE) as [->|Hne2].
  2:{ eexists _, _, _. split; [reflexivity|]. split; [done|]. split; [done|]. rewrite Hn1. split; [|auto].
      split; [apply grown_refl|]. split; [done|]. split; [done|by left]. }
  specialize (Hno1 eq_refl).
  destruct (create_run (upidFullPath upid) z1 d1 Hl1) as (rc & z2 & d2 & -> & Hl2 & Hle2 & Hok2 & Hno2); [by rewrite Hn1|].
  rewrite Hn1 in Hok2, Hno2. destruct (Z.eqb_spec rc ZOK) as [Hr|Hr].
  - destruct (close_run z2 d2) as (z3 & -> & Hl3 & Hle3 & Hn3). eexists _, _, _. split; [reflexivity|].
    split; [by rewrite Hl3|]. split; [eapply zle_trans; [done|by eapply zle_trans]|].
    rewrite Hn3, (Hok2 Hr). split; [|done]. split; [split; set_solver|]. split; [|split; [done|by right; left]].
    intros _. set_solver.
  - destruct (Hno2 Hr) as [Hn2 Hf2]. eexists _, _, _. split; [reflexivity|]. split; [done|].
    split; [by eapply zle_trans|]. split; [|intros _; by eapply less_trans_l].
    split; [destruct Hn2 as [-> | ->]; split; set_solver|]. split; [done|]. split; [done|by left].
Qed.

Lemma add_round_run upid z d : live z -> exists r z' d', add_round upid (z, d) = Ok (r, (z', d')) /\
  live z' /\ zle z z' /\ round_done upid (znodes (z_lib z)) r (znodes (z_lib z')) /\ (r = None -> less_fail z z').
Proof.
  intros Hl. destruct (directory_run z d Hl) as (ok & z1 & d1 & E1 & Hl1 & Hle1 & Hn1 & Hf1).
  destruct (claim_run upid z1 d1 Hl1) as (r & z2 & d2 & E2 & Hl2 & Hle2 & (Hg2 & Hok2 & Hex2 & Hr2) & Hf2).
  assert (Hg1 : grown upid (znodes (z_lib z)) (znodes (z_lib z1))) by (destruct Hn1 as [-> | ->]; split; set_solver).
  assert (E : add_round upid (z, d) = if negb ok then Ok (None, (z1, d1)) else Ok (r, (z2, d2))).
  { unfold add_round. unfold mbind, M_bind in E1, E2 |- *.
    destruct (zcall (zoo_exists upidPath) (z, d)) as [[rc [z0 d0]]| |]; try done. rewrite E1.
    destruct ok; simpl; [exact E2|done]. }
  rewrite E. destruct ok; simpl.
  - exists r, z2, d2. split; [done|]. split; [done|]. split; [by eapply zle_trans|].
    split; [|intros Hr; eapply less_trans_l; [done|auto]].
    split; [by eapply grown_trans|]. split; [|done]. intros Hr. destruct (Hok2 Hr) as [Hni Hi]. split; [|done].
    intros Hin. apply Hni. apply Hg1. done.
  - exists None, z1, d1. split; [done|]. split; [done|]. split; [done|]. split; [|auto].
    split; [done|]. split; [done|]. split; [done|by left].
Qed.

Lemma round_after upid n n1 r n2 : grown upid n n1 -> round_done upid n1 r n2 -> round_done upid n r n2.
Proof.
  intros Hg (Hg2 & Hok & Hex & Hr). split; [by eapply grown_trans|]. split; [|done].
  intros Hr'. destruct (Hok Hr') as [Hni Hi]. split; [|done]. intros Hin. by apply Hni, Hg.
Qed.

Lemma round_none upid n n' : grown upid n n' -> round_done upid n None n'.
Proof. intros Hg. split; [done|]. split; [done|]. split; [done|by left]. Qed.

Lemma add_rounds_run fuel upid z d : live z -> (zfail (z_lib z) < fuel)%nat \/ shutdownThisThing z = true ->
  exists r z' d', add_rounds fuel upid (z, d) = Ok (r, (z', d')) /\ live z' /\ zle z z' /\
    round_done upid (znodes (z_lib z)) r (znodes (z_lib z')).
Proof.
  revert z d. induction fuel as [|fuel IH]; intros z d Hl Hf; simpl; unfold mget, mbind, M_bind; simpl.
  all: destruct (shutdownThisThing z) eqn:Hs;
    [exists None, z, d; split; [done|]; split; [done|]; split; [apply zle_refl|apply round_none, grown_refl]|].
  all: destruct Hf as [Hf|?]; [|done].
  1: lia.
  destruct (add_round_run upid z d Hl) as (r & z1 & d1 & -> & Hl1 & Hle1 & Hd1 & Hf1).
  destruct r as [x|].
  - exists (Some x), z1, d1. done.
  - destruct (IH z1 d1 Hl1) as (r & z2 & d2 & -> & Hl2 & Hle2 & Hd2).
    { destruct (Hf1 eq_refl) as [?|?]; [left; lia|by right]. }
    exists r, z2, d2. split; [done|]. split; [done|]. split; [by eapply zle_trans|].
    eapply round_after; [apply Hd1|done].
Qed.

Lemma connect_run z d : exists ok z', on_z connect (z, d) = Ok (ok, (z', d)) /\ zle z z' /\
  znodes (z_lib z') = znodes (z_lib z) /\ zh z' = ok /\ shutdownThisThing z' = shutdownThisThing z.
Proof.
  unfold on_z, connect, zoom. simpl. destruct (zh z) eqn:Hz.
  - exists true, z. split; [done|]. split; [apply zle_refl|done].
  - destruct (zookeeper_init (z_lib z)) as [ok l] eqn:E. destruct (init_law _ _ _ E) as [Hn Hf].
    eexists _, _. split; [reflexivity|]. split; [by split|done].
Qed.

Lemma add_attempts_run n fuel upid z d : (zfail (z_lib z) < fuel)%nat ->
  exists r z' d', add_attempts n fuel upid (z, d) = Ok (r, (z', d')) /\ zle z z' /\
    round_done upid (znodes (z_lib z)) r (znodes (z_lib z')).
Proof.
  revert z d. induction n as [|n IH]; intros z d Hf.
  { exists None, z, d. split; [done|]. split; [apply zle_refl|apply round_none, grown_refl]. }
  simpl. unfold mbind, M_bind. destruct (connect_run z d) as (ok & z1 & -> & Hle1 & Hn1 & Hz1 & _).
  assert (Hf1 : (zfail (z_lib z1) < fuel)%nat) by (destruct Hle1; lia).
  destruct ok.
  - destruct (add_rounds_run fuel upid z1 d) as (r & z2 & d2 & -> & Hl2 & Hle2 & Hd2); [by left|by left|].
    rewrite Hn1 in Hd2. destruct r as [x|].
    + exists (Some x), z2, d2. split; [done|]. split; [by eapply zle_trans|done].
    + destruct (IH z2 d2) as (r & z3 & d3 & -> & Hle3 & Hd3); [destruct Hle2; lia|].
      exists r, z3, d3. split; [done|]. split; [eapply zle_trans; [done|by eapply zle_trans]|].
      eapply round_after; [apply Hd2|done].
  - unfold mret, M_ret. destruct (IH z1 d) as (r & z3 & d3 & -> & Hle3 & Hd3); [done|].
    exists r, z3, d3. split; [done|]. split; [by eapply zle_trans|]. by rewrite <- Hn1.
Qed.

Lemma add_upid_run fuel upid z d : (zfail (z_lib z) < fuel)%nat ->
  exists r z' d', add_upid fuel upid (z, d) = Ok (r, (z', d')) /\ (zfail (z_lib z') <= zfail (z_lib z))%nat /\
    grown upid (znodes (z_lib z)) (znodes (z_lib z')) /\
    (r = ZOOKEEPER_UPID_OK -> (upidFullPath upid ∉ znodes (z_lib z)) /\ upidFullPath upid ∈ znodes (z_lib z')) /\
    (r = ZOOKEEPER_UPID_EXIST -> upidFullPath upid ∈ znodes (z_lib z')) /\
    (r = ZOOKEEPER_UPID_OK \/ r = ZOOKEEPER_UPID_EXIST \/ r = ZOOKEEPER_UPID_ERR).
Proof.
  intros Hf. unfold add_upid, mbind, M_bind. set (z0 := Zstate (z_lib z) false false).
  change (on_z initialize (z, d)) with (@Ok (unit * (zstate * dbg)) (tt, (z0, d))). cbn beta iota.
  destruct (add_attempts_run 10 fuel upid z0 d Hf) as (r & z1 & d1 & -> & [Hle _] & Hg & Hok & Hex & Hr).
  destruct r as [x|].
  - eexists _, _, _. split; [reflexivity|]. split; [done|]. split; [done|]. split; [intros ->; by apply Hok|].
    split; [intros ->; by apply Hex|]. destruct Hr as [?|[[= ->]|[= ->]]]; [done|by left|by right; left].
  - destruct (close_run z1 d1) as (z2 & -> & _ & [Hle2 _] & Hn2). eexists _, _, _. split; [reflexivity|].
    rewrite Hn2. split; [simpl in Hle; lia|]. split; [done|]. split; [done|]. split; [done|by right; right].
Qed.


(** ** Removing an identifier *)

Lemma delete_run p z d : live z -> p ∈ znodes (z_lib z) ->
  exists rc z' d', zcall (zoo_delete p) (z, d) = Ok (rc, (z', d')) /\ live z' /\ zle z z' /\
    (rc = ZOK -> znodes (z_lib z') = znodes (z_lib z) ∖ {[p]}) /\
    (rc <> ZOK -> (znodes (z_lib z') = znodes (z_lib z) \/ znodes (z_lib z') = znodes (z_lib z) ∖ {[p]}) /\ less_fail z z').
Proof.
  intros Hlive Hp. unfold zcall. destruct (zh z) eqn:Hz.
  - destruct (zoo_delete p (z_lib z)) as [[rc dr] l] eqn:E.
    destruct (zdelete_law _ _ _ _ _ E Hp) as (Hle & Hok & Hno). destruct (close_law l) as [Hn Hl].
    destruct dr; unfold log_err; mrun; eexists _, _, _; (split; [reflexivity|]); unfold live, zle, less_fail; simpl.
    + split; [by right|]. split; [split; [lia|done]|]. rewrite Hn. split; [done|]. intros Hr.
      destruct (Hno Hr). split; [done|by right].
    + split; [by left|]. split; [by split|]. split; [done|]. intros Hr. destruct (Hno Hr). split; [done|by left].
  - destruct Hlive as [?|Hs]; [congruence|]. eexists _, _, _. split; [reflexivity|].
    split; [by right|]. split; [apply zle_refl|]. split; [done|]. intros _. split; [by left|by right].
Qed.

(** Nodes before and after, and the result so far. *)
Definition removed (p : list Z) (n : gset (list Z)) (r : option Z) (n' : gset (list Z)) : Prop :=
  n' ⊆ n /\ n ⊆ n' ∪ {[p]} /\ (r = Some ZOOKEEPER_UPID_OK -> p ∈ n /\ (p ∉ n')) /\
  (r = None \/ r = Some ZOOKEEPER_UPID_OK \/ r = Some ZOOKEEPER_UPID_ERR).

Lemma removed_after p n n1 r n2 : removed p n None n1 -> removed p n1 r n2 -> removed p n r n2.
Proof. intros (H1 & H2 & _ & _) (H3 & H4 & H5 & H6). split; [set_solver|]. split; [set_solver|]. split; [|done]. set_solver. Qed.

Lemma del_rounds_run fuel upid z d : live z -> (zfail (z_lib z) < fuel)%nat \/ shutdownThisThing z = true ->
  exists r z' d', del_rounds fuel upid (z, d) = Ok (r, (z', d')) /\ live z' /\ zle z z' /\
    removed (upidFullPath upid) (znodes (z_lib z)) r (znodes (z_lib z')).
Proof.
  revert z d. induction fuel as [|fuel IH]; intros z d Hl Hf; cbn [del_rounds]; unfold mget, mbind, M_bind; cbn [fst].
  all: destruct (shutdownThisThing z) eqn:Hs;
    [exists None, z, d; split; [done|]; split; [done|]; split; [apply zle_refl|]; split; [done|]; split; [set_solver|]; split; [done|by left]|].
  all: destruct Hf as [Hf|?]; [|done].
  1: lia.
  destruct (exists_run (upidFullPath upid) z d Hl) as (rc & z1 & d1 & -> & Hl1 & Hle1 & Hn1 & Hok1 & _ & _).
  destruct (Z.eqb_spec rc ZOK) as [->|Hne]; cbn [negb].
  2:{ destruct (close_run z1 d1) as (z2 & -> & Hl2 & Hle2 & Hn2). eexists _, _, _. split; [reflexivity|].
      split; [by rewrite Hl2|]. split; [by eapply zle_trans|]. rewrite Hn2, Hn1.
      split; [done|]. split; [set_solver|]. split; [done|by right; right]. }
  specialize (Hok1 eq_refl).
  destruct (delete_run (upidFullPath upid) z1 d1 Hl1) as (rc & z2 & d2 & -> & Hl2 & Hle2 & Hok2 & Hno2); [by rewrite Hn1|].
  rewrite Hn1 in Hok2, Hno2. destruct (Z.eqb_spec rc ZOK) as [Hr|Hr].
  - destruct (close_run z2 d2) as (z3 & -> & Hl3 & Hle3 & Hn3). eexists _, _, _. split; [reflexivity|].
    split; [by rewrite Hl3|]. split; [eapply zle_trans; [done|by eapply zle_trans]|].
    rewrite Hn3, (Hok2 Hr). split; [set_solver|]. split; [|split; [set_solver|by right; left]].
    intros q Hq. destruct (decide (q = upidFullPath upid)); set_solver.
  - destruct (Hno2 Hr) as [Hn2 Hf2].
    destruct (IH z2 d2 Hl2) as (r & z3 & d3 & -> & Hl3 & Hle3 & Hd3).
    { destruct Hf2 as [?|?]; [left; destruct Hle1; lia|by right]. }
    exists r, z3, d3. split; [done|]. split; [done|]. split; [eapply zle_trans; [done|by eapply zle_trans]|].
    eapply removed_after; [|exact Hd3]. split; [destruct Hn2 as [-> | ->]; set_solver|]. split; [|split; [done|by left]].
    intros q Hq. destruct (decide (q = upidFullPath upid)); destruct Hn2 as [-> | ->]; set_solver.
Qed.

Lemma del_attempts_run n fuel upid z d : (zfail (z_lib z) < fuel)%nat ->
  exists r z' d', del_attempts n fuel upid (z, d) = Ok (r, (z', d')) /\
    removed (upidFullPath upid) (znodes (z_lib z)) (Some r) (znodes (z_lib z')).
Proof.
  revert z d. induction n as [|n IH]; intros z d Hf; cbn [del_attempts]; unfold mbind, M_bind.
  { destruct (close_run z d) as (z2 & -> & _ & _ & Hn2). eexists _, _, _. split; [reflexivity|]. rewrite Hn2.
    split; [done|]. split; [set_solver|]. split; [done|by right; right]. }
  destruct (connect_run z d) as (ok & z1 & -> & Hle1 & Hn1 & Hz1 & _).
  assert (Hf1 : (zfail (z_lib z1) < fuel)%nat) by (destruct Hle1; lia). rewrite <- Hn1. destruct ok.
  - destruct (del_rounds_run fuel upid z1 d) as (r & z2 & d2 & -> & Hl2 & Hle2 & Hd2); [by left|by left|].
    destruct r as [x|].
    + by exists x, z2, d2.
    + destruct (IH z2 d2) as (r & z3 & d3 & -> & Hd3); [destruct Hle2; lia|].
      exists r, z3, d3. split; [done|]. by eapply removed_after.
  - unfold mret, M_ret. destruct (IH z1 d) as (r & z3 & d3 & -> & Hd3); [done|]. by exists r, z3, d3.
Qed.

Lemma del_upid_run fuel upid z d : (zfail (z_lib z) < fuel)%nat ->
  exists r z' d', del_upid fuel upid (z, d) = Ok (r, (z', d')) /\
    removed (upidFullPath upid) (znodes (z_lib z)) (Some r) (znodes (z_lib z')).
Proof. apply (del_attempts_run 10 fuel upid (Zstate (z_lib z) false false) d). Qed.

(** Removing an identifier returns; it never reports a negative number, "ok"
    means that the identifier was taken and is free now, and no other identifier is
    touched. *)
Theorem del_upid_spec fuel upid z d (Hu : is_u64 upid) (Hf : (zfail (z_lib z) < fuel)%nat) :
  exists r z' d', del_upid fuel upid (z, d) = Ok (r, (z', d')) /\ 0 <= r /\
    (r = ZOOKEEPER_UPID_OK -> upidFullPath upid ∈ znodes (z_lib z) /\ (upidFullPath upid ∉ znodes (z_lib z'))) /\
    (forall u, is_u64 u -> u <> upid ->
       upidFullPath u ∈ znodes (z_lib z') <-> upidFullPath u ∈ znodes (z_lib z)).
Proof.
  destruct (del_upid_run fuel upid z d Hf) as (r & z' & d' & E & Hsub & Hsup & Hok & Hr).
  exists r, z', d'. split; [done|]. split; [|split].
  - destruct Hr as [?|[[= ->]|[= ->]]]; done.
  - intros ->. by apply Hok.
  - intros u Hu' Hne. assert (upidFullPath u <> upidFullPath upid) by (intros E'; by apply Hne, upidFullPath_inj).
    set_solver.
Qed.

(** ** Lost sessions *)

(** Once the watcher has been told that the session is lost, the remaining
    attempts of [add_upid] only reconnect: none of them looks at the registry, and
    the call fails, although the service may be back. *)
Theorem lost_session_not_retried n fuel upid z d (Hs : shutdownThisThing z = true) :
  exists z' d', add_attempts n fuel upid (z, d) = Ok (None, (z', d')) /\ znodes (z_lib z') = znodes (z_lib z).
Proof.
  revert z d Hs. induction n as [|n IH]; intros z d Hs; [by exists z, d|].
  simpl. unfold mbind, M_bind. destruct (connect_run z d) as (ok & z1 & -> & _ & Hn1 & _ & Hs1). rewrite Hs in Hs1.
  destruct (IH z1 d Hs1) as (z2 & d2 & E & Hn). exists z2, d2. rewrite Hn1 in Hn.
  destruct ok; [|by unfold mret, M_ret; rewrite E].
  assert (Er : add_rounds fuel upid (z1, d) = Ok (None, (z1, d))).
  { destruct fuel; simpl; unfold mget, mbind, M_bind; simpl; by rewrite Hs1. }
  by rewrite Er, E.
Qed.
End spec.

(** * A concrete service *)

(** The nodes, and how many calls still lose the connection. *)
Definition ZCONNECTIONLOSS : Z := -4.
Definition ZNODEEXISTS : Z := -110.

Definition sim_zcall (f : gset (list Z) -> Z * gset (list Z)) (l : gset (list Z) * nat)
  : (Z * bool) * (gset (list Z) * nat) :=
  match l.2 with
  | S n => ((ZCONNECTIONLOSS, false), (l.1, n))
  | O => let '(rc, nodes) := f l.1 in ((rc, false), (nodes, O))
  end.

#[export] Instance SimZk : ZooKeeper := {
  zk := gset (list Z) * nat;
  zookeeper_init l := (true, l);
  zookeeper_close l := l;
  zoo_exists p := sim_zcall (fun ns => (if decide (p ∈ ns) then ZOK else ZNONODE, ns));
  zoo_create p := sim_zcall (fun ns => if decide (p ∈ ns) then (ZNODEEXISTS, ns) else (ZOK, {[p]} ∪ ns));
  zoo_delete p := sim_zcall (fun ns => if decide (p ∈ ns) then (ZOK, ns ∖ {[p]}) else (ZNONODE, ns))
}.

#[export] Instance sim_zk_laws : ZooLaws SimZk.
Proof.
  refine (Build_ZooLaws SimZk (fun l => l.1) (fun l => l.2) _ _ _ _ _).
  - intros l ok l' [= <- <-]. done.
  - intros l. done.
  - intros p [ns [|n]] rc d l'; simpl; unfold sim_zcall; simpl.
    + intros [= <- <- <-]. simpl. case_decide; done.
    + intros [= <- <- <-]. simpl. split; [done|]. split; [lia|]. split; [done|]. split; [done|lia].
  - intros p [ns [|n]] rc d l'; simpl; unfold sim_zcall; simpl.
    + intros E Hp. rewrite decide_False in E by done. injection E as <- <- <-. done.
    + intros [= <- <- <-] _. simpl. split; [lia|]. split; [done|]. intros _. split; [by left|lia].
  - intros p [ns [|n]] rc d l'; simpl; unfold sim_zcall; simpl.
    + intros E Hp. rewrite decide_True in E by done. injection E as <- <- <-. done.
    + intros [= <- <- <-] _. simpl. split; [lia|]. split; [done|]. intros _. split; [by left|lia].
Defined.

(** Nothing registered, two calls about to fail; and with 77 registered. *)
Definition fresh_zk : zstate := @Zstate SimZk (∅, 2%nat) false false.
Definition used_zk : zstate := @Zstate SimZk ({[upidPath; upidFullPath 77]}, 0%nat) false false.


Lemma del_upid_spec_witness : exists r z' d', del_upid 1 77 (used_zk, Dbg 0 0 0 0) = Ok (r, (z', d')) /\
  r = ZOOKEEPER_UPID_OK /\ (upidFullPath 77 ∉ znodes (z_lib z')).
Proof.
  assert (Hr : match del_upid 1 77 (used_zk, Dbg 0 0 0 0) with Ok (r, _) => r | _ => -1 end = ZOOKEEPER_UPID_OK)
    by (vm_compute; reflexivity).
  destruct (del_upid_spec 1 77 used_zk (Dbg 0 0 0 0)) as (r & z' & d' & E & _ & Hok & _);
    [by_decide|by_decide|]. rewrite E in Hr. exists r, z', d'. split; [exact E|]. clear E. split; [exact Hr|by apply Hok].
Defined.

Lemma lost_session_not_retried_witness : exists z' d',
  add_attempts 9 3 77 (@Zstate SimZk (∅, 0%nat) false true, Dbg 0 0 0 0) = Ok (None, (z', d')) /\
  (upidFullPath 77 ∉ znodes (z_lib z')).
Proof.
  destruct (lost_session_not_retried 9 3 77 (@Zstate SimZk (∅, 0%nat) false true) (Dbg 0 0 0 0) eq_refl)
    as (z' & d' & E & Hn). exists z', d'. split; [exact E|]. clear E. rewrite Hn. by_decide.
Defined.
