(* ===== verification/Processes.v ===== *)
(** Registering and removing processes: [recv_fd], [purgeDeadUpids], [listPids],
    [remove_upid], [removePid] and [getExternRAMUsage] of
    [lib/userfault/userfault.c].

    The arrays these functions grow by one element at a time are lists here;
    [realloc] is taken to succeed. *)
From S2P Require Import Prelude Config MonitorStats Os LruBuffer UtHash ExternRam ThreadedIo Upid.
From S2P Require Import BufferAllocator PageCache World PageCacheRead Userfault Zookeeper.

(** [srand] and [rand] of the C library. *)
Class Rand := {
  rstate : Type;
  srand : Z -> rstate;
  rand : rstate -> Z * rstate
}.

(** A message on the control socket, as [recvmsg] leaves it: its result, whether
    the control data was truncated, the bytes received, and the descriptors of the
    control messages, [None] for one that carries none. *)
Record message := Message {
  recv_res : Z;
  recv_ctrunc : bool;
  message_buffer : list Z;
  control_messages : list (option Z)
}.

Record pworld `{X : ExternRAM, Z0 : ZooKeeper, R : Rand} := Pworld {
  pw : world;
  pz : zstate;
  prand : rstate
}.
Arguments Pworld {_ _ _ _} _ _ _.

Section processes.
Context `{X : ExternRAM, Z0 : ZooKeeper, R : Rand} `{F : BuildFlags, I : StaleIterator, WF : WriteFuel}.

Definition in_w {A} (m : M world A) : M pworld A := zoom pw (fun w p => Pworld w (pz p) (prand p)) m.
Definition in_zk {A} (m : M (zstate * dbg) A) : M pworld A :=
  zoom (fun p => (pz p, w_dbg (pw p)))
    (fun zd p => Pworld (set_sys (Sys (w_os (pw p)) zd.2 (s_stats (w_sys (pw p)))) (pw p)) zd.1 (prand p)) m.
Definition call_srand (t : Z) : M pworld unit := mmod (fun p => Pworld (pw p) (pz p) (srand t)).
Definition call_rand : M pworld Z := fun p =>
  let '(r, s) := rand (prand p) in Ok (r, Pworld (pw p) (pz p) s).

(** * Receiving a descriptor *)

(** The descriptor of the last control message that has one. *)
Definition sent_fd_of (cms : list (option Z)) : Z :=
  foldl (fun fd cm => match cm with Some x => x | None => fd end) (-1) cms.

(** [upid_counter] and [orig_value] for the next try; [None] when all values have
    been tried. *)
Definition next_counter (upid_counter orig_value : Z) : M pworld (option (Z * Z)) :=
  let upid_counter := u16 (upid_counter + 1) in
  if upid_counter =? 1 then
    r ← call_rand;
    let upid_counter := u16 (r mod Z.shiftl 2 16) in
    mret (Some (upid_counter, upid_counter))
  else if upid_counter =? orig_value then mret None
  else if upid_counter =? 0 then mret (Some (u16 (upid_counter + 1), orig_value))
  else mret (Some (upid_counter, orig_value)).

(** The loop over identifiers; [zfuel] bounds the rounds of one [add_upid]. *)
Fixpoint upid_loop (fuel zfuel : nat) (config : string) (sent_fd sent_pid upid_counter orig_value : Z)
  : M pworld Z :=
  match fuel with
  | O => mub OutOfFuel
  | S fuel =>
      node ← in_w (in_sys get_node_id);
      next ← next_counter upid_counter orig_value;
      match next with
      | None => mret (-1)
      | Some (upid_counter, orig_value) =>
          let upid64 := mk_upid node sent_pid upid_counter in
          ret ← in_zk (add_upid zfuel upid64);
          if ret =? ZOOKEEPER_UPID_OK then
            in_w (in_fd (add_upid_in_map sent_fd upid64));;
            in_w (in_fd_ext (register_with_externram config sent_fd));;
            mret sent_fd
          else if ret =? ZOOKEEPER_UPID_ERR then in_w w_log_err;; mret (-1)
          else upid_loop fuel zfuel config sent_fd sent_pid upid_counter orig_value
      end
  end.

Definition recv_fd (fuel zfuel : nat) (config : string) (now : Z) (msg : message) : M pworld Z :=
  if recv_res msg <=? 0 then mret (recv_res msg)
  else if recv_ctrunc msg then mret (-1)
  else if (length (message_buffer msg) <? 4)%nat then mub Uninitialised
  else
    let sent_pid := s32 (le_value (take 4 (message_buffer msg))) in
    call_srand now;;
    upid_loop fuel zfuel config (sent_fd_of (control_messages msg)) sent_pid 0 0.

(** * Removing processes *)

(** [remove_upid]. *)
Definition remove_upid (zfuel : nat) (upid : Z) : M pworld Z :=
  r ← in_zk (del_upid zfuel upid);
  mret (if r <? 0 then -1 else 0).

(** [el->hh.next] of an element in use. *)
Definition hh_next (p : ptr) (h : uthash map_struct) : outcome (option ptr) :=
  match elts h !! p with
  | None => UB UseAfterFree
  | Some _ => Ok (list_find (fun q => q = p) (HASH_ITER h) ≫= fun iq => HASH_ITER h !! S iq.1)
  end.
Definition next_of (el : option ptr) : M pworld (option ptr) :=
  h ← in_w (in_fd get_map);
  match el with None => mret None | Some p => mlift (hh_next p h) end.
Definition deref_map (p : ptr) : M pworld map_struct :=
  h ← in_w (in_fd get_map);
  match elts h !! p with None => mub UseAfterFree | Some e => mret (payload e) end.
Definition map_head : M pworld (option ptr) :=
  h ← in_w (in_fd get_map); mret (head (HASH_ITER h)).

(** The part of the two loops that drops a process: out of the map, its pages and
    its identifier; the lock is released after the first step.  The identifier
    passed on is [*upid], the first byte of the array. *)
Definition drop_process (zfuel : nat) (s : map_struct) : M pworld Z :=
  r1 ← in_w (in_fd (del_fd_from_map (m_fd s)));
  in_w (in_fd unlock_fdmap);;
  r2 ← (if decide (m_client s = NULL) then mret (-1) else in_w (flush_ufd (m_fd s) (m_client s)));
  r3 ← remove_upid zfuel (upid_first_byte (m_upid s));
  mret (if (r1 <? 0) || (r2 <? 0) || (r3 <? 0) then -1 else 0)%bool.

Fixpoint purge_loop (fuel zfuel : nat) (node : Z) (current temp : option ptr) : M pworld (list Z) :=
  match current with
  | None => mret []
  | Some p =>
      s ← deref_map p;
      dead ← (if upid_node (m_upid s) =? node then
                in_w (mgets (fun w => getpgid (s32 (upid_pid (m_upid s))) (w_os w) <? 0))
              else mret false);
      (if dead : bool then drop_process zfuel s;; in_w (in_fd lock_fdmap) else mret tt);;
      let current := temp in
      temp ← next_of temp;
      match fuel with
      | O => mub OutOfFuel
      | S fuel =>
          rest ← purge_loop fuel zfuel node current temp;
          mret (if dead : bool then m_fd s :: rest else rest)
      end
  end.

(** The descriptors to stop polling. *)
Definition purgeDeadUpids (zfuel : nat) : M pworld (list Z) :=
  node ← in_w (in_sys get_node_id);
  in_w flush_write_list;;
  in_w (in_fd lock_fdmap);;
  h ← in_w (in_fd get_map);
  current ← map_head;
  temp ← next_of current;
  ufd_list ← purge_loop (length (HASH_ITER h)) zfuel node current temp;
  in_w (in_fd unlock_fdmap);;
  mret ufd_list.

Definition listPids : M pworld (list Z) :=
  node ← in_w (in_sys get_node_id);
  in_w (in_fd lock_fdmap);;
  h ← in_w (in_fd get_map);
  in_w (in_fd unlock_fdmap);;
  mret (upid_pid ∘ m_upid <$> filter (fun s => upid_node (m_upid s) = node) (entries h)).

(** [removePid]: the loop leaves the lock released when it finds the process. *)
Fixpoint remove_pid_loop (fuel zfuel : nat) (node pidToRemove temp_fd : Z) (current temp : option ptr)
  : M pworld (Z * Z) :=
  match current with
  | None => mret (0, temp_fd)
  | Some p =>
      s ← deref_map p;
      if ((upid_node (m_upid s) =? node) && (upid_pid (m_upid s) =? pidToRemove))%bool then
        rc ← drop_process zfuel s; mret (rc, m_fd s)
      else
        let current := temp in
        temp ← next_of temp;
        match fuel with
        | O => mub OutOfFuel
        | S fuel => remove_pid_loop fuel zfuel node pidToRemove (m_fd s) current temp
        end
  end.

Definition removePid (zfuel : nat) (pidToRemove : Z) : M pworld Z :=
  node ← in_w (in_sys get_node_id);
  in_w (in_fd lock_fdmap);;
  h ← in_w (in_fd get_map);
  current ← map_head;
  temp ← next_of current;
  '(rc, temp_fd) ← remove_pid_loop (length (HASH_ITER h)) zfuel node pidToRemove 0 current temp;
  in_w (in_fd unlock_fdmap);;
  mret (if temp_fd =? 0 then -1 else rc).

(** The servers' usage as seen by the first process of this node. *)
Definition getExternRAMUsage : M pworld (list ServerUsage) :=
  node ← in_w (in_sys get_node_id);
  in_w (in_fd lock_fdmap);;
  h ← in_w (in_fd get_map);
  let fd := match filter (fun s => upid_node (m_upid s) = node) (entries h) with
            | s :: _ => m_fd s | [] => -1
            end in
  in_w (in_fd unlock_fdmap);;
  if 0 <? fd then
    client ← in_w (in_fd (get_client_by_fd fd));
    if decide (client = NULL) then mret [] else in_w (in_ext (getUsage client))
  else mret [].
End processes.

(** * The identifiers that are tried *)

Section counters.
Context `{X : ExternRAM, Z0 : ZooKeeper, R : Rand}.

(** The counters that the loop goes through while every identifier is taken. *)
Fixpoint counters (n : nat) (c orig : Z) (p : pworld) : list Z :=
  match n with
  | O => []
  | S n => match next_counter c orig p with
           | Ok (Some (c, orig), p) => c :: counters n c orig p
           | _ => []
           end
  end.

Lemma next_counter_up c orig p : 1 <= c < 65535 -> c + 1 <> orig ->
  next_counter c orig p = Ok (Some (c + 1, orig), p).
Proof.
  intros Hc Ho. unfold next_counter. assert (E : u16 (c + 1) = c + 1) by (unfold u16; apply Z.mod_small; lia). rewrite E.
  destruct (Z.eqb_spec (c + 1) 1); [lia|]. destruct (Z.eqb_spec (c + 1) orig); [lia|].
  destruct (Z.eqb_spec (c + 1) 0); [lia|]. done.
Qed.

Lemma next_counter_wrap orig p : orig <> 0 -> next_counter 65535 orig p = Ok (Some (1, orig), p).
Proof.
  intros Ho. unfold next_counter. change (u16 (65535 + 1)) with 0.
  change (0 =? 1) with false. change (0 =? 0) with true. change (u16 (0 + 1)) with 1.
  destruct (Z.eqb_spec 0 orig); [lia|]. done.
Qed.

Lemma next_counter_stop c orig p : 1 <= c < 65535 -> c + 1 = orig -> next_counter c orig p = Ok (None, p).
Proof.
  intros Hc Ho. unfold next_counter. assert (E : u16 (c + 1) = c + 1) by (unfold u16; apply Z.mod_small; lia). rewrite E.
  destruct (Z.eqb_spec (c + 1) 1); [lia|]. by rewrite Ho, Z.eqb_refl.
Qed.

Lemma counters_up k n c orig p : 1 <= c -> c + Z.of_nat k <= 65535 ->
  (forall i, c < i <= c + Z.of_nat k -> i <> orig) ->
  counters (k + n) c orig p = seqZ (c + 1) (Z.of_nat k) ++ counters n (c + Z.of_nat k) orig p.
Proof.
  revert c. induction k as [|k IH]; intros c Hc Hk Hne.
  - by rewrite Z.add_0_r.
  - simpl. rewrite next_counter_up by (try apply Hne; lia). rewrite IH by (try (intros; apply Hne); lia).
    rewrite (seqZ_cons (c + 1)) by lia. simpl. f_equal. f_equal; [f_equal; lia|f_equal; lia].
Qed.

(** Starting from a random value other than 0 and 1, the loop of [recv_fd] tries
    every other non-zero 16-bit counter exactly once, in cyclic order, before it
    gives up. *)
Theorem counters_cover orig n p (Ho : 2 <= orig < 65536) (Hn : 65535 <= Z.of_nat n) :
  counters n orig orig p = seqZ (orig + 1) (65535 - orig) ++ seqZ 1 (orig - 1).
Proof.
  replace n with (Z.to_nat (65535 - orig) + S (Z.to_nat (orig - 2) + S (Z.to_nat (Z.of_nat n - 65535))))%nat by lia.
  rewrite counters_up by lia. replace (orig + Z.of_nat (Z.to_nat (65535 - orig))) with 65535 by lia.
  rewrite Z2Nat.id by lia. f_equal. cbn [counters]. rewrite next_counter_wrap by lia.
  rewrite (seqZ_cons 1) by lia. f_equal.
  rewrite counters_up by lia. rewrite Z2Nat.id by lia.
  cbn [counters]. rewrite next_counter_stop by lia. rewrite app_nil_r. f_equal. lia.
Qed.

Lemma counters_one n c p : 1 <= c <= 65535 -> length (counters n c 1 p) = n.
Proof.
  revert c. induction n as [|n IH]; intros c Hc; [done|]. simpl.
  destruct (decide (c = 65535)) as [->|Hne].
  - rewrite next_counter_wrap by lia. simpl. by rewrite IH by lia.
  - rewrite next_counter_up by lia. simpl. by rewrite IH by lia.
Qed.

(** If the random value is 1 the loop never gives up: the test against the first
    value is skipped when the counter wraps around. *)
Theorem counters_never_stop n p : length (counters n 1 1 p) = n.
Proof. by apply counters_one. Qed.
End counters.

(** * Dead identifiers *)

Section removal.
Context `{X : ExternRAM, Z0 : ZooKeeper, R : Rand} {ZL : ZooLaws Z0}.
Context `{F : BuildFlags, I : StaleIterator, WF : WriteFuel}.

Lemma upid_first_byte_range upid : 0 <= upid_first_byte upid < 256.
Proof.
  apply (le_value_range (take 1 (le_bytes 8 upid))). apply Forall_take, le_bytes_byte.
Qed.

(** [purgeDeadUpids] and [removePid] ask the registry to remove the first byte
    of the identifier instead of the identifier: the call reports success, and the
    identifier of the dead process stays taken. *)
Theorem dead_identifier_stays zfuel upid p (Hu : is_u64 upid) (Hbig : 256 <= upid)
    (Hin : upidFullPath upid ∈ znodes (z_lib (pz p))) (Hf : (zfail (z_lib (pz p)) < zfuel)%nat) :
  exists p', remove_upid zfuel (upid_first_byte upid) p = Ok (0, p') /\
    upidFullPath upid ∈ znodes (z_lib (pz p')).
Proof.
  pose proof (upid_first_byte_range upid) as Hb.
  destruct (del_upid_run zfuel (upid_first_byte upid) (pz p) (w_dbg (pw p)) Hf) as (r & z' & d' & E & Hsub & Hsup & _ & Hr).
  eexists. split.
  - unfold remove_upid, mbind, M_bind, in_zk, zoom. rewrite E. cbn beta iota.
    assert (Hr0 : (r <? 0) = false) by (destruct Hr as [?|[[= ->]|[= ->]]]; done). by rewrite Hr0.
  - simpl. apply Hsup in Hin. apply elem_of_union in Hin as [?|Hin]; [done|]. apply elem_of_singleton in Hin.
    apply upidFullPath_inj in Hin; [lia|done|unfold is_u64; lia].
Qed.

(** ** The lock *)

(** Operations that leave the descriptor map alone. *)
Definition keeps_fd {A} (m : M world A) : Prop := forall w x w', m w = Ok (x, w') -> w_fd w' = w_fd w.

Lemma keeps_ret {A} (x : A) : keeps_fd (mret x).
Proof. intros w y w' [= _ <-]. done. Qed.
Lemma keeps_bind {A B} (m : M world A) (k : A -> M world B) :
  keeps_fd m -> (forall x, keeps_fd (k x)) -> keeps_fd (x ← m; k x).
Proof.
  intros Hm Hk w y w' E. unfold mbind, M_bind in E. destruct (m w) as [[x w1]| |] eqn:Em; try done.
  rewrite (Hk x w1 y w' E). by apply (Hm w x).
Qed.
Lemma keeps_lru {A} (m : M LRUBuffer A) : keeps_fd (in_lru m).
Proof. intros w x w' E. unfold in_lru, zoom in E. split_in E; by simplify_eq. Qed.
Lemma keeps_ext {A} (m : M (ext * sys) A) : keeps_fd (in_ext m).
Proof. intros w x w' E. unfold in_ext, zoom in E. split_in E; by simplify_eq. Qed.
Lemma keeps_pc {A} (m : M (page_cache * sys) A) : keeps_fd (in_pc m).
Proof. intros w x w' E. unfold in_pc, zoom in E. split_in E; by simplify_eq. Qed.
Lemma keeps_sys {A} (m : M sys A) : keeps_fd (in_sys m).
Proof. intros w x w' E. unfold in_sys, zoom in E. split_in E; by simplify_eq. Qed.

Lemma delete_pages_keeps client l : keeps_fd (delete_pages client l).
Proof.
  induction l as [|a l IH]; simpl; [apply keeps_ret|]. apply keeps_bind.
  - unfold delete_from_externram.
    case_decide; (apply keeps_bind; [(apply keeps_ext || apply keeps_sys)|intros; apply keeps_ret]).
  - intros r. destruct (r =? 0); [done|]. destruct (r =? -1); [apply keeps_ret|].
    apply keeps_bind; [apply keeps_sys|done].
Qed.

Lemma flush_ufd_keeps ufd client : keeps_fd (flush_ufd ufd client).
Proof.
  unfold flush_ufd. case_decide; [apply keeps_ret|]. apply keeps_bind; [|intros; apply keeps_ret].
  unfold flush_buffers. apply keeps_bind; [apply keeps_lru|]. intros l.
  apply keeps_bind; [rewrite decide_False by done; apply keeps_ret|]. intros _.
  destruct PAGECACHE; [|apply keeps_ret].
  apply keeps_bind; [apply keeps_pc|]. intros _. apply keeps_bind; [apply keeps_pc|]. intros l'.
  apply keeps_bind; [rewrite decide_True by done; apply delete_pages_keeps|]. intros _. apply keeps_ret.
Qed.

Lemma hh_next_at h i q : fm_ok h -> HASH_ITER h !! i = Some q -> hh_next q h = Ok (HASH_ITER h !! S i).
Proof.
  intros Hok Hq. assert (Hin : q ∈ HASH_ITER h) by by eapply list_elem_of_lookup_2.
  destruct (iter_elt h q) as [e He]; [apply Hok|done|]. unfold hh_next. rewrite He.
  assert (Hf : list_find (fun x => x = q) (HASH_ITER h) = Some (i, q)).
  { apply list_find_Some. split; [done|]. split; [done|]. intros j y Hj Hlt ->.
    pose proof (NoDup_lookup _ _ _ _ (iter_NoDup h (proj1 (kd_wf _ _ (fm_keyed _ Hok)))) Hj Hq). lia. }
  by rewrite Hf.
Qed.

(** The element at a position of the iteration belongs to the process. *)
Definition is_process (h : uthash map_struct) (node pid : Z) (q : ptr) : Prop :=
  exists e, elts h !! q = Some e /\ upid_node (m_upid (payload e)) = node /\ upid_pid (m_upid (payload e)) = pid.

Definition p_fd (p : pworld) : fdmap := w_fd (pw p).

Lemma drop_process_unlocked zfuel s p r p' : drop_process zfuel s p = Ok (r, p') -> fdUpidMap_lock (p_fd p') = false.
Proof.
  unfold drop_process, mbind, M_bind. intros E.
  destruct (in_w (in_fd (del_fd_from_map (m_fd s))) p) as [[r1 p1]| |]; try done.
  unfold in_w at 1, in_fd at 1, zoom, unlock_fdmap in E.
  destruct (fdUpidMap_lock (w_fd (pw p1))); try done. cbn beta iota in E.
  set (p2 := Pworld _ _ _) in E.
  assert (H2 : fdUpidMap_lock (p_fd p2) = false) by done. clearbody p2.
  assert (H3 : forall x p3, (if decide (m_client s = NULL) then mret (-1)
      else in_w (flush_ufd (m_fd s) (m_client s))) p2 = Ok (x, p3) -> fdUpidMap_lock (p_fd p3) = false).
  { intros x p3. case_decide; [by intros [= _ <-]|]. unfold in_w, zoom.
    destruct (flush_ufd (m_fd s) (m_client s) (pw p2)) as [[y w3]| |] eqn:Ef; try done. intros [= _ <-].
    unfold p_fd. simpl. by rewrite (flush_ufd_keeps _ _ _ _ _ Ef). }
  destruct ((if decide (m_client s = NULL) then mret (-1) else in_w (flush_ufd (m_fd s) (m_client s))) p2)
    as [[x p3]| |]; try done. specialize (H3 x p3 eq_refl).
  unfold remove_upid, mbind, M_bind, in_zk, zoom in E.
  destruct (del_upid _ _ (pz p3, w_dbg (pw p3))) as [[rz zd]| |]; try done. injection E as _ <-. exact H3.
Qed.

Lemma next_of_run el p h : p_fd p = h -> next_of el p =
  match el with None => Ok (None, p) | Some q => match hh_next q (fdUpidMap h) with
                                                 | Ok x => Ok (x, p) | UB f => UB f | Blocked => Blocked end end.
Proof.
  intros <-. unfold next_of, in_w, in_fd, get_map. mrun. destruct p as [[] ? ?]. unfold p_fd. simpl. by destruct el.
Qed.

Lemma deref_map_run q p e : elts (fdUpidMap (p_fd p)) !! q = Some e -> deref_map q p = Ok (payload e, p).
Proof.
  intros E. unfold deref_map, in_w, in_fd, get_map. mrun. unfold p_fd in E. rewrite E. by destruct p as [[] ? ?].
Qed.

(** The loop comes back with the lock held only if no element from here on belongs
    to the process. *)
Lemma remove_pid_loop_lock fuel zfuel node pid fd i p rc fd' p' : fm_ok (fdUpidMap (p_fd p)) ->
  remove_pid_loop fuel zfuel node pid fd (HASH_ITER (fdUpidMap (p_fd p)) !! i)
    (HASH_ITER (fdUpidMap (p_fd p)) !! S i) p = Ok ((rc, fd'), p') ->
  fdUpidMap_lock (p_fd p') = true ->
  forall j q, (i <= j)%nat -> HASH_ITER (fdUpidMap (p_fd p)) !! j = Some q ->
    ~ is_process (fdUpidMap (p_fd p)) node pid q.
Proof.
  intros Hok. set (h := fdUpidMap (p_fd p)) in *. revert i fd.
  induction fuel as [|fuel IH]; intros i fd E Hlock j q Hj Hq.
  all: assert (Hi : exists x, HASH_ITER h !! i = Some x)
      by (apply lookup_lt_is_Some_2; apply lookup_lt_Some in Hq; lia).
  all: destruct Hi as [x Hx]; rewrite Hx in E.
  all: assert (Hin : x ∈ HASH_ITER h) by by eapply list_elem_of_lookup_2.
  all: destruct (iter_elt h x) as [e He]; [apply Hok|done|].
  all: cbn [remove_pid_loop] in E; unfold mbind at 1, M_bind at 1 in E; rewrite (deref_map_run _ _ _ He) in E.
  all: destruct ((upid_node (m_upid (payload e)) =? node) && (upid_pid (m_upid (payload e)) =? pid))%bool eqn:Hm.
  1, 3: unfold mbind, M_bind in E; destruct (drop_process zfuel (payload e) p) as [[r p1]| |] eqn:Ed; try done;
    injection E as _ _ <-; rewrite (drop_process_unlocked _ _ _ _ _ Ed) in Hlock; done.
  all: unfold mbind at 1, M_bind at 1 in E; rewrite (next_of_run _ _ _ eq_refl) in E; fold h in E.
  all: assert (Hnx : match HASH_ITER h !! S i with None => Ok (None, p) | Some q0 => match hh_next q0 h with
           | Ok x => Ok (x, p) | UB f => UB f | Blocked => Blocked end end = Ok (HASH_ITER h !! S (S i), p)).
  1, 3: destruct (HASH_ITER h !! S i) as [y|] eqn:Hy; [by rewrite (hh_next_at h (S i) y)|];
    apply lookup_ge_None in Hy; by rewrite (lookup_ge_None_2 _ (S (S i))) by lia.
  all: rewrite Hnx in E.
  1: done.
  destruct (decide (j = i)) as [->|Hne]; [|exact (IH (S i) _ E Hlock j q ltac:(lia) Hq)].
  assert (q = x) as -> by congruence. intros (e' & He' & Hn & Hp). assert (e' = e) as -> by congruence.
  rewrite Hn, Hp, !Z.eqb_refl in Hm. done.
Qed.

(** [removePid] has no defined outcome for a process it finds: having released the map's
    mutex to flush the pages, it leaves the loop and releases it again. *)
Theorem removePid_double_unlock zfuel pid p node q (Hok : fm_ok (fdUpidMap (p_fd p)))
    (Hnode : get_node_id (w_sys (pw p)) = Ok (node, w_sys (pw p)))
    (Hq : q ∈ HASH_ITER (fdUpidMap (p_fd p))) (Hpid : is_process (fdUpidMap (p_fd p)) node pid q) :
  forall r p', removePid zfuel pid p <> Ok (r, p').
Proof.
  intros r p' E. unfold removePid, mbind, M_bind in E.
  assert (E1 : in_w (in_sys get_node_id) p = Ok (node, p)).
  { unfold in_w, in_sys, zoom. rewrite Hnode. by destruct p as [[] ? ?]. }
  rewrite E1 in E. unfold in_w at 1, in_fd at 1, zoom, lock_fdmap in E.
  destruct (fdUpidMap_lock (w_fd (pw p))); try done. cbn beta iota in E.
  set (p1 := Pworld _ _ _) in E. assert (Hmap : fdUpidMap (p_fd p1) = fdUpidMap (p_fd p)) by done. clearbody p1.
  assert (Eg : in_w (in_fd get_map) p1 = Ok (fdUpidMap (p_fd p1), p1)) by by destruct p1 as [[] ? ?].
  rewrite Eg in E. unfold map_head, mbind, M_bind in E. rewrite Eg in E. unfold mret, M_ret in E.
  rewrite (next_of_run _ _ _ eq_refl) in E. rewrite head_lookup in E.
  apply list_elem_of_lookup in Hq as [j Hq]. rewrite <- Hmap in Hok, Hq, Hpid.
  destruct (HASH_ITER (fdUpidMap (p_fd p1)) !! 0%nat) as [x|] eqn:Hx.
  2:{ apply lookup_ge_None in Hx. apply lookup_lt_Some in Hq. lia. }
  rewrite (hh_next_at _ 0 x) in E by done. rewrite <- Hx in E.
  destruct (remove_pid_loop _ _ _ _ _ _ _ p1) as [[[rc fd'] p2]| |] eqn:El; try done.
  apply (remove_pid_loop_lock _ _ _ _ _ 0 _ _ _ _ Hok El) with (j := j) (q := q); [|lia|done|done].
  unfold in_w, in_fd, zoom, unlock_fdmap in E. unfold p_fd. by destruct (fdUpidMap_lock (w_fd (pw p2))).
Qed.
End removal.
