(* ===== verification/UfdClient.v ===== *)
(** The client library, [lib/userfault/userfault-client.c]: how an application allocates a region
    whose faults the monitor serves, and how the descriptor gets to the monitor.

    What the kernel answers to each call is an argument ([kernel]); what the calls do to the
    descriptors, the memory and the registrations of the process is the state ([client]).  The constants are those
    of [patches/kernel]. *)
From S2P Require Import Prelude Config MonitorStats Os LruBuffer UtHash ExternRam ThreadedIo Upid.
From S2P Require Import BufferAllocator PageCache World PageCacheRead Userfault Zookeeper Processes.

Definition UFFD_API : Z := 0xAA.
Definition _UFFDIO_REGISTER : Z := 0x00.
Definition _UFFDIO_UNREGISTER : Z := 0x01.
Definition _UFFDIO_WAKE : Z := 0x02.
Definition _UFFDIO_COPY : Z := 0x03.
Definition _UFFDIO_ZEROPAGE : Z := 0x04.
Definition _UFFDIO_REMAP : Z := 0x05.
Definition bit (n : Z) : Z := Z.shiftl 1 n.
Definition UNIX_PATH_MAX : nat := 108.

Inductive advice : Set := MADV_DONTFORK | MADV_DONTNEED | MADV_NOHUGEPAGE.

(** What the kernel answers. *)
Record kernel := Kernel {
  k_getpid : Z;
  k_memalign : option ptr;        (** the memory, or an error *)
  k_madvise : advice -> Z;
  k_userfaultfd : Z;
  k_api : Z * Z * Z;              (** result, [api], [ioctls] *)
  k_register : Z * Z;             (** result, [ioctls] *)
  k_unregister : Z;
  k_socket : Z;
  k_connect : Z;
  k_sendmsg : Z
}.

(** A message as sent: the socket, the bytes and the descriptor. *)
Record packet := Packet { p_socket : Z; p_bytes : list Z; p_fd : Z }.

Record client := Client {
  c_ufd : option Z;               (** the caller's variable; [None] when it has no value yet *)
  c_open : gset Z;
  c_memory : list (ptr * Z);      (** what [posix_memalign] has given *)
  c_unmapped : list (ptr * Z);
  c_ranges : list (Z * ptr * Z);  (** registered: descriptor, start, length *)
  c_peers : list (Z * string);
  c_sent : list packet;
  c_errors : nat
}.

Section client.
Context (K : kernel).

(** ** The calls of the kernel *)

Definition set_ufd (u : Z) : M client unit :=
  mmod (fun c => Client (Some u) (c_open c) (c_memory c) (c_unmapped c) (c_ranges c) (c_peers c) (c_sent c) (c_errors c)).
Definition set_open (f : gset Z -> gset Z) : M client unit :=
  mmod (fun c => Client (c_ufd c) (f (c_open c)) (c_memory c) (c_unmapped c) (c_ranges c) (c_peers c) (c_sent c) (c_errors c)).
Definition set_ranges (f : list (Z * ptr * Z) -> list (Z * ptr * Z)) : M client unit :=
  mmod (fun c => Client (c_ufd c) (c_open c) (c_memory c) (c_unmapped c) (f (c_ranges c)) (c_peers c) (c_sent c) (c_errors c)).
Definition client_err : M client unit :=
  mmod (fun c => Client (c_ufd c) (c_open c) (c_memory c) (c_unmapped c) (c_ranges c) (c_peers c) (c_sent c) (S (c_errors c))).
Definition call_close (fd : Z) : M client unit := set_open (fun o => o ∖ {[fd]}).
Definition call_munmap (area : ptr) (size : Z) : M client unit :=
  mmod (fun c => Client (c_ufd c) (c_open c) (c_memory c) (c_unmapped c ++ [(area, size)]) (c_ranges c) (c_peers c) (c_sent c) (c_errors c)).
Definition call_socket : M client Z :=
  mwhen (0 <=? k_socket K) (set_open (fun o => {[k_socket K]} ∪ o));; mret (k_socket K).
Definition call_userfaultfd : M client Z :=
  mwhen (0 <=? k_userfaultfd K) (set_open (fun o => {[k_userfaultfd K]} ∪ o));; mret (k_userfaultfd K).
Definition call_connect (fd : Z) (path : string) : M client Z :=
  mwhen (k_connect K =? 0)
    (mmod (fun c => Client (c_ufd c) (c_open c) (c_memory c) (c_unmapped c) (c_ranges c) (c_peers c ++ [(fd, path)]) (c_sent c) (c_errors c)));;
  mret (k_connect K).
Definition call_sendmsg (p : packet) : M client Z :=
  mwhen (0 <=? k_sendmsg K)
    (mmod (fun c => Client (c_ufd c) (c_open c) (c_memory c) (c_unmapped c) (c_ranges c) (c_peers c)
       (c_sent c ++ [Packet (p_socket p) (take (Z.to_nat (k_sendmsg K)) (p_bytes p)) (p_fd p)]) (c_errors c)));;
  mret (k_sendmsg K).
Definition call_memalign (size : Z) : M client (option ptr) :=
  match k_memalign K with
  | None => mret None
  | Some a =>
      mmod (fun c => Client (c_ufd c) (c_open c) (c_memory c ++ [(a, size)]) (c_unmapped c) (c_ranges c) (c_peers c) (c_sent c) (c_errors c));;
      mret (Some a)
  end.

(** ** The library *)

Definition send_fd (socket fd_to_send : Z) : M client Z :=
  call_sendmsg (Packet socket (le_bytes 4 (k_getpid K)) fd_to_send).

Definition connect_monitor (socket_path : string) : M client Z :=
  socket_fd ← call_socket;
  if socket_fd <? 0 then mret (-1)
  else
    r ← call_connect socket_fd (String.substring 0 (UNIX_PATH_MAX - 1) socket_path);
    if negb (r =? 0) then client_err;; mret (-1)
    else mret socket_fd.

Definition ufd_version_check (ufd : Z) : M client bool :=
  let '(r, api, ioctls) := k_api K in
  if negb (r =? 0) then client_err;; mret false
  else if negb (api =? UFFD_API) then client_err;; mret false
  else
    let ioctl_mask := Z.lor (bit _UFFDIO_REGISTER) (bit _UFFDIO_UNREGISTER) in
    if negb (Z.land ioctls ioctl_mask =? ioctl_mask) then client_err;; mret false
    else mret true.

Definition disable_ufd_area (ufd : Z) (area : ptr) (size : Z) : M client Z :=
  if negb (k_unregister K =? 0) then client_err;; mret (-1)
  else set_ranges (filter (fun r => r <> (ufd, area, size)));; mret 0.

Definition ufd_syscall : M client Z :=
  ufd ← call_userfaultfd;
  if ufd =? -1 then client_err;; mret (-1)
  else
    ok ← ufd_version_check ufd;
    if negb ok then mret (-1) else mret ufd.

(** One of the three [madvise] of [enable_ufd_area]; what follows when it fails. *)
Definition advise (a : advice) (area : ptr) (size : Z) (k : M client Z) : M client Z :=
  if negb (k_madvise K a =? 0) then call_munmap area size;; client_err;; mret (-1) else k.

Definition enable_ufd_area (area : ptr) (size : Z) : M client Z :=
  advise MADV_DONTFORK area size (
  advise MADV_DONTNEED area size (
  advise MADV_NOHUGEPAGE area size (
    ufd ← ufd_syscall;
    set_ufd ufd;;
    if ufd =? -1 then client_err;; call_close ufd;; mret (-1)
    else
      let '(r, ioctls) := k_register K in
      if negb (r =? 0) then client_err;; mret (-1)
      else
        set_ranges (fun rs => rs ++ [(ufd, area, size)]);;
        let feature_mask := Z.lor (Z.lor (Z.lor (bit _UFFDIO_WAKE) (bit _UFFDIO_COPY)) (bit _UFFDIO_REMAP)) (bit _UFFDIO_ZEROPAGE) in
        if negb (Z.land ioctls feature_mask =? feature_mask) then client_err;; mret (-1)
        else mret 0))).

(** [*ufd], when it has a value. *)
Definition get_ufd : M client Z := fun c =>
  match c_ufd c with None => UB Uninitialised | Some u => Ok (u, c) end.

(** The label [error], with the local variables [ret] and [socket_fd]. *)
Definition allocate_error (ret : ptr) (socket_fd : option Z) (size : Z) : M client ptr :=
  mwhen (negb (ret =? NULL)) (u ← get_ufd; disable_ufd_area u ret size;; mret tt);;
  u ← get_ufd;
  mwhen (negb (u =? 0)) (call_close u);;
  match socket_fd with
  | None => mub Uninitialised
  | Some s => mwhen (negb (s =? 0)) (call_close s);; mret NULL
  end.

Definition socket_path : string := "/var/run/fluidmem/monitor.socket".

Definition allocate_userfault (size : Z) : M client ptr :=
  if negb (size mod PAGE_SIZE =? 0) then client_err;; allocate_error NULL None size
  else
    m ← call_memalign size;
    match m with
    | None => client_err;; allocate_error NULL None size
    | Some ret =>
        rc ← enable_ufd_area ret size;
        if negb ((rc =? 0) && negb (ret =? NULL)) then client_err;; allocate_error ret None size
        else
          socket_fd ← connect_monitor socket_path;
          if negb (0 <? socket_fd) then client_err;; allocate_error ret (Some socket_fd) size
          else
            u ← get_ufd;
            rc ← send_fd socket_fd u;
            if negb (0 <=? rc) then client_err;; allocate_error ret (Some socket_fd) size
            else call_close socket_fd;; mret ret
    end.
End client.

(** What the monitor gets of a packet, with the number its own table has for the descriptor. *)
Definition deliver (p : packet) (fd : Z) : message := Message (Z.of_nat (length (p_bytes p))) false (p_bytes p) [Some fd].

(** * What the library does *)

Section properties.
Context (K : kernel).
Implicit Types (c : client).

(** New descriptors are new, and memory is not at address zero. *)
Record kernel_ok c : Prop := {
  ko_ufd : k_userfaultfd K = -1 \/ (0 <= k_userfaultfd K /\ k_userfaultfd K ∉ c_open c);
  ko_socket : k_socket K = -1 \/ (0 <= k_socket K /\ k_socket K ∉ c_open c /\ k_socket K <> k_userfaultfd K);
  ko_memory : k_memalign K <> Some NULL;
  ko_open : forall d, d ∈ c_open c -> 0 <= d;
  ko_ranges : forall a n, (k_userfaultfd K, a, n) ∉ c_ranges c
}.

(** The kernel can do all that [enable_ufd_area] asks for, and the monitor takes the message. *)
Definition has_bits (x mask : Z) : bool := Z.land x mask =? mask.
Definition api_ok : bool := let '(r, api, ioctls) := k_api K in ((r =? 0) && (api =? UFFD_API) && has_bits ioctls 0x3)%bool.
Definition enable_ok : bool :=
  (forallb (fun a => k_madvise K a =? 0) [MADV_DONTFORK; MADV_DONTNEED; MADV_NOHUGEPAGE] &&
   negb (k_userfaultfd K =? -1) && api_ok && (let '(r, ioctls) := k_register K in (r =? 0) && has_bits ioctls 0x3c))%bool.
Definition armed (size : Z) : bool := ((size mod PAGE_SIZE =? 0) && bool_decide (is_Some (k_memalign K)) && enable_ok)%bool.
Definition reached : bool := ((0 <? k_socket K) && (k_connect K =? 0) && (0 <=? k_sendmsg K))%bool.

Lemma version_check_run u c : exists c', ufd_version_check K u c = Ok (api_ok, c') /\ (api_ok = true -> c' = c).
Proof.
  unfold ufd_version_check, api_ok, has_bits. destruct (k_api K) as [[r api] ioctls].
  change (Z.lor (bit _UFFDIO_REGISTER) (bit _UFFDIO_UNREGISTER)) with 0x3.
  destruct (r =? 0), (api =? UFFD_API), (Z.land ioctls 0x3 =? 0x3); eexists; cbn; (split; [reflexivity|done]).
Qed.

Lemma syscall_run c (Hk : kernel_ok c) :
  if (negb (k_userfaultfd K =? -1) && api_ok)%bool
  then ufd_syscall K c = Ok (k_userfaultfd K,
         Client (c_ufd c) ({[k_userfaultfd K]} ∪ c_open c) (c_memory c) (c_unmapped c) (c_ranges c) (c_peers c) (c_sent c) (c_errors c))
  else exists c', ufd_syscall K c = Ok (-1, c').
Proof.
  unfold ufd_syscall, call_userfaultfd. destruct (ko_ufd _ Hk) as [E|[E _]].
  { rewrite E. cbn. eexists. reflexivity. }
  replace (0 <=? k_userfaultfd K) with true by lia. replace (k_userfaultfd K =? -1) with false by lia. cbn [negb andb].
  set (c1 := Client _ _ _ _ _ _ _ _). destruct (version_check_run (k_userfaultfd K) c1) as (c2 & E2 & H2).
  destruct api_ok eqn:Ea.
  - rewrite (H2 eq_refl) in E2. unfold mbind, M_bind, mwhen, set_open, mmod. fold c1. cbn -[c1 ufd_version_check].
    replace (k_userfaultfd K =? -1) with false by lia. unfold mbind, M_bind. fold c1. rewrite E2. reflexivity.
  - exists c2. unfold mbind, M_bind, mwhen, set_open, mmod. fold c1. cbn -[c1 ufd_version_check].
    replace (k_userfaultfd K =? -1) with false by lia. unfold mbind, M_bind. fold c1. rewrite E2. reflexivity.
Qed.

Lemma enable_run a n c (Hk : kernel_ok c) :
  if enable_ok
  then enable_ufd_area K a n c = Ok (0, Client (Some (k_userfaultfd K)) ({[k_userfaultfd K]} ∪ c_open c) (c_memory c) (c_unmapped c)
         (c_ranges c ++ [(k_userfaultfd K, a, n)]) (c_peers c) (c_sent c) (c_errors c))
  else exists c', enable_ufd_area K a n c = Ok (-1, c').
Proof.
  unfold enable_ufd_area, enable_ok, advise, has_bits. cbn [forallb].
  do 3 (match goal with |- context [k_madvise K ?x =? 0] => destruct (k_madvise K x =? 0) end; cbn [andb negb]; [|by eexists; reflexivity]).
  pose proof (syscall_run c Hk) as Hs. destruct (negb (k_userfaultfd K =? -1) && api_ok)%bool eqn:Eg; cbn [andb].
  - rewrite (run_bind _ _ _ _ _ Hs). apply andb_true_iff in Eg as [Eg _]. apply negb_true_iff in Eg.
    unfold set_ufd, mmod, mbind, M_bind. rewrite Eg. destruct (k_register K) as [r ioctls].
    change (Z.lor (Z.lor (Z.lor (bit _UFFDIO_WAKE) (bit _UFFDIO_COPY)) (bit _UFFDIO_REMAP)) (bit _UFFDIO_ZEROPAGE)) with 0x3c.
    destruct (r =? 0); cbn [negb andb]; [|by eexists; reflexivity].
    destruct (Z.land ioctls 0x3c =? 0x3c); [reflexivity|by eexists; reflexivity].
  - destruct Hs as [c1 Hs]. rewrite (run_bind _ _ _ _ _ Hs). eexists. reflexivity.
Qed.

Lemma connect_monitor_run c (Hk : k_socket K = -1 \/ 0 <= k_socket K) :
  exists r c', connect_monitor K socket_path c = Ok (r, c') /\ c_ufd c' = c_ufd c /\ c_memory c' = c_memory c /\
    c_ranges c' = c_ranges c /\ c_sent c' = c_sent c /\ c_unmapped c' = c_unmapped c /\
    c_open c' = (if 0 <=? k_socket K then {[k_socket K]} ∪ c_open c else c_open c) /\
    (if ((0 <=? k_socket K) && (k_connect K =? 0))%bool then r = k_socket K /\ c_peers c' = c_peers c ++ [(k_socket K, socket_path)] /\ c_errors c' = c_errors c
     else r = -1).
Proof.
  unfold connect_monitor, call_socket, call_connect. destruct Hk as [E|E].
  { rewrite E. eexists _, _. split; [reflexivity|]. by destruct c. }
  replace (0 <=? k_socket K) with true by lia. destruct (k_connect K =? 0) eqn:Ec; cbn [andb];
  (eexists _, _; split; [unfold mbind, M_bind, mwhen, set_open, mmod, mret, M_ret;
     replace (k_socket K <? 0) with false by lia; rewrite Ec; reflexivity|by destruct c]).
Qed.

Lemma error_early r n c : allocate_error K r None n c = UB Uninitialised.
Proof.
  unfold allocate_error, get_ufd, disable_ufd_area, mwhen, mbind, M_bind.
  destruct (negb (r =? NULL)), (c_ufd c) as [u|] eqn:Eu; cbn; rewrite ?Eu; try reflexivity;
  destruct (negb (k_unregister K =? 0)); cbn; rewrite ?Eu; destruct (negb (u =? 0)); reflexivity.
Qed.

(** The end of a run that has a region but no monitor. *)
Lemma error_late a s n c (Ha : a <> NULL) u (Hu : c_ufd c = Some u) :
  exists c', allocate_error K a (Some s) n c = Ok (NULL, c') /\ c_sent c' = c_sent c /\ c_memory c' = c_memory c /\
    c_open c' = (c_open c ∖ (if u =? 0 then ∅ else {[u]})) ∖ (if s =? 0 then ∅ else {[s]}) /\
    (k_unregister K = 0 -> c_ranges c' = filter (fun r => r <> (u, a, n)) (c_ranges c)).
Proof.
  unfold allocate_error, get_ufd, disable_ufd_area, mwhen, mbind, M_bind.
  replace (negb (a =? NULL)) with true by lia.
  destruct (negb (k_unregister K =? 0)) eqn:Er; destruct (u =? 0) eqn:E1, (s =? 0) eqn:E2; cbn -[filter difference]; rewrite ?Hu;
  cbn -[filter difference]; rewrite ?E1; cbn -[filter difference]; eexists; (split; [reflexivity|]); cbn -[filter difference];
  rewrite ?difference_empty_L; (split; [done|]; split; [done|]; split; [done|]); lia || done.
Qed.
(** The process that has memory, before it is armed. *)
Definition with_memory (a : ptr) (n : Z) c : client :=
  Client (c_ufd c) (c_open c) (c_memory c ++ [(a, n)]) (c_unmapped c) (c_ranges c) (c_peers c) (c_sent c) (c_errors c).

Lemma err_then {A} (m : M client A) c : (client_err;; m) c =
  m (Client (c_ufd c) (c_open c) (c_memory c) (c_unmapped c) (c_ranges c) (c_peers c) (c_sent c) (S (c_errors c))).
Proof. reflexivity. Qed.
Lemma memalign_run n c : call_memalign K n c = Ok (k_memalign K, match k_memalign K with Some a => with_memory a n c | None => c end).
Proof. unfold call_memalign. by destruct (k_memalign K). Qed.

Lemma allocate_unarmed n c (Hk : kernel_ok c) : armed n = false -> allocate_userfault K n c = UB Uninitialised.
Proof.
  unfold armed, allocate_userfault. destruct (n mod PAGE_SIZE =? 0); cbn [negb andb]; [|by rewrite err_then, error_early].
  rewrite (run_bind _ _ _ _ _ (memalign_run n c)). destruct (k_memalign K) as [a|] eqn:Em; [|by rewrite err_then, error_early].
  rewrite bool_decide_true by by eexists. intros He. cbn [andb] in He.
  assert (Hk1 : kernel_ok (with_memory a n c)) by by destruct Hk.
  pose proof (enable_run a n _ Hk1) as Hr. rewrite He in Hr. destruct Hr as [c1 Hr].
  rewrite (run_bind _ _ _ _ _ Hr). cbn [negb andb Z.eqb]. by rewrite err_then, error_early.
Qed.

(** The process with an armed region. *)
Definition with_region (a : ptr) (n : Z) c : client :=
  Client (Some (k_userfaultfd K)) ({[k_userfaultfd K]} ∪ c_open c) (c_memory c ++ [(a, n)]) (c_unmapped c)
    (c_ranges c ++ [(k_userfaultfd K, a, n)]) (c_peers c) (c_sent c) (c_errors c).

Lemma allocate_armed n c (Hk : kernel_ok c) : armed n = true -> exists a, k_memalign K = Some a /\ a <> NULL /\
  allocate_userfault K n c = (
    socket_fd ← connect_monitor K socket_path;
    if negb (0 <? socket_fd) then client_err;; allocate_error K a (Some socket_fd) n
    else
      u ← get_ufd;
      rc ← send_fd K socket_fd u;
      if negb (0 <=? rc) then client_err;; allocate_error K a (Some socket_fd) n
      else call_close socket_fd;; mret a) (with_region a n c).
Proof.
  unfold armed, allocate_userfault. destruct (n mod PAGE_SIZE =? 0); [|done]. cbn [negb andb]. intros [[a Em]%bool_decide_eq_true He]%andb_true_iff.
  assert (Ha : a <> NULL) by (intros ->; by apply (ko_memory _ Hk)). exists a. do 2 (split; [done|]).
  rewrite (run_bind _ _ _ _ _ (memalign_run n c)), Em.
  assert (Hk1 : kernel_ok (with_memory a n c)) by by destruct Hk.
  pose proof (enable_run a n _ Hk1) as Hr. rewrite He in Hr. rewrite (run_bind _ _ _ _ _ Hr).
  replace (a =? NULL) with false by lia. reflexivity.
Qed.

(** What the monitor makes of the packet. *)
Lemma recv_deliver `{X : ExternRAM, Z0 : ZooKeeper, R : Rand} sk pid u fuel zfuel config now fd pw : is_s32 pid ->
  recv_fd fuel zfuel config now (deliver (Packet sk (take 4 (le_bytes 4 pid)) u) fd) pw =
  (call_srand now;; upid_loop fuel zfuel config fd pid 0 0) pw.
Proof.
  intros Hp. assert (Hl : take 4 (le_bytes 4 pid) = le_bytes 4 pid) by (apply take_ge; by rewrite length_le_bytes).
  unfold recv_fd, deliver. cbn [p_bytes recv_res recv_ctrunc message_buffer control_messages]. rewrite !Hl, length_le_bytes, le_value_bytes.
  change (256 ^ Z.of_nat 4) with (2 ^ 32). cbn [sent_fd_of foldl Z.leb Z.of_nat Nat.ltb Nat.leb].
  replace (s32 (pid mod 2 ^ 32)) with pid; [done|]. rewrite <- (s32_id pid Hp) at 1. unfold s32.
  by rewrite Zplus_mod_idemp_l.
Qed.

(** A run with an armed region: either the monitor takes the message, or the error path is entered. *)
Lemma allocate_reached n c (Hk : kernel_ok c) : armed n = true -> reached = true -> exists a c',
  k_memalign K = Some a /\ a <> NULL /\ allocate_userfault K n c = Ok (a, c') /\ c_ufd c' = Some (k_userfaultfd K) /\
  c_open c' = {[k_userfaultfd K]} ∪ c_open c /\ c_ranges c' = c_ranges c ++ [(k_userfaultfd K, a, n)] /\
  c_sent c' = c_sent c ++ [Packet (k_socket K) (take (Z.to_nat (k_sendmsg K)) (le_bytes 4 (k_getpid K))) (k_userfaultfd K)].
Proof.
  intros Ea [[E0 Ec]%andb_true_iff Es]%andb_true_iff. destruct (allocate_armed n c Hk Ea) as (a & Em & Ha & ->).
  destruct (connect_monitor_run (with_region a n c)) as (s & c1 & E1 & Hu & Hm & Hr & Hs & _ & Ho & Hc); [right; lia|].
  rewrite (run_bind _ _ _ _ _ E1). replace (0 <=? k_socket K) with true in * by lia. rewrite Ec in Hc. cbn [andb] in Hc.
  destruct Hc as (-> & Hpe & He). rewrite E0. cbn [negb].
  assert (Hg : get_ufd c1 = Ok (k_userfaultfd K, c1)) by (unfold get_ufd; by rewrite Hu). rewrite (run_bind _ _ _ _ _ Hg).
  unfold send_fd, call_sendmsg, mwhen. rewrite Es. unfold mmod, mbind, M_bind, mret, M_ret. rewrite Es. cbn [negb].
  exists a. eexists. do 2 (split; [done|]). split; [reflexivity|]. cbn [c_ufd c_open c_ranges c_sent]. rewrite Hu, Ho, Hr, Hs.
  split; [done|]. split; [|done].
  destruct (ko_socket _ Hk) as [|(? & ? & ?)]; [lia|]. cbn. set_solver.
Qed.

Lemma allocate_unreached n c (Hk : kernel_ok c) : armed n = true -> reached = false -> exists a s c1,
  k_memalign K = Some a /\ a <> NULL /\ allocate_userfault K n c = allocate_error K a (Some s) n c1 /\
  c_ufd c1 = Some (k_userfaultfd K) /\ c_sent c1 = c_sent c /\ c_memory c1 = c_memory c ++ [(a, n)] /\
  c_ranges c1 = c_ranges c ++ [(k_userfaultfd K, a, n)] /\
  c_open c1 = (if 0 <=? k_socket K then {[k_socket K]} else ∅) ∪ ({[k_userfaultfd K]} ∪ c_open c) /\
  s = (if ((0 <=? k_socket K) && (k_connect K =? 0))%bool then k_socket K else -1).
Proof.
  intros Ea Hre. destruct (allocate_armed n c Hk Ea) as (a & Em & Ha & ->).
  assert (Hso : k_socket K = -1 \/ 0 <= k_socket K) by (destruct (ko_socket _ Hk) as [|[]]; auto).
  destruct (connect_monitor_run (with_region a n c) Hso) as (s & c1 & E1 & Hu & Hm & Hr & Hs & _ & Ho & Hc).
  rewrite (run_bind _ _ _ _ _ E1). exists a, s.
  assert (Ho' : c_open c1 = (if 0 <=? k_socket K then {[k_socket K]} else ∅) ∪ ({[k_userfaultfd K]} ∪ c_open c)).
  { rewrite Ho. destruct (0 <=? k_socket K); cbn; set_solver. }
  assert (Hs' : s = (if ((0 <=? k_socket K) && (k_connect K =? 0))%bool then k_socket K else -1)).
  { destruct (_ && _)%bool; [by destruct Hc|done]. }
  destruct (0 <? s) eqn:Eg; cbn [negb]; [|rewrite err_then; eexists; by repeat split].
  assert (Hg : get_ufd c1 = Ok (k_userfaultfd K, c1)) by (unfold get_ufd; by rewrite Hu). rewrite (run_bind _ _ _ _ _ Hg).
  assert (Es : (0 <=? k_sendmsg K) = false).
  { unfold reached in Hre. destruct (0 <=? k_socket K), (k_connect K =? 0) eqn:Ec; cbn in Hs'; subst s; rewrite ?Eg in Hre; cbn in Hre; lia || done. }
  unfold send_fd, call_sendmsg, mwhen. rewrite Es. unfold mbind, M_bind, mret, M_ret. rewrite Es. cbn [negb]. eexists. by repeat split.
Qed.

(** C16: an application gets a region when, and only when, its size is a multiple of the page
    size, the kernel gives memory that can be armed with all the operations the monitor needs, and the monitor takes the
    message.  It then holds one more descriptor and one more registered range, its connection is closed again, and
    what the monitor receives makes [recv_fd] look for an identifier for exactly this process and this
    descriptor.  In every other case no region is returned and nothing is sent. *)
Theorem client_registers n c (Hk : kernel_ok c) (Hp : is_s32 (k_getpid K)) :
  if (armed n && reached)%bool then
    exists a c' p, allocate_userfault K n c = Ok (a, c') /\ a <> NULL /\ c_ufd c' = Some (k_userfaultfd K) /\
      c_open c' = {[k_userfaultfd K]} ∪ c_open c /\ c_ranges c' = c_ranges c ++ [(k_userfaultfd K, a, n)] /\
      c_sent c' = c_sent c ++ [p] /\ p_fd p = k_userfaultfd K /\
      (k_sendmsg K = 4 -> forall `{X : ExternRAM, Z0 : ZooKeeper, R : Rand} fuel zfuel config now fd pw,
         recv_fd fuel zfuel config now (deliver p fd) pw = (call_srand now;; upid_loop fuel zfuel config fd (k_getpid K) 0 0) pw)
  else forall a c', allocate_userfault K n c = Ok (a, c') -> a = NULL /\ c_sent c' = c_sent c.
Proof.
  destruct (armed n) eqn:Ea; cbn [andb]; [|intros a c'; by rewrite (allocate_unarmed n c Hk Ea)].
  destruct reached eqn:Er.
  - destruct (allocate_reached n c Hk Ea Er) as (a & c' & _ & Ha & -> & Hu & Ho & Hr & Hs). eexists a, c', _.
    do 6 (split; [done|]). split; [done|]. intros E4 O X Z0 R fuel zfuel config now fd pw. rewrite E4. by apply recv_deliver.
  - destruct (allocate_unreached n c Hk Ea Er) as (a & s & c1 & _ & Ha & -> & Hu & Hs & _).
    destruct (error_late a s n c1 Ha _ Hu) as (c2 & -> & H2 & _). intros r c' [= <- <-]. split; [done|]. by rewrite H2.
Qed.

(** C40: a client that fails.  When the region cannot be allocated or armed, the error
    path reads [socket_fd], which has no value yet: the behaviour is undefined.  When only
    the monitor cannot be reached the call returns [NULL] and nothing has been sent; the region is no
    longer registered, but its memory is not given back, a socket that could not
    be connected stays open, and so does every descriptor with the number zero. *)
Theorem client_gives_up n c (Hk : kernel_ok c) :
  (armed n = false -> allocate_userfault K n c = UB Uninitialised) /\
  (armed n = true -> reached = false -> exists a c', k_memalign K = Some a /\ allocate_userfault K n c = Ok (NULL, c') /\
     c_sent c' = c_sent c /\ c_memory c' = c_memory c ++ [(a, n)] /\ (k_unregister K = 0 -> c_ranges c' = c_ranges c) /\
     c_open c' = c_open c ∪ (if k_userfaultfd K =? 0 then {[0]} else ∅) ∪
       (if ((0 <=? k_socket K) && (negb (k_connect K =? 0) || (k_socket K =? 0)))%bool then {[k_socket K]} else ∅)).
Proof.
  split; [by apply allocate_unarmed|]. intros Ea Er.
  destruct (allocate_unreached n c Hk Ea Er) as (a & s & c1 & Em & Ha & -> & Hu & Hs & Hm & Hr & Ho & Hsk).
  destruct (error_late a s n c1 Ha _ Hu) as (c2 & -> & H2 & H3 & H4 & H5). exists a, c2. split; [done|]. split; [done|]. split; [by rewrite H2|].
  split; [by rewrite H3|]. split.
  - intros H0. rewrite (H5 H0), Hr. rewrite filter_app, filter_cons_False, filter_nil, app_nil_r by tauto.
    apply filter_all, Forall_forall. intros r Hin ->. by apply (ko_ranges _ Hk a n).
  - rewrite H4, Ho, Hsk. assert (Hfd : 0 <= k_userfaultfd K /\ k_userfaultfd K ∉ c_open c).
    { destruct (ko_ufd _ Hk) as [E|]; [|done]. unfold armed, enable_ok in Ea. rewrite E in Ea. lia. }
    pose proof (ko_open _ Hk) as Hop. pose proof (ko_socket _ Hk) as Hso. apply set_eq. intros d. specialize (Hop d).
    destruct (Z.eqb_spec (k_userfaultfd K) 0), (Z.leb_spec 0 (k_socket K)), (Z.eqb_spec (k_connect K) 0), (Z.eqb_spec (k_socket K) 0); cbn [andb negb orb];
    rewrite ?Z.eqb_refl; repeat match goal with |- context [?x =? 0] => destruct (Z.eqb_spec x 0) end; try lia.
    all: set_unfold; intuition (subst; lia || done).
Qed.
End properties.

(** * A run of a client *)

Definition good_kernel (connect : Z) : kernel :=
  Kernel 4321 (Some 65536) (fun _ => 0) 5 (0, UFFD_API, 0x8000000000000003) (0, 0x3c) 0 6 connect 4.
Definition new_client : client := Client None {[0; 1; 2]} [] [] [] [] [] 0.

Lemma good_kernel_ok connect : kernel_ok (good_kernel connect) new_client.
Proof.
  split; cbn; [right; split; [lia|]|right; split; [lia|split; [|lia]]|done| |by intros a n ?%elem_of_nil].
  1, 2: rewrite !elem_of_union, !elem_of_singleton; lia.
  intros d. rewrite !elem_of_union, !elem_of_singleton. lia.
Qed.

Lemma client_registers_witness : exists c', allocate_userfault (good_kernel 0) 8192 new_client = Ok (65536, c') /\
  c_open c' = {[5]} ∪ {[0; 1; 2]} /\ c_ranges c' = [(5, 65536, 8192)].
Proof.
  destruct (client_registers (good_kernel 0) 8192 new_client (good_kernel_ok 0) ltac:(unfold is_s32; cbn; lia)) as (a & c' & p & E & _ & _ & Ho & Hr & _).
  vm_compute in E. injection E as <- E. exists c'. rewrite <- E. split; [vm_compute; reflexivity|]. by rewrite E.
Defined.

Lemma client_gives_up_witness : exists c', allocate_userfault (good_kernel (-1)) 8192 new_client = Ok (NULL, c') /\
  c_sent c' = [] /\ c_memory c' = [(65536, 8192)] /\ c_ranges c' = [] /\ 6 ∈ c_open c' /\ 5 ∉ c_open c'.
Proof.
  destruct (client_gives_up (good_kernel (-1)) 8192 new_client (good_kernel_ok (-1))) as [_ H].
  destruct (H eq_refl eq_refl) as (a & c' & [= <-] & E & Hs & Hm & Hr & Ho). exists c'. split; [done|]. split; [done|]. split; [done|].
  split; [by apply Hr|]. rewrite Ho. cbn. split; rewrite !elem_of_union, !elem_of_singleton; [lia|]. intros [[?|?%elem_of_empty]|?]; [lia|done|lia].
Defined.
