(* ===== verification/Registration.v ===== *)
(** Registering the descriptor a process sends: [recv_fd] gives it an identifier
    no other process has and a client of its own, and disturbs no other region. *)
From S2P Require Import Prelude Config MonitorStats Os LruBuffer UtHash ExternRam ThreadedIo Upid.
From S2P Require Import BufferAllocator PageCache World PageCacheRead Userfault Consistency Faults.
From S2P Require Import Memory Zookeeper Processes SimOs Noop.

Section recv.
Context {OSI : OS} {OL : OSLaws OSI} {X : ExternRAM} {L : ExternRAMLaws X} `{Z0 : ZooKeeper, R : Rand} {ZL : ZooLaws Z0}.
Context {F : BuildFlags} {SB : SyncBuild F} {I : StaleIterator} {WF : WriteFuel} {EF : EnoughFuel L WF}.

Definition p_nodes (p : pworld) : gset (list Z) := znodes (z_lib (pz p)).

(** The descriptor got an identifier that was free; the registry has it and the map
    resolves to it. *)
Record recv_done (fd pid node : Z) (p : pworld) (p' : pworld) : Prop := {
  rd_upid : exists c counter, find_fd fd (fdUpidMap (p_fd p')) = Some (MapStruct fd (mk_upid node pid counter) c) /\
    (upidFullPath (mk_upid node pid counter) ∉ p_nodes p) /\ upidFullPath (mk_upid node pid counter) ∈ p_nodes p' /\
    (** a backend that gives no client is an error, which [recv_fd] does not act on *)
    (c = NULL \/
     wok (LO := none_lost) (pw p') /\ client_of (pw p') fd = Some c /\
     (forall u, is_s32 u -> u <> fd -> client_of (pw p') u = client_of (pw p) u) /\
     (forall u a, is_s32 u -> u <> fd -> view (pw p') u a = view (pw p) u a))
}.

(** How many counters are left to try. *)
Definition left_to_try (c orig : Z) : Z := if decide (c < orig) then orig - 1 - c else 65535 - c + (orig - 1).

Lemma next_counter_cases c orig p : 1 <= c <= 65535 -> 2 <= orig <= 65535 ->
  (next_counter c orig p = Ok (None, p)) \/
  exists c', next_counter c orig p = Ok (Some (c', orig), p) /\ 1 <= c' <= 65535 /\
    left_to_try c' orig < left_to_try c orig.
Proof.
  intros Hc Ho. destruct (decide (c = 65535)) as [->|Hne].
  - right. exists 1. rewrite next_counter_wrap by lia. split; [done|]. split; [lia|]. unfold left_to_try.
    repeat case_decide; lia.
  - destruct (decide (c + 1 = orig)) as [He|He].
    + left. apply next_counter_stop; lia.
    + right. exists (c + 1). rewrite next_counter_up by lia. split; [done|]. split; [lia|]. unfold left_to_try.
      repeat case_decide; lia.
Qed.

(** The state after some identifiers turned out to be taken. *)
Record tried (p p' : pworld) : Prop := {
  tr_fd : p_fd p' = p_fd p;
  tr_os : w_os (pw p') = w_os (pw p);
  tr_lru : w_lru (pw p') = w_lru (pw p);
  tr_ext : w_ext (pw p') = w_ext (pw p);
  tr_read : read_tmp_page (pw p') = read_tmp_page (pw p);
  tr_nodes : p_nodes p ⊆ p_nodes p';
  tr_fail : (zfail (z_lib (pz p')) <= zfail (z_lib (pz p)))%nat
}.

Lemma tried_refl p : tried p p.
Proof. by split. Qed.
Lemma tried_trans p p1 p2 : tried p p1 -> tried p1 p2 -> tried p p2.
Proof. intros [] []. split; try congruence; [set_solver|lia]. Qed.

Lemma tried_wok p p' : tried p p' -> wok (LO := none_lost) (pw p) -> wok (LO := none_lost) (pw p').
Proof.
  intros [Hfd Ho Hl He Hr _ _] Hw. unfold p_fd in Hfd.
  assert (Hc : forall u, client_of (pw p') u = client_of (pw p) u) by (intros u; unfold client_of; by rewrite Hfd).
  split.
  - rewrite Hfd. apply Hw.
  - rewrite He, Ho. apply Hw.
  - intros u c. rewrite Hc, He. apply Hw.
  - intros u u' c. rewrite !Hc. apply (ok_distinct _ Hw).
  - rewrite Ho, Hr, He. apply Hw.
  - rewrite Hl. apply Hw.
  - intros u a. rewrite Hl, Hc. unfold movable, stored_at. rewrite Hc, Ho, He. apply (ok_nodes _ Hw).
Qed.

Lemma tried_view p p' u a : tried p p' -> view (pw p') u a = view (pw p) u a.
Proof.
  intros [Hfd Ho Hl He Hr _ _]. unfold view, stored_at, client_of. unfold p_fd in Hfd. by rewrite Ho, He, Hfd.
Qed.

(** One [add_upid]. *)
Lemma claim_id zfuel upid p : (zfail (z_lib (pz p)) < zfuel)%nat ->
  exists r p', in_zk (add_upid zfuel upid) p = Ok (r, p') /\ tried p p' /\
    (r = ZOOKEEPER_UPID_OK -> (upidFullPath upid ∉ p_nodes p) /\ upidFullPath upid ∈ p_nodes p') /\
    (r = ZOOKEEPER_UPID_OK \/ r = ZOOKEEPER_UPID_EXIST \/ r = ZOOKEEPER_UPID_ERR).
Proof.
  intros Hf. destruct (add_upid_run zfuel upid (pz p) (w_dbg (pw p)) Hf) as (r & z' & d' & E & Hle & [Hg _] & Hok & _ & Hr).
  unfold in_zk, zoom. rewrite E. eexists _, _. split; [reflexivity|]. split; [by split|]. done.
Qed.

Section loop.
Context (p0 : pworld) (fd pid node : Z) (zfuel : nat) (config : string).
Hypothesis Hw : wok (LO := none_lost) (pw p0).
Hypothesis Hfd : is_s32 fd.
Hypothesis Hnew : client_of (pw p0) fd = None.
Hypothesis Hgrow : can_grow (fdUpidMap (p_fd p0)).
Hypothesis Hnode : forall s, s_os s = w_os (pw p0) -> get_node_id s = Ok (node, s).
Hypothesis Hzf : (zfail (z_lib (pz p0)) < zfuel)%nat.

(** The loop is over: given up with the map as it was, or registered. *)
Definition loop_done (r : Z) (p' : pworld) : Prop :=
  (r = -1 /\ p_fd p' = p_fd p0) \/ (r = fd /\ recv_done fd pid node p0 p').

Lemma register_id counter p1 p2 : tried p0 p1 -> tried p1 p2 ->
  (upidFullPath (mk_upid node pid counter) ∉ p_nodes p1) -> upidFullPath (mk_upid node pid counter) ∈ p_nodes p2 ->
  exists p3, (in_w (in_fd (add_upid_in_map fd (mk_upid node pid counter)));;
              in_w (in_fd_ext (register_with_externram config fd));; mret fd) p2 = Ok (fd, p3) /\
    recv_done fd pid node p0 p3.
Proof.
  intros T1 T2 Hni Hi. pose proof (tried_trans _ _ _ T1 T2) as T.
  destruct (register_run (LO := none_lost) config fd (mk_upid node pid counter) (pw p2)) as (ret & w' & E & (c & Hf & Hnc) & _ & H0).
  - by apply (tried_wok p0).
  - done.
  - unfold client_of in *. pose proof (tr_fd _ _ T) as Ht. unfold p_fd in Ht. by rewrite Ht.
  - pose proof (tr_fd _ _ T) as Ht. unfold p_fd in Ht. rewrite Ht. exact Hgrow.
  - exists (Pworld w' (pz p2) (prand p2)). split.
    + unfold register, mbind, M_bind in E |- *. unfold in_w, zoom.
      destruct (in_fd (add_upid_in_map fd (mk_upid node pid counter)) (pw p2)) as [[[] w1]| |]; try done.
      cbn [pw pz prand]. by rewrite E.
    + split. exists c, counter. split; [exact Hf|]. split; [intros Hin; apply Hni; by apply (tr_nodes _ _ T1)|].
      split; [exact Hi|]. destruct (decide (ret = 0)) as [Hr|Hr]; [|left; auto]. right.
      destruct (H0 Hr) as (Hw' & [c' Hc'] & _ & _ & Hcl & Hv). split; [done|].
      split; [unfold client_of; cbn [pw]; unfold p_fd in Hf; cbn [pw] in Hf; by rewrite Hf|]. split.
      * intros u Hu Hne. cbn [pw]. rewrite Hcl by done. unfold client_of. pose proof (tr_fd _ _ T) as Ht. unfold p_fd in Ht. by rewrite Ht.
      * intros u a Hu Hne. cbn [pw]. rewrite Hv by done. by apply tried_view.
Qed.

(** One identifier is tried: the loop is over, or goes on. *)
Definition try_id (counter : Z) (K : M pworld Z) : M pworld Z :=
  ret ← in_zk (add_upid zfuel (mk_upid node pid counter));
  if ret =? ZOOKEEPER_UPID_OK then
    in_w (in_fd (add_upid_in_map fd (mk_upid node pid counter)));;
    in_w (in_fd_ext (register_with_externram config fd));; mret fd
  else if ret =? ZOOKEEPER_UPID_ERR then in_w w_log_err;; mret (-1)
  else K.

Lemma try_run counter p1 K : tried p0 p1 ->
  (exists r p', try_id counter K p1 = Ok (r, p') /\ loop_done r p') \/
  (exists p', try_id counter K p1 = K p' /\ tried p0 p').
Proof.
  intros T. remember (try_id counter K p1) as res eqn:Eres. unfold try_id, mbind at 1, M_bind at 1 in Eres. revert Eres.
  destruct (claim_id zfuel (mk_upid node pid counter) p1) as (r & p2 & -> & T2 & Hok & Hr); [pose proof (tr_fail _ _ T); lia|]. intros ->.
  destruct Hr as [->|[-> | ->]].
  - left. change (ZOOKEEPER_UPID_OK =? ZOOKEEPER_UPID_OK) with true. cbn iota.
    destruct (Hok eq_refl) as [Hni Hi].
    destruct (register_id counter p1 p2 T T2 Hni Hi) as (p3 & E & D). exists fd, p3. split; [exact E|by right].
  - right. change (ZOOKEEPER_UPID_EXIST =? ZOOKEEPER_UPID_OK) with false.
    change (ZOOKEEPER_UPID_EXIST =? ZOOKEEPER_UPID_ERR) with false. exists p2. split; [done|by eapply tried_trans].
  - left. change (ZOOKEEPER_UPID_ERR =? ZOOKEEPER_UPID_OK) with false.
    change (ZOOKEEPER_UPID_ERR =? ZOOKEEPER_UPID_ERR) with true. cbn iota.
    eexists _, _. split; [reflexivity|]. left. split; [done|].
    etransitivity; [apply (tr_fd _ _ T2)|apply (tr_fd _ _ T)].
Qed.

Lemma upid_loop_run fuel c orig p : tried p0 p -> 1 <= c <= 65535 -> 2 <= orig <= 65535 ->
  left_to_try c orig < Z.of_nat fuel ->
  exists r p', upid_loop fuel zfuel config fd pid c orig p = Ok (r, p') /\ loop_done r p'.
Proof.
  revert c p. induction fuel as [|fuel IH]; intros c p T Hc Ho Hf.
  { unfold left_to_try in Hf. case_decide; lia. }
  cbn [upid_loop]. unfold mbind at 1, M_bind at 1.
  assert (En : in_w (in_sys get_node_id) p = Ok (node, p)).
  { unfold in_w, in_sys, zoom. rewrite Hnode by apply T. by destruct p as [[] ? ?]. }
  rewrite En. unfold mbind at 1, M_bind at 1.
  destruct (next_counter_cases c orig p Hc Ho) as [E|(c' & E & Hc' & Hlt)]; rewrite E.
  { exists (-1), p. split; [done|]. left. split; [done|apply T]. }
  destruct (try_run c' p (upid_loop fuel zfuel config fd pid c' orig) T) as [(r & p' & E' & D)|(p' & E' & T')].
  - exists r, p'. by split.
  - destruct (IH c' p' T' Hc' Ho) as (r & p2 & E2 & D); [lia|]. exists r, p2. split; [|done]. rewrite <- E2. exact E'.
Qed.
End loop.

Lemma tried_srand t p : exists p', call_srand t p = Ok (tt, p') /\ tried p p' /\ prand p' = srand t.
Proof. eexists. split; [reflexivity|]. split; [|done]. by split. Qed.

Lemma first_counter p : exists p', next_counter 0 0 p =
    Ok (Some (u16 ((rand (prand p)).1 mod 131072), u16 ((rand (prand p)).1 mod 131072)), p') /\ tried p p'.
Proof.
  unfold next_counter. change (u16 (0 + 1)) with 1. change (1 =? 1) with true. cbn iota.
  unfold mbind, M_bind, call_rand. destruct (rand (prand p)) as [r s]. change (Z.shiftl 2 16) with 131072.
  eexists. split; [reflexivity|]. by split.
Qed.

End recv.
