(* ===== verification/PollfdVector.v ===== *)
(** The growable array of descriptors to poll, [monitor/pollfd_vector.c]. *)
From S2P Require Import Prelude Config MonitorStats.

Definition VECTOR_INITIAL_CAPACITY : Z := 50.
Definition POLLIN : Z := 1.
Definition POLLERR : Z := 8.

Record pollfd := Pollfd { pfd : Z; events : Z; revents : Z }.

(** [list] is the allocated block: [capacity] slots, [None] where nothing has been
    stored yet.  The mutexes are left out. *)
Record Pollfd_vector := PollfdVector {
  size : Z;
  capacity : Z;
  reload_addfd : Z;
  slots : list (option pollfd)
}.

Section vector.
Context `{F : BuildFlags}.

(** The state of the functions: the vector and the statistics. *)
Abbreviation vs := (Pollfd_vector * MonitorStats)%type (only parsing).

Definition v_stats (f : MonitorStats -> MonitorStats) : M vs unit :=
  if MONITORSTATS then mmod (fun s => (s.1, f s.2)) else mret tt.
Definition v_get {A} (f : Pollfd_vector -> A) : M vs A := mgets (fun s => f s.1).
Definition v_mod (f : Pollfd_vector -> Pollfd_vector) : M vs unit := mmod (fun s => (f s.1, s.2)).

Definition read_slot (i : Z) : M vs pollfd := fun s =>
  if decide (0 <= i) then
    match slots s.1 !! Z.to_nat i with
    | Some (Some p) => Ok (p, s)
    | Some None => UB Uninitialised
    | None => UB OutOfBounds
    end
  else UB OutOfBounds.
Definition write_slot (i : Z) (p : pollfd) : M vs unit := fun s =>
  if decide (0 <= i < Z.of_nat (length (slots s.1))) then
    Ok (tt, (PollfdVector (size s.1) (capacity s.1) (reload_addfd s.1) (<[Z.to_nat i := Some p]> (slots s.1)), s.2))
  else UB OutOfBounds.

(** [realloc]: the common prefix is kept. *)
Definition realloc {A} (n : Z) (l : list (option A)) : list (option A) :=
  take (Z.to_nat n) l ++ replicate (Z.to_nat n - length l) None.

(** [malloc] succeeds; a failed mutex initialisation is overwritten by the test of
    the array. *)
Definition pollfd_vector_init : M vs Z :=
  v_mod (fun v => PollfdVector 0 VECTOR_INITIAL_CAPACITY (reload_addfd v)
                    (replicate (Z.to_nat VECTOR_INITIAL_CAPACITY) None));;
  v_stats (StatsSetNumUFDS 0);;
  mret 0.

Definition pollfd_vector_double : M vs unit :=
  v_mod (fun v => let capacity := s32 (capacity v * 2) in
                  PollfdVector (size v) capacity (reload_addfd v) (realloc capacity (slots v))).

Definition pollfd_vector_append (fd : pollfd) : M vs unit :=
  full ← v_get (fun v => size v =? capacity v);
  mwhen full pollfd_vector_double;;
  v_mod (fun v => PollfdVector (s32 (size v + 1)) (capacity v) (reload_addfd v) (slots v));;
  n ← v_get size;
  v_stats (StatsSetNumUFDS (n - 1));;
  write_slot (n - 1) fd.

Definition pollfd_vector_compact : M vs unit :=
  v_mod (fun v =>
    if ((VECTOR_INITIAL_CAPACITY <? capacity v) && (size v <? capacity v / 2))%bool then
      let capacity := capacity v / 2 in
      PollfdVector (size v) capacity (reload_addfd v) (realloc capacity (slots v))
    else v).

(** The search from index [i]; [n] indices are left. *)
Fixpoint remove_loop (n : nat) (i fd : Z) : M vs Z :=
  match n with
  | O => mret (-1)
  | S n =>
      p ← read_slot i;
      if pfd p =? fd then
        last ← v_get size;
        q ← read_slot (last - 1);
        write_slot i q;;
        v_mod (fun v => PollfdVector (size v - 1) (capacity v) (reload_addfd v) (slots v));;
        n ← v_get size;
        v_stats (StatsSetNumUFDS (n - 1));;
        pollfd_vector_compact;;
        mret 0
      else remove_loop n (i + 1) fd
  end.

Definition pollfd_vector_remove (fd : Z) : M vs Z :=
  n ← v_get size; remove_loop (Z.to_nat n) 0 fd.

Definition add_fd (new_fd : Z) : M vs unit := pollfd_vector_append (Pollfd new_fd POLLIN 0).
Definition del_fd (fd : Z) : M vs Z :=
  r ← pollfd_vector_remove fd; mret (if r =? 0 then 0 else -1).

(** [poll] stores the events [rs] it saw in the entries it was given. *)
Fixpoint store_revents (rs : list Z) (l : list (option pollfd)) : list (option pollfd) :=
  match rs, l with
  | r :: rs, Some p :: l => Some (Pollfd (pfd p) (events p) r) :: store_revents rs l
  | _, _ => l
  end.
Definition store_poll (rs : list Z) (v : Pollfd_vector) : Pollfd_vector :=
  PollfdVector (size v) (capacity v) (reload_addfd v) (store_revents (take (Z.to_nat (size v)) rs) (slots v)).
(** The descriptors [close] is called for, in order. *)
Definition pollfd_vector_close : M vs (list Z) :=
  n ← v_get size;
  mmapM (fun i => p ← read_slot (Z.of_nat i); mret (pfd p)) (seq 0 (Z.to_nat n)).

(** The block is freed; its pointer and size stay. *)
Definition pollfd_vector_free : M vs unit :=
  v_mod (fun v => PollfdVector (size v) (capacity v) (reload_addfd v) []).
End vector.

(** * The vector is a list *)

(** The block has the recorded capacity, a power of two times the initial one, and
    its first [size] slots hold the list [l]. *)
Record vec_ok (v : Pollfd_vector) (l : list pollfd) : Prop := {
  vo_cap : exists k, 0 <= k /\ capacity v = VECTOR_INITIAL_CAPACITY * 2 ^ k;
  vo_small : capacity v < 2 ^ 31;
  vo_len : Z.of_nat (length (slots v)) = capacity v;
  vo_size : size v = Z.of_nat (length l);
  vo_list : exists rest, slots v = (Some <$> l) ++ rest
}.

Section refinement.
Context `{F : BuildFlags}.

Lemma vo_fits v l : vec_ok v l -> size v <= capacity v.
Proof.
  intros [_ _ Hlen Hsize [rest Hs]]. rewrite Hs, length_app, length_fmap in Hlen. lia.
Qed.

Lemma realloc_grow (l : list pollfd) n : Z.of_nat (length l) <= n ->
  realloc n (Some <$> l) = (Some <$> l) ++ replicate (Z.to_nat n - length l) None.
Proof. intros H. unfold realloc. rewrite take_ge by (rewrite length_fmap; lia). by rewrite length_fmap. Qed.

Lemma realloc_shrink (l : list pollfd) rest n : Z.of_nat (length l) <= n -> n <= Z.of_nat (length l + length rest) ->
  exists rest', realloc n ((Some <$> l) ++ rest) = (Some <$> l) ++ rest' /\
    Z.of_nat (length ((Some <$> l) ++ rest')) = n.
Proof.
  intros H1 H2. unfold realloc. rewrite take_app, length_fmap, take_ge by (rewrite length_fmap; lia).
  rewrite length_app, length_fmap.
  replace (Z.to_nat n - (length l + length rest))%nat with 0%nat by lia. simpl. rewrite app_nil_r.
  eexists. split; [reflexivity|]. rewrite length_app, length_fmap, length_take. lia.
Qed.

Lemma double_ok v l st : vec_ok v l -> size v = capacity v -> capacity v < 2 ^ 30 ->
  exists v', pollfd_vector_double (v, st) = Ok (tt, (v', st)) /\ vec_ok v' l /\
    size v' < capacity v' /\ reload_addfd v' = reload_addfd v.
Proof.
  intros [[k [Hk Hcap]] _ Hlen Hsize [rest Hs]] Hfull Hsmall.
  assert (Hpos : 0 < 2 ^ k) by (apply Z.pow_pos_nonneg; lia).
  assert (Hc0 : 0 < capacity v) by (unfold VECTOR_INITIAL_CAPACITY in Hcap; lia).
  assert (rest = []) as ->.
  { rewrite Hs, length_app, length_fmap in Hlen. destruct rest; [done|]. simpl in Hlen. lia. }
  rewrite app_nil_r in Hs. eexists. split; [reflexivity|]. cbn [fst snd].
  rewrite (s32_id (capacity v * 2)) by (unfold is_s32; lia). rewrite Hs, realloc_grow by lia.
  split; [split; simpl|split; [simpl; lia|done]].
  - exists (k + 1). split; [lia|]. rewrite Hcap, Z.pow_add_r by lia. lia.
  - lia.
  - rewrite length_app, length_fmap, length_replicate. lia.
  - done.
  - by eexists.
Qed.

Lemma append_store_ok v l st p : vec_ok v l -> size v < capacity v ->
  exists v' st',
    (v_mod (fun v => PollfdVector (s32 (size v + 1)) (capacity v) (reload_addfd v) (slots v));;
     n ← v_get size; v_stats (StatsSetNumUFDS (n - 1));; write_slot (n - 1) p) (v, st) = Ok (tt, (v', st')) /\
    vec_ok v' (l ++ [p]) /\ reload_addfd v' = reload_addfd v.
Proof.
  intros [Hcap Hsmall Hlen Hsize [rest Hs]] Hlt.
  assert (Hsz : s32 (size v + 1) = size v + 1) by (apply s32_id; unfold is_s32; lia).
  destruct rest as [|r rest]; [rewrite Hs, app_nil_r, length_fmap in Hlen; lia|].
  unfold v_mod, v_get, v_stats, write_slot. mrun. simpl. rewrite Hsz.
  assert (Hw : forall st0, exists v', (if decide (0 <= size v + 1 - 1 < Z.of_nat (length (slots v))) then
      Ok (tt, (PollfdVector (size v + 1) (capacity v) (reload_addfd v) (<[Z.to_nat (size v + 1 - 1) := Some p]> (slots v)), st0 : MonitorStats))
      else UB OutOfBounds) = Ok (tt, (v', st0)) /\ vec_ok v' (l ++ [p]) /\ reload_addfd v' = reload_addfd v).
  { intros st0. rewrite decide_True by lia. eexists. split; [reflexivity|]. split; [|done].
    replace (Z.to_nat (size v + 1 - 1)) with (length (Some <$> l)) by (rewrite length_fmap; lia).
    rewrite Hs, insert_app_r_alt, Nat.sub_diag by lia.
    split; simpl; [done|done| |rewrite length_app; simpl; lia|].
    - rewrite Hs in Hlen. rewrite <- Hlen, !length_app. simpl. lia.
    - exists rest. rewrite fmap_app. simpl. by rewrite <- app_assoc. }
  destruct MONITORSTATS; simpl.
  - destruct (Hw (StatsSetNumUFDS (size v + 1 - 1) st)) as (v' & E & H). eexists _, _. split; [exact E|exact H].
  - destruct (Hw st) as (v' & E & H). eexists _, _. split; [exact E|exact H].
Qed.

Lemma append_run v l st p : vec_ok v l -> size v < 2 ^ 30 ->
  exists v' st', pollfd_vector_append p (v, st) = Ok (tt, (v', st')) /\ vec_ok v' (l ++ [p]) /\
    reload_addfd v' = reload_addfd v.
Proof.
  intros Hok Hroom. pose proof (vo_fits v l Hok) as Hfit. unfold pollfd_vector_append.
  unfold mbind at 1, M_bind at 1, v_get at 1, mgets. cbn [fst]. unfold mbind at 1, M_bind at 1.
  destruct (Z.eqb_spec (size v) (capacity v)) as [Hf|Hf]; cbn [mwhen].
  - destruct (double_ok v l st Hok Hf) as (v1 & -> & Hok1 & Hlt & Hr1); [lia|].
    destruct (append_store_ok v1 l st p Hok1 Hlt) as (v2 & st2 & E & Hok2 & Hr2). exists v2, st2. split; [exact E|].
    split; [done|congruence].
  - apply (append_store_ok v l st p Hok). lia.
Qed.

(** Appending keeps the vector a faithful list: the new entry comes last, the
    others are untouched, whether or not the block has to grow, as long as its
    capacity stays below 2^31. *)
Theorem pollfd_vector_append_refines v l st p (Hok : vec_ok v l) (Hroom : size v < 2 ^ 30) :
  exists v' st', pollfd_vector_append p (v, st) = Ok (tt, (v', st')) /\ vec_ok v' (l ++ [p]) /\
    reload_addfd v' = reload_addfd v.
Proof. by apply append_run. Qed.

(** ** Removal *)

Lemma read_slot_ok v l st i p : vec_ok v l -> l !! i = Some p ->
  read_slot (Z.of_nat i) (v, st) = Ok (p, (v, st)).
Proof.
  intros Hok Hp. destruct (vo_list v l Hok) as [rest Hs]. unfold read_slot. rewrite decide_True by lia. simpl.
  rewrite Nat2Z.id, Hs, lookup_app_l by (rewrite length_fmap; by eapply lookup_lt_Some).
  by rewrite list_lookup_fmap, Hp.
Qed.

(** The list after the last entry took the place of the one at [i]. *)
Definition swap_out (i : nat) (q : pollfd) (l : list pollfd) : list pollfd := take (length l - 1) (<[i := q]> l).

Lemma swap_out_perm i p q l : l !! i = Some p -> last l = Some q -> l ≡ₚ p :: swap_out i q l.
Proof.
  intros Hi Hl. destruct l as [|x l _] using rev_ind; [done|]. rewrite last_snoc in Hl. injection Hl as ->.
  unfold swap_out. rewrite length_app. simpl. replace (length l + 1 - 1)%nat with (length l) by lia.
  destruct (decide (i < length l)%nat) as [Hlt|Hge].
  - rewrite insert_app_l, take_app_length' by (rewrite ?length_insert; lia).
    rewrite lookup_app_l in Hi by done.
    rewrite <- (take_drop_middle l i p Hi) at 1. rewrite (insert_take_drop l i q) by done.
    rewrite <- app_assoc. simpl. rewrite <- Permutation_middle. apply Permutation_skip, Permutation_app_head.
    by rewrite Permutation_app_comm.
  - assert (i = length l) as ->. { apply lookup_lt_Some in Hi. rewrite length_app in Hi. simpl in Hi. lia. }
    rewrite lookup_app_r, Nat.sub_diag in Hi by lia. injection Hi as ->.
    rewrite insert_app_r_alt, take_app_length by lia. by rewrite Permutation_app_comm.
Qed.

Lemma compact_ok v l st : vec_ok v l ->
  exists v', pollfd_vector_compact (v, st) = Ok (tt, (v', st)) /\ vec_ok v' l /\ reload_addfd v' = reload_addfd v.
Proof.
  intros Hok. pose proof Hok as [[k [Hk Hcap]] Hsmall Hlen Hsize [rest Hs]].
  eexists. split; [reflexivity|]. cbn [fst].
  destruct ((VECTOR_INITIAL_CAPACITY <? capacity v) && (size v <? capacity v / 2))%bool eqn:E; [|done].
  apply andb_true_iff in E as [E1%Z.ltb_lt E2%Z.ltb_lt].
  assert (Hk1 : 1 <= k). { destruct (decide (k = 0)) as [->|]; [|lia]. unfold VECTOR_INITIAL_CAPACITY in *. simpl in Hcap. lia. }
  assert (Hhalf : capacity v / 2 = VECTOR_INITIAL_CAPACITY * 2 ^ (k - 1)).
  { rewrite Hcap. replace k with (k - 1 + 1) at 1 by lia. rewrite Z.pow_add_r by lia.
    rewrite Z.mul_assoc. apply Z.div_mul. lia. }
  pose proof (Z.mul_div_le (capacity v) 2 ltac:(lia)).
  destruct (realloc_shrink l rest (capacity v / 2)) as (rest' & Hr & Hl'); [lia|rewrite Hs, length_app, length_fmap in Hlen; lia|].
  split; [|done]. split; simpl.
  - exists (k - 1). split; [lia|done].
  - lia.
  - by rewrite Hs, Hr.
  - done.
  - exists rest'. by rewrite Hs.
Qed.

(** Moving the last entry [q] into place [i]. *)
Lemma shrink_ok v l i q : vec_ok v l -> (i < length l)%nat ->
  vec_ok (PollfdVector (size v - 1) (capacity v) (reload_addfd v) (<[i := Some q]> (slots v))) (swap_out i q l).
Proof.
  intros [Hcap Hsmall Hlen Hsize [rest Hs]] Hi.
  assert (Hl : length (swap_out i q l) = (length l - 1)%nat).
  { unfold swap_out. rewrite length_take, length_insert. lia. }
  split; simpl; [done|done|by rewrite length_insert|lia|].
  exists ((Some <$> drop (length l - 1) (<[i := q]> l)) ++ rest).
  rewrite Hs, insert_app_l by (rewrite length_fmap; lia).
  rewrite <- list_fmap_insert, app_assoc. f_equal. unfold swap_out. by rewrite <- fmap_app, take_drop.
Qed.

Lemma remove_loop_run n i fd v l st : vec_ok v l -> (i + n = length l)%nat ->
  Forall (fun p => pfd p <> fd) (take i l) ->
  exists r v' st', remove_loop n (Z.of_nat i) fd (v, st) = Ok (r, (v', st')) /\ reload_addfd v' = reload_addfd v /\
    ((r = -1 /\ v' = v /\ Forall (fun p => pfd p <> fd) l) \/
     (r = 0 /\ exists i p q, pfd p = fd /\ l !! i = Some p /\ last l = Some q /\ vec_ok v' (swap_out i q l))).
Proof.
  intros Hok. revert i. induction n as [|n IH]; intros i Hi Hbefore.
  { eexists _, _, _. split; [reflexivity|]. split; [done|]. left. split; [done|]. split; [done|].
    by rewrite take_ge in Hbefore by lia. }
  destruct (lookup_lt_is_Some_2 l i) as [p Hp]; [lia|].
  cbn [remove_loop]. unfold mbind at 1, M_bind at 1. rewrite (read_slot_ok v l) with (p := p) by done.
  destruct (Z.eqb_spec (pfd p) fd) as [Hfd|Hfd].
  2:{ replace (Z.of_nat i + 1) with (Z.of_nat (S i)) by lia. apply IH; [lia|].
      rewrite (take_S_r _ _ p) by done. apply Forall_app. by split; [|constructor]. }
  destruct (last l) as [q|] eqn:Hq; [|apply last_None in Hq; by subst].
  assert (Hrq : read_slot (size v - 1) (v, st) = Ok (q, (v, st))).
  { rewrite (vo_size v l Hok). replace (Z.of_nat (length l) - 1) with (Z.of_nat (pred (length l))) by lia.
    apply (read_slot_ok v l); [done|]. by rewrite <- last_lookup. }
  unfold mbind at 1, M_bind at 1, v_get at 1, mgets. cbn [fst]. unfold mbind at 1, M_bind at 1. rewrite Hrq.
  assert (Hlen : Z.of_nat (length l) <= Z.of_nat (length (slots v))).
  { destruct (vo_list v l Hok) as [rest ->]. rewrite length_app, length_fmap. lia. }
  unfold mbind at 1, M_bind at 1, write_slot. rewrite decide_True by (simpl; lia). cbn [fst snd]. rewrite Nat2Z.id.
  pose proof (shrink_ok v l i q Hok ltac:(lia)) as Hok'. set (v1 := PollfdVector (size v - 1) _ _ _) in Hok'.
  assert (Hfin : forall st0, exists v', pollfd_vector_compact (v1, st0) = Ok (tt, (v', st0)) /\
      vec_ok v' (swap_out i q l) /\ reload_addfd v' = reload_addfd v) by (intros st0; exact (compact_ok v1 _ st0 Hok')).
  unfold mbind at 1, M_bind at 1, v_mod at 1, mmod. cbn [fst snd size capacity reload_addfd slots]. fold v1.
  unfold mbind at 1, M_bind at 1, v_get at 1, mgets. cbn [fst]. change (size v1) with (size v - 1).
  unfold mbind, M_bind, v_stats. destruct MONITORSTATS; unfold mmod, mret, M_ret; cbn [fst snd].
  - destruct (Hfin (StatsSetNumUFDS (size v - 1 - 1) st)) as (v' & -> & H & Hr). eexists _, _, _. split; [reflexivity|].
    split; [done|]. right. split; [done|]. by exists i, p, q.
  - destruct (Hfin st) as (v' & -> & H & Hr). eexists _, _, _. split; [reflexivity|].
    split; [done|]. right. split; [done|]. by exists i, p, q.
Qed.

Lemma remove_run v l st fd : vec_ok v l ->
  exists r v' st', pollfd_vector_remove fd (v, st) = Ok (r, (v', st')) /\ reload_addfd v' = reload_addfd v /\
    ((r = -1 /\ v' = v /\ Forall (fun p => pfd p <> fd) l) \/
     (r = 0 /\ exists i p q, pfd p = fd /\ l !! i = Some p /\ last l = Some q /\ vec_ok v' (swap_out i q l))).
Proof.
  intros Hok. destruct (remove_loop_run (length l) 0 fd v l st Hok) as (r & v' & st' & E & H); [done|by constructor|].
  exists r, v', st'. split; [|done]. unfold pollfd_vector_remove, mbind, M_bind, v_get, mgets. cbn [fst].
  by rewrite (vo_size v l Hok), Nat2Z.id.
Qed.

(** Removing a descriptor reports whether it was there; if so exactly one entry
    for it is gone and all others are kept, though the last one may move into its
    place, and the block that is shrunk in half still holds every entry. *)
Theorem pollfd_vector_remove_refines v l st fd (Hok : vec_ok v l) :
  exists r v' st', pollfd_vector_remove fd (v, st) = Ok (r, (v', st')) /\
    ((r = -1 /\ v' = v /\ Forall (fun p => pfd p <> fd) l) \/
     (r = 0 /\ exists p l', pfd p = fd /\ l ≡ₚ p :: l' /\ vec_ok v' l')).
Proof.
  destruct (remove_run v l st fd Hok) as (r & v' & st' & E & _ & H). exists r, v', st'. split; [done|].
  destruct H as [H|(-> & i & p & q & Hp & Hi & Hq & H)]; [by left|right]. split; [done|].
  exists p, (swap_out i q l). split; [done|]. split; [by apply swap_out_perm|done].
Qed.

(** ** The vector with its first entry, the reload event *)

Lemma swap_out_cons i q h t : t <> [] -> swap_out (S i) q (h :: t) = h :: swap_out i q t.
Proof.
  intros Ht. unfold swap_out. simpl. destruct t as [|x t]; [done|]. simpl. by rewrite Nat.sub_0_r.
Qed.

Lemma last_cons_ne {A} (h : A) t : t <> [] -> last (h :: t) = last t.
Proof. by destruct t. Qed.

(** Removing any other descriptor keeps the first entry first. *)
Lemma del_fd_run v h t st fd : vec_ok v (h :: t) -> pfd h <> fd ->
  exists r v' st' t', del_fd fd (v, st) = Ok (r, (v', st')) /\ vec_ok v' (h :: t') /\
    (length t' <= length t)%nat /\ t' ⊆ t.
Proof.
  intros Hok Hne. destruct (remove_run v _ st fd Hok) as (r & v' & st' & E & _ & H).
  unfold del_fd, mbind, M_bind. rewrite E. destruct H as [(-> & -> & _)|(-> & i & p & q & Hp & Hi & Hq & H)].
  { eexists _, _, _, t. split; [reflexivity|]. by split. }
  destruct i as [|i]; simpl in Hi; [congruence|].
  assert (Ht : t <> []) by (by intros ->). rewrite swap_out_cons in H by done. rewrite last_cons_ne in Hq by done.
  pose proof (swap_out_perm i p q t Hi Hq) as Hperm.
  eexists _, _, _, _. split; [reflexivity|]. split; [exact H|]. split.
  - rewrite (Permutation_length Hperm). simpl. lia.
  - intros x Hx. rewrite Hperm. set_solver.
Qed.

(** The entries after [poll] has stored its events. *)
Fixpoint mark (rs : list Z) (l : list pollfd) : list pollfd :=
  match rs, l with
  | r :: rs, p :: l => Pollfd (pfd p) (events p) r :: mark rs l
  | _, _ => l
  end.

Lemma mark_pfd rs l : pfd <$> mark rs l = pfd <$> l.
Proof. revert l. induction rs as [|r rs IH]; intros [|p l]; try done. simpl. by rewrite IH. Qed.

Lemma mark_length rs l : length (mark rs l) = length l.
Proof. by rewrite <- (length_fmap pfd), mark_pfd, length_fmap. Qed.

Lemma store_revents_list rs l rest : (length rs <= length l)%nat ->
  store_revents rs ((Some <$> l) ++ rest) = (Some <$> mark rs l) ++ rest.
Proof.
  revert l. induction rs as [|r rs IH]; intros l Hl; [by destruct l, rest|].
  destruct l as [|p l]; simpl in Hl; [lia|]. simpl. by rewrite IH by lia.
Qed.

Lemma store_poll_ok v l rs : vec_ok v l -> vec_ok (store_poll rs v) (mark (take (length l) rs) l).
Proof.
  intros [Hcap Hsmall Hlen Hsize [rest Hs]]. unfold store_poll. rewrite Hsize, Nat2Z.id.
  assert (Hr : store_revents (take (length l) rs) (slots v) = (Some <$> mark (take (length l) rs) l) ++ rest).
  { rewrite Hs. apply store_revents_list. rewrite length_take. lia. }
  split; simpl; [done|done| |by rewrite mark_length|by exists rest].
  rewrite Hr. rewrite Hs in Hlen. revert Hlen. by rewrite !length_app, !length_fmap, mark_length.
Qed.
End refinement.

(** * An example *)

#[local] Existing Instance default_build.

(** The vector after [init_poll_list]: the descriptor of the reload event, then one
    user descriptor. *)
Definition start_vector : Pollfd_vector :=
  match pollfd_vector_init (PollfdVector 0 0 3 [], zero_stats) with
  | Ok (_, s) => match add_fd 3 s with Ok (_, (v, _)) => v | _ => s.1 end
  | _ => PollfdVector 0 0 0 []
  end.

Lemma start_vector_ok : vec_ok start_vector [Pollfd 3 POLLIN 0].
Proof.
  split.
  - exists 0. split; [lia|]. vm_compute. reflexivity.
  - vm_compute. reflexivity.
  - vm_compute. reflexivity.
  - vm_compute. reflexivity.
  - exists (replicate 49 None). vm_compute. reflexivity.
Qed.

Lemma pollfd_vector_append_refines_witness : exists v' st',
  pollfd_vector_append (Pollfd 7 POLLIN 0) (start_vector, zero_stats) = Ok (tt, (v', st')) /\
  vec_ok v' [Pollfd 3 POLLIN 0; Pollfd 7 POLLIN 0].
Proof.
  destruct (pollfd_vector_append_refines start_vector [Pollfd 3 POLLIN 0] zero_stats (Pollfd 7 POLLIN 0) start_vector_ok)
    as (v' & st' & E & H & _); [by_decide|]. exists v', st'. split; [exact E|exact H].
Defined.

Lemma pollfd_vector_remove_refines_witness : exists v' st',
  pollfd_vector_remove 3 (start_vector, zero_stats) = Ok (0, (v', st')) /\ vec_ok v' [].
Proof.
  destruct (pollfd_vector_remove_refines start_vector [Pollfd 3 POLLIN 0] zero_stats 3 start_vector_ok)
    as (r & v' & st' & E & [(_ & _ & H)|(-> & p & l' & _ & Hp & H)]).
  - apply Forall_cons in H as [H _]. by destruct H.
  - exists v', st'. split; [exact E|]. assert (l' = []) as ->; [|exact H].
    apply Permutation_length in Hp. simpl in Hp. destruct l'; [reflexivity|simpl in Hp; lia].
Defined.
