(* ===== verification/HandOver.v ===== *)
(** How a new descriptor gets to the polling thread: [new_ufd_handler] and the event on
    [reload_addfd] in [poll_on_ufds], [monitor/monitor.c].

    One thread for each connection writes its descriptor into an event counter, and the
    polling thread reads it.  A counter adds up what is written, so [add_fd_lock] is taken
    before a write and released by the reader.  The mutex is the default one, which does
    not record its owner. *)
From Stdlib Require Import Permutation.
From S2P Require Import Prelude.

(** ** The event counter *)

Definition COUNTER_MAX : Z := 2 ^ 64 - 2.

(** [write]: the value is refused, has to wait, or is added. *)
Inductive ev_result : Type := EvInvalid | EvBlocked | EvDone (counter : Z).
Definition eventfd_write (v counter : Z) : ev_result :=
  if v =? 2 ^ 64 - 1 then EvInvalid
  else if COUNTER_MAX <? counter + v then EvBlocked
  else EvDone (counter + v).

(** ** The threads *)

(** A handler before it takes the lock, before it writes, and at its end. *)
Inductive ho_pc : Type := HoStart (ufd : Z) | HoLocked (ufd : Z) | HoDone.
#[export] Instance ho_pc_eq_dec : EqDecision ho_pc.
Proof. solve_decision. Defined.

Record ho_state := Ho {
  counter : Z;
  add_fd_lock : bool;
  handlers : list ho_pc;
  polled : list Z;              (** descriptors the polling thread was given, in order *)
  in_loop : bool;               (** the polling thread is in its loop *)
  ho_errors : nat;
  num_threads : Z
}.

Definition set_handler (i : nat) (h : ho_pc) (s : ho_state) : ho_state :=
  Ho (counter s) (add_fd_lock s) (<[i := h]> (handlers s)) (polled s) (in_loop s) (ho_errors s) (num_threads s).
Definition set_counter (c : Z) (lk : bool) (s : ho_state) : ho_state :=
  Ho c lk (handlers s) (polled s) (in_loop s) (ho_errors s) (num_threads s).
Definition ho_log_err (s : ho_state) : ho_state :=
  Ho (counter s) (add_fd_lock s) (handlers s) (polled s) (in_loop s) (S (ho_errors s)) (num_threads s).
Definition thread_ends (s : ho_state) : ho_state :=
  Ho (counter s) (add_fd_lock s) (handlers s) (polled s) (in_loop s) (ho_errors s) (s32 (num_threads s - 1)).

(** The next step of handler [i], if it has one. *)
Definition new_ufd_handler (i : nat) (s : ho_state) : option ho_state :=
  match handlers s !! i with
  | Some (HoStart ufd) =>
      if add_fd_lock s then None else Some (set_counter (counter s) true (set_handler i (HoLocked ufd) s))
  | Some (HoLocked ufd) =>
      match eventfd_write (u64 ufd) (counter s) with
      | EvInvalid => Some (thread_ends (ho_log_err (set_counter (counter s) false (set_handler i HoDone s))))
      | EvBlocked => None
      | EvDone c => Some (thread_ends (set_counter c (add_fd_lock s) (set_handler i HoDone s)))
      end
  | _ => None
  end.

(** The polling thread when [poll] reports the counter, which it does when it is not
    zero. *)
Definition reload_event (s : ho_state) : option ho_state :=
  if (in_loop s && (0 <? counter s))%bool then
    let ufd := s32 (counter s) in
    let s := set_counter 0 false s in
    Some (if ufd <=? 0
          then ho_log_err (Ho (counter s) (add_fd_lock s) (handlers s) (polled s) false (ho_errors s) (num_threads s))
          else Ho (counter s) (add_fd_lock s) (handlers s) (polled s ++ [ufd]) (in_loop s) (ho_errors s) (num_threads s))
  else None.

Inductive ho_step : ho_state -> ho_state -> Prop :=
| ho_handler i s s' : new_ufd_handler i s = Some s' -> ho_step s s'
| ho_poll s s' : reload_event s = Some s' -> ho_step s s'.

(** One handler for each descriptor, and nothing handed over. *)
Definition ho_start (us : list Z) : ho_state := Ho 0 false (HoStart <$> us) [] true 0 (Z.of_nat (length us) - 1).

(** * Every descriptor arrives *)

Definition waiting (h : ho_pc) : list Z := match h with HoStart u | HoLocked u => [u] | HoDone => [] end.
Definition is_locked (h : ho_pc) : Prop := match h with HoLocked _ => True | _ => False end.
#[export] Instance is_locked_dec h : Decision (is_locked h).
Proof. destruct h; apply _. Defined.

(** What is in the counter. *)
Definition pending (s : ho_state) : list Z := if counter s =? 0 then [] else [counter s].

(** The lock is free and the counter zero, or one handler holds the lock and has not
    written, or the counter is the descriptor of one that has. *)
Inductive phase (s : ho_state) : Prop :=
| ph_free : add_fd_lock s = false -> counter s = 0 -> (forall h, h ∈ handlers s -> ~ is_locked h) -> phase s
| ph_locked i u : add_fd_lock s = true -> counter s = 0 -> handlers s !! i = Some (HoLocked u) ->
    (forall j h, handlers s !! j = Some h -> is_locked h -> j = i) -> phase s
| ph_written : add_fd_lock s = true -> 0 < counter s < 2 ^ 31 -> (forall h, h ∈ handlers s -> ~ is_locked h) -> phase s.

Record ho_inv (us : list Z) (s : ho_state) : Prop := {
  hi_all : polled s ++ pending s ++ concat (waiting <$> handlers s) ≡ₚ us;
  hi_range : Forall (fun u => 0 < u < 2 ^ 31) us;
  hi_phase : phase s;
  hi_polling : in_loop s = true;
  hi_errors : ho_errors s = 0%nat
}.

Lemma concat_insert (hs : list ho_pc) i h h' : hs !! i = Some h ->
  waiting h ++ concat (waiting <$> <[i := h']> hs) ≡ₚ waiting h' ++ concat (waiting <$> hs).
Proof.
  revert i. induction hs as [|x hs IH]; intros [|i] H; try done.
  - injection H as ->. cbn. rewrite !app_assoc. by rewrite (Permutation_app_comm (waiting h)).
  - cbn. rewrite Permutation_app_swap_app, (IH i H). apply Permutation_app_swap_app.
Qed.

Lemma waiting_in hs i h u : hs !! i = Some h -> u ∈ waiting h -> u ∈ concat (waiting <$> hs).
Proof.
  intros Hi Hu. apply list_elem_of_In, in_concat. exists (waiting h). split; apply list_elem_of_In; [|done].
  apply list_elem_of_fmap_2. by eapply list_elem_of_lookup_2.
Qed.

Lemma in_range us s u : ho_inv us s -> u ∈ concat (waiting <$> handlers s) -> 0 < u < 2 ^ 31.
Proof.
  intros [Ha Hr _ _ _] Hu. rewrite Forall_forall in Hr. apply Hr. rewrite <- Ha. set_solver.
Qed.

Lemma take_lock_inv us s i u : ho_inv us s -> handlers s !! i = Some (HoStart u) -> add_fd_lock s = false ->
  ho_inv us (set_counter (counter s) true (set_handler i (HoLocked u) s)).
Proof.
  intros [Ha Hr Hp Hl He] Hi Hlk. destruct Hp as [_ Hc Hno|j v H|H]; [|congruence..]. split; [|done| |done|done].
  - rewrite <- Ha. unfold pending. cbn. rewrite Hc. cbn. apply Permutation_app_head.
    pose proof (concat_insert (handlers s) i _ (HoLocked u) Hi) as H. cbn in H. by apply Permutation_cons_inv in H.
  - apply (ph_locked _ i u); cbn; [done|done|by apply list_lookup_insert_eq; eapply lookup_lt_Some|].
    intros j h Hj Hh. destruct (decide (j = i)) as [|Hne]; [done|]. rewrite list_lookup_insert_ne in Hj by done.
    exfalso. apply (Hno h); [by eapply list_elem_of_lookup_2|done].
Qed.

Lemma write_inv us s i u : ho_inv us s -> handlers s !! i = Some (HoLocked u) ->
  eventfd_write (u64 u) (counter s) = EvDone u /\ ho_inv us (thread_ends (set_counter u (add_fd_lock s) (set_handler i HoDone s))).
Proof.
  intros Hinv Hi. pose proof Hinv as [Ha Hr Hp Hl He].
  assert (Hu : 0 < u < 2 ^ 31) by (apply (in_range us s u Hinv); eapply waiting_in; [exact Hi|by left]).
  assert (Hin : HoLocked u ∈ handlers s) by by eapply list_elem_of_lookup_2.
  destruct Hp as [_ _ Hno|j v Hlk Hc Hj Huni|_ _ Hno]; [by destruct (Hno _ Hin)| |by destruct (Hno _ Hin)].
  assert (Hu64 : u64 u = u) by (unfold u64; apply Z.mod_small; lia). split.
  - unfold eventfd_write, COUNTER_MAX. rewrite Hu64, Hc. rewrite (proj2 (Z.eqb_neq u (2 ^ 64 - 1))) by lia.
    rewrite (proj2 (Z.ltb_ge (2 ^ 64 - 2) (0 + u))) by lia. done.
  - split; [|done| |done|done].
    + rewrite <- Ha. unfold pending. cbn. rewrite Hc, (proj2 (Z.eqb_neq u 0)) by lia. cbn. apply Permutation_app_head.
      pose proof (concat_insert (handlers s) i _ HoDone Hi) as H. exact H.
    + apply ph_written; cbn; [done|lia|]. intros h Hh Hlh. apply list_elem_of_lookup_1 in Hh as [k Hk].
      destruct (decide (k = i)) as [->|Hne].
      * rewrite list_lookup_insert_eq in Hk by by eapply lookup_lt_Some. injection Hk as <-. done.
      * rewrite list_lookup_insert_ne in Hk by done. rewrite (Huni k h Hk Hlh), (Huni i _ Hi I) in Hne. done.
Qed.

Lemma reload_inv us s s' : ho_inv us s -> reload_event s = Some s' -> ho_inv us s'.
Proof.
  intros [Ha Hr Hp Hl He] E. unfold reload_event in E. rewrite Hl in E. cbn [andb] in E.
  destruct (Z.ltb_spec 0 (counter s)) as [Hc|]; [|done].
  destruct Hp as [_ Hc0 _|? ? _ Hc0|Hlk Hc' Hno]; [lia..|]. rewrite s32_id in E by (unfold is_s32; lia).
  rewrite (proj2 (Z.leb_gt (counter s) 0)) in E by lia. injection E as <-. split; [|done| |done|done].
  - rewrite <- Ha. unfold pending. cbn. rewrite (proj2 (Z.eqb_neq (counter s) 0)) by lia. rewrite <- app_assoc. done.
  - by apply ph_free.
Qed.

Lemma ho_step_inv us s s' : ho_step s s' -> ho_inv us s -> ho_inv us s'.
Proof.
  intros [i t t' E|t t' E] Hinv; [|by eapply reload_inv]. unfold new_ufd_handler in E.
  destruct (handlers t !! i) as [[u|u|]|] eqn:Hi; [| |done|done].
  - destruct (add_fd_lock t) eqn:Hlk; [done|]. injection E as <-. by apply take_lock_inv.
  - destruct (write_inv us t i u Hinv Hi) as [Ew H]. rewrite Ew in E. by injection E as <-.
Qed.

(** Steps still to come. *)
Definition todo (h : ho_pc) : nat := match h with HoStart _ => 3 | HoLocked _ => 2 | HoDone => 0 end.
Definition todo_all (hs : list ho_pc) : nat := foldr (fun h n => (todo h + n)%nat) O hs.
Definition ho_measure (s : ho_state) : nat := (todo_all (handlers s) + (if Z.eqb (counter s) 0 then 0 else 1))%nat.

Lemma sum_insert (hs : list ho_pc) i h h' : hs !! i = Some h ->
  (todo h + todo_all (<[i := h']> hs) = todo h' + todo_all hs)%nat.
Proof.
  revert i. induction hs as [|x hs IH]; intros [|i] H; try done.
  - injection H as ->. cbn. lia.
  - specialize (IH i H). change (todo h + (todo x + todo_all (<[i := h']> hs)) = todo h' + (todo x + todo_all hs))%nat. lia.
Qed.

Lemma ho_step_measure us s s' : ho_step s s' -> ho_inv us s -> ho_measure s = S (ho_measure s').
Proof.
  intros [i t t' E|t t' E] Hinv; unfold ho_measure.
  - unfold new_ufd_handler in E. destruct (handlers t !! i) as [[u|u|]|] eqn:Hi; [| |done|done].
    + destruct (add_fd_lock t); [done|]. injection E as <-. cbn [handlers counter set_counter set_handler].
      pose proof (sum_insert _ i _ (HoLocked u) Hi) as H. cbn [todo] in H. lia.
    + destruct (write_inv us t i u Hinv Hi) as [Ew H]. rewrite Ew in E. injection E as <-. cbn [handlers counter set_counter set_handler thread_ends].
      assert (Hu : 0 < u < 2 ^ 31) by (apply (in_range us t u Hinv); eapply waiting_in; [exact Hi|by left]).
      assert (Hc : counter t = 0).
      { assert (Hin : HoLocked u ∈ handlers t) by by eapply list_elem_of_lookup_2.
        destruct (hi_phase _ _ Hinv) as [_ Hc _|? ? _ Hc _ _|_ _ Hno]; [done|done|by destruct (Hno _ Hin)]. }
      rewrite Hc, (proj2 (Z.eqb_neq u 0)) by lia. pose proof (sum_insert _ i _ HoDone Hi) as Hs. cbn [todo] in Hs. cbn [Z.eqb]. lia.
  - unfold reload_event in E. rewrite (hi_polling _ _ Hinv) in E. cbn [andb] in E.
    destruct (Z.ltb_spec 0 (counter t)) as [Hc|]; [|done]. rewrite (proj2 (Z.eqb_neq (counter t) 0)) by lia.
    destruct (s32 (counter t) <=? 0); injection E as <-; cbn [handlers counter set_counter ho_log_err Z.eqb]; lia.
Qed.

(** As long as a descriptor is on its way, a step is possible. *)
Lemma ho_progress us s : ho_inv us s -> (exists s', ho_step s s') \/ (pending s = [] /\ concat (waiting <$> handlers s) = []).
Proof.
  intros Hinv. pose proof Hinv as [Ha Hr Hp Hl He]. destruct Hp as [Hlk Hc Hno|i u Hlk Hc Hi _|Hlk Hc Hno].
  - destruct (decide (Exists (fun h => h <> HoDone) (handlers s))) as [Hex|Hall].
    + left. apply Exists_exists in Hex as (h & Hh & Hd). apply list_elem_of_lookup_1 in Hh as [i Hi]. pose proof (list_elem_of_lookup_2 _ _ _ Hi) as Hin.
      destruct h as [u|u|]; [|by destruct (Hno _ Hin)|done]. eexists. apply (ho_handler i). unfold new_ufd_handler. by rewrite Hi, Hlk.
    + right. split; [unfold pending; by rewrite Hc|]. apply not_Exists_Forall in Hall; [|intros h; apply _].
      clear -Hall. induction Hall as [|h hs Hh _ IH]; [done|]. apply dec_stable in Hh as ->. exact IH.
  - left. destruct (write_inv us s i u Hinv Hi) as [Ew _]. eexists. apply (ho_handler i). unfold new_ufd_handler. by rewrite Hi, Ew.
  - left. eexists. apply ho_poll. unfold reload_event. rewrite Hl, (proj2 (Z.ltb_lt 0 (counter s))) by lia. done.
Qed.

Lemma ho_start_inv us : Forall (fun u => 0 < u < 2 ^ 31) us -> ho_inv us (ho_start us).
Proof.
  intros Hr. split; [|done| |done|done].
  - cbn. clear Hr. induction us as [|u us IH]; [done|]. cbn. by rewrite IH.
  - apply ph_free; [done|done|]. cbn. intros h (u & -> & _)%list_elem_of_fmap. intros [].
Qed.

Lemma ho_reach_inv us n s : Forall (fun u => 0 < u < 2 ^ 31) us -> nsteps ho_step n (ho_start us) s ->
  ho_inv us s /\ (n + ho_measure s = 3 * length us)%nat.
Proof.
  intros Hr. assert (H0 : ho_measure (ho_start us) = (3 * length us)%nat).
  { unfold ho_measure. cbn. rewrite Nat.add_0_r. clear Hr. induction us as [|u us IH]; [done|]. cbn. cbn in IH. lia. }
  rewrite <- H0. pose proof (ho_start_inv us Hr) as Hi. revert Hi. generalize (ho_start us). intros s0 Hi Hs.
  induction Hs as [s0|n s0 s1 s2 Hst _ IH]; [done|]. destruct (IH (ho_step_inv _ _ _ Hst Hi)) as [H1 H2]. split; [done|].
  rewrite (ho_step_measure us s0 s1 Hst Hi). lia.
Qed.

(** C15: each new descriptor reaches the polling thread, once and unchanged.  However
    the threads that hand over the descriptors [us] and the polling thread are
    interleaved, what was polled, what is in the counter and what is still to be written are together
    the descriptors given; the threads are never all stuck before the end, which is reached after
    exactly three steps for each, and then the polling thread has been given every descriptor. *)
Theorem handover_complete us n s (Hr : Forall (fun u => 0 < u < 2 ^ 31) us) (Hs : nsteps ho_step n (ho_start us) s) :
  polled s ++ pending s ++ concat (waiting <$> handlers s) ≡ₚ us /\
  ((exists s', ho_step s s') \/ (n = 3 * length us)%nat) /\
  (n = (3 * length us)%nat -> polled s ≡ₚ us) /\ (n <= 3 * length us)%nat.
Proof.
  destruct (ho_reach_inv us n s Hr Hs) as [Hi Hn]. split; [apply Hi|]. split; [|split; [|lia]].
  - destruct (ho_progress us s Hi) as [H|[Hp Hc]]; [by left|right].
    enough (ho_measure s = O) by lia. unfold ho_measure, pending in *. destruct (counter s =? 0); [|done].
    clear -Hc. induction (handlers s) as [|h hs IH]; [done|]. cbn in Hc. apply app_eq_nil in Hc as [Hh Hc].
    destruct h; try done. cbn. by apply IH.
  - intros Hend. destruct (ho_progress us s Hi) as [(s' & Hst)|[Hp Hc]].
    + pose proof (ho_step_measure us s s' Hst Hi). lia.
    + pose proof (hi_all us s Hi) as Ha. by rewrite Hp, Hc, !app_nil_r in Ha.
Qed.

Definition two_handed : ho_state := Ho 0 false [HoDone; HoDone] [9; 7] true 0 (-1).

Lemma handover_complete_witness : nsteps ho_step 6 (ho_start [7; 9]) two_handed /\ polled two_handed ≡ₚ [7; 9].
Proof.
  assert (Hs : nsteps ho_step 6 (ho_start [7; 9]) two_handed).
  { eapply nsteps_l; [apply (ho_handler 1); reflexivity|]. eapply nsteps_l; [apply (ho_handler 1); reflexivity|].
    eapply nsteps_l; [apply ho_poll; reflexivity|]. eapply nsteps_l; [apply (ho_handler 0); reflexivity|].
    eapply nsteps_l; [apply (ho_handler 0); reflexivity|]. eapply nsteps_l; [apply ho_poll; reflexivity|]. apply nsteps_O. }
  split; [exact Hs|]. apply (handover_complete [7; 9] 6 two_handed); [|exact Hs|reflexivity].
  repeat constructor; lia.
Defined.

(** ** Values that are no descriptors *)

(** A failed [recv_fd] is handed over as well; the counter refuses it. *)
Lemma handover_failed : exists s s', new_ufd_handler 0 (ho_start [-1]) = Some s /\ new_ufd_handler 0 s = Some s' /\
  add_fd_lock s' = false /\ counter s' = 0 /\ ho_errors s' = 1%nat.
Proof. eexists _, _. split; [reflexivity|]. split; [reflexivity|]. done. Qed.

(** Descriptor 0 does not wake the polling thread, and the lock is never released: every
    later handler waits for ever. *)
Lemma handover_zero us : exists s, nsteps ho_step 2 (ho_start (0 :: us)) s /\ forall s', ~ ho_step s s'.
Proof.
  exists (Ho 0 true (HoDone :: (HoStart <$> us)) [] true 0 (s32 (Z.of_nat (length (0 :: us)) - 1 - 1))). split.
  - eapply nsteps_l; [apply (ho_handler 0); unfold new_ufd_handler; cbn [handlers ho_start fmap list_fmap lookup list_lookup add_fd_lock]; reflexivity|].
    eapply nsteps_l; [apply (ho_handler 0)|apply nsteps_O]. unfold new_ufd_handler.
    cbn [handlers set_counter set_handler insert list_insert lookup list_lookup ho_start fmap list_fmap].
    change (eventfd_write (u64 0) (counter _)) with (EvDone 0). reflexivity.
  - intros s' Hst. inversion Hst as [i t t' E|t t' E]; subst; unfold reload_event, new_ufd_handler in E; cbn [handlers] in E.
    + destruct i as [|i]; [discriminate E|]. rewrite lookup_cons, list_lookup_fmap in E. destruct (us !! i); discriminate E.
    + discriminate E.
Qed.
