(* ===== verification/Monitor.v ===== *)
(** The polling thread, [monitor/monitor.c]: [init_poll_list], [handle_userfault] and
    the loop of [poll_on_ufds].

    What [poll] and [read] return are arguments. *)
From S2P Require Import Prelude Config MonitorStats Os LruBuffer UtHash ExternRam ThreadedIo Upid.
From S2P Require Import BufferAllocator PageCache World PageCacheRead Userfault Consistency Faults.
From S2P Require Import PollfdVector.

Definition UFFD_EVENT_PAGEFAULT : Z := 18.
Definition UFFD_EVENT_FORK : Z := 19.
Definition UFFD_EVENT_REMAP : Z := 20.
Definition UFFD_EVENT_REMOVE : Z := 21.
Definition UFFD_EVENT_UNMAP : Z := 22.
Definition sizeof_uffd_msg : Z := 32.

(** [read(ufd, &msg, sizeof(msg))]: result, [errno] if it failed, and the message. *)
Record uffd_read := UffdRead { rd_ret : Z; rd_errno : Z; msg_event : Z; msg_address : Z }.

Record mworld `{X : ExternRAM} := Mworld { mw : world; mv : Pollfd_vector }.
Arguments Mworld {_ _} _ _.

Section monitor.
Context `{X : ExternRAM} `{F : BuildFlags, I : StaleIterator, WF : WriteFuel}.

Definition on_world {A} (m : M world A) : M mworld A := zoom mw (fun w p => Mworld w (mv p)) m.
Definition on_vector {A} (m : M (Pollfd_vector * MonitorStats) A) : M mworld A :=
  zoom (fun p => (mv p, s_stats (w_sys (mw p))))
    (fun vs p => Mworld (set_sys (Sys (w_os (mw p)) (w_dbg (mw p)) vs.2) (mw p)) vs.1) m.
Definition m_log_err : M mworld unit := on_world w_log_err.

(** [reload_fd] is the new event descriptor, -1 if there is none. *)
Definition init_poll_list (reload_fd : Z) : M mworld Z :=
  r ← on_vector pollfd_vector_init;
  if r <? 0 then m_log_err;; mret (-1)
  else
    on_vector (v_mod (fun v => PollfdVector (size v) (capacity v) reload_fd (slots v)));;
    if reload_fd =? -1 then m_log_err;; mret (-1)
    else on_vector (pollfd_vector_append (Pollfd reload_fd POLLIN 0));; mret 0.

Definition handle_userfault (ufd : Z) (r : uffd_read) : M mworld Z :=
  if rd_ret r <? 0 then
    on_world (in_sys (on_dbg (set_errno (rd_errno r))));;
    if rd_errno r =? EAGAIN then mret 0 else m_log_err;; mret (rd_ret r)
  else if negb (rd_ret r =? sizeof_uffd_msg) then m_log_err;; mret (rd_ret r)
  else if msg_event r =? UFFD_EVENT_PAGEFAULT then
    let pageaddr := page_of (msg_address r) in
    ret ← on_world (read_from_externram ufd pageaddr);
    if ret <? 0 then m_log_err;; mret ret
    else
      (if 0 <? ret then on_vector (del_fd ret);; mret tt else mret tt);;
      mret 0
  else if bool_decide (msg_event r ∈ [UFFD_EVENT_REMOVE; UFFD_EVENT_UNMAP; UFFD_EVENT_FORK; UFFD_EVENT_REMAP]) then
    on_vector (del_fd ufd);; mret 0
  else m_log_err;; mret (-1).

(** ** One turn of the loop *)

Definition has (flag r : Z) : bool := negb (Z.land r flag =? 0).

(** The loop over the user descriptors: a bad event ends it. *)
Fixpoint dispatch (fuel : nat) (i : Z) (reads : Z -> uffd_read) : M mworld unit :=
  n ← on_vector (v_get size);
  if i <? n then
    p ← on_vector (read_slot i);
    go ← (if 0 <? revents p then
            if has POLLERR (revents p) then m_log_err;; mret false
            else if negb (has POLLIN (revents p)) then m_log_err;; mret false
            else
              rc ← handle_userfault (pfd p) (reads (pfd p));
              if rc <? 0 then m_log_err;; mret false else mret true
          else mret true);
    if go : bool then
      match fuel with O => mub OutOfFuel | S fuel => dispatch fuel (i + 1) reads end
    else mret tt
  else mret tt.

(** The event on [reload_addfd]: a new descriptor to poll.  [reload] is the result of
    reading it and the value. *)
Definition handle_reload (reload : Z * Z) : M mworld bool :=
  head ← on_vector (read_slot 0);
  if 0 <? revents head then
    if has POLLERR (revents head) then m_log_err;; mret false
    else if negb (has POLLIN (revents head)) then m_log_err;; mret false
    else
      mwhen (negb (reload.1 =? 8)) m_log_err;;
      let ufd := s32 reload.2 in
      if ufd <=? 0 then m_log_err;; mret false
      else on_vector (add_fd ufd);; mret true
  else mret true.

(** One turn, given the result of [poll] and the events it stored; whether the loop
    goes on. *)
Definition poll_turn (poll_rc : Z) (rs : list Z) (fatal_error_in_progress : bool) (reload : Z * Z)
    (reads : Z -> uffd_read) : M mworld bool :=
  if poll_rc =? -1 then m_log_err;; mret false
  else
    on_vector (v_mod (store_poll rs));;
    if fatal_error_in_progress then mret false
    else
      go ← handle_reload reload;
      if go : bool then
        n ← on_vector (v_get size);
        dispatch (Z.to_nat n) 1 reads;;
        mret true
      else mret false.

(** ** The loop *)

(** What [poll] and [read] deliver in a turn. *)
Record turn := Turn { t_poll : Z; t_revents : list Z; t_fatal : bool; t_reload : Z * Z; t_reads : Z -> uffd_read }.

(** The loop for as many turns as are given: [None] if it goes on after them, and
    otherwise the descriptors closed at its end. *)
Fixpoint poll_on_ufds (turns : list turn) : M mworld (option (list Z)) :=
  match turns with
  | [] => mret None
  | t :: turns =>
      go ← poll_turn (t_poll t) (t_revents t) (t_fatal t) (t_reload t) (t_reads t);
      if go : bool then poll_on_ufds turns
      else
        fds ← on_vector pollfd_vector_close;
        on_vector pollfd_vector_free;;
        mret (Some fds)
  end.
End monitor.

(** * Turns of the loop are safe *)

Section safety.
Context {OSI : OS} {OL : OSLaws OSI} {X : ExternRAM} {L : ExternRAMLaws X}.
Context {F : BuildFlags} {SB : SyncBuild F} {I : StaleIterator} {WF : WriteFuel} {EF : EnoughFuel L WF}.

Abbreviation user_fd w u := (0 <= u < 4096 /\ is_Some (client_of w u)) (only parsing).

(** The polling thread between two steps: the vector holds the reload event and then
    registered descriptors only. *)
Record polling {LO : Lost} (p : mworld) (l : list pollfd) : Prop := {
  pl_wok : wok (mw p);
  pl_within : within (mw p);
  pl_vec : vec_ok (mv p) l;
  pl_fds : exists h t, l = h :: t /\ client_of (mw p) (pfd h) = None /\
    Forall (fun q => user_fd (mw p) (pfd q)) t
}.

(** From [p] to [p'], whose vector holds [l']: contents are kept, except that what an
    error report comes with may be given up. *)
Record turned (LO : Lost) (p p' : mworld) (l' : list pollfd) : Prop := {
  tu_fd : w_fd (mw p') = w_fd (mw p);
  tu_err : (errors (mw p) <= errors (mw p'))%nat;
  tu_ok : exists LO' : Lost, polling (LO := LO') p' l' /\ (LO' = LO \/ (errors (mw p) < errors (mw p'))%nat);
  tu_view : errors (mw p') = errors (mw p) -> same_view (mw p) (mw p')
}.

Lemma turned_refl {LO : Lost} p l : polling p l -> turned LO p p l.
Proof. intros H. split; [done|done|exists LO; by split; [|left]|done]. Qed.

Lemma turned_from LO p p1 l1 : turned LO p p1 l1 ->
  exists LO1, polling (LO := LO1) p1 l1 /\ forall p2 l2, turned LO1 p1 p2 l2 -> turned LO p p2 l2.
Proof.
  intros [Hf1 He1 (LO1 & P1 & Hlo) Hv1]. exists LO1. split; [done|].
  intros p2 l2 [Hf2 He2 (LO2 & P2 & Hlo2) Hv2]. split; [congruence|lia| |].
  - exists LO2. split; [done|]. destruct Hlo as [->|?], Hlo2 as [->|?]; first [by left|right; lia].
  - intros E. destruct Hlo as [->|?]; [|lia]. intros u a Hu Hnl.
    by rewrite (Hv2 ltac:(lia)), (Hv1 ltac:(lia)).
Qed.

(** A step of the world that keeps the vector. *)
Lemma polling_world {LO : Lost} p l w' : wok w' -> within w' -> w_fd w' = w_fd (mw p) ->
  vec_ok (mv p) l -> (exists h t, l = h :: t /\ client_of (mw p) (pfd h) = None /\
    Forall (fun q => user_fd (mw p) (pfd q)) t) -> polling (Mworld w' (mv p)) l.
Proof.
  intros Hw Hin Hfd Hv (h & t & -> & Hh & Ht). split; try done. exists h, t. split; [done|]. simpl.
  rewrite (client_of_fd _ w' _ Hfd). split; [done|]. eapply Forall_impl; [exact Ht|].
  intros q [? ?]. by rewrite (client_of_fd _ w' _ Hfd).
Qed.

Lemma turned_quiet {LO : Lost} p l w' : polling p l -> quiet (mw p) w' -> turned LO p (Mworld w' (mv p)) l.
Proof.
  intros [Hw Hin Hv Hl] (H & Ho & Hlru & _). split; [apply H|apply H| |intros _; apply H].
  exists LO. split; [|by left]. apply (polling_world p); try done; [apply H|unfold within; by rewrite Hlru|apply H].
Qed.

Lemma m_log_err_turned {LO : Lost} p l : polling p l ->
  exists p', m_log_err p = Ok (tt, p') /\ turned LO p p' l /\ (errors (mw p) < errors (mw p'))%nat.
Proof.
  intros P. destruct (w_log_err_quiet (mw p) (pl_wok _ _ P)) as (w' & E & Q & He).
  exists (Mworld w' (mv p)). unfold m_log_err, on_world, zoom. rewrite E. split; [done|].
  split; [by apply turned_quiet|done].
Qed.

Lemma m_set_errno_turned {LO : Lost} e p l : polling p l ->
  exists p', on_world (in_sys (on_dbg (set_errno e))) p = Ok (tt, p') /\ turned LO p p' l.
Proof.
  intros P. eexists. split; [reflexivity|]. apply turned_quiet; [done|]. split; [|done].
  apply handled_sys; [apply P|done|unfold err_le; simpl; lia].
Qed.

(** An operation of the vector. *)
Lemma on_vector_turned {LO : Lost} {A} (m : M (Pollfd_vector * MonitorStats) A) p l x v' st' l' : polling p l ->
  m (mv p, s_stats (w_sys (mw p))) = Ok (x, (v', st')) -> vec_ok v' l' ->
  (exists h t, l' = h :: t /\ client_of (mw p) (pfd h) = None /\ Forall (fun q => user_fd (mw p) (pfd q)) t) ->
  exists p', on_vector m p = Ok (x, p') /\ turned LO p p' l' /\ mv p' = v'.
Proof.
  intros P E Hv Hl. unfold on_vector, zoom. rewrite E. eexists. split; [reflexivity|]. split; [|done].
  set (w' := set_sys _ _).
  assert (H : handled (mw p) w') by (apply handled_sys; [apply P|done|unfold err_le, w_dbg; simpl; lia]).
  split; [apply H|apply H| |intros _; apply H]. exists LO. split; [|by left].
  apply (polling_world (Mworld (mw p) v')); try done; [apply H|apply P].
Qed.

(** Serving a fault. *)
Lemma on_world_fault {LO : Lost} p l u a : polling p l -> aligned a -> user_fd (mw p) u ->
  exists ret p', on_world (read_from_externram u a) p = Ok (ret, p') /\ turned LO p p' l /\ ret_ok (mw p) ret.
Proof.
  intros [Hw Hin Hv Hl] Hal [Hu Hc].
  destruct (read_from_externram_run u a (mw p) Hw Hin Hal Hu Hc) as (ret & w' & E & [Hlen Hcase] & Hret).
  exists ret, (Mworld w' (mv p)). unfold on_world, zoom. rewrite E. split; [done|]. split; [|done].
  assert (Hin' : LruList.max_num_items (w_lru w') = LruList.max_num_items (w_lru (mw p)) -> within w').
  { intros Hm. unfold within. rewrite Hm. destruct Hin. lia. }
  destruct Hcase as [[H _]|[He H]]; (split; [apply H|apply H| |]).
  - exists LO. split; [|by left]. apply (polling_world p); try done; [apply H|apply Hin', (ha_max _ _ H)|apply (ha_fd _ _ H)].
  - intros _. apply H.
  - exists (also_lost LO u a). split; [|by right]. apply (polling_world p); try done; [apply H|apply Hin', (ha_max _ _ H)|apply (ha_fd _ _ H)].
  - simpl. lia.
Qed.

(** Dropping a registered descriptor from the vector. *)
Lemma on_del_fd {LO : Lost} p l fd : polling p l -> is_Some (client_of (mw p) fd) ->
  exists r p' l', on_vector (del_fd fd) p = Ok (r, p') /\ turned LO p p' l' /\ (length l' <= length l)%nat.
Proof.
  intros P Hc. destruct (pl_fds _ _ P) as (h & t & -> & Hh & Ht).
  destruct (del_fd_run (mv p) h t (s_stats (w_sys (mw p))) fd) as (r & v' & st' & t' & E & Hv & Hlen & Hsub).
  { apply P. }
  { intros <-. rewrite Hh in Hc. by destruct Hc. }
  destruct (on_vector_turned (del_fd fd) p (h :: t) r v' st' (h :: t')) as (p' & E' & T & _); try done.
  { exists h, t'. split; [done|]. split; [done|]. rewrite Forall_forall in Ht |- *. intros q Hq. apply Ht. by apply Hsub. }
  exists r, p', (h :: t'). split; [done|]. split; [done|simpl; lia].
Qed.

(** What a handler of one message does: it returns, and the vector does not grow. *)
Definition step_ok (LO : Lost) (p : mworld) (l : list pollfd) {A} (o : outcome (A * mworld)) : Prop :=
  exists x p' l', o = Ok (x, p') /\ turned LO p p' l' /\ (length l' <= length l)%nat.

Lemma step_ok_ret {LO : Lost} {A} p l (x : A) : polling p l -> step_ok LO p l (M_ret A x p).
Proof. intros P. exists x, p, l. split; [done|]. split; [by apply turned_refl|done]. Qed.

Lemma step_ok_then LO {A} p l p1 l1 (o : outcome (A * mworld)) : turned LO p p1 l1 -> (length l1 <= length l)%nat ->
  (forall LO1, polling (LO := LO1) p1 l1 -> step_ok LO1 p1 l1 o) -> step_ok LO p l o.
Proof.
  intros T Hl H. destruct (turned_from _ _ _ _ T) as (LO1 & P1 & Hgo).
  destruct (H LO1 P1) as (x & p2 & l2 & E & T2 & Hl2). exists x, p2, l2. split; [done|].
  split; [by apply Hgo|lia].
Qed.

Lemma step_ok_log {LO : Lost} {A} p l (k : M mworld A) : polling p l ->
  (forall LO1 p1, polling (LO := LO1) p1 l -> step_ok LO1 p1 l (k p1)) -> step_ok LO p l ((m_log_err;; k) p).
Proof.
  intros P H. destruct (m_log_err_turned p l P) as (p1 & E & T & _). unfold mbind, M_bind. rewrite E.
  apply (step_ok_then _ _ _ p1 l); [done|done|]. intros LO1 P1. by apply H.
Qed.

Lemma handle_userfault_ok {LO : Lost} p l u r : polling p l -> user_fd (mw p) u ->
  step_ok LO p l (handle_userfault u r p).
Proof.
  intros P Hu. unfold handle_userfault.
  assert (Hlog : forall LO (x : Z) p, polling (LO := LO) p l -> step_ok LO p l ((m_log_err;; mret x : M mworld Z) p)).
  { intros LO0 x p0 P0. apply step_ok_log; [done|]. intros. by apply step_ok_ret. }
  destruct (rd_ret r <? 0).
  { destruct (m_set_errno_turned (rd_errno r) p l P) as (p1 & E & T). unfold mbind at 1, M_bind at 1. rewrite E.
    apply (step_ok_then _ _ _ p1 l); [done|done|]. intros LO1 P1.
    destruct (rd_errno r =? EAGAIN); [by apply step_ok_ret|by apply Hlog]. }
  destruct (rd_ret r =? sizeof_uffd_msg); cbn [negb]; [|by apply Hlog].
  destruct (msg_event r =? UFFD_EVENT_PAGEFAULT).
  - destruct (on_world_fault p l u (page_of (msg_address r)) P (page_of_aligned _) Hu) as (ret & p1 & E & T & Hret).
    unfold mbind at 1, M_bind at 1. cbn beta zeta. rewrite E. apply (step_ok_then _ _ _ p1 l); [done|done|].
    intros LO1 P1. destruct (ret <? 0); [by apply Hlog|].
    destruct (Z.ltb_spec 0 ret); [|by apply step_ok_ret].
    destruct (on_del_fd p1 l ret P1) as (x & p2 & l2 & E2 & T2 & Hl2).
    { destruct Hret as [?|?]; [lia|]. by rewrite (client_of_fd _ _ _ (tu_fd _ _ _ _ T)). }
    unfold mbind, M_bind. rewrite E2. apply (step_ok_then _ _ _ p2 l2); [done|done|]. intros. by apply step_ok_ret.
  - case_bool_decide; [|by apply Hlog].
    destruct (on_del_fd p l u P (proj2 Hu)) as (x & p2 & l2 & E2 & T2 & Hl2).
    unfold mbind, M_bind. rewrite E2. apply (step_ok_then _ _ _ p2 l2); [done|done|]. intros. by apply step_ok_ret.
Qed.

Lemma on_vector_get {A} (m : M (Pollfd_vector * MonitorStats) A) p x :
  m (mv p, s_stats (w_sys (mw p))) = Ok (x, (mv p, s_stats (w_sys (mw p)))) -> on_vector m p = Ok (x, p).
Proof. unfold on_vector, zoom. intros ->. by destruct p as [[[] ? ? ? ? ? ? ?] ?]. Qed.

Lemma dispatch_ok {LO : Lost} reads fuel i p l : polling p l -> (1 <= i)%nat -> (length l <= i + fuel)%nat ->
  step_ok LO p l (dispatch fuel (Z.of_nat i) reads p).
Proof.
  revert LO i p l. induction fuel as [|fuel IH]; intros LO i p l P Hi Hf; cbn [dispatch];
    unfold mbind at 1, M_bind at 1; rewrite (on_vector_get (v_get size) p (size (mv p))) by done;
    rewrite (vo_size _ _ (pl_vec _ _ P)).
  { rewrite (proj2 (Z.ltb_ge _ _)) by lia. by apply step_ok_ret. }
  destruct (Z.ltb_spec (Z.of_nat i) (Z.of_nat (length l))) as [Hlt|_]; [|by apply step_ok_ret].
  destruct (lookup_lt_is_Some_2 l i) as [q Hq]; [lia|].
  unfold mbind at 1, M_bind at 1.
  rewrite (on_vector_get _ p q) by (apply (read_slot_ok _ l); [apply P|done]).
  assert (Hnext : forall LO p1 l1, polling (LO := LO) p1 l1 -> (length l1 <= length l)%nat ->
    step_ok LO p1 l1 (dispatch fuel (Z.of_nat i + 1) reads p1)).
  { intros LO1 p1 l1 P1 Hl1. replace (Z.of_nat i + 1) with (Z.of_nat (S i)) by lia. by apply IH; [|lia|lia]. }
  assert (Hstop : forall LO p1 l1, polling (LO := LO) p1 l1 -> step_ok LO p1 l1
    ((go ← (m_log_err;; mret false); if go : bool then dispatch fuel (Z.of_nat i + 1) reads else mret tt) p1)).
  { intros LO1 p1 l1 P1. destruct (m_log_err_turned p1 l1 P1) as (p2 & E & T & _). unfold mbind, M_bind. rewrite E.
    apply (step_ok_then _ _ _ p2 l1); [done|done|]. intros. by apply step_ok_ret. }
  destruct (0 <? revents q); [|by apply Hnext].
  destruct (has POLLERR (revents q)); [by apply Hstop|].
  destruct (has POLLIN (revents q)); cbn [negb]; [|by apply Hstop].
  assert (Huq : user_fd (mw p) (pfd q)).
  { destruct (pl_fds _ _ P) as (h & t & -> & _ & Ht). destruct i as [|i]; [lia|]. simpl in Hq.
    rewrite Forall_forall in Ht. apply Ht. by eapply list_elem_of_lookup_2. }
  destruct (handle_userfault_ok p l (pfd q) (reads (pfd q)) P Huq) as (rc & p1 & l1 & E & T & Hl1).
  unfold mbind at 2, M_bind at 2. unfold mbind at 1, M_bind at 1. rewrite E.
  apply (step_ok_then _ _ _ p1 l1); [done|done|]. intros LO1 P1.
  destruct (rc <? 0); [apply (Hstop LO1 p1 l1 P1)|by apply Hnext].
Qed.

(** The descriptor announced by the reload event is a registered one. *)
Definition reload_ok (w : world) (reload : Z * Z) : Prop := 0 < s32 reload.2 -> user_fd w (s32 reload.2).

Lemma handle_reload_ok {LO : Lost} p l reload : polling p l -> reload_ok (mw p) reload -> Z.of_nat (length l) < 2 ^ 30 ->
  exists go p' l', handle_reload reload p = Ok (go, p') /\ turned LO p p' l' /\ (length l' <= S (length l))%nat.
Proof.
  intros P Hre Hlen. unfold handle_reload. destruct (pl_fds _ _ P) as (h & t & -> & Hh & Ht).
  unfold mbind at 1, M_bind at 1. rewrite (on_vector_get _ p h) by (apply (read_slot_ok _ (h :: t) _ 0); [apply P|done]).
  assert (Hstop : forall LO p1, polling (LO := LO) p1 (h :: t) -> exists go p' l',
    (m_log_err;; mret false) p1 = Ok (go, p') /\ turned LO p1 p' l' /\ (length l' <= S (length (h :: t)))%nat).
  { intros LO1 p1 P1. destruct (m_log_err_turned p1 _ P1) as (p2 & E & T & _). unfold mbind, M_bind. rewrite E.
    eexists _, _, _. split; [reflexivity|]. split; [done|lia]. }
  destruct (0 <? revents h).
  2:{ eexists _, _, _. split; [reflexivity|]. split; [by apply turned_refl|lia]. }
  destruct (has POLLERR (revents h)); [by apply Hstop|].
  destruct (has POLLIN (revents h)); cbn [negb]; [|by apply Hstop].
  assert (Hw : exists p1, mwhen (negb (reload.1 =? 8)) m_log_err p = Ok (tt, p1) /\ turned LO p p1 (h :: t)).
  { destruct (negb _); [destruct (m_log_err_turned p _ P) as (p1 & E & T & _); by exists p1|].
    exists p. split; [done|by apply turned_refl]. }
  destruct Hw as (p1 & E1 & T1). unfold mbind at 1, M_bind at 1. rewrite E1.
  destruct (turned_from _ _ _ _ T1) as (LO1 & P1 & Hgo). cbn zeta.
  destruct (Z.leb_spec (s32 reload.2) 0).
  { destruct (Hstop LO1 p1 P1) as (go & p2 & l2 & E & T & Hl). exists go, p2, l2. split; [done|]. split; [by apply Hgo|done]. }
  destruct (append_run (mv p1) (h :: t) (s_stats (w_sys (mw p1))) (Pollfd (s32 reload.2) POLLIN 0)) as (v' & st' & E & Hv & _);
    [apply P1|rewrite (vo_size _ _ (pl_vec _ _ P1)); lia|].
  destruct (on_vector_turned (add_fd (s32 reload.2)) p1 (h :: t) tt v' st' _ P1 E Hv) as (p2 & E2 & T2 & _).
  { exists h, (t ++ [Pollfd (s32 reload.2) POLLIN 0]). split; [done|].
    destruct (pl_fds _ _ P1) as (h' & t' & [= <- <-] & Hh1 & Ht1). split; [done|].
    apply Forall_app. split; [done|]. constructor; [|done]. simpl. rewrite (client_of_fd _ _ _ (tu_fd _ _ _ _ T1)).
    by apply Hre. }
  unfold mbind, M_bind. rewrite E2. eexists _, _, _. split; [reflexivity|]. split; [by apply Hgo|].
  rewrite length_app. simpl. lia.
Qed.

(** A turn returns without undefined behaviour, whatever [poll] and [read] deliver. *)
Lemma poll_turn_ok (LO : Lost) p l poll_rc rs fatal reload reads : polling p l ->
  reload_ok (mw p) reload -> Z.of_nat (length l) < 2 ^ 30 ->
  exists go p' l', poll_turn poll_rc rs fatal reload reads p = Ok (go, p') /\ turned LO p p' l' /\
    (length l' <= S (length l))%nat.
Proof.
  intros P Hre Hlen. unfold poll_turn. destruct (poll_rc =? -1).
  { destruct (m_log_err_turned p _ P) as (p2 & E & T & _). unfold mbind, M_bind. rewrite E.
    eexists _, _, _. split; [reflexivity|]. split; [done|lia]. }
  set (l0 := mark (take (length l) rs) l). assert (Hl0 : length l0 = length l) by apply mark_length.
  destruct (on_vector_turned (v_mod (store_poll rs)) p l tt (store_poll rs (mv p)) (s_stats (w_sys (mw p))) l0 P)
    as (p1 & E1 & T1 & _); [done|apply store_poll_ok, P| |].
  { destruct (pl_fds _ _ P) as (h & t & -> & Hh & Ht).
    pose proof (mark_pfd (take (length (h :: t)) rs) (h :: t)) as Hm. fold l0 in Hm.
    destruct l0 as [|h0 t0]; [done|]. injection Hm as Hm1 Hm2. exists h0, t0. split; [done|].
    rewrite Hm1. split; [done|]. apply (proj1 (Forall_fmap pfd (fun u => user_fd (mw p) u) t0)).
    change (pfd <$> t0) with (list_fmap pollfd Z pfd t0). rewrite Hm2. by apply Forall_fmap. }
  unfold mbind at 1, M_bind at 1. rewrite E1. destruct (turned_from _ _ _ _ T1) as (LO1 & P1 & Hgo1).
  destruct fatal. { eexists _, _, _. split; [reflexivity|]. split; [done|lia]. }
  destruct (handle_reload_ok p1 l0 reload P1) as (go & p2 & l2 & E2 & T2 & Hl2); [|lia|].
  { intros H. rewrite (client_of_fd _ _ _ (tu_fd _ _ _ _ T1)). by apply Hre. }
  unfold mbind at 1, M_bind at 1. rewrite E2. destruct (turned_from _ _ _ _ T2) as (LO2 & P2 & Hgo2).
  destruct go; [|eexists _, _, _; split; [reflexivity|]; split; [by apply Hgo1|lia]].
  unfold mbind at 1, M_bind at 1. rewrite (on_vector_get (v_get size) p2 (size (mv p2))) by done.
  rewrite (vo_size _ _ (pl_vec _ _ P2)), Nat2Z.id.
  destruct (dispatch_ok reads (length l2) 1 p2 l2 P2) as ([] & p3 & l3 & E3 & T3 & Hl3); [lia|lia|].
  unfold mbind, M_bind. change 1 with (Z.of_nat 1). rewrite E3. eexists _, _, _. split; [reflexivity|].
  split; [by apply Hgo1, Hgo2|lia].
Qed.

Lemma stop_run v l st : vec_ok v l -> pollfd_vector_close (v, st) = Ok (pfd <$> l, (v, st)).
Proof.
  intros Hv. unfold pollfd_vector_close, mbind at 1, M_bind at 1, v_get, mgets. cbn [fst]. rewrite (vo_size _ _ Hv), Nat2Z.id.
  assert (Hg : forall pre suf, l = pre ++ suf ->
    mmapM (fun i => p ← read_slot (Z.of_nat i); mret (pfd p)) (seq (length pre) (length suf)) (v, st) = Ok (pfd <$> suf, (v, st))).
  { intros pre suf. revert pre. induction suf as [|q suf IH]; intros pre ->; [done|]. cbn [length seq mmapM].
    unfold mbind at 1, M_bind at 1, mbind at 1, M_bind at 1. rewrite (read_slot_ok _ (pre ++ q :: suf) st (length pre) q) by (done || apply list_lookup_middle; done).
    unfold mret at 1, M_ret at 1. unfold mbind at 1, M_bind at 1.
    specialize (IH (pre ++ [q])). rewrite length_app, <- app_assoc in IH. cbn [length app] in IH.
    rewrite Nat.add_1_r in IH. by rewrite IH. }
  by apply (Hg [] l).
Qed.

End safety.
