(* ===== verification/MainThread.v ===== *)
(** The other threads of [monitor/monitor.c]: the loop of [main_thread] that accepts connections and
    starts a [new_ufd_handler] for each descriptor, [reaper_thread],
    [fatal_error_signal], and the order in which [main] starts everything.

    What [epoll_wait], [accept], [setnonblocking], [epoll_ctl] and [pthread_create] return
    are arguments. *)
From S2P Require Import Prelude Config MonitorStats Os LruBuffer UtHash ExternRam ThreadedIo Upid.
From S2P Require Import BufferAllocator PageCache World PageCacheRead Userfault Zookeeper Processes PollfdVector.

Definition MAX_THREADS : Z := 100.

(** ** The table of threads *)

(** [num_threads] is changed by [main_thread] and by the threads it starts, with no lock; each
    change is one step here. *)
Record threads := Threads {
  th_num : Z;                     (** [num_threads], minus one at the start *)
  th_workers : list (option Z);   (** the descriptor each entry was last used for *)
  th_started : list Z             (** descriptors handed to a new thread, in order *)
}.
Definition no_threads : threads := Threads (-1) (replicate (Z.to_nat MAX_THREADS) None) [].

(** [pthread_create(&workers[num_threads], ...)] with its result [rc], and the end of such
    a thread.  The result of [start_worker] is whether an error is to be reported. *)
Definition start_worker (ufd rc : Z) : M threads bool := fun t =>
  let n := s32 (th_num t + 1) in
  if decide (0 <= n < Z.of_nat (length (th_workers t))) then
    if rc =? 0 then Ok (false, Threads n (<[Z.to_nat n := Some ufd]> (th_workers t)) (th_started t ++ [ufd]))
    else Ok (true, Threads (s32 (n - 1)) (th_workers t) (th_started t))
  else UB OutOfBounds.
Definition worker_ends : M threads unit := mmod (fun t => Threads (s32 (th_num t - 1)) (th_workers t) (th_started t)).

(** ** The loop of [main_thread] *)

Record mstate `{X : ExternRAM, Z0 : ZooKeeper, R : Rand} := Mstate {
  m_p : pworld;
  m_threads : threads;
  m_watched : list Z;             (** the descriptors of [efd] *)
  m_closed : list Z
}.
Arguments Mstate {_ _ _ _} _ _ _ _.

(** A connection with the results of [setnonblocking] and [epoll_ctl], or the end of the
    queue, or an error. *)
Inductive accepted : Type := Accepted (infd nonblocking ctl : Z) | AcceptAgain | AcceptError.

(** How the thread goes on: with its loop, or by returning. *)
Inductive main_next : Set := Loop | Return (code : Z).

Section main_thread.
Context `{X : ExternRAM, Z0 : ZooKeeper, R : Rand} `{F : BuildFlags, I : StaleIterator, WF : WriteFuel}.
Context (fuel zfuel : nat) (config : string) (socket_fd : Z).

Definition in_p {A} (m : M pworld A) : M mstate A := zoom m_p (fun p s => Mstate p (m_threads s) (m_watched s) (m_closed s)) m.
Definition in_threads {A} (m : M threads A) : M mstate A :=
  zoom m_threads (fun t s => Mstate (m_p s) t (m_watched s) (m_closed s)) m.
Definition main_log_err : M mstate unit := in_p (in_w w_log_err).

(** [create_server], for the results of [socket], [bind] and [listen]. *)
Definition create_server (fd bind listen : Z) : M mstate Z :=
  if fd <? 0 then main_log_err;; mret fd
  else if bind <? 0 then main_log_err;; mret (-1)
  else if listen <? 0 then main_log_err;; mret (-1)
  else mret fd.

Fixpoint accept_loop (conns : list accepted) : M mstate main_next :=
  match conns with
  | [] | AcceptAgain :: _ => mret Loop
  | AcceptError :: _ => main_log_err;; mret Loop
  | Accepted infd nonblocking ctl :: conns =>
      if nonblocking =? -1 then mret (Return 1)
      else if ctl =? -1 then main_log_err;; mret (Return (-1))
      else
        mmod (fun s => Mstate (m_p s) (m_threads s) (m_watched s ++ [infd]) (m_closed s));;
        accept_loop conns
  end.

(** A message on a connection: the descriptor goes to a new thread, also when
    [recv_fd] has failed. *)
Definition serve_connection (fd now : Z) (msg : message) (rc : Z) : M mstate unit :=
  ufd ← in_p (recv_fd fuel zfuel config now msg);
  mwhen (ufd <? 0) main_log_err;;
  failed ← in_threads (start_worker ufd rc);
  mwhen failed main_log_err;;
  mmod (fun s => Mstate (m_p s) (m_threads s) (filter (fun x => x <> fd) (m_watched s)) (m_closed s ++ [fd])).

(** One event: its descriptor, what [accept] returns for the listening socket, and for a
    connection the time, the message and the result of [pthread_create]. *)
Record main_event := MainEvent { ev_fd : Z; ev_accept : list accepted; ev_time : Z; ev_msg : message; ev_create : Z }.

Definition handle_event (e : main_event) : M mstate main_next :=
  if socket_fd =? ev_fd e then accept_loop (ev_accept e)
  else serve_connection (ev_fd e) (ev_time e) (ev_msg e) (ev_create e);; mret Loop.

Fixpoint handle_events (es : list main_event) : M mstate main_next :=
  match es with
  | [] => mret Loop
  | e :: es => r ← handle_event e; match r with Loop => handle_events es | Return c => mret (Return c) end
  end.

(** [epoll_wait] returns [n]; a negative one ends the thread. *)
Definition main_turn (n : Z) (es : list main_event) : M mstate main_next :=
  if n =? -1 then main_log_err;; mret (Return (-1)) else handle_events es.
End main_thread.

(** ** The reaper *)

Section reaper.
Context `{X : ExternRAM, Z0 : ZooKeeper, R : Rand} `{F : BuildFlags, I : StaleIterator, WF : WriteFuel}.

Abbreviation rstate_ := (pworld * Pollfd_vector)%type (only parsing).
Definition on_pv {A} (m : M (Pollfd_vector * MonitorStats) A) : M rstate_ A :=
  zoom (fun s => (s.2, s_stats (w_sys (pw s.1))))
    (fun vs s => (Pworld (set_sys (Sys (w_os (pw s.1)) (w_dbg (pw s.1)) vs.2) (pw s.1)) (pz s.1) (prand s.1), vs.1)) m.

(** A turn: the descriptors of dead processes are no longer polled. *)
Definition reaper_turn (zfuel : nat) : M rstate_ unit :=
  ufd_list ← zoom fst (fun p s => (p, s.2)) (purgeDeadUpids zfuel);
  miter (fun fd => on_pv (del_fd fd);; mret tt) ufd_list.
End reaper.

(** ** The end of the program *)

Inductive cleanup : Type :=
| DestroyStats | CleanPageCache | CancelWorker (j : nat) | CancelUi | CancelReaper | CancelMain | FreeZookeeperConn.

(** [fatal_error_signal]: what it does, in order; [raise] of the signal a second time when
    it is in progress already. *)
Definition fatal_error_signal `{BuildFlags} (REAPERTHREAD in_progress stop_by_ui zk_allocated : bool) (num_threads : Z) : bool * list cleanup :=
  (in_progress,
   (if MONITORSTATS then [DestroyStats] else []) ++ (if PAGECACHE then [CleanPageCache] else []) ++
   (CancelWorker <$> seq 0 (Z.to_nat num_threads)) ++ (if stop_by_ui then [] else [CancelUi]) ++
   (if REAPERTHREAD then [CancelReaper] else []) ++ [CancelMain] ++ (if zk_allocated then [FreeZookeeperConn] else [])).

(** ** The start *)

Inductive resource : Set :=
| TimingBuckets | Statistics | ZeroPage | ZhLock | FdUpidMapLock | LruLock | Lru | FlushNeededLock | FlushedWriteSem
| PagecacheLock | PageCache_ | ReadLock | ReadTmpPage | PollList | ServerSocket | WriterSem | PrefetcherSem | ListLock
| UfhandlerSem | ReadPageRing | EvictPageRing.
Inductive thread : Set :=
| PollingThread | WriteThread | PrefetchThread | ReinitReadThread | ReinitEvictThread | ReaperThread | UiThread | MainThread.
Inductive action : Set := Init (r : resource) | Create (t : thread).
#[export] Instance resource_eq_dec : EqDecision resource.
Proof. solve_decision. Defined.
#[export] Instance thread_eq_dec : EqDecision thread.
Proof. solve_decision. Defined.
#[export] Instance action_eq_dec : EqDecision action.
Proof. solve_decision. Defined.

Section start.
Context `{F : BuildFlags} (TIMING REAPERTHREAD : bool).

Definition if_ (b : bool) (l : list (action * bool)) : list (action * bool) := if b then l else [].

(** What [main] sets up, in order, and whether it returns when that fails.  The result of
    [create_buffers], from [ZhLock] to [ReadTmpPage], is not looked at. *)
Definition start_actions : list (action * bool) :=
  if_ (MONITORSTATS && TIMING) [(Init TimingBuckets, false)] ++ if_ MONITORSTATS [(Init Statistics, false)] ++
  [(Init ZeroPage, false)] ++
  [(Init ZhLock, false); (Init FdUpidMapLock, false); (Init LruLock, false); (Init Lru, false)] ++
  if_ THREADED_WRITE_TO_EXTERNRAM [(Init FlushNeededLock, false); (Init FlushedWriteSem, false)] ++
  if_ PAGECACHE [(Init PagecacheLock, false); (Init PageCache_, false)] ++
  if_ (THREADED_PREFETCH && ASYNREAD) [(Init ReadLock, false)] ++ [(Init ReadTmpPage, false)] ++
  [(Init PollList, true); (Init ServerSocket, true); (Create PollingThread, true)] ++
  if_ THREADED_WRITE_TO_EXTERNRAM [(Init WriterSem, false)] ++ if_ THREADED_PREFETCH [(Init PrefetcherSem, false)] ++
  if_ (THREADED_WRITE_TO_EXTERNRAM || THREADED_PREFETCH) [(Init ListLock, true); (Init UfhandlerSem, false)] ++
  if_ THREADED_WRITE_TO_EXTERNRAM [(Create WriteThread, true)] ++ if_ THREADED_PREFETCH [(Create PrefetchThread, true)] ++
  if_ THREADED_REINIT [(Init ReadPageRing, true); (Create ReinitReadThread, true);
                       (Init EvictPageRing, true); (Create ReinitEvictThread, true)] ++
  if_ REAPERTHREAD [(Create ReaperThread, true)] ++ [(Create UiThread, true); (Create MainThread, true)].

(** What has been done when the start ends, given what fails. *)
Fixpoint run_start (fails : action -> bool) (l : list (action * bool)) : list action :=
  match l with
  | [] => []
  | (a, checked) :: l => if (fails a && checked)%bool then [] else a :: run_start fails l
  end.
Definition started (fails : action -> bool) : list action := run_start fails start_actions.

(** What the code of a thread uses.  The polling thread uses what the fault handlers use only when
    it has a descriptor, which [main_thread] gives it. *)
Definition handler_uses : list resource :=
  [FdUpidMapLock; LruLock; Lru; ZeroPage; ReadTmpPage] ++
  (if MONITORSTATS then [Statistics] else []) ++
  (if PAGECACHE then [PagecacheLock; PageCache_] else []) ++
  (if (THREADED_WRITE_TO_EXTERNRAM || THREADED_PREFETCH)%bool then [ListLock; UfhandlerSem] else []) ++
  (if THREADED_WRITE_TO_EXTERNRAM then [WriterSem; FlushNeededLock; FlushedWriteSem] else []) ++
  (if THREADED_PREFETCH then [PrefetcherSem] else []) ++
  (if THREADED_REINIT then [ReadPageRing; EvictPageRing] else []).
Definition uses (t : thread) : list resource :=
  match t with
  | PollingThread => [PollList]
  | WriteThread => [ListLock; WriterSem; UfhandlerSem; FlushedWriteSem; FdUpidMapLock; FlushNeededLock]
  | PrefetchThread => [ListLock; PrefetcherSem; UfhandlerSem; FdUpidMapLock] ++ (if PAGECACHE then [PagecacheLock; PageCache_] else []) ++
                      (if ASYNREAD then [ReadLock] else [])
  | ReinitReadThread => [ReadPageRing]
  | ReinitEvictThread => [EvictPageRing]
  | ReaperThread | UiThread => [ZhLock; PollList] ++ handler_uses
  | MainThread => [ZhLock; PollList; ServerSocket] ++ handler_uses
  end.
End start.

(** * The table of threads *)

Inductive worker_event : Type := WorkerStarts (ufd rc : Z) | WorkerEnds.
Definition run_worker (e : worker_event) : M threads unit :=
  match e with WorkerStarts ufd rc => start_worker ufd rc;; mret tt | WorkerEnds => worker_ends end.

(** The threads there are after an event, when [n] were there before. *)
Definition alive_after (n : Z) (e : worker_event) : Z :=
  match e with WorkerStarts _ rc => if rc =? 0 then n + 1 else n | WorkerEnds => n - 1 end.
(** Only threads that are there end. *)
Fixpoint possible (n : Z) (es : list worker_event) : Prop :=
  match es with
  | [] => True
  | e :: es => (e = WorkerEnds -> 0 < n) /\ possible (alive_after n e) es
  end.
(** There is room for each one that starts. *)
Fixpoint room (n : Z) (es : list worker_event) : bool :=
  match es with
  | [] => true
  | WorkerStarts _ _ as e :: es => ((n <? MAX_THREADS) && room (alive_after n e) es)%bool
  | WorkerEnds as e :: es => room (alive_after n e) es
  end.
Definition handed (es : list worker_event) : list Z :=
  omap (fun e => match e with WorkerStarts u rc => if rc =? 0 then Some u else None | WorkerEnds => None end) es.

Lemma workers_run es : forall t n, th_num t = n - 1 -> length (th_workers t) = Z.to_nat MAX_THREADS -> 0 <= n <= MAX_THREADS -> possible n es ->
  if room n es then
    exists t', miter run_worker es t = Ok (tt, t') /\ th_started t' = th_started t ++ handed es /\
      th_num t' = foldl alive_after n es - 1
  else miter run_worker es t = UB OutOfBounds.
Proof.
  unfold MAX_THREADS. induction es as [|e es IH]; intros t n Hn Hw Hr Hp.
  { exists t. cbn. by rewrite app_nil_r. }
  destruct Hp as [He Hp]. destruct e as [u rc|]; cbn [room miter foldl].
  - unfold MAX_THREADS. destruct (Z.ltb_spec n 100) as [Hlt|Hge]; cbn [andb].
    2:{ unfold mbind, M_bind, run_worker, start_worker, mbind, M_bind. rewrite Hn, s32_id by (unfold is_s32; lia).
        rewrite decide_False by (rewrite Hw; lia). done. }
    set (t1 := if rc =? 0 then Threads n (<[Z.to_nat n := Some u]> (th_workers t)) (th_started t ++ [u]) else t).
    assert (E1 : run_worker (WorkerStarts u rc) t = Ok (tt, t1)).
    { unfold run_worker, start_worker, mbind, M_bind. rewrite Hn. replace (n - 1 + 1) with n by lia.
      rewrite s32_id by (unfold is_s32; lia). rewrite decide_True by (rewrite Hw; lia). unfold t1. destruct (rc =? 0); [done|].
      rewrite s32_id by (unfold is_s32; lia). rewrite <- Hn. by destruct t. }
    unfold mbind, M_bind. rewrite E1. cbn [alive_after] in Hp |- *. unfold handed. cbn [omap list_omap]. unfold t1. destruct (rc =? 0).
    + specialize (IH (Threads n (<[Z.to_nat n := Some u]> (th_workers t)) (th_started t ++ [u])) (n + 1)).
      cbn [th_num th_workers th_started] in IH. specialize (IH ltac:(lia) ltac:(by rewrite length_insert) ltac:(lia) Hp).
      destruct (room (n + 1) es); [|done]. destruct IH as (t' & E & Hs & Hm). exists t'. split; [done|]. split; [|done].
      rewrite Hs, <- app_assoc. done.
    + apply (IH t n Hn Hw Hr Hp).
  - specialize (He eq_refl). unfold mbind, M_bind, run_worker at 1, worker_ends, mmod. cbn [alive_after] in Hp |- *.
    apply (IH (Threads (s32 (th_num t - 1)) (th_workers t) (th_started t)) (n - 1)); [|done|lia|done].
    cbn. rewrite Hn, s32_id by (unfold is_s32; lia). lia.
Qed.



(** The signal handler cancels one thread less than there are. *)
Lemma last_worker_stays `{BuildFlags} rp ip ui zk n : 0 <= n -> CancelWorker (Z.to_nat n) ∉ (fatal_error_signal rp ip ui zk n).2.
Proof.
  intros Hn. unfold fatal_error_signal. cbn [snd]. rewrite !elem_of_app.
  assert (Hw : CancelWorker (Z.to_nat n) ∉ CancelWorker <$> seq 0 (Z.to_nat n)).
  { intros (j & [= <-] & Hj)%list_elem_of_fmap. apply elem_of_seq in Hj. lia. }
  destruct MONITORSTATS, PAGECACHE, ui, rp, zk; set_solver.
Qed.

Lemma main_log_err_run `{X : ExternRAM, Z0 : ZooKeeper, R : Rand} s : exists p, main_log_err s = Ok (tt, Mstate p (m_threads s) (m_watched s) (m_closed s)).
Proof. eexists. reflexivity. Qed.

(** A message that [recv_fd] refuses still gets a thread, which is handed the error as a descriptor. *)
Lemma refused_message_served `{X : ExternRAM, Z0 : ZooKeeper, R : Rand} fuel zfuel config fd now msg s :
  recv_res msg < 0 -> - 1 <= th_num (m_threads s) < 99 -> length (th_workers (m_threads s)) = Z.to_nat MAX_THREADS ->
  exists s', serve_connection fuel zfuel config fd now msg 0 s = Ok (tt, s') /\
    th_started (m_threads s') = th_started (m_threads s) ++ [recv_res msg].
Proof.
  intros Hr Hn Hl. unfold serve_connection.
  assert (E : recv_fd fuel zfuel config now msg (m_p s) = Ok (recv_res msg, m_p s)).
  { unfold recv_fd. replace (recv_res msg <=? 0) with true by lia. done. }
  assert (E1 : in_p (recv_fd fuel zfuel config now msg) s = Ok (recv_res msg, s)) by (unfold in_p, zoom; rewrite E; by destruct s).
  rewrite (run_bind _ _ _ _ _ E1). replace (recv_res msg <? 0) with true by lia. cbn [mwhen].
  destruct (main_log_err_run s) as [p E2]. rewrite (run_bind _ _ _ _ _ E2). unfold in_threads, zoom, start_worker. unfold mbind at 1, M_bind at 1.
  cbn [m_threads]. rewrite s32_id by (unfold is_s32; lia). rewrite decide_True by (rewrite Hl; unfold MAX_THREADS; lia).
  eexists. split; [reflexivity|]. reflexivity.
Qed.

(** * The order of the start *)

Section order.
Context `{F : BuildFlags}.

(** Every thread comes after what it uses. *)
Fixpoint ordered (seen : list action) (l : list action) : bool :=
  match l with
  | [] => true
  | Create t :: l => (forallb (fun r => existsb (fun a => bool_decide (a = Init r)) seen) (uses t) && ordered (Create t :: seen) l)%bool
  | a :: l => ordered (a :: seen) l
  end.

Lemma ordered_split seen l pre t post : ordered seen l = true -> l = pre ++ Create t :: post ->
  forall r, r ∈ uses t -> Init r ∈ pre \/ Init r ∈ seen.
Proof.
  revert seen l. induction pre as [|a pre IH]; intros seen l Ho -> r Hr.
  - cbn in Ho. apply andb_true_iff in Ho as [Ho _]. right. rewrite forallb_forall in Ho.
    apply list_elem_of_In in Hr. specialize (Ho r Hr).
    apply existsb_exists in Ho as (a & Ha & ->%bool_decide_eq_true). by apply list_elem_of_In.
  - assert (Ho' : ordered (a :: seen) (pre ++ Create t :: post) = true).
    { destruct a; [done|]. cbn in Ho. by apply andb_true_iff in Ho as [_ ?]. }
    destruct (IH (a :: seen) _ Ho' eq_refl r Hr) as [H|[->|H]%elem_of_cons]; [left; by right|left; by left|by right].
Qed.

Lemma run_start_prefix fails l : exists rest, l.*1 = run_start fails l ++ rest.
Proof.
  induction l as [|[a c] l IH]; [by exists []|]. destruct IH as [rest IH]. cbn. destruct (fails a && c)%bool.
  - by exists (a :: l.*1).
  - exists rest. cbn. by rewrite <- IH.
Qed.

End order.

Lemma start_ordered `{F : BuildFlags} TIMING REAPERTHREAD : ordered [] (start_actions TIMING REAPERTHREAD).*1 = true.
Proof.
  destruct F as [fc fp fz fm fw ft fr fa].
  destruct TIMING, REAPERTHREAD, fp, fm, fw, ft, fr, fa; vm_compute; reflexivity.
Qed.


Definition all_threads : BuildFlags := {|
  CACHE := true; PAGECACHE := true; PAGECACHE_ZEROPAGE_OPTIMIZATION := true; MONITORSTATS := true;
  THREADED_WRITE_TO_EXTERNRAM := true; THREADED_PREFETCH := true; THREADED_REINIT := true; ASYNREAD := true
|}.

