(* ===== verification/Ui.v ===== *)
(** The user interface: the thread [ui_processing_thread] of [monitor/ui_processing.c]
    that reads commands from a socket and carries them out, and the message the client
    [monitor/ui.c] sends.

    What arrives on the socket is an argument.  A reply is a value with the numbers the
    monitor prints, not their layout.  The commands of the [TIMING] build are in
    [UiTiming]. *)
From S2P Require Import Prelude Text Config MonitorStats Os LruBuffer UtHash ExternRam ThreadedIo Upid.
From S2P Require Import BufferAllocator PageCache World PageCacheRead Userfault Zookeeper Processes PollfdVector.
From S2P Require Import Consistency.

Inductive reply : Type :=
| RemoveError (pid : Z)
| PrintInfo (on : bool)
| Pids (pids : list Z)
| Usages (servers : list ServerUsage)
| Stats (values : list Z) (rate : Z * timeval) (last_fault : timeval)
| Cleared
| Stopped
| IncorrectCommand.

Record uworld `{X : ExternRAM, Z0 : ZooKeeper, R : Rand} := Uworld {
  up : pworld;
  uv : Pollfd_vector;
  print_info : bool;
  stop_by_ui : bool;
  isDisconnected : bool;
  out : list reply
}.
Arguments Uworld {_ _ _ _} _ _ _ _ _ _.

(** [menu]: what the next token is an argument of. *)
Inductive menu : Set := MENU_NONE | MENU_EVICT | MENU_RESIZE | MENU_DISCONNECT.

(** After a request: read another one, close the connection, or end the thread. *)
Inductive ui_next : Set := ReadMore | Done | ThreadEnds.

(** Parallel to the lines of the [stat] command. *)
Definition stat_lines : list StatisticToRetreive :=
  [LRU_BUFFERSIZE; LRU_BUFFERCAP; NUM_UFDS; PAGE_FAULTS; ZEROPAGES; PLACED_PAGES; WRITES_SKIPPED_ZERO;
   PAGES_EVICTED; CACHE_HIT; CACHE_MISS; CACHE_HITRATIO; WRITES_AVOIDED; WRITES_SKIPPED_INVALID].

(** [strcmp(token, long) == 0 || strcmp(token, short) == 0] *)
Definition named (long short : string) (token : text) : bool := bool_decide (token = txt long \/ token = txt short).

(** The separators of [strsep(&string, ...)]: a blank or a line end. *)
Definition ui_delim (c : Z) : bool := (c =? 32) || (c =? 10).
(** The tokens [strsep] yields until the string is used up. *)
Fixpoint ui_tokens (fuel : nat) (s : text) : list text :=
  let '(tok, rest) := strsep ui_delim s in
  tok :: match fuel, rest with S fuel, Some s => ui_tokens fuel s | _, _ => [] end.

(** The buffer [recvBuff] as a string: the bytes before the first zero of a block of
    1024 that was cleared before the read. *)
Definition RECV_SIZE : nat := 1024.
Fixpoint until_zero (s : list Z) : option text :=
  match s with [] => None | c :: s => if c =? 0 then Some [] else cons c <$> until_zero s end.
Definition recv_string (bytes : list Z) : option text :=
  let bytes := take RECV_SIZE bytes in
  until_zero (bytes ++ replicate (RECV_SIZE - length bytes) 0).

Section ui.
Context `{X : ExternRAM, Z0 : ZooKeeper, R : Rand} `{F : BuildFlags, I : StaleIterator, WF : WriteFuel}.

Definition in_p {A} (m : M pworld A) : M uworld A :=
  zoom up (fun p u => Uworld p (uv u) (print_info u) (stop_by_ui u) (isDisconnected u) (out u)) m.
Definition ui_vector {A} (m : M (Pollfd_vector * MonitorStats) A) : M uworld A :=
  zoom (fun u => (uv u, s_stats (w_sys (pw (up u)))))
    (fun vs u => Uworld (Pworld (set_sys (Sys (w_os (pw (up u))) (w_dbg (pw (up u))) vs.2) (pw (up u))) (pz (up u)) (prand (up u)))
                   vs.1 (print_info u) (stop_by_ui u) (isDisconnected u) (out u)) m.
Definition say (r : reply) : M uworld unit :=
  mmod (fun u => Uworld (up u) (uv u) (print_info u) (stop_by_ui u) (isDisconnected u) (out u ++ [r])).
Definition toggle_print_info : M uworld unit :=
  mmod (fun u => Uworld (up u) (uv u) (negb (print_info u)) (stop_by_ui u) (isDisconnected u) (out u)).
(** [stop_by_ui = 1; raise(SIGINT)] *)
Definition stop_monitor : M uworld unit :=
  mmod (fun u => Uworld (up u) (uv u) (print_info u) true (isDisconnected u) (out u));;
  in_p (in_w (in_sys (on_dbg (mmod (fun d => Dbg (errno d) (return_val d) (S (sigint d)) (exit_on_recoverable_error d)))))).

Definition ui_stat : M uworld unit :=
  now ← mgets (fun u => gettimeofday (w_os (pw (up u))));
  st ← mgets (fun u => s_stats (w_sys (pw (up u))));
  let '(rate, st') := StatsGetRate now st in
  in_p (in_w (in_sys (mmod (fun s => Sys (s_os s) (s_dbg s) st'))));;
  say (Stats ((fun l => StatsGetStat l st) <$> stat_lines) rate (last_page_fault st')).

(** The chain of comparisons for a token that is not an argument. *)
Definition ui_keyword (zfuel : nat) (token : text) : M uworld (ui_next + menu) :=
  if named "print" "p" token then
    toggle_print_info;; on ← mgets print_info; say (PrintInfo on);; mret (inl Done)
  else if named "flush" "f" token then
    fds ← in_p (purgeDeadUpids zfuel);
    miter (fun fd => ui_vector (del_fd fd);; mret tt) fds;;
    mret (inl ReadMore)
  else if named "listpids" "l" token then
    pids ← in_p listPids; say (Pids pids);; mret (inl ReadMore)
  else if named "usage" "u" token then
    usage ← in_p getExternRAMUsage;
    (if decide (usage = []) then mret tt else say (Usages usage));; mret (inl ReadMore)
  else if named "evict" "e" token then mret (inr MENU_EVICT)
  else if named "resize" "r" token then mret (inr MENU_RESIZE)
  else if named "disconnectpid" "d" token then mret (inr MENU_DISCONNECT)
  else if (MONITORSTATS && named "stat" "s" token)%bool then ui_stat;; mret (inl ReadMore)
  else if (MONITORSTATS && named "clearstats" "c" token)%bool then
    now ← mgets (fun u => gettimeofday (w_os (pw (up u))));
    in_p (in_w (w_stats (StatsClear now)));; say Cleared;; mret (inl ReadMore)
  else if named "stop" "t" token then say Stopped;; stop_monitor;; mret (inl ThreadEnds)
  else say IncorrectCommand;; mret (inl ReadMore).

(** The commands that have an argument. *)
Definition ui_argument (zfuel : nat) (m : menu) (n : Z) : M uworld ui_next :=
  match m with
  | MENU_EVICT => in_p (in_w (evict_to_externram_multi n));; mret Done
  | MENU_RESIZE => in_p (in_w (resizeLRUBuffer n));; mret Done
  | MENU_DISCONNECT =>
      in_p (in_w flush_write_list);;
      let pid := u32 n in
      r ← in_p (removePid zfuel pid);
      mwhen (r <? 0) (say (RemoveError pid));;
      mret Done
  | MENU_NONE => mret ReadMore
  end.

(** The loop over the tokens. *)
Fixpoint ui_loop (zfuel : nat) (m : menu) (tokens : list text) : M uworld ui_next :=
  match tokens with
  | [] => mret ReadMore
  | token :: tokens =>
      match m with
      | MENU_NONE =>
          next ← ui_keyword zfuel token;
          match next with inl n => mret n | inr m => ui_loop zfuel m tokens end
      | m => ui_argument zfuel m (atoi token)
      end
  end.

(** One request: the bytes that were read; without a zero among the 1024 the string
    runs on past the buffer. *)
Definition ui_request (zfuel : nat) (bytes : list Z) : M uworld ui_next :=
  match recv_string bytes with
  | None => mub OutOfBounds
  | Some s => ui_loop zfuel MENU_NONE (ui_tokens (length s) s)
  end.

(** The loop of a connection over what its reads deliver. *)
Fixpoint ui_connection (zfuel : nat) (requests : list (list Z)) : M uworld ui_next :=
  match requests with
  | [] => mblock
  | bytes :: requests =>
      next ← ui_request zfuel bytes;
      gone ← mgets isDisconnected;
      match next with
      | ReadMore => if gone : bool then mret Done else ui_connection zfuel requests
      | n => mret n
      end
  end.
End ui.

(** * The client *)

(** [main] without [-i]: the text written to the socket, from the command and its
    argument on the command line.  [recvBuff] has room for 10240 bytes. *)
Definition BUFSIZE : nat := Z.to_nat 10240.
Definition ui_message (command command_arg : option text) : outcome text :=
  match command with
  | None => UB NullDeref
  | Some c =>
      let m := match command_arg with Some a => c ++ 32 :: a | None => c end in
      if decide (length m < BUFSIZE)%nat then Ok m else UB OutOfBounds
  end.

(** * The client and the monitor understand each other *)

(** Text that fits the monitor's buffer arrives as it was sent. *)
Lemma until_zero_app s t : Forall (fun c => c <> 0) s -> until_zero (s ++ 0 :: t) = Some s.
Proof.
  induction 1 as [|c s Hc _ IH]; [done|]. simpl. rewrite (proj2 (Z.eqb_neq c 0)) by done. by rewrite IH.
Qed.

Lemma recv_string_id s : Forall (fun c => c <> 0) s -> (length s < RECV_SIZE)%nat -> recv_string s = Some s.
Proof.
  intros Hs Hl. unfold recv_string. rewrite take_ge by lia.
  replace (RECV_SIZE - length s)%nat with (S (RECV_SIZE - length s - 1)) by lia. by apply until_zero_app.
Qed.

(** A word and a number, as the first two tokens. *)
Lemma ui_tokens_two word arg tail : Forall (fun c => ui_delim c = false) word -> Forall (fun c => ui_delim c = false) arg ->
  (tail = [] \/ tail = [10]) -> exists rest, ui_tokens (length (word ++ 32 :: arg ++ tail)) (word ++ 32 :: arg ++ tail) = word :: arg :: rest.
Proof.
  intros Hw Ha Ht. rewrite length_app. cbn [length]. replace (length word + S (length (arg ++ tail)))%nat
    with (S (length word + length (arg ++ tail))) by lia. cbn [ui_tokens].
  rewrite (strsep_token ui_delim word (32 :: arg ++ tail) Hw) by (intros c s [= <- _]; done).
  destruct (length word + length (arg ++ tail))%nat; cbn [ui_tokens];
    (rewrite (strsep_token ui_delim arg tail Ha); [|destruct Ht as [-> | ->]; intros c s; [done|by intros [= <- _]]]); by eexists.
Qed.

Lemma dec_digits_short fuel : forall z acc, (length (dec_digits fuel z acc) <= fuel + length acc)%nat.
Proof.
  induction fuel as [|fuel IH]; intros z acc; cbn [dec_digits]; [done|]. destruct (z / 10 =? 0); [simpl; lia|].
  etransitivity; [apply IH|]. simpl. lia.
Qed.

Lemma print_d_chars z : is_s32 z -> Forall (fun c => 45 <= c <= 57) (print_d z) /\ (length (print_d z) <= 21)%nat.
Proof.
  intros Hz. unfold is_s32 in Hz. assert (Hu : forall y, 0 <= y -> Forall (fun c => 45 <= c <= 57) (print_u y) /\ (length (print_u y) <= 20)%nat).
  { intros y Hy. split; [|apply (dec_digits_short 20 y [])]. eapply Forall_impl; [by apply print_u_digits|].
    intros c Hc. unfold isdigit in Hc. apply andb_true_iff in Hc as [?%Z.leb_le ?%Z.leb_le]. lia. }
  unfold print_d. destruct (Z.ltb_spec z 0).
  - destruct (Hu (- z)) as [H1 H2]; [lia|]. split; [constructor; [lia|done]|simpl; lia].
  - destruct (Hu z) as [H1 H2]; [lia|]. split; [done|lia].
Qed.

(** The words for the commands that have an argument. *)
Definition ui_words (m : menu) : list string :=
  match m with
  | MENU_EVICT => ["evict"; "e"]
  | MENU_RESIZE => ["resize"; "r"]
  | MENU_DISCONNECT => ["disconnectpid"; "d"]
  | MENU_NONE => []
  end%string.

Section commands.
Context `{X : ExternRAM, Z0 : ZooKeeper, R : Rand} `{F : BuildFlags, I : StaleIterator, WF : WriteFuel}.

Lemma ui_words_cases m (P : menu -> string -> Prop) : P MENU_EVICT "evict"%string -> P MENU_EVICT "e"%string ->
  P MENU_RESIZE "resize"%string -> P MENU_RESIZE "r"%string -> P MENU_DISCONNECT "disconnectpid"%string ->
  P MENU_DISCONNECT "d"%string -> forall w, w ∈ ui_words m -> P m w.
Proof. intros. destruct m; simpl in *; set_unfold; naive_solver. Qed.

Lemma ui_keyword_word zfuel m w : w ∈ ui_words m -> ui_keyword zfuel (txt w) = mret (inr m).
Proof.
  apply (ui_words_cases m (fun m w => ui_keyword zfuel (txt w) = mret (inr m))); unfold ui_keyword;
    repeat match goal with |- context [named ?a ?b (txt ?c)] =>
      let v := eval vm_compute in (named a b (txt c)) in change (named a b (txt c)) with v end; reflexivity.
Qed.

Lemma ui_word_chars m w : w ∈ ui_words m -> Forall (fun c => 97 <= c <= 122) (txt w) /\ (length (txt w) <= 13)%nat.
Proof.
  apply (ui_words_cases m (fun _ w => Forall (fun c => 97 <= c <= 122) (txt w) /\ (length (txt w) <= 13)%nat));
    (split; [by_decide|by_decide]).
Qed.

Lemma ui_command_run zfuel m w n tail : w ∈ ui_words m -> is_s32 n -> tail = [] \/ tail = [10] ->
  exists msg, ui_message (Some (txt w)) (Some (print_d n)) = Ok msg /\
    forall u, ui_request zfuel (msg ++ tail) u = ui_argument zfuel m n u.
Proof.
  intros Hw Hn Ht. destruct (ui_word_chars m w Hw) as [Hwc Hwl]. destruct (print_d_chars n Hn) as [Hnc Hnl].
  exists (txt w ++ 32 :: print_d n). split.
  { unfold ui_message. rewrite decide_True; [done|]. rewrite length_app. unfold BUFSIZE. simpl length. lia. }
  intros u. unfold ui_request. rewrite <- app_assoc, <- app_comm_cons.
  assert (Hw0 : Forall (fun c => ui_delim c = false) (txt w)).
  { eapply Forall_impl; [exact Hwc|]. intros c Hc. unfold ui_delim. apply orb_false_iff. split; apply Z.eqb_neq; simpl in Hc; lia. }
  assert (Hn0 : Forall (fun c => ui_delim c = false) (print_d n)).
  { eapply Forall_impl; [exact Hnc|]. intros c Hc. unfold ui_delim. apply orb_false_iff. split; apply Z.eqb_neq; simpl in Hc; lia. }
  rewrite recv_string_id.
  - destruct (ui_tokens_two (txt w) (print_d n) tail Hw0 Hn0 Ht) as [rest ->]. cbn [ui_loop].
    rewrite (ui_keyword_word zfuel m w Hw). unfold mbind, M_bind, mret, M_ret. cbn [ui_loop].
    pose proof (atoi_print n [] Hn ltac:(done)) as Ha. rewrite app_nil_r in Ha. rewrite Ha.
    by destruct m; [apply elem_of_nil in Hw| | |].
  - apply Forall_app. split; [eapply Forall_impl; [exact Hwc|]; simpl; lia|]. constructor; [done|].
    apply Forall_app. split; [eapply Forall_impl; [exact Hnc|]; simpl; lia|]. destruct Ht as [-> | ->]; by_decide.
  - rewrite length_app. simpl length. rewrite length_app. unfold RECV_SIZE. assert ((length tail <= 1)%nat) by (destruct Ht as [-> | ->]; simpl; lia). lia.
Qed.

(** What the client sends is what the monitor does.  For each command with a number,
    by its long or its short name, the text the client writes for a command line with any
    [int] makes the monitor run the operation with exactly that number, whether or not
    a line end follows. *)
Theorem ui_command_understood zfuel m w n tail (Hw : w ∈ ui_words m) (Hn : is_s32 n) (Ht : tail = [] \/ tail = [10]) :
  exists msg, ui_message (Some (txt w)) (Some (print_d n)) = Ok msg /\
    forall u, ui_request zfuel (msg ++ tail) u = ui_argument zfuel m n u.
Proof. by apply ui_command_run. Qed.
End commands.

Section crash.
Context {OSI : OS} {OL : OSLaws OSI} {X : ExternRAM} {L : ExternRAMLaws X} {Z0 : ZooKeeper} {R : Rand}.
Context {F : BuildFlags} {SB : SyncBuild F} {I : StaleIterator} {WF : WriteFuel} {EF : EnoughFuel L WF} {LO : Lost}.

(** A number the user types can take the monitor down.  The argument of [resize] is
    not checked: for a negative one the monitor runs past the end of the array of
    evicted pages. *)
Theorem ui_resize_negative zfuel w n tail u (Hw : w ∈ ui_words MENU_RESIZE) (Hn : - 2 ^ 31 <= n < 0)
    (Ht : tail = [] \/ tail = [10]) (Hok : wok (pw (up u)))
    (Hlen : Z.of_nat (length (lru_abs (w_lru (pw (up u))))) - n < 2 ^ 31) :
  exists msg, ui_message (Some (txt w)) (Some (print_d n)) = Ok msg /\ ui_request zfuel (msg ++ tail) u = UB OutOfBounds.
Proof.
  destruct (ui_command_run zfuel MENU_RESIZE w n tail Hw) as (msg & E & H); [unfold is_s32; lia|done|].
  exists msg. split; [done|]. rewrite H. cbn [ui_argument]. unfold mbind, M_bind, in_p, in_w, zoom.
  by rewrite resizeLRUBuffer_negative by (done || lia).
Qed.
End crash.
