(* ===== verification/UiClient.v ===== *)
(** The command line client [monitor/ui.c], the text of the monitor's statistics as
    [monitor/ui_processing.c] prints it, and [scripts/statsExtraction.py], which runs the client and takes
    the numbers out of what it prints.

    What the socket calls return and what the user types are arguments, and so are the text of
    the rate, which is printed as a floating point number, and the local time. *)
From S2P Require Import Prelude Text Config MonitorStats Os LruBuffer UtHash ExternRam ThreadedIo Upid.
From S2P Require Import BufferAllocator PageCache World PageCacheRead Userfault Zookeeper Processes PollfdVector Ui.

(** ** The client *)

(** The results of [socket], [inet_pton], [connect], [write] and [read] for one connection; the
    bytes when [read] has a result. *)
Record net := Net { n_socket : Z; n_pton : Z; n_connect : Z; n_write : Z; n_read : option (list Z) }.

Inductive ui_output : Type :=
| Usage | Help | Prompt
| NetError
| Response (size : Z) (reply : text).

Definition net_fails (n : net) : bool := ((n_socket n <? 0) || (n_pton n <=? 0) || (n_connect n <? 0))%bool.

(** [recvBuff[n] = 0] and the output of the reply as a string, after [read]. *)
Definition print_reply (n : net) : outcome (list ui_output) :=
  match n_read n with
  | None => Ok [NetError]
  | Some bytes =>
      if (length bytes =? 0)%nat then Ok []
      else if decide (length bytes < BUFSIZE)%nat then
        match until_zero (bytes ++ [0]) with
        | Some s => Ok [Response (Z.of_nat (length bytes)) s]
        | None => UB OutOfBounds
        end
      else UB OutOfBounds
  end.
(** Sending a command and printing the answer, once there is a connection. *)
Definition exchange (n : net) : outcome (list ui_output) :=
  r ← print_reply n; Ok ((if n_write n <? 0 then [NetError] else []) ++ r).

(** What the command line asks for. *)
Inductive ui_mode : Type := BadUsage | Interactive (addr : text) | Command (addr : text) (command command_arg : option text).
Definition ui_args (argv : list text) : ui_mode :=
  match argv with
  | [] => BadUsage
  | a1 :: rest =>
      if decide (a1 = txt "-i") then match rest with addr :: _ => Interactive addr | [] => BadUsage end
      else Command a1 (rest !! 0%nat) (rest !! 1%nat)
  end.

(** A command given on the command line: the exit code, the bytes written to the monitor, and
    what is printed. *)
Definition ui_once (command command_arg : option text) (n : net) : outcome (Z * option text * list ui_output) :=
  if net_fails n then Ok (1, None, [NetError])
  else
    m ← ui_message command command_arg;
    s ← exchange n;
    Ok (0, Some m, s).

(** A turn of the prompt, for a line the user has typed or the end of the input; [fgets] takes at most
    1023 bytes of it. *)
Inductive prompt_next : Set := NextLine | Quit | PromptFails.
Definition prompt_turn (line : option text) (n : net) : outcome (prompt_next * option text * list ui_output) :=
  if net_fails n then Ok (PromptFails, None, [NetError])
  else
    match line with
    | None => UB Uninitialised
    | Some l =>
        let command := take 1023 l in
        let token := (strsep ui_delim command).1 in
        if named "quit" "q" token then Ok (Quit, None, [Prompt])
        else if named "help" "h" token then Ok (NextLine, None, [Prompt; Help])
        else s ← exchange n; Ok (NextLine, Some command, Prompt :: s)
    end.
Fixpoint interactive_prompt (turns : list (option text * net)) : outcome (list text * list ui_output) :=
  match turns with
  | [] => Ok ([], [])
  | (line, n) :: turns =>
      t ← prompt_turn line n;
      let '(next, sent, out) := t in
      match next with
      | NextLine => r ← interactive_prompt turns; Ok (option_list sent ++ r.1, out ++ r.2)
      | _ => Ok (option_list sent, out)
      end
  end.

(** [printf("Response received. size:%d\n%s\n", n, recvBuff)] *)
Definition response_text (size : Z) (reply : text) : text :=
  txt "Response received. size:" ++ print_d size ++ 10 :: reply ++ [10].

(** ** The text of the statistics *)

Record tm := Tm { tm_year : Z; tm_mon : Z; tm_mday : Z; tm_hour : Z; tm_min : Z; tm_sec : Z }.

(** A number with leading zeros. *)
Definition print_padded (width : nat) (z : Z) : text :=
  replicate (width - length (print_u z)) 48 ++ print_u z.
(** [strftime] with ["%Y-%m-%dT%H:%M:%S"], and the milliseconds. *)
Definition date_text (t : tm) (tv_usec : Z) : text :=
  91 :: print_u (1900 + tm_year t) ++ 45 :: print_padded 2 (1 + tm_mon t) ++ 45 :: print_padded 2 (tm_mday t) ++ 84 ::
  print_padded 2 (tm_hour t) ++ 58 :: print_padded 2 (tm_min t) ++ 58 :: print_padded 2 (tm_sec t) ++ 46 ::
  print_padded 3 (tv_usec / 1000) ++ [93].

Definition stat_labels : list string :=
  ["LRU Buffer Size"; "LRU Buffer Capacity"; "Registered ufds"; "Total Page Fault Count"; "Zero Page Count";
   "Placed Data Page Count"; "Zero Pages Encountered"; "Page Eviction Count"; "Cache Hit Count"; "Cache Miss Count";
   "Cache Hit Percentage"; "Writes Avoided"; "Invalid Pages Dropped"]%string.
Definition stat_tabs : list nat := [1; 1; 1; 1; 1; 1; 1; 1; 1; 1; 1; 2; 1]%nat.

Definition stat_line (label : string) (tabs : nat) (value : text) : text := txt label ++ 58 :: replicate tabs 9 ++ value.
Definition stat_text (values : list Z) (rate : text) (date : option text) : text :=
  let lines := zip_with (fun lt v => stat_line lt.1 lt.2 (print_u v)) (zip stat_labels stat_tabs) values ++
               [stat_line "Page Fault Rate" 1 rate] ++
               option_list (stat_line "Last Page Fault" 1 <$> date) in
  concat ((fun l => l ++ [10]) <$> lines).

(** The counters of a [stat] command, as [ui_stat] takes them, and its whole reply. *)
Definition stat_counters (st : MonitorStats) : list Z := (fun l => StatsGetStat l st) <$> stat_lines.
Definition stat_reply (st : MonitorStats) (rate : text) (t : tm) (tv_usec : Z) : text :=
  stat_text (stat_counters st) rate (Some (date_text t tv_usec)).

(** ** [statsExtraction.py] *)

(** [str.split] and [str.strip]. *)
Fixpoint split (sep : Z) (s : text) : list text :=
  match s with
  | [] => [[]]
  | c :: s => if c =? sep then [] :: split sep s
              else match split sep s with t :: ts => (c :: t) :: ts | [] => [[c]] end
  end.
Definition strip (s : text) : text := reverse (skip_space (reverse (skip_space s))).

(** The loop over the lines; [None] for an [IndexError]. *)
Fixpoint stat_values (lines : list text) : option (list text) :=
  match lines with
  | [] => Some []
  | l :: ls =>
      if decide (strip l = []) then stat_values ls
      else v ← split 58 l !! 1%nat; vs ← stat_values ls; Some (strip v :: vs)
  end.
Definition statsTextToDict (statsText : text) : option (list text) := stat_values (drop 1 (split 10 statsText)).

(** The line that is written to the file. *)
Definition join (sep : text) (l : list text) : text :=
  match l with [] => [] | x :: l => x ++ concat ((fun y => sep ++ y) <$> l) end.
Definition handleData (now : Z) (statsList : list text) : text :=
  print_d now ++ 44 :: join [44] statsList ++ [13; 10].

(** * What the script reads is what the monitor counts *)

Lemma split_part sep s rest : sep ∉ s -> split sep (s ++ sep :: rest) = s :: split sep rest.
Proof.
  induction s as [|c s IH]; intros Hs; cbn [split app]; [by rewrite Z.eqb_refl|].
  apply not_elem_of_cons in Hs as [Hc Hs]. rewrite IH by done. replace (c =? sep) with false by lia. done.
Qed.
Lemma split_last sep s : sep ∉ s -> split sep s = [s].
Proof.
  induction s as [|c s IH]; intros Hs; cbn [split]; [done|]. apply not_elem_of_cons in Hs as [Hc Hs].
  rewrite IH by done. replace (c =? sep) with false by lia. done.
Qed.
Lemma split_lines lines rest : Forall (fun l => 10 ∉ l) lines ->
  split 10 (concat ((fun l => l ++ [10]) <$> lines) ++ rest) = lines ++ split 10 rest.
Proof.
  induction 1 as [|l lines Hl _ IH]; [done|]. cbn [fmap list_fmap concat]. rewrite <- !app_assoc. cbn [app].
  rewrite split_part by done. cbn. f_equal. exact IH.
Qed.

Lemma skip_space_nil s : skip_space s = [] <-> Forall (fun c => isspace c = true) s.
Proof.
  induction s as [|c s IH]; cbn; [by split|]. rewrite Forall_cons, <- IH. destruct (isspace c); [tauto|]. split; [done|by intros []].
Qed.
Lemma skip_space_id c s : isspace c = false -> skip_space (c :: s) = c :: s.
Proof. cbn. by intros ->. Qed.
Lemma skip_space_app s t : Forall (fun c => isspace c = true) s -> skip_space (s ++ t) = skip_space t.
Proof. induction 1 as [|c s Hc _ IH]; cbn; [done|]. by rewrite Hc. Qed.

(** Blanks around a word are taken away, and nothing else. *)
Lemma strip_word pre w : Forall (fun c => isspace c = true) pre -> Forall (fun c => isspace c = false) w -> strip (pre ++ w) = w.
Proof.
  intros Hp Hw. unfold strip. rewrite skip_space_app by done.
  assert (H : forall v, Forall (fun c => isspace c = false) v -> skip_space v = v).
  { intros [|c v] Hv; [done|]. apply skip_space_id. by inversion Hv. }
  rewrite (H w Hw), (H (reverse w)); [by rewrite reverse_involutive|by apply Forall_reverse].
Qed.
Lemma strip_start c s : isspace c = false -> strip (c :: s) <> [].
Proof.
  intros Hc E. unfold strip in E. rewrite skip_space_id in E by done. apply (f_equal reverse) in E. rewrite reverse_involutive in E.
  apply skip_space_nil in E. rewrite Forall_forall in E.
  assert (Hin : c ∈ reverse (c :: s)) by (rewrite elem_of_reverse; by left). by rewrite (E c Hin) in Hc.
Qed.

(** A line of the statistics gives its value up to a colon. *)
Definition line_value (l v : text) : Prop := Forall (fun c => c <> 10 /\ c <> 0) l /\ strip l <> [] /\ exists w, split 58 l !! 1%nat = Some w /\ strip w = v.

Lemma stat_values_lines lines vs : Forall2 line_value lines vs -> forall rest,
  stat_values (lines ++ rest) = (fun us => vs ++ us) <$> stat_values rest.
Proof.
  induction 1 as [|l v lines vs (_ & Hl & w & Hw & Hv) _ IH]; intros rest; cbn [app]; [destruct (stat_values rest); reflexivity|].
  cbn [stat_values]. rewrite decide_False by done. rewrite Hw. cbn. rewrite IH, Hv. destruct (stat_values rest); reflexivity.
Qed.

(** A printable character other than a blank or a colon. *)
Definition plain (c : Z) : Prop := 33 <= c <= 126 /\ c <> 58.
Lemma plain_not_space c : plain c -> isspace c = false.
Proof. intros [H _]. unfold isspace. lia. Qed.

Lemma stat_line_value label tabs v rest : Forall (fun c => c <> 58 /\ c <> 10 /\ c <> 0) (txt label) ->
  (exists c s, txt label = c :: s /\ isspace c = false) -> Forall plain v -> Forall (fun c => c <> 10 /\ c <> 0) rest ->
  (rest = [] \/ exists r, rest = 58 :: r) -> line_value (stat_line label tabs (v ++ rest)) v.
Proof.
  intros Hl (c & s & Ec & Hc) Hv Hr Hrest.
  assert (Hv0 : 58 ∉ replicate tabs 9 ++ v).
  { rewrite elem_of_app. intros [[? _]%elem_of_replicate|Hin]; [done|]. rewrite Forall_forall in Hv. destruct (Hv _ Hin). lia. }
  assert (Hl0 : 58 ∉ txt label).
  { intros Hin. rewrite Forall_forall in Hl. destruct (Hl _ Hin). lia. }
  unfold stat_line. split; [|split].
  - apply Forall_app. split; [eapply Forall_impl; [exact Hl|]; tauto|]. apply Forall_cons. split; [lia|].
    apply Forall_app. split; [apply Forall_replicate; lia|]. apply Forall_app. split; [|done].
    eapply Forall_impl; [exact Hv|]. intros x []. lia.
  - rewrite Ec. by apply strip_start.
  - rewrite split_part by done. exists (replicate tabs 9 ++ v). split.
    + rewrite app_assoc. by destruct Hrest as [->|[r ->]]; [rewrite app_nil_r, split_last|rewrite split_part].
    + apply strip_word; [by apply Forall_replicate|]. eapply Forall_impl; [exact Hv|]. apply plain_not_space.
Qed.

Lemma digits_plain z : 0 <= z -> Forall plain (print_u z).
Proof. intros Hz. eapply Forall_impl; [by apply print_u_digits|]. intros c Hc. unfold isdigit in Hc. unfold plain. lia. Qed.
Lemma padded_plain n z : 0 <= z -> Forall plain (print_padded n z).
Proof. intros Hz. apply Forall_app. split; [apply Forall_replicate; unfold plain; lia|by apply digits_plain]. Qed.

(** The part of the date before its first colon. *)
Definition date_hour (t : tm) : text :=
  91 :: print_u (1900 + tm_year t) ++ 45 :: print_padded 2 (1 + tm_mon t) ++ 45 :: print_padded 2 (tm_mday t) ++ 84 :: print_padded 2 (tm_hour t).
Record tm_ok (t : tm) : Prop := {
  ok_year : 0 <= tm_year t; ok_mon : 0 <= tm_mon t; ok_mday : 0 <= tm_mday t; ok_hour : 0 <= tm_hour t; ok_min : 0 <= tm_min t; ok_sec : 0 <= tm_sec t }.

Lemma date_split t us : tm_ok t -> 0 <= us -> exists r, date_text t us = date_hour t ++ 58 :: r /\ Forall plain (date_hour t) /\
  Forall (fun c => 33 <= c <= 126) r.
Proof.
  intros [] Hus. assert (0 <= us / 1000) by (apply Z.div_pos; lia). unfold date_text, date_hour.
  exists (print_padded 2 (tm_min t) ++ 58 :: print_padded 2 (tm_sec t) ++ 46 :: print_padded 3 (us / 1000) ++ [93]).
  assert (Hw : forall l, Forall plain l -> Forall (fun c => 33 <= c <= 126) l) by (intros l Hl; eapply Forall_impl; [exact Hl|]; by intros c []).
  split; [|split].
  - repeat (rewrite <- ?app_assoc, <- ?app_comm_cons; f_equal).
  - repeat first [apply padded_plain; lia|apply digits_plain; lia|apply Forall_cons; split; [by unfold plain|]|apply Forall_app; split].
  - repeat first [apply Hw, padded_plain; lia|apply Forall_nil; done|apply Forall_cons; split; [lia|]|apply Forall_app; split].
Qed.

Lemma count_lines lts values : length lts = length values -> Forall (fun v => 0 <= v) values ->
  Forall (fun lt : string * nat => Forall (fun c => c <> 58 /\ c <> 10 /\ c <> 0) (txt lt.1) /\ exists c s, txt lt.1 = c :: s /\ isspace c = false) lts ->
  Forall2 line_value (zip_with (fun lt v => stat_line lt.1 lt.2 (print_u v)) lts values) (print_u <$> values).
Proof.
  intros Hl Hv. revert lts Hl. induction Hv as [|v values Hv _ IH]; intros [|lt lts] Hl Hlt; try done.
  apply Forall_cons in Hlt as [[H1 H2] Hlt]. cbn [zip_with fmap list_fmap]. constructor; [|apply IH; [by injection Hl|done]].
  rewrite <- (app_nil_r (print_u v)) at 1. apply stat_line_value; [done|done|by apply digits_plain|by apply Forall_nil|by left].
Qed.

Lemma stat_labels_ok : Forall (fun lt : string * nat => Forall (fun c => c <> 58 /\ c <> 10 /\ c <> 0) (txt lt.1) /\ exists c s, txt lt.1 = c :: s /\ isspace c = false)
  (zip stat_labels stat_tabs).
Proof. do 13 (apply Forall_cons; split; [split; [by_decide|eexists _, _; split; reflexivity]|]). by apply Forall_nil. Qed.

Lemma stat_lines_value values rate t us : length values = 13%nat -> Forall is_u64 values -> Forall plain rate -> tm_ok t -> 0 <= us ->
  Forall2 line_value
    (zip_with (fun lt v => stat_line lt.1 lt.2 (print_u v)) (zip stat_labels stat_tabs) values ++
      [stat_line "Page Fault Rate" 1 rate; stat_line "Last Page Fault" 1 (date_text t us)])
    ((print_u <$> values) ++ [rate; date_hour t]).
Proof.
  intros Hl Hv Hr Ht Hus. apply Forall2_app.
  { apply count_lines; [by rewrite Hl|eapply Forall_impl; [exact Hv|]; by intros v []|apply stat_labels_ok]. }
  constructor; [|constructor; [|constructor]].
  - rewrite <- (app_nil_r rate) at 1. apply stat_line_value; [by_decide|by eexists _, _|done|by apply Forall_nil|by left].
  - destruct (date_split t us Ht Hus) as (r & -> & Hd & Hp).
    apply stat_line_value; [by_decide|by eexists _, _|done| |by right; eexists].
    apply Forall_cons. split; [lia|]. eapply Forall_impl; [exact Hp|]. cbn. lia.
Qed.

Lemma lines_chars lines vs : Forall2 line_value lines vs -> Forall (fun l => 10 ∉ l) lines /\
  Forall (fun c => c <> 0) (concat ((fun l => l ++ [10]) <$> lines)).
Proof.
  induction 1 as [|l v lines vs (H & _) _ [IH1 IH2]]; [split; constructor|]. split.
  - constructor; [|done]. intros Hin. rewrite Forall_forall in H. destruct (H _ Hin). lia.
  - cbn. apply Forall_app. split; [|done]. apply Forall_app. split; [|constructor; [lia|constructor]]. eapply Forall_impl; [exact H|]. cbn. lia.
Qed.

Lemma size_line z : 0 <= z -> 10 ∉ txt "Response received. size:" ++ print_d z.
Proof.
  intros Hz Hin. apply elem_of_app in Hin as [Hin|Hin].
  - revert Hin. by_decide.
  - unfold print_d in Hin. replace (z <? 0) with false in Hin by lia. pose proof (digits_plain z Hz) as H.
    rewrite Forall_forall in H. destruct (H _ Hin). lia.
Qed.

(** C38: the numbers that end up in the log are the numbers of the monitor.  The client, asked for
    the statistics, prints what the monitor has written, and the script takes from that text the thirteen
    counters, in the order of the monitor and as decimal numbers that read back as their values, then the
    rate; of the time of the last fault it keeps only what stands before the first colon, the day and the hour. *)
Theorem stats_extracted st rate t us n
    (Hst : stats_wf st) (Hr : Forall plain rate) (Ht : tm_ok t) (Hus : 0 <= us)
    (Hn : net_fails n = false) (Hw : 0 <= n_write n) (Hread : n_read n = Some (stat_reply st rate t us))
    (Hlen : (length (stat_reply st rate t us) < BUFSIZE)%nat) :
  exists size, ui_once (Some (txt "s")) None n = Ok (0, Some (txt "s"), [Response size (stat_reply st rate t us)]) /\
    statsTextToDict (response_text size (stat_reply st rate t us)) = Some ((print_u <$> stat_counters st) ++ [rate; date_hour t]) /\
    read_digits 0 <$> (print_u <$> stat_counters st) = stat_counters st.
Proof.
  assert (Hv : Forall is_u64 (stat_counters st)) by (unfold stat_counters; apply Forall_fmap, Forall_forall; intros l _; by apply StatsGetStat_typed).
  pose proof (stat_lines_value (stat_counters st) rate t us eq_refl Hv Hr Ht Hus) as Hl. destruct (lines_chars _ _ Hl) as [H10 H0].
  exists (Z.of_nat (length (stat_reply st rate t us))). split; [|split].
  - unfold ui_once, exchange, print_reply. rewrite Hn, Hread. replace (n_write n <? 0) with false by lia.
    assert (Hpos : exists c s, stat_reply st rate t us = c :: s) by (eexists _, _; reflexivity).
    destruct Hpos as (c & s & Et). replace (length (stat_reply st rate t us) =? 0)%nat with false by by rewrite Et.
    rewrite decide_True by done. rewrite until_zero_app by exact H0. reflexivity.
  - unfold statsTextToDict, response_text. rewrite app_assoc, split_part by (apply size_line; lia). cbn [drop].
    unfold stat_reply, stat_text. rewrite split_lines by exact H10. exact (stat_values_lines _ _ Hl (split 10 [10])).
  - rewrite <- list_fmap_compose. rewrite <- (list_fmap_id (stat_counters st)) at 2. apply list_fmap_ext. intros i v Hi.
    cbn. pose proof (read_print_u v []) as E. rewrite app_nil_r in E. apply E; [|done].
    rewrite Forall_lookup in Hv. by apply (Hv i).
Qed.

Definition some_stats : MonitorStats := mkStats 120 7 40 0 3 0 55 20 64 64 2 100 (last_count_time zero_stats) (last_page_fault zero_stats).
Definition some_date : tm := Tm 116 4 20 9 5 7.
Definition some_net : net := Net 3 1 0 1 (Some (stat_reply some_stats (txt "0.250000") some_date 42000)).

Lemma stats_extracted_witness : exists size, ui_once (Some (txt "s")) None some_net =
    Ok (0, Some (txt "s"), [Response size (stat_reply some_stats (txt "0.250000") some_date 42000)]) /\
  statsTextToDict (response_text size (stat_reply some_stats (txt "0.250000") some_date 42000)) =
    Some ((print_u <$> stat_counters some_stats) ++ [txt "0.250000"; txt "[2016-05-20T09"]).
Proof.
  destruct (stats_extracted some_stats (txt "0.250000") some_date 42000 some_net) as (size & H1 & H2 & _);
    [unfold stats_wf, is_u64, is_s32; cbn; lia|unfold plain; by_decide|split; cbn; lia|lia|reflexivity|cbn; lia|reflexivity|vm_compute; lia|].
  exists size. split; [exact H1|]. rewrite H2. vm_compute. reflexivity.
Defined.

(** * Other runs of the client *)

(** A reply that fills the buffer makes the client write past it. *)
Lemma full_reply_undefined n bytes : n_read n = Some bytes -> length bytes = BUFSIZE -> exchange n = UB OutOfBounds.
Proof.
  intros Hr Hl. unfold exchange, print_reply. rewrite Hr, Hl. change (BUFSIZE =? 0)%nat with false. rewrite decide_False by lia. done.
Qed.

Section commands.
Context `{X : ExternRAM, Z0 : ZooKeeper, R : Rand} `{F : BuildFlags, I : StaleIterator, WF : WriteFuel}.

(** A line typed at the prompt reaches the monitor as the command line does. *)
Lemma prompt_understood zfuel m w z n out : w ∈ ui_words m -> is_s32 z -> net_fails n = false -> exchange n = Ok out ->
  exists sent, prompt_turn (Some (txt w ++ 32 :: print_d z ++ [10])) n = Ok (NextLine, Some sent, Prompt :: out) /\
    forall u, ui_request zfuel sent u = ui_argument zfuel m z u.
Proof.
  intros Hw Hz Hn He. destruct (ui_command_run zfuel m w z [10] Hw Hz) as (msg & Em & H); [by right|].
  destruct (ui_word_chars m w Hw) as [Hwc Hwl]. destruct (print_d_chars z Hz) as [_ Hzl].
  unfold ui_message in Em. case_decide; [|done]. injection Em as <-. exists ((txt w ++ 32 :: print_d z) ++ [10]). split; [|exact H].
  unfold prompt_turn. rewrite Hn, take_ge by (rewrite length_app; cbn; rewrite length_app; cbn; lia).
  rewrite (strsep_token ui_delim (txt w) (32 :: print_d z ++ [10])); cycle 1.
  { eapply Forall_impl; [exact Hwc|]. intros c Hc. cbn in Hc. unfold ui_delim. lia. }
  { by intros c s [= <- _]. }
  cbn [fst]. assert (Hq : named "quit" "q" (txt w) = false /\ named "help" "h" (txt w) = false).
  { revert w Hw Hwc Hwl H H0. intros w Hw _ _ _ _. revert w Hw.
    apply (ui_words_cases m (fun _ w => named "quit" "q" (txt w) = false /\ named "help" "h" (txt w) = false)); split; vm_compute; reflexivity. }
  destruct Hq as [-> ->]. rewrite He. cbn. by rewrite <- app_assoc.
Qed.

(** The monitor does not look at the number of bytes read: when the client has closed the
    connection every further turn answers an empty command. *)
Lemma closed_connection_answered zfuel u : ui_request zfuel [] u = (say IncorrectCommand;; mret ReadMore) u.
Proof.
  assert (Hk : forall long short, long <> ""%string -> short <> ""%string -> named long short [] = false).
  { intros [|a l] [|b s] H1 H2; [done|done|done|]. unfold named. apply bool_decide_false. intros []; done. }
  unfold ui_request. change (recv_string []) with (Some (@nil Z)). cbn [length ui_tokens strsep ui_loop]. unfold ui_keyword.
  rewrite !Hk by done. rewrite !andb_false_r. reflexivity.
Qed.
End commands.
