(* ===== verification/UiTiming.v ===== *)
(** The user interface of the [TIMING] build: the commands of [monitor/ui_processing.c] that
    print, dump and clear the latency measurements, over the user interface of [Ui] and the
    buckets of [TimingStats].  Without these commands it is the user interface of the other
    builds; with them no request makes the buckets undefined.  Which files can be opened
    and closed is an argument. *)
From Stdlib Require Import SpecFloat.
From S2P Require Import Prelude Text Config MonitorStats Os LruBuffer UtHash ExternRam ThreadedIo Upid.
From S2P Require Import BufferAllocator PageCache World PageCacheRead Userfault Zookeeper Processes PollfdVector.
From S2P Require Import TimingStats Ui.

Inductive timing_reply : Type :=
| Buckets (rows : list (string * Z * (spec_float * spec_float * spec_float * spec_float)))
| NoFile (name : text)
| NotClosed.

(** [menu] with [MENU_DUMP]. *)
Inductive timing_menu : Set := Menu (m : menu) | MENU_DUMP.

Section ui.
Context `{X : ExternRAM, Z0 : ZooKeeper, R : Rand} `{F : BuildFlags, I : StaleIterator, WF : WriteFuel}.

(** The replies of both kinds in their order, and the files written. *)
Record tworld := Tworld {
  tu : uworld;
  tt_ : timing;
  t_out : list (reply + timing_reply);
  t_files : list (text * (list string * list (list spec_float)))
}.

Variables (qsort : (spec_float -> spec_float -> Z) -> list spec_float -> list spec_float)
          (clear_bytes : nat -> spec_float -> spec_float) (can_open can_close : text -> bool).

(** A command of the other builds; what it replies is appended. *)
Definition in_ui {A} (m : M uworld A) : M tworld A := fun s =>
  match m (tu s) with
  | Ok (x, u) => Ok (x, Tworld u (tt_ s) (t_out s ++ (inl <$> drop (length (out (tu s))) (out u))) (t_files s))
  | UB f => UB f
  | Blocked => Blocked
  end.
Definition in_timing {A} (m : M timing A) : M tworld A := zoom tt_ (fun t s => Tworld (tu s) t (t_out s) (t_files s)) m.
Definition t_say (r : timing_reply) : M tworld unit := mmod (fun s => Tworld (tu s) (tt_ s) (t_out s ++ [inr r]) (t_files s)).
Definition write_file (name : text) (d : list string * list (list spec_float)) : M tworld unit :=
  mmod (fun s => Tworld (tu s) (tt_ s) (t_out s) (t_files s ++ [(name, d)])).

(** What follows a keyword: the request is over, the next token is an argument, or, after
    [buckets], which has no [break], the next token is a keyword again. *)
Inductive after_keyword : Set := Over (n : ui_next) | Argument (m : timing_menu) | Again.

Definition t_keyword (zfuel : nat) (token : text) : M tworld after_keyword :=
  if (MONITORSTATS && named "buckets" "b" token)%bool then
    rows ← in_timing (StatsPrintBuckets qsort); t_say (Buckets rows);; mret Again
  else if (MONITORSTATS && named "dumplatency" "a" token)%bool then mret (Argument MENU_DUMP)
  else
    mwhen (MONITORSTATS && named "clearstats" "c" token)%bool (in_timing (StatsClearBuckets clear_bytes));;
    next ← in_ui (ui_keyword zfuel token);
    mret match next with inl n => Over n | inr m => Argument (Menu m) end.

Definition t_dump (name : text) : M tworld unit :=
  if can_open name then
    d ← in_timing StatsDumpBuckets; write_file name d;;
    if can_close name then mret tt else t_say NotClosed
  else t_say (NoFile name).

Fixpoint t_loop (zfuel : nat) (m : timing_menu) (tokens : list text) : M tworld ui_next :=
  match tokens with
  | [] => mret ReadMore
  | token :: tokens =>
      match m with
      | MENU_DUMP => t_dump token;; mret Done
      | Menu MENU_NONE =>
          next ← t_keyword zfuel token;
          match next with Over n => mret n | Argument m => t_loop zfuel m tokens | Again => t_loop zfuel (Menu MENU_NONE) tokens end
      | Menu m => in_ui (ui_argument zfuel m (atoi token))
      end
  end.

Definition t_request (zfuel : nat) (bytes : list Z) : M tworld ui_next :=
  match recv_string bytes with
  | None => mub OutOfBounds
  | Some s => t_loop zfuel (Menu MENU_NONE) (ui_tokens (length s) s)
  end.

(** * Properties *)

(** The words of the three commands. *)
Definition timing_word (token : text) : bool :=
  (named "buckets" "b" token || named "dumplatency" "a" token || named "clearstats" "c" token)%bool.

(** A keyword that is none of the three is handled as in the other builds. *)
Lemma t_keyword_other zfuel token s : timing_word token = false ->
  t_keyword zfuel token s =
  match ui_keyword zfuel token (tu s) with
  | Ok (next, u) =>
      Ok (match next with inl n => Over n | inr m => Argument (Menu m) end,
          Tworld u (tt_ s) (t_out s ++ (inl <$> drop (length (out (tu s))) (out u))) (t_files s))
  | UB f => UB f
  | Blocked => Blocked
  end.
Proof.
  unfold timing_word. intros H. apply orb_false_iff in H as [H H3]. apply orb_false_iff in H as [H1 H2].
  unfold t_keyword. rewrite H1, H2, H3, !andb_false_r. unfold mwhen, mbind, M_bind, in_ui. cbn [mret M_ret].
  by destruct (ui_keyword zfuel token (tu s)) as [[x u]|f|].
Qed.

(** Requests without the three commands run as in the other builds: the state and the
    replies are those of [ui_loop], the buckets and the files are left alone. *)
Lemma t_loop_other zfuel tokens : Forall (fun t => timing_word t = false) tokens -> forall m s,
  match ui_loop zfuel m tokens (tu s), t_loop zfuel (Menu m) tokens s with
  | Ok (n, u), Ok (n', s') => n' = n /\ tu s' = u /\ tt_ s' = tt_ s /\ t_files s' = t_files s
  | UB f, UB f' => f' = f
  | Blocked, Blocked => True
  | _, _ => False
  end.
Proof.
  induction 1 as [|token tokens Hk Ht IH]; intros m s; [done|]. destruct m; cbn [ui_loop t_loop].
  2-4: unfold in_ui; by destruct (ui_argument _ _ _ (tu s)) as [[n u]|f|].
  unfold mbind, M_bind. rewrite t_keyword_other by done.
  destruct (ui_keyword zfuel token (tu s)) as [[[n|m] u]|f|]; cbn [mret M_ret]; [done| |done|done].
  exact (IH m (Tworld u (tt_ s) _ (t_files s))).
Qed.

(** * The commands *)
Section commands.
Hypothesis qsort_perm : forall cmp l, Permutation (qsort cmp l) l.
Hypothesis stats_on : MONITORSTATS = true.

Lemma in_timing_typed {A} (m : M timing A) s : typed m -> timing_wf (tt_ s) ->
  exists x t, m (tt_ s) = Ok (x, t) /\ timing_wf t /\ in_timing m s = Ok (x, Tworld (tu s) t (t_out s) (t_files s)).
Proof.
  intros Hm Hs. destruct (Hm (tt_ s) Hs) as (x & t & E & Ht & _). exists x, t. unfold in_timing, zoom. by rewrite E.
Qed.

(** [buckets] prints, and the loop goes on with the next token as a keyword. *)
Lemma buckets_command zfuel w tokens s : w ∈ ["buckets"%string; "b"%string] -> timing_wf (tt_ s) ->
  exists rows t, StatsPrintBuckets qsort (tt_ s) = Ok (rows, t) /\ timing_wf t /\
    t_loop zfuel (Menu MENU_NONE) (txt w :: tokens) s =
    t_loop zfuel (Menu MENU_NONE) tokens (Tworld (tu s) t (t_out s ++ [inr (Buckets rows)]) (t_files s)).
Proof.
  intros Hw Hs. destruct (in_timing_typed (StatsPrintBuckets qsort) s) as (rows & t & E & Ht & Er); [|done|].
  { apply typed_bind; [apply typed_mapM; intros bt; by apply print_bucket_typed|intros x; apply typed_ret]. }
  exists rows, t. split; [done|]. split; [done|]. cbn [t_loop].
  assert (Hn : named "buckets" "b" (txt w) = true) by (apply elem_of_cons in Hw as [->|Hw]; [done|by apply list_elem_of_singleton in Hw as ->]).
  unfold t_keyword. rewrite stats_on, Hn. unfold mbind, M_bind. cbn [andb]. rewrite Er. reflexivity.
Qed.

(** [dumplatency] takes the next token as the name of a file and writes the samples to it. *)
Lemma dumplatency_command zfuel w name tokens s : w ∈ ["dumplatency"%string; "a"%string] -> timing_wf (tt_ s) ->
  exists d t, StatsDumpBuckets (tt_ s) = Ok (d, t) /\
    t_loop zfuel (Menu MENU_NONE) (txt w :: name :: tokens) s =
    Ok (Done, if can_open name then Tworld (tu s) t (t_out s ++ (if can_close name then [] else [inr NotClosed])) (t_files s ++ [(name, d)])
              else Tworld (tu s) (tt_ s) (t_out s ++ [inr (NoFile name)]) (t_files s)).
Proof.
  intros Hw Hs. destruct (in_timing_typed StatsDumpBuckets s StatsDumpBuckets_typed Hs) as (d & t & E & _ & Er).
  exists d, t. split; [done|]. cbn [t_loop].
  assert (Hn : named "buckets" "b" (txt w) = false /\ named "dumplatency" "a" (txt w) = true)
    by (apply elem_of_cons in Hw as [->|Hw]; [done|by apply list_elem_of_singleton in Hw as ->]).
  destruct Hn as [H1 H2]. unfold t_keyword. rewrite stats_on, H1, H2. unfold mbind, M_bind. cbn [andb mret M_ret]. unfold t_dump.
  destruct (can_open name); [|reflexivity]. unfold mbind, M_bind. rewrite Er.
  cbv [write_file mmod mret M_ret t_say]. cbn [tu tt_ t_out t_files]. destruct (can_close name); [by rewrite app_nil_r|reflexivity].
Qed.

(** A line typed at the prompt ends with a line feed, behind which there is an empty token:
    [buckets] is answered with the table and with the report of an incorrect command. *)
Lemma typed_buckets_answered_twice zfuel s : timing_wf (tt_ s) ->
  exists rows s', t_request zfuel (txt "buckets" ++ [10]) s = Ok (ReadMore, s') /\
    t_out s' = t_out s ++ [inr (Buckets rows); inl IncorrectCommand].
Proof.
  intros Hs. destruct (buckets_command zfuel "buckets" [[]] s ltac:(by left) Hs) as (rows & t & _ & _ & E).
  assert (Hr : recv_string (txt "buckets" ++ [10]) = Some (txt "buckets" ++ [10])) by (vm_compute; reflexivity).
  assert (Ht : ui_tokens (length (txt "buckets" ++ [10])) (txt "buckets" ++ [10]) = [txt "buckets"; []]) by (vm_compute; reflexivity).
  exists rows. unfold t_request. rewrite Hr, Ht, E. cbn [t_loop].
  unfold mbind, M_bind. rewrite t_keyword_other by done.
  replace (ui_keyword zfuel [] (tu (Tworld (tu s) t (t_out s ++ [inr (Buckets rows)]) (t_files s))))
    with (Ok (inl ReadMore : ui_next + menu, Uworld (up (tu s)) (uv (tu s)) (print_info (tu s)) (stop_by_ui (tu s)) (isDisconnected (tu s)) (out (tu s) ++ [IncorrectCommand]))) by (unfold ui_keyword; by rewrite stats_on).
  eexists. split; [reflexivity|]. cbn [t_out tu out]. rewrite drop_app_length. by rewrite <- app_assoc.
Qed.
End commands.
End ui.
