(* ===== verification/AttachMemory.v ===== *)
(** The script [scripts/attachMemory.py], which plugs memory into a virtual machine:
    it looks the machine up with [nova], writes a description of the memory to a
    file on the machine's host and attaches it there with [virsh].

    The replies of the commands, the result of the lookup and the credentials are
    arguments; a reply may depend on the commands before it.  An exception that
    nothing catches is a value. *)
From S2P Require Import Prelude Text UiClient.

Inductive exc : Set := IndexError | KeyError | CalledProcessError.

(** * Text *)

(** [int]: white space around an optional sign and digits. *)
Definition py_int (s : text) : option Z :=
  let digits (sign : Z) (s : text) :=
    if bool_decide (s = []) || negb (forallb isdigit s) then None else Some (sign * read_digits 0 s) in
  match strip s with
  | 45 :: s' => digits (-1) s'
  | 43 :: s' => digits 1 s'
  | s' => digits 1 s'
  end.
Definition is_zero_or_one (var : text) : bool :=
  match py_int var with Some v => (v =? 0) || (v =? 1) | None => false end.

Definition startswith (s prefix : text) : bool := bool_decide (take (length prefix) s = prefix).

(** [re.sub(r"( )+", r"", s)] *)
Definition remove_spaces (s : text) : text := base.filter (fun c => c <> 32) s.

(** One line of the table; the dictionary keeps the last value of a key. *)
Definition table_line (l : text) (d : gmap text text) : exc + gmap text text :=
  match split 124 (remove_spaces (strip l)) with
  | e0 :: es =>
      if bool_decide (strip e0 = []) then
        match es with
        | e1 :: e2 :: _ => inr (<[strip e1 := strip e2]> d)
        | _ => inl IndexError
        end
      else inr d
  | [] => inl IndexError
  end.
Fixpoint table_lines (ls : list text) (d : gmap text text) : exc + gmap text text :=
  match ls with
  | [] => inr d
  | l :: ls => match table_line l d with inl e => inl e | inr d => table_lines ls d end
  end.

(** The lines from the fourth to the last but one; the result of [textTable.strip()]
    is not used. *)
Definition textTableToDictionary (textTable : text) : exc + gmap text text :=
  let lines := split 10 textTable in
  table_lines (drop 3 (take (length lines - 1) lines)) ∅.

(** * Commands *)
Definition quote : text := [34].
Definition NOVA_HOST : text := txt "OS-EXT-SRV-ATTR:hypervisor_hostname".
Definition NOVA_INSTANCE_NAME : text := txt "OS-EXT-SRV-ATTR:instance_name".
Definition REMOTE_FILENAME_PATH : text := txt "/tmp/hotplug.xml".

Definition buildXML (isElastic memInKB numaNode : text) : text :=
  txt "<memory model='dimm'><source><isElastic>" ++ isElastic ++ txt "</isElastic></source><target><size unit='KiB'>" ++ memInKB ++
  txt "</size><node>" ++ numaNode ++ txt "</node></target></memory>".
Definition CMD_VIRSH (instanceName fileName : text) : text :=
  txt "docker exec nova_scaleos virsh attach-device " ++ instanceName ++ txt " " ++ fileName.
Definition CMD_CREATEFILE (fileText fileName : text) : text :=
  txt "docker exec nova_scaleos bash -c " ++ quote ++ txt "echo " ++ [92] ++ quote ++ fileText ++ [92] ++ quote ++ txt " > " ++ fileName ++ quote.

(** The arguments of a command that is run. *)
Definition ssh_command (host command : text) : list text := [txt "ssh"; host; txt "-t"; command].

Inductive printed : Type := OUT_ERROR | OUT_SUCCESS | ELASTIC_VAR_ERR | Usage | DebugDict (d : gmap text text) | DebugLines (ls : list text).

(** How the script ends, the commands it ran and what it printed, in their order. *)
Inductive ending : Type := Ended | SysExit (code : Z) | Raised (e : exc).
Record script_run := Run { r_end : ending; r_commands : list (list text); r_out : list printed }.

Section script.
Variables (NOVA_URL NOVA_USERNAME NOVA_PASSWORD NOVA_TENANT : text).
(** [check_output], which raises if the command fails. *)
Variable check_output : list text -> option text.
(** The lines a remote command prints, given the commands before it. *)
Variable readlines : list (list text) -> list text -> list text.

Definition nova_show (uuid : text) : list text :=
  [txt "nova"; txt "--os-auth-url"; NOVA_URL; txt "--os-user-name"; NOVA_USERNAME; txt "--os-password"; NOVA_PASSWORD;
   txt "--os-tenant-name"; NOVA_TENANT; txt "show"; uuid].

Definition cmdQueryUUID (uuid : text) : exc + gmap text text :=
  match check_output (nova_show uuid) with
  | None => inl CalledProcessError
  | Some outputText => if startswith outputText (txt "ERROR") then inr ∅ else textTableToDictionary outputText
  end.

Definition debug (debugMode : bool) (p : printed) (out : list printed) : list printed := if debugMode then out ++ [p] else out.

(** From the creation of the remote file on. *)
Definition attach_memory (uuidValues : gmap text text) (isElastic memInKB numaNode : text) (debugMode : bool) (cmds : list (list text)) (out : list printed) : script_run :=
  match uuidValues !! NOVA_HOST with
  | None => Run (Raised KeyError) cmds out
  | Some host =>
      let create := ssh_command host (CMD_CREATEFILE (buildXML isElastic memInKB numaNode) REMOTE_FILENAME_PATH) in
      let retVal := readlines cmds create in
      let cmds := cmds ++ [create] in
      let out := debug debugMode (DebugLines retVal) out in
      if negb (bool_decide (retVal = [])) then Run (SysExit 1) cmds (out ++ [OUT_ERROR]) else
      match uuidValues !! NOVA_INSTANCE_NAME with
      | None => Run (Raised KeyError) cmds out
      | Some instanceName =>
          let virsh := ssh_command host (CMD_VIRSH instanceName REMOTE_FILENAME_PATH) in
          let retVal := readlines cmds virsh in
          let cmds := cmds ++ [virsh] in
          let out := debug debugMode (DebugLines retVal) out in
          match retVal with
          | [] => Run (Raised IndexError) cmds out
          | l :: _ =>
              if startswith l (txt "Device") then Run Ended cmds (out ++ [OUT_SUCCESS])
              else Run (SysExit 1) cmds (out ++ [OUT_ERROR])
          end
      end
  end.

Definition attachMemory_main (argv : list text) : script_run :=
  match argv with
  | _ :: uuid :: isElastic :: args =>
      if negb (is_zero_or_one isElastic) then Run (SysExit 1) [] [ELASTIC_VAR_ERR; Usage] else
      match args with
      | memInKB :: numaNode :: rest =>
          let debugMode := negb (bool_decide (rest = [])) in
          let cmds := [nova_show uuid] in
          match cmdQueryUUID uuid with
          | inl e => Run (Raised e) cmds []
          | inr uuidValues =>
              let out := debug debugMode (DebugDict uuidValues) [] in
              if bool_decide (uuidValues = ∅) then Run (SysExit 1) cmds (out ++ [OUT_ERROR])
              else attach_memory uuidValues isElastic memInKB numaNode debugMode cmds out
          end
      | _ => Run (Raised IndexError) [] []
      end
  | _ => Run (SysExit 1) [] [Usage]
  end.
End script.

(** * The table *)

(** A cell: no bar, and of the white space only spaces. *)
Definition cell (s : text) : Prop := Forall (fun c => c <> 124 /\ (isspace c = false \/ c = 32)) s.
(** A row as [nova] prints it, the cells filled up with spaces. *)
Definition row (r : text * nat * (text * nat)) : text :=
  let '(k, n, (v, n')) := r in 124 :: 32 :: (k ++ replicate n 32) ++ 124 :: 32 :: (v ++ replicate n' 32) ++ [124].
Definition row_ok (r : text * nat * (text * nat)) : Prop := cell r.1.1 /\ cell r.2.1.
Definition row_key (r : text * nat * (text * nat)) : text := remove_spaces r.1.1.
Definition row_value (r : text * nat * (text * nat)) : text := remove_spaces r.2.1.
(** The dictionary of the rows. *)
Definition row_dict (d : gmap text text) (rows : list (text * nat * (text * nat))) : gmap text text :=
  foldl (fun d r => <[row_key r := row_value r]> d) d rows.
(** Two borders around the titles, the rows, a border. *)
Definition nova_table (heads : list text) (rows : list (text * nat * (text * nat))) (border : text) : text :=
  concat ((fun l => l ++ [10]) <$> heads ++ (row <$> rows) ++ [border]).

Lemma strip_both c s d : isspace c = false -> isspace d = false -> strip (c :: s ++ [d]) = c :: s ++ [d].
Proof.
  intros Hc Hd. unfold strip. rewrite skip_space_id by done. rewrite app_comm_cons, reverse_app. change (reverse [d]) with [d]. cbn [app].
  rewrite skip_space_id by done. by rewrite reverse_cons, reverse_involutive.
Qed.

Lemma remove_spaces_app s t : remove_spaces (s ++ t) = remove_spaces s ++ remove_spaces t.
Proof. apply filter_app. Qed.
Lemma remove_spaces_replicate n : remove_spaces (replicate n 32) = [].
Proof. induction n as [|n IH]; [done|]. unfold remove_spaces in *. cbn [replicate]. rewrite filter_cons_False by lia. done. Qed.

Lemma cell_word s : cell s -> 124 ∉ remove_spaces s /\ strip (remove_spaces s) = remove_spaces s.
Proof.
  intros Hs. unfold cell in Hs. rewrite Forall_forall in Hs. split.
  - intros Hin. apply list_elem_of_filter in Hin as [_ Hin]. by apply Hs in Hin as [? _].
  - apply (strip_word [] (remove_spaces s)); [done|]. apply Forall_forall. intros c Hin. apply list_elem_of_filter in Hin as [Hne Hin].
    by apply Hs in Hin as [_ [?|?]].
Qed.

Lemma table_line_row r d : row_ok r -> table_line (row r) d = inr (<[row_key r := row_value r]> d).
Proof.
  destruct r as [[k n] [v n']]. intros [Hk Hv]. destruct (cell_word k Hk) as [Bk Sk]. destruct (cell_word v Hv) as [Bv Sv].
  unfold table_line, row, row_key, row_value in *. cbn [fst snd] in *.
  assert (E : remove_spaces (strip (124 :: 32 :: (k ++ replicate n 32) ++ 124 :: 32 :: (v ++ replicate n' 32) ++ [124])) =
    [] ++ 124 :: remove_spaces k ++ 124 :: remove_spaces v ++ 124 :: []).
  { pose proof (strip_both 124 (32 :: (k ++ replicate n 32) ++ 124 :: 32 :: (v ++ replicate n' 32)) 124 eq_refl eq_refl) as Hs.
    cbn [app] in Hs. rewrite <- app_assoc in Hs. cbn [app] in Hs. rewrite Hs. unfold remove_spaces. rewrite filter_cons_True by lia. rewrite filter_cons_False by lia.
    rewrite filter_app. rewrite filter_cons_True by lia. rewrite filter_cons_False by lia. rewrite !filter_app.
    pose proof (remove_spaces_replicate n) as Hn. pose proof (remove_spaces_replicate n') as Hn'. unfold remove_spaces in Hn, Hn'. rewrite Hn, Hn', !app_nil_r. done. }
  rewrite E, split_part by (by apply not_elem_of_nil). rewrite split_part, split_part by done. cbn [split].
  rewrite bool_decide_eq_true_2 by done. by rewrite Sk, Sv.
Qed.

Lemma strip_keeps_start c s : isspace c = false -> exists s', strip (c :: s) = c :: s'.
Proof.
  intros Hc. unfold strip. rewrite skip_space_id by done. rewrite reverse_cons.
  assert (H : exists t, skip_space (reverse s ++ [c]) = t ++ [c]).
  { generalize (reverse s) as t. induction t as [|x t IH]; cbn [app skip_space]; [rewrite Hc; by exists []|].
    destruct (isspace x); [done|]. by exists (x :: t). }
  destruct H as [t ->]. rewrite reverse_app. by exists (reverse t).
Qed.

(** A border starts with a plus and is passed over. *)
Lemma table_line_border s d : table_line (43 :: s) d = inr d.
Proof.
  unfold table_line. destruct (strip_keeps_start 43 s eq_refl) as [s' ->]. unfold remove_spaces. rewrite filter_cons_True by lia.
  cbn [split]. change (43 =? 124) with false. cbn match.
  set (ts := split 124 _). assert (exists e es, match ts with t :: ts0 => (43 :: t) :: ts0 | [] => [[43]] end = (43 :: e) :: es) as (e & es & ->).
  { destruct ts as [|t ts]; eauto. }
  by rewrite bool_decide_eq_false_2 by (by apply strip_start).
Qed.

Lemma table_lines_rows rows s : Forall row_ok rows -> forall d,
  table_lines ((row <$> rows) ++ [43 :: s]) d = inr (row_dict d rows).
Proof.
  induction 1 as [|r rows Hr _ IH]; intros d; cbn [fmap list_fmap app table_lines]; [by rewrite table_line_border|].
  rewrite table_line_row by done. apply IH.
Qed.

Lemma row_no_newline r : row_ok r -> 10 ∉ row r.
Proof.
  destruct r as [[k n] [v n']]. intros [Hk Hv]. unfold row, cell in *. cbn [fst snd] in *. rewrite Forall_forall in Hk, Hv.
  assert (H : forall s m, (forall c, c ∈ s -> c <> 124 /\ (isspace c = false \/ c = 32)) -> 10 ∉ s ++ replicate m 32).
  { intros s m Hs [Hin|Hin]%elem_of_app; [by destruct (Hs 10 Hin) as [_ [?|?]]|]. by apply elem_of_replicate in Hin as [? _]. }
  destruct (proj1 (not_elem_of_app _ _ _) (H k n Hk)), (proj1 (not_elem_of_app _ _ _) (H v n' Hv)).
  repeat first [rewrite not_elem_of_cons|rewrite not_elem_of_app]. repeat split; try done. by apply not_elem_of_nil.
Qed.

(** The table that [nova] prints is read as its rows, without the spaces in the cells;
    the last row of a key counts. *)
Lemma table_read heads rows s : length heads = 3%nat -> Forall (fun l => 10 ∉ l) heads -> 10 ∉ s -> Forall row_ok rows ->
  textTableToDictionary (nova_table heads rows (43 :: s)) = inr (row_dict ∅ rows).
Proof.
  intros Hl Hh Hs Hr. unfold textTableToDictionary, nova_table.
  pose proof (split_lines (heads ++ (row <$> rows) ++ [43 :: s]) []) as E. rewrite app_nil_r in E. rewrite E; clear E.
  - cbn [split]. rewrite length_app. cbn [length]. rewrite Nat.add_sub, take_app_length. rewrite <- Hl, drop_app_length. by apply table_lines_rows.
  - repeat (apply Forall_app; split); [done| |constructor; [|done]; apply not_elem_of_cons; split; [lia|done]].
    apply Forall_fmap. eapply Forall_impl; [exact Hr|]. intros r. apply row_no_newline.
Qed.

(** A key with one row, whose value has no spaces, has this value. *)
Lemma table_value rows : forall d k v n n', NoDup (row_key <$> rows) -> (k, n, (v, n')) ∈ rows -> 32 ∉ k -> 32 ∉ v ->
  row_dict d rows !! k = Some v.
Proof.
  assert (Hid : forall s, 32 ∉ s -> remove_spaces s = s).
  { induction s as [|c s IH]; intros Hs; [done|]. apply not_elem_of_cons in Hs as [Hc Hs]. unfold remove_spaces in *. rewrite filter_cons_True by congruence. by rewrite IH. }
  assert (Hskip : forall rows d k, k ∉ (row_key <$> rows) -> row_dict d rows !! k = d !! k).
  { clear rows. induction rows as [|r rows IH]; intros d k Hk; [done|]. cbn [fmap list_fmap] in Hk. apply not_elem_of_cons in Hk as [Hne Hk].
    change (row_dict d (r :: rows)) with (row_dict (<[row_key r := row_value r]> d) rows). rewrite IH by done. by rewrite lookup_insert_ne. }
  induction rows as [|r rows IH]; intros d k v n n' Hnd Hin Hk Hv; [by apply not_elem_of_nil in Hin|].
  cbn [fmap list_fmap] in Hnd. apply NoDup_cons in Hnd as [Hni Hnd]. change (row_dict d (r :: rows)) with (row_dict (<[row_key r := row_value r]> d) rows). apply elem_of_cons in Hin as [<-|Hin]; [|by eapply IH].
  unfold row_key in Hni at 1. cbn [fst snd] in Hni. rewrite Hid in Hni by done. rewrite Hskip by done.
  unfold row_key, row_value. cbn [fst snd]. rewrite !Hid by done. by rewrite lookup_insert_eq.
Qed.

(** * The script *)
Section results.
Context (url user password tenant : text) (check_output : list text -> option text) (readlines : list (list text) -> list text -> list text).
Notation main := (attachMemory_main url user password tenant check_output readlines).

(** Success is reported only after all three commands, when writing the file printed
    nothing and the attachment reported a device; and then the script ends normally. *)
Lemma success_reported argv : OUT_SUCCESS ∈ r_out (main argv) ->
  r_end (main argv) = Ended /\
  exists name uuid isElastic memInKB numaNode rest host inst,
    argv = name :: uuid :: isElastic :: memInKB :: numaNode :: rest /\ is_zero_or_one isElastic = true /\
    let nova := nova_show url user password tenant uuid in
    let create := ssh_command host (CMD_CREATEFILE (buildXML isElastic memInKB numaNode) REMOTE_FILENAME_PATH) in
    let virsh := ssh_command host (CMD_VIRSH inst REMOTE_FILENAME_PATH) in
    r_commands (main argv) = [nova; create; virsh] /\ readlines [nova] create = [] /\
    exists l ls, readlines [nova; create] virsh = l :: ls /\ startswith l (txt "Device") = true.
Proof.
  destruct argv as [|name [|uuid [|isElastic args]]]; try (intros H; cbn in H; by apply list_elem_of_singleton in H).
  cbn [attachMemory_main]. destruct (is_zero_or_one isElastic) eqn:Hz; cbn [negb];
    [|intros H; cbn in H; apply elem_of_cons in H as [?|H]; [done|by apply list_elem_of_singleton in H]].
  destruct args as [|memInKB [|numaNode rest]]; try (intros H; by apply not_elem_of_nil in H).
  set (nova := nova_show url user password tenant uuid). set (dbg := negb (bool_decide (rest = []))).
  assert (Hd : forall p out, OUT_SUCCESS ∈ debug dbg p out -> p <> OUT_SUCCESS -> OUT_SUCCESS ∈ out).
  { intros p out. unfold debug. destruct dbg; [|done]. intros [?|H]%elem_of_app; [done|]. by apply list_elem_of_singleton in H as <-. }
  assert (Hde : forall p q, q <> OUT_SUCCESS -> p <> OUT_SUCCESS -> OUT_SUCCESS ∈ debug dbg p [] ++ [q] -> False).
  { intros p q Hq Hp [H|H]%elem_of_app; [|by apply list_elem_of_singleton in H]. apply Hd in H; [by apply not_elem_of_nil in H|done]. }
  destruct (cmdQueryUUID _ _ _ _ _ uuid) as [e|d]; [intros H; by apply not_elem_of_nil in H|].
  case_bool_decide; [intros H'; exfalso; by eapply (Hde (DebugDict d) OUT_ERROR)|].
  assert (H0 : OUT_SUCCESS ∉ debug dbg (DebugDict d) []) by (intros H'; apply Hd in H'; [by apply not_elem_of_nil in H'|done]).
  revert H0. generalize (debug dbg (DebugDict d) []) as out. intros out H0. unfold attach_memory.
  assert (He : forall ls, OUT_SUCCESS ∉ debug dbg (DebugLines ls) out) by (intros ls H'; by apply Hd in H').
  assert (Her : forall o, OUT_SUCCESS ∉ o -> OUT_SUCCESS ∉ o ++ [OUT_ERROR]).
  { intros o Ho [?|H']%elem_of_app; [done|]. by apply list_elem_of_singleton in H'. }
  destruct (d !! NOVA_HOST) as [host|]; [|done]. cbn zeta. case_bool_decide as Hc; cbn [negb]; [|intros H'; by apply Her in H'].
  destruct (d !! NOVA_INSTANCE_NAME) as [inst|]; [|intros H'; by apply He in H']. cbn [app].
  destruct (readlines _ (ssh_command host (CMD_VIRSH _ _))) as [|l ls] eqn:Ev.
  { intros H'. cbn [r_out] in H'. apply Hd in H'; [by apply He in H'|done]. }
  destruct (startswith l _) eqn:El; [|intros H'; exfalso; cbn [r_out] in H'; revert H'; apply Her; intros H'; apply Hd in H'; [by apply He in H'|done]].
  intros _. split; [done|]. exists name, uuid, isElastic, memInKB, numaNode, rest, host, inst.
  split; [done|]. split; [done|]. split; [done|]. split; [done|]. by exists l, ls.
Qed.

(** Given the table with a host and an instance, a host that writes the file silently
    and an attachment that reports a device, the memory is attached. *)
Lemma attach_succeeds name uuid isElastic memInKB numaNode heads rows s host inst n1 n2 n3 n4 l ls :
  is_zero_or_one isElastic = true -> length heads = 3%nat -> Forall (fun l => 10 ∉ l) heads -> 10 ∉ s -> Forall row_ok rows ->
  NoDup (row_key <$> rows) -> (NOVA_HOST, n1, (host, n2)) ∈ rows -> (NOVA_INSTANCE_NAME, n3, (inst, n4)) ∈ rows -> 32 ∉ host -> 32 ∉ inst ->
  let nova := nova_show url user password tenant uuid in
  let create := ssh_command host (CMD_CREATEFILE (buildXML isElastic memInKB numaNode) REMOTE_FILENAME_PATH) in
  let virsh := ssh_command host (CMD_VIRSH inst REMOTE_FILENAME_PATH) in
  check_output nova = Some (nova_table heads rows (43 :: s)) -> startswith (nova_table heads rows (43 :: s)) (txt "ERROR") = false ->
  readlines [nova] create = [] -> readlines [nova; create] virsh = l :: ls -> startswith l (txt "Device") = true ->
  main [name; uuid; isElastic; memInKB; numaNode] = Run Ended [nova; create; virsh] [OUT_SUCCESS].
Proof.
  intros Hz Hl Hh Hs Hr Hnd Hhost Hinst Bh Bi nova create virsh Hq He Hc Hv Hd.
  assert (K1 : 32 ∉ NOVA_HOST) by (apply (bool_decide_unpack _); vm_compute; exact I).
  assert (K2 : 32 ∉ NOVA_INSTANCE_NAME) by (apply (bool_decide_unpack _); vm_compute; exact I).
  pose proof (table_value rows ∅ _ _ _ _ Hnd Hhost K1 Bh) as E1. pose proof (table_value rows ∅ _ _ _ _ Hnd Hinst K2 Bi) as E2.
  cbn [attachMemory_main]. rewrite Hz. cbn [negb]. unfold cmdQueryUUID. fold nova. rewrite Hq, He, table_read by done.
  set (d := row_dict _ rows) in *. rewrite (bool_decide_eq_true_2 (([] : list text) = [])) by done. cbn [negb debug].
  rewrite bool_decide_eq_false_2 by (intros E; by rewrite E, lookup_empty in E1).
  unfold attach_memory. rewrite E1. cbn zeta. fold create. rewrite Hc, bool_decide_eq_true_2 by done. cbn [negb debug app]. rewrite E2. fold virsh.
  by rewrite Hv, Hd.
Qed.

(** Three or four words pass the check of their number and are one or two too few. *)
Lemma too_few_words name uuid isElastic args : is_zero_or_one isElastic = true -> (length args < 2)%nat ->
  main (name :: uuid :: isElastic :: args) = Run (Raised IndexError) [] [].
Proof. intros Hz Hl. cbn [attachMemory_main]. rewrite Hz. by destruct args as [|? [|? ?]]; cbn in Hl; try lia. Qed.

(** The example of the usage message is refused. *)
Lemma usage_example_refused name uuid : main [name; uuid; txt "512"; txt "1"; txt "True"] = Run (SysExit 1) [] [ELASTIC_VAR_ERR; Usage].
Proof. done. Qed.
End results.
