(* ===== verification/Locks.v ===== *)
(** Threads that share mutexes, semaphores and condition variables: what a
    function does with them ([code]), the interleavings of such threads
    ([exec]), and a check of the code of one thread ([check]) under which no
    interleaving of any number of threads unlocks a mutex it does not hold, has
    two owners of a mutex, lets two threads use a guarded variable at the same
    time, or leaves a thread in front of a mutex whose owner cannot go on. *)
From S2P Require Import Prelude.

(** What is left of a function when everything but its synchronisation is
    abstracted: branches and loops go either way. [L] are the mutexes, [V] the
    shared variables, [W] the semaphores and condition variables. *)
Inductive code (L V W : Type) :=
| Skip
| Acquire (l : L)                 (* pthread_mutex_lock *)
| Release (l : L)                 (* pthread_mutex_unlock *)
| Touch (v : V)                   (* a read or write of a shared variable *)
| Post (s : W)                    (* sem_post *)
| Wait (s : W)                    (* sem_wait *)
| Sleep (s : W)                   (* the wait inside pthread_cond_wait *)
| Seq (a b : code L V W)
| Choice (a b : code L V W)
| Loop (a : code L V W).
Arguments Skip {L V W}.
Arguments Acquire {L V W} l.
Arguments Release {L V W} l.
Arguments Touch {L V W} v.
Arguments Post {L V W} s.
Arguments Wait {L V W} s.
Arguments Sleep {L V W} s.
Arguments Seq {L V W} a b.
Arguments Choice {L V W} a b.
Arguments Loop {L V W} a.

(** A thread: what it still has to do and the mutexes it holds. *)
Record thread (L V W : Type) := Thread { todo : list (code L V W); held : list L }.
Arguments Thread {L V W} todo held.
Arguments todo {L V W} t.
Arguments held {L V W} t.

(** All threads and the values of the semaphores. *)
Record config (L V W : Type) := Config { threads : list (thread L V W); sems : W -> nat }.
Arguments Config {L V W} threads sems.
Arguments threads {L V W} c.
Arguments sems {L V W} c.

#[export] Instance code_eq_dec {L V W} `{EqDecision L, EqDecision V, EqDecision W} : EqDecision (code L V W).
Proof. solve_decision. Defined.

Section interleaving.
Context {L V W : Type} `{EqDecision L, EqDecision W}.

Definition holds (l : L) (t : thread L V W) : bool := existsb (fun h => bool_decide (h = l)) (held t).

Definition set_sem (s : W) (n : nat) (f : W -> nat) : W -> nat := fun s' => if bool_decide (s' = s) then n else f s'.

(** One step of thread [i]; [b] resolves its branch. A mutex that is held, by
    whatever thread, cannot be locked; a mutex the thread does not hold cannot
    be unlocked; a condition variable may wake its waiter at any time. *)
Definition exec (i : nat) (b : bool) (c : config L V W) : option (config L V W) :=
  match threads c !! i with
  | None => None
  | Some t =>
      let go k h := Some (Config (<[i := Thread k h]> (threads c)) (sems c)) in
      match todo t with
      | [] => None
      | Skip :: k => go k (held t)
      | Acquire l :: k => if existsb (holds l) (threads c) then None else go k (l :: held t)
      | Release l :: k => if holds l t then go k (base.filter (fun h => h <> l) (held t)) else None
      | Touch _ :: k => go k (held t)
      | Post s :: k => Some (Config (<[i := Thread k (held t)]> (threads c)) (set_sem s (S (sems c s)) (sems c)))
      | Wait s :: k =>
          match sems c s with
          | O => None
          | S n => Some (Config (<[i := Thread k (held t)]> (threads c)) (set_sem s n (sems c)))
          end
      | Sleep _ :: k => go k (held t)
      | Seq x y :: k => go (x :: y :: k) (held t)
      | Choice x y :: k => go ((if b then x else y) :: k) (held t)
      | Loop x :: k => go (if b then x :: Loop x :: k else k) (held t)
      end
  end.

Definition step (c c' : config L V W) : Prop := exists i b, exec i b c = Some c'.
Definition reaches : config L V W -> config L V W -> Prop := rtc step.

(** A schedule: which thread goes on, and which way it branches. *)
Fixpoint run_schedule (s : list (nat * bool)) (c : config L V W) : option (config L V W) :=
  match s with
  | [] => Some c
  | (i, b) :: s => match exec i b c with None => None | Some c' => run_schedule s c' end
  end.

Definition start (ps : list (code L V W)) (f : W -> nat) : config L V W := Config ((fun p => Thread [p] []) <$> ps) f.

(** Thread [i] is about to do [a]. *)
Definition at_ (c : config L V W) (i : nat) (a : code L V W) : Prop :=
  exists t k, threads c !! i = Some t /\ todo t = a :: k.

Definition at_b `{EqDecision V} (c : config L V W) (i : nat) (a : code L V W) : bool :=
  match threads c !! i with
  | Some t => match todo t with a' :: _ => bool_decide (a' = a) | [] => false end
  | None => false
  end.

(** Thread [i] waits for the semaphore or condition variable [s]. *)
Definition awaits (c : config L V W) (i : nat) (s : W) : Prop := at_ c i (Wait s) \/ at_ c i (Sleep s).

(** Thread [i] can go on by itself: it does not wait for a semaphore or a
    condition variable. *)
Definition runs (c : config L V W) (i : nat) : Prop :=
  (exists b c', exec i b c = Some c') /\ (forall s, ~ awaits c i s).

(** The discipline: mutexes are taken in increasing [rank]; a variable with a
    guard is used with its guard held; while waiting for [s], only mutexes of a rank below
    [patience s] are held. The result is what is held after. *)
Section check.
Variables (rank : L -> nat) (guard : V -> option L) (patience : W -> nat).

Definition holding (l : L) (h : list L) : bool := existsb (fun x => bool_decide (x = l)) h.

Fixpoint check (h : list L) (c : code L V W) : option (list L) :=
  match c with
  | Skip | Post _ => Some h
  | Acquire l => if forallb (fun x => (rank x <? rank l)%nat) h then Some (l :: h) else None
  | Release l => if holding l h then Some (base.filter (fun x => x <> l) h) else None
  | Touch v => match guard v with None => Some h | Some l => if holding l h then Some h else None end
  | Wait s | Sleep s => if forallb (fun x => (rank x <? patience s)%nat) h then Some h else None
  | Seq a b => match check h a with None => None | Some h' => check h' b end
  | Choice a b =>
      match check h a, check h b with
      | Some x, Some y => if bool_decide (x = y) then Some x else None
      | _, _ => None
      end
  | Loop a => match check h a with Some x => if bool_decide (x = h) then Some h else None | None => None end
  end.

Fixpoint check_all (h : list L) (k : list (code L V W)) : option (list L) :=
  match k with [] => Some h | a :: k => match check h a with None => None | Some h' => check_all h' k end end.

(** A thread of its own gives back every mutex. *)
Definition disciplined (p : code L V W) : bool := bool_decide (check [] p = Some []).
End check.
End interleaving.

Section discipline.
Context {L V W : Type} `{EqDecision L, EqDecision W}.
Variables (rank : L -> nat) (guard : V -> option L) (patience : W -> nat).
Notation check := (check rank guard patience).
Notation check_all := (check_all rank guard patience).

(** Every thread follows the discipline to its end, and no mutex has two owners. *)
Definition safe (c : config L V W) : Prop :=
  (forall i t, threads c !! i = Some t -> check_all (held t) (todo t) = Some []) /\
  (forall i j ti tj l, threads c !! i = Some ti -> threads c !! j = Some tj -> l ∈ held ti -> l ∈ held tj -> i = j).

Lemma holding_elem l (h : list L) : holding l h = true <-> l ∈ h.
Proof.
  unfold holding. rewrite existsb_exists, list_elem_of_In. split; [intros [x [Hx He]]; apply bool_decide_eq_true_1 in He; by subst|].
  intros Hl. exists l. split; [done|by apply bool_decide_eq_true_2].
Qed.

Lemma holds_elem l (t : thread L V W) : holds l t = true <-> l ∈ held t.
Proof. apply holding_elem. Qed.

Lemma held_by_none l (c : config L V W) i t :
  existsb (holds l) (threads c) = false -> threads c !! i = Some t -> l ∉ held t.
Proof.
  intros He Ht Hl. apply holds_elem in Hl. apply list_elem_of_lookup_2, list_elem_of_In in Ht.
  enough (existsb (holds l) (threads c) = true) by congruence. apply existsb_exists. eauto.
Qed.

Lemma held_by_some l (c : config L V W) :
  existsb (holds l) (threads c) = true -> exists i t, threads c !! i = Some t /\ l ∈ held t.
Proof.
  rewrite existsb_exists. intros [t [Ht Hl]]. apply list_elem_of_In, list_elem_of_lookup_1 in Ht as [i Hi].
  apply holds_elem in Hl. eauto.
Qed.

(** Replacing one thread by one whose code checks out and that holds nothing
    another thread holds. *)
Lemma safe_update c i t k h f :
  safe c -> threads c !! i = Some t -> check_all h k = Some [] ->
  (forall l, l ∈ h -> l ∈ held t \/ forall j tj, threads c !! j = Some tj -> l ∉ held tj) ->
  safe (Config (<[i := Thread k h]> (threads c)) f).
Proof.
  intros [Hc Hx] Hi Hk Hh. pose proof (lookup_lt_Some _ _ _ Hi) as Hlt. split; cbn [threads].
  - intros j tj Hj. destruct (decide (i = j)) as [<-|Hn].
    + rewrite list_lookup_insert_eq in Hj by done. by injection Hj as <-.
    + rewrite list_lookup_insert_ne in Hj by done. eauto.
  - assert (Ho : forall j tj l, i <> j -> threads c !! j = Some tj -> l ∈ h -> l ∈ held tj -> False).
    { intros j tj l Hn Hj Hl Hlj. destruct (Hh l Hl) as [H|H]; [by apply Hn, (Hx i j t tj l)|by apply (H j tj)]. }
    intros j1 j2 t1 t2 l H1 H2 Hl1 Hl2. destruct (decide (i = j1)) as [<-|N1], (decide (i = j2)) as [<-|N2]; [done| | |].
    + rewrite list_lookup_insert_eq in H1 by done. rewrite list_lookup_insert_ne in H2 by done. injection H1 as <-. by destruct (Ho j2 t2 l).
    + rewrite list_lookup_insert_eq in H2 by done. rewrite list_lookup_insert_ne in H1 by done. injection H2 as <-. by destruct (Ho j1 t1 l).
    + rewrite !list_lookup_insert_ne in * by done. eauto.
Qed.

Lemma safe_step c c' : safe c -> step c c' -> safe c'.
Proof.
  intros Hs (i & b & He). unfold exec in He. destruct (threads c !! i) as [t|] eqn:Hi; [|done].
  pose proof (proj1 Hs i t Hi) as Hk. destruct (todo t) as [|a k] eqn:Htodo; [done|]. cbn [Locks.check_all] in Hk.
  assert (Hu : forall k h f, check_all h k = Some [] -> (forall l, l ∈ h -> l ∈ held t \/ forall j tj, threads c !! j = Some tj -> l ∉ held tj) ->
    safe (Config (<[i := Thread k h]> (threads c)) f)) by (intros; by apply safe_update with t).
  destruct a as [ |l|l|v|s|s|s|x y|x y|x]; cbn [Locks.check] in Hk.
  - injection He as <-. apply Hu; eauto.
  - destruct (existsb (holds l) (threads c)) eqn:Hl; [done|]. injection He as <-. destruct (forallb _ _); [|done].
    apply Hu; [done|]. intros l' [->|H']%elem_of_cons; [right; intros; by eapply held_by_none|by left].
  - destruct (holds l t) eqn:Hl; [|done]. injection He as <-. unfold holds in Hl. unfold holding in Hk. rewrite Hl in Hk.
    apply Hu; [done|]. intros l' [_ ?]%list_elem_of_filter. by left.
  - injection He as <-. destruct (guard v) as [g|]; [destruct (holding g _); [|done]|]; apply Hu; eauto.
  - injection He as <-. apply Hu; eauto.
  - destruct (sems c s); [done|]. injection He as <-. destruct (forallb _ _); [|done]. apply Hu; eauto.
  - injection He as <-. destruct (forallb _ _); [|done]. apply Hu; eauto.
  - injection He as <-. apply Hu; [|eauto]. cbn [Locks.check_all]. destruct (check (held t) x); [|done]. by destruct (check _ y).
  - injection He as <-. apply Hu; [|eauto]. destruct (check (held t) x) as [hx|] eqn:Hx; [|done].
    destruct (check (held t) y) as [hy|] eqn:Hy; [|done]. case_bool_decide; [|done]. subst hy.
    destruct b; cbn [Locks.check_all]; [by rewrite Hx|by rewrite Hy].
  - injection He as <-. apply Hu; [|eauto]. destruct (check (held t) x) as [hx|] eqn:Hx; [|done]. case_bool_decide; [|done]. subst hx.
    destruct b; [|done]. cbn [Locks.check_all Locks.check]. rewrite Hx. cbn [Locks.check_all Locks.check]. rewrite Hx.
    rewrite bool_decide_eq_true_2 by done. done.
Qed.

Lemma safe_start ps f : Forall (fun p => disciplined rank guard patience p = true) ps -> safe (start ps f).
Proof.
  intros Hp. assert (Hi : forall i t, threads (start ps f) !! i = Some t -> exists p, t = Thread [p] [] /\ check [] p = Some []).
  { intros i t Ht. cbn in Ht. rewrite list_lookup_fmap in Ht. destruct (ps !! i) as [p|] eqn:Hl; [|done]. injection Ht as <-.
    exists p. split; [done|]. by apply (Forall_lookup_1 _ _ _ _ Hp), bool_decide_eq_true_1 in Hl. }
  split.
  - intros i t (p & -> & Hc)%Hi. cbn [todo held Locks.check_all]. by rewrite Hc.
  - intros i j ti tj l (p & -> & _)%Hi _ Hl%elem_of_nil. done.
Qed.

Lemma safe_reaches ps f c : Forall (fun p => disciplined rank guard patience p = true) ps -> reaches (start ps f) c -> safe c.
Proof. intros Hp. apply (rtc_ind_r (fun c => safe c)); [by apply safe_start|]. intros; by eapply safe_step. Qed.

(** A thread only unlocks what it holds. *)
Lemma safe_release c i l : safe c -> at_ c i (Release l) -> exists t, threads c !! i = Some t /\ l ∈ held t.
Proof.
  intros [Hc _] (t & k & Hi & Ht). exists t. split; [done|]. specialize (Hc i t Hi). rewrite Ht in Hc. cbn in Hc.
  destruct (holding l (held t)) eqn:Hl; [|done]. by apply holding_elem.
Qed.

(** Two threads are never both about to use a guarded variable. *)
Lemma safe_exclusive c i j v l : safe c -> guard v = Some l -> at_ c i (Touch v) -> at_ c j (Touch v) -> i = j.
Proof.
  intros [Hc Hx] Hg (ti & ki & Hi & Hti) (tj & kj & Hj & Htj).
  assert (Hh : forall n t k, threads c !! n = Some t -> todo t = Touch v :: k -> l ∈ held t).
  { intros n t k Hn Ht. specialize (Hc n t Hn). rewrite Ht in Hc. cbn in Hc. rewrite Hg in Hc.
    destruct (holding l (held t)) eqn:Hl; [|done]. by apply holding_elem. }
  eauto.
Qed.

Lemma below_elem h n l : forallb (fun x => (rank x <? n)%nat) h = true -> l ∈ h -> (rank l < n)%nat.
Proof. rewrite forallb_forall. intros Hf Hl%list_elem_of_In. by apply Nat.ltb_lt, Hf. Qed.

Lemma at_self (c : config L V W) i t a k a' : threads c !! i = Some t -> todo t = a :: k -> at_ c i a' -> a' = a.
Proof. intros Hi Ht (t' & k' & Hi' & Ht'). congruence. Qed.

(** A thread that holds a mutex can go on, or waits for something whose patience
    is above the rank of the mutex, or stands in front of a mutex of higher rank. *)
Lemma holder_status c i t l : safe c -> threads c !! i = Some t -> l ∈ held t ->
  runs c i \/ (exists s, awaits c i s /\ (rank l < patience s)%nat) \/
  exists l', at_ c i (Acquire l') /\ (rank l < rank l')%nat.
Proof.
  intros [Hc _] Hi Hl. specialize (Hc i t Hi). destruct (todo t) as [|a k] eqn:Ht.
  { cbn in Hc. injection Hc as Hc. rewrite Hc in Hl. by apply elem_of_nil in Hl. }
  assert (Hr : (forall s, a <> Wait s /\ a <> Sleep s) -> (exists c', exec i true c = Some c') -> runs c i).
  { intros Ha [c' He]. split; [eauto|]. intros s [H|H]; apply (at_self c i t a k) in H; try done; by destruct (Ha s). }
  assert (He : forall o, exec i true c = o -> exec i true c = o) by done. unfold exec at 1 in He. rewrite Hi, Ht in He.
  assert (Hat : at_ c i a) by (by exists t, k).
  cbn [Locks.check_all] in Hc. destruct a as [ |m|m|v|s|s|s|x y|x y|x]; try (left; apply Hr; [done|eexists; by apply He]);
    cbn [Locks.check] in Hc.
  - destruct (forallb _ (held t)) eqn:Hf; [|done]. right. right. exists m. split; [done|]. by eapply below_elem.
  - left. apply Hr; [done|]. destruct (holding m (held t)) eqn:Hm; [|done].
    unfold holds in He. unfold holding in Hm. rewrite Hm in He. eexists. by apply He.
  - destruct (forallb _ (held t)) eqn:Hf; [|done]. right. left. exists s. split; [by left|by eapply below_elem].
  - destruct (forallb _ (held t)) eqn:Hf; [|done]. right. left. exists s. split; [by right|by eapply below_elem].
Qed.

(** Whoever stands in front of a mutex, some thread can go on, unless one waits
    for something whose patience is above the rank of the mutex. *)
Lemma safe_progress c n i l : safe c -> (forall l, (rank l < n)%nat) -> at_ c i (Acquire l) ->
  exists j, runs c j \/ exists s, awaits c j s /\ (rank l < patience s)%nat.
Proof.
  intros Hs Hn. remember (n - rank l)%nat as m eqn:Hm. revert i l Hm.
  induction m as [m IH] using lt_wf_ind. intros i l -> Ha. destruct (existsb (holds l) (threads c)) eqn:Hl.
  - destruct (held_by_some l c Hl) as (j & t & Hj & Hh).
    destruct (holder_status c j t l Hs Hj Hh) as [H|[H|(l' & Ha' & Hr)]]; [by exists j; left|by exists j; right|].
    destruct (IH (n - rank l')%nat ltac:(pose proof (Hn l'); lia) j l' eq_refl Ha') as (j' & [H|(s & H & Hp)]); exists j'; [by left|].
    right. exists s. split; [done|lia].
  - exists i. left. destruct Ha as (t & k & Hi & Ht). split.
    + exists true. unfold exec. rewrite Hi, Ht, Hl. eauto.
    + intros s [H|H]; apply (at_self c i t (Acquire l) k) in H; done.
Qed.

(** A thread never stands in front of a mutex that it holds itself. *)
Lemma safe_acquire c i l : safe c -> at_ c i (Acquire l) -> exists t, threads c !! i = Some t /\ l ∉ held t.
Proof.
  intros [Hc _] (t & k & Hi & Ht). exists t. split; [done|]. specialize (Hc i t Hi). rewrite Ht in Hc. cbn in Hc.
  destruct (forallb _ (held t)) eqn:Hf; [|done]. intros Hl. pose proof (below_elem _ _ _ Hf Hl). lia.
Qed.

Lemma run_schedule_reaches s : forall (c c' : config L V W), run_schedule s c = Some c' -> reaches c c'.
Proof.
  induction s as [|[i b] s IH]; intros c c'; cbn [run_schedule]; [intros [= ->]; apply rtc_refl|].
  destruct (exec i b c) as [d|] eqn:He; [|done]. intros Hd%IH. eapply rtc_l; [by exists i, b|done].
Qed.

Lemma at_b_at `{EqDecision V} (c : config L V W) i a : at_b c i a = true -> at_ c i a.
Proof.
  unfold at_b. destruct (threads c !! i) as [t|] eqn:Hi; [|done]. destruct (todo t) as [|a' k] eqn:Ht; [done|].
  intros He. apply bool_decide_eq_true_1 in He. subst a'. by exists t, k.
Qed.

(** A schedule shows that a configuration with a property is reached. *)
Lemma schedule_reaches s (c : config L V W) (p : config L V W -> bool) :
  match run_schedule s c with Some c' => p c' | None => false end = true -> exists c', reaches c c' /\ p c' = true.
Proof. destruct (run_schedule s c) as [c'|] eqn:Hs; [|done]. intros Hp. exists c'. split; [by eapply run_schedule_reaches|done]. Qed.
End discipline.
