(* ===== verification/LockOrder.v ===== *)
(** The synchronisation of the whole monitor: what each function of
    [lib/userfault/userfault.c], [lib/pagecache/PageCacheImpl.cc],
    [lib/lrubuffer/LRUBufferImpl.cc], [include/upid.h],
    [include/buffer_allocator_array.h], [lib/monitorstats/monitorstats.h],
    [lib/externram/noop] and [monitor/] does with the mutexes, semaphores,
    condition variables and shared variables, in every build; that no
    interleaving of the threads is stuck in front of a mutex; and which shared
    variables are used by one thread at a time. Builds without [TIMING]. The name
    of a definition is that of the function with [_sync]. *)
From S2P Require Import Prelude Config Locks.

Inductive page_ring := buf_readpage | buf_evictpage.

Inductive mutex :=
| read_lock | pagecache_lock | lru_lock | list_lock | flush_write_needed_lock
| fdUpidMap_lock | zh_lock | noop_mutex | cons_lock (r : page_ring) | prod_lock (r : page_ring)
| LRU_Buffer_size_lock | LRU_Buffer_capacity_lock | registered_UFD_count_lock | last_page_fault_lock.

(** What the threads share. [map_element] is an element of [fdUpidMap] reached
    through a pointer that was looked up before. *)
Inductive shared :=
| v_lru | v_pageCache | v_fdUpidMap | v_map_element | v_zookeeper | v_kv
| v_write_list | v_prefetch_list | v_isWriterWaiting | v_isPrefetcherWaiting | v_isUfhandlerWaiting
| v_flushWriteListNeeded | v_pollfd_vector | v_ring (r : page_ring)
| v_LRU_Buffer_size | v_LRU_Buffer_capacity | v_registered_UFD_count | v_last_page_fault.

(** The semaphores and condition variables. [add_fd_lock] is locked by the thread
    that hands over a descriptor and unlocked by the polling thread: a binary
    semaphore. *)
Inductive sync_event :=
| writer_sem | prefetcher_sem | ufhandler_sem | flushed_write_sem | add_fd_lock
| prod_cond (r : page_ring) | cons_cond (r : page_ring).

#[export] Instance ring_eq_dec : EqDecision page_ring.
Proof. solve_decision. Defined.
#[export] Instance mutex_eq_dec : EqDecision mutex.
Proof. solve_decision. Defined.
#[export] Instance shared_eq_dec : EqDecision shared.
Proof. solve_decision. Defined.
#[export] Instance event_eq_dec : EqDecision sync_event.
Proof. solve_decision. Defined.

Notation sync := (code mutex shared sync_event).

Fixpoint steps (cs : list sync) : sync := match cs with [] => Skip | [c] => c | c :: cs => Seq c (steps cs) end.
Fixpoint any (cs : list sync) : sync := match cs with [] => Skip | c :: cs => Choice c (any cs) end.

(** [#ifdef b] and [if] on a condition that is not followed. *)
Definition ifdef (b : bool) (c : sync) : sync := if b then c else Skip.
Definition maybe (c : sync) : sync := Choice c Skip.

Definition locked (l : mutex) (cs : list sync) : sync := steps (Acquire l :: cs ++ [Release l]).

(** [pthread_cond_wait]: the mutex is released, and taken again afterwards. *)
Definition cond_wait (c : sync_event) (l : mutex) : sync := steps [Release l; Sleep c; Acquire l].
(** [pthread_cond_signal]: a waiter may wake at any time anyway. *)
Definition cond_signal (c : sync_event) : sync := Skip.

Inductive backend_kind := noop_store | other_store.

Section threads.
Context `{F : BuildFlags} (B : backend_kind) (mmap_fails : bool).

(** * Statistics *)
Definition LRUBufferSize_sync : sync := locked LRU_Buffer_size_lock [Touch v_LRU_Buffer_size].
Definition StatsSetLRUBufferCap_sync : sync := locked LRU_Buffer_capacity_lock [Touch v_LRU_Buffer_capacity].
Definition StatsGetLRUBufferCap_sync : sync := locked LRU_Buffer_capacity_lock [Touch v_LRU_Buffer_capacity].
Definition StatsSetNumUFDS_sync : sync := locked registered_UFD_count_lock [Touch v_registered_UFD_count].
Definition StatsGetNumUFDS_sync : sync := locked registered_UFD_count_lock [Touch v_registered_UFD_count].
Definition StatsSetLastFaultTime_sync : sync := locked last_page_fault_lock [Touch v_last_page_fault].
Definition StatsGetLastFaultTime_sync : sync := locked last_page_fault_lock [Touch v_last_page_fault].
Definition StatsClear_sync : sync := Touch v_last_page_fault.

(** * Resident list *)
Definition popLRU_sync : sync := steps [Touch v_lru; ifdef MONITORSTATS LRUBufferSize_sync].
Definition insertCacheNode_sync (evict : bool) : sync :=
  steps [Touch v_lru; ifdef MONITORSTATS LRUBufferSize_sync; if evict then maybe popLRU_sync else Skip].
Definition popNLRU_sync : sync := steps [Touch v_lru; Loop popLRU_sync].
Definition setSize_sync : sync := steps [Touch v_lru; ifdef MONITORSTATS StatsSetLRUBufferCap_sync].
Definition removeUFDFromLRU_sync : sync := steps [Touch v_lru; ifdef MONITORSTATS LRUBufferSize_sync].

(** * Descriptor map *)
Definition add_upid_in_map_sync : sync := locked fdUpidMap_lock [Touch v_fdUpidMap].
(** The client is read from the element after the mutex has been released. *)
Definition get_client_by_fd_sync : sync := steps [locked fdUpidMap_lock [Touch v_fdUpidMap]; maybe (Touch v_map_element)].
Definition del_fd_from_map_sync : sync := steps [Touch v_fdUpidMap; maybe (steps [Touch v_fdUpidMap; Touch v_map_element])].
Definition register_with_externram_sync : sync :=
  locked fdUpidMap_lock [Touch v_fdUpidMap; maybe (Touch v_map_element)].

(** * External memory: only the no-op store has a mutex *)
Definition noop_write_sync : sync := match B with noop_store => locked noop_mutex [Touch v_kv] | other_store => Skip end.
Definition noop_read_sync : sync := match B with noop_store => locked noop_mutex [Touch v_kv] | other_store => Skip end.
Definition noop_remove_sync : sync :=
  match B with
  | noop_store => steps [Acquire noop_mutex; Touch v_kv; Choice (steps [Touch v_kv; Release noop_mutex]) (Release noop_mutex)]
  | other_store => Skip
  end.
Definition noop_multiRead_sync : sync := Loop noop_read_sync.
Definition noop_multiWrite_sync : sync := Loop noop_write_sync.
Definition writePage_sync : sync := steps [noop_write_sync; Loop noop_write_sync].
Definition writePages_sync : sync := steps [noop_multiWrite_sync; Loop noop_multiWrite_sync].

(** * Page buffers *)
Definition get_tmp_page_sync (r : page_ring) : sync :=
  maybe (steps [Acquire (cons_lock r); Touch (v_ring r);
              Loop (steps [cond_wait (cons_cond r) (cons_lock r); Touch (v_ring r)]);
              Touch (v_ring r); Release (cons_lock r); Touch (v_ring r);
              maybe (locked (prod_lock r) [cond_signal (prod_cond r)])]).

(** A failing [mmap] makes the function return with the mutex held. *)
Definition reinit_page_buffer_sync (r : page_ring) : sync :=
  let rest := steps [Touch (v_ring r); Release (prod_lock r); locked (cons_lock r) [cond_signal (cons_cond r)]] in
  maybe (steps [Acquire (prod_lock r); Touch (v_ring r);
              Loop (steps [cond_wait (prod_cond r) (prod_lock r); Touch (v_ring r)]);
              Loop (Touch (v_ring r));
              if mmap_fails then Choice Skip rest else rest]).

Definition reinit_thread_sync (r : page_ring) : sync := Loop (reinit_page_buffer_sync r).

(** * Eviction *)
Definition store_evicted_sync : sync :=
  steps [(if THREADED_WRITE_TO_EXTERNRAM
        then steps [locked list_lock [Touch v_isWriterWaiting; Touch v_write_list]; maybe (Post writer_sem)]
        else steps [get_client_by_fd_sync; maybe writePage_sync]);
       ifdef PAGECACHE (Touch v_pageCache)].

Definition evict_to_externram_sync : sync :=
  let page := ifdef THREADED_REINIT (get_tmp_page_sync buf_evictpage) in
  steps [page; Loop page;
       maybe (if PAGECACHE_ZEROPAGE_OPTIMIZATION
              then Choice (ifdef PAGECACHE (Touch v_pageCache)) store_evicted_sync
              else store_evicted_sync)].

Definition evict_to_externram_multi_sync : sync := steps [popNLRU_sync; Loop evict_to_externram_sync].

Definition resizeLRUBuffer_sync : sync :=
  steps [Acquire lru_lock; Touch v_lru;
       Choice (steps [setSize_sync; Release lru_lock])
              (steps [evict_to_externram_multi_sync; setSize_sync; Release lru_lock])].

Definition evict_if_needed_sync : sync :=
  ifdef CACHE (steps [locked lru_lock [insertCacheNode_sync true];
                    maybe (steps [evict_to_externram_sync; maybe (locked lru_lock [insertCacheNode_sync false])])]).

Definition place_data_page_sync : sync := ifdef (negb ASYNREAD) evict_if_needed_sync.
Definition place_zero_page_sync : sync := ifdef (negb ASYNREAD) evict_if_needed_sync.

(** * Page cache: called with [pagecache_lock] held *)
Definition prefetch_loop_sync : sync :=
  steps [Touch v_pageCache; ifdef THREADED_WRITE_TO_EXTERNRAM (Touch v_write_list);
       ifdef THREADED_PREFETCH (Touch v_prefetch_list);
       ifdef THREADED_PREFETCH (maybe (Touch v_prefetch_list))].

Definition readPageIfInPageCache_top_sync : sync :=
  let lists := THREADED_WRITE_TO_EXTERNRAM || THREADED_PREFETCH in
  steps [Touch v_pageCache;
       any [get_client_by_fd_sync;
            steps [ifdef lists (Acquire list_lock);
                 ifdef THREADED_PREFETCH (Touch v_isPrefetcherWaiting);
                 Loop prefetch_loop_sync;
                 ifdef THREADED_PREFETCH (Touch v_prefetch_list);
                 ifdef lists (Release list_lock);
                 get_client_by_fd_sync;
                 ifdef THREADED_PREFETCH (maybe (Post prefetcher_sem))]]].

Definition readPageIfInPageCache_bottom_sync : sync :=
  steps [Touch v_pageCache;
       any [Touch v_pageCache;
            steps [maybe (steps [get_client_by_fd_sync; maybe noop_read_sync]); Touch v_pageCache];
            steps [get_client_by_fd_sync;
                 maybe (if THREADED_PREFETCH then steps [noop_read_sync; Touch v_pageCache]
                        else steps [noop_multiRead_sync; Touch v_pageCache; maybe (Touch v_pageCache)])]]].

Definition readPageIfInPageCache_sync : sync := steps [readPageIfInPageCache_top_sync; readPageIfInPageCache_bottom_sync].

(** * Fault handler *)
Definition look_in_write_list_sync : sync :=
  locked list_lock
    [Touch v_isWriterWaiting; Touch v_write_list;
     any [steps [Touch v_write_list; ifdef PAGECACHE (Touch v_pageCache)];
          steps [Touch v_write_list; Touch v_isUfhandlerWaiting]; Touch v_isUfhandlerWaiting]].

Definition look_in_prefetch_list_sync : sync :=
  locked list_lock [Touch v_isPrefetcherWaiting; Touch v_prefetch_list; Touch v_isUfhandlerWaiting].

Definition read_page_sync : sync :=
  steps [(if PAGECACHE
        then locked pagecache_lock [if ASYNREAD then readPageIfInPageCache_top_sync else readPageIfInPageCache_sync]
        else steps [get_client_by_fd_sync; ifdef (negb ASYNREAD) (maybe noop_read_sync)]);
       ifdef ASYNREAD
         (steps [evict_if_needed_sync;
               if PAGECACHE then locked pagecache_lock [readPageIfInPageCache_bottom_sync] else maybe noop_read_sync])].

Definition read_from_externram_sync : sync :=
  steps [ifdef THREADED_WRITE_TO_EXTERNRAM
         (steps [look_in_write_list_sync;
               Loop (steps [maybe (Post writer_sem); Wait ufhandler_sem; look_in_write_list_sync])]);
       ifdef THREADED_PREFETCH
         (steps [look_in_prefetch_list_sync;
               Loop (steps [maybe (Post prefetcher_sem); Wait ufhandler_sem; look_in_prefetch_list_sync])]);
       ifdef (THREADED_PREFETCH && ASYNREAD) (Acquire read_lock);
       Choice (ifdef ASYNREAD evict_if_needed_sync) read_page_sync;
       any [place_data_page_sync; place_zero_page_sync];
       ifdef ASYNREAD (Release read_lock);
       Acquire lru_lock; Touch v_lru;
       Choice (steps [evict_to_externram_multi_sync; Release lru_lock]) (Release lru_lock);
       ifdef MONITORSTATS StatsSetLastFaultTime_sync].

(** * Write and prefetch threads *)
Definition write_turn_sync : sync :=
  steps [Acquire list_lock; Touch v_write_list;
       Acquire flush_write_needed_lock; Touch v_isUfhandlerWaiting; Touch v_flushWriteListNeeded;
       Choice (steps [Release flush_write_needed_lock; Touch v_write_list; Touch v_isWriterWaiting])
              (steps [Touch v_flushWriteListNeeded; maybe (Post flushed_write_sem);
                    Release flush_write_needed_lock; Touch v_isWriterWaiting]);
       Release list_lock;
       any [steps [get_client_by_fd_sync; maybe writePages_sync;
                 locked list_lock [Loop (Touch v_write_list); Touch v_isUfhandlerWaiting];
                 maybe (Post flushed_write_sem); maybe (Post ufhandler_sem)];
            Wait writer_sem]].
Definition write_into_externram_thread_sync : sync := Loop write_turn_sync.

Definition prefetch_turn_sync : sync :=
  steps [locked list_lock [Touch v_prefetch_list; Touch v_isPrefetcherWaiting];
       Choice (steps [get_client_by_fd_sync;
                    Choice (steps [(if ASYNREAD then locked read_lock [noop_multiRead_sync] else noop_multiRead_sync);
                                 locked pagecache_lock [Touch v_pageCache];
                                 locked list_lock [Loop (Touch v_prefetch_list); Touch v_isUfhandlerWaiting];
                                 maybe (Post ufhandler_sem)])
                           (Wait prefetcher_sem)])
              (Wait prefetcher_sem)].
Definition prefetch_thread_sync : sync := Loop prefetch_turn_sync.

(** * Processes *)
Definition flush_write_list_sync : sync :=
  ifdef THREADED_WRITE_TO_EXTERNRAM
    (steps [locked flush_write_needed_lock [Touch v_flushWriteListNeeded]; Post writer_sem; Wait flushed_write_sem]).

(** [flush_ufd] asks [flush_buffers] to delete, never to evict. *)
Definition flush_buffers_sync (evict : bool) : sync :=
  steps [locked lru_lock [removeUFDFromLRU_sync];
       if evict then Loop evict_to_externram_sync else Skip;
       ifdef PAGECACHE (steps [locked pagecache_lock [Touch v_pageCache; Touch v_pageCache];
                             if evict then Skip else Loop noop_remove_sync])].
Definition flush_ufd_sync : sync := maybe (flush_buffers_sync false).

Definition remove_upid_sync : sync := locked zh_lock [Touch v_zookeeper].

Definition purgeDeadUpids_sync : sync :=
  steps [flush_write_list_sync;
       Acquire fdUpidMap_lock;
       Loop (steps [Touch v_fdUpidMap;
                  maybe (steps [Touch v_map_element; del_fd_from_map_sync; Release fdUpidMap_lock;
                              maybe flush_ufd_sync; remove_upid_sync; Acquire fdUpidMap_lock])]);
       Release fdUpidMap_lock].

Definition listPids_sync : sync := locked fdUpidMap_lock [Loop (Touch v_fdUpidMap)].

(** The loop is left by [break] with the mutex released, and the mutex is
    released again behind the loop. *)
Definition removePid_sync : sync :=
  steps [Acquire fdUpidMap_lock; Loop (Touch v_fdUpidMap);
       maybe (steps [Touch v_map_element; del_fd_from_map_sync; Release fdUpidMap_lock;
                   maybe flush_ufd_sync; remove_upid_sync]);
       Release fdUpidMap_lock].

Definition getExternRAMUsage_sync : sync :=
  steps [locked fdUpidMap_lock [Loop (Touch v_fdUpidMap)]; maybe get_client_by_fd_sync].

(** * Registration and polling *)
Definition recv_fd_sync : sync :=
  Loop (steps [locked zh_lock [Touch v_zookeeper]; maybe (steps [add_upid_in_map_sync; register_with_externram_sync])]).
Definition main_thread_sync : sync := Loop recv_fd_sync.

Definition pollfd_vector_append_sync : sync := steps [Touch v_pollfd_vector; ifdef MONITORSTATS StatsSetNumUFDS_sync; Touch v_pollfd_vector].
Definition pollfd_vector_remove_sync : sync :=
  steps [Touch v_pollfd_vector; maybe (steps [Touch v_pollfd_vector; ifdef MONITORSTATS StatsSetNumUFDS_sync; Touch v_pollfd_vector])].

Definition new_ufd_handler_sync : sync := steps [Wait add_fd_lock; maybe (Post add_fd_lock)].

Definition handle_userfault_sync : sync :=
  any [steps [read_from_externram_sync; maybe pollfd_vector_remove_sync]; pollfd_vector_remove_sync].

Definition poll_on_ufds_sync : sync :=
  steps [Loop (steps [Touch v_pollfd_vector;
                  maybe (steps [Post add_fd_lock; maybe pollfd_vector_append_sync]);
                  Loop (steps [Touch v_pollfd_vector; maybe handle_userfault_sync])]);
       Touch v_pollfd_vector].

Definition purge_and_forget_sync : sync := steps [purgeDeadUpids_sync; Loop pollfd_vector_remove_sync].
Definition reaper_thread_sync : sync := Loop purge_and_forget_sync.

(** * User interface *)
Inductive ui_kind := Evict | Resize | Disconnect | FlushDead | ListPids | Usage | Stat | ClearStats | NoRequest.
#[export] Instance ui_request_eq_dec : EqDecision ui_kind.
Proof. solve_decision. Defined.

(** What the user interface does for a request. *)
Definition ui_request_sync (q : ui_kind) : sync :=
  match q with
  | Evict => evict_to_externram_multi_sync
  | Resize => resizeLRUBuffer_sync
  | Disconnect => steps [flush_write_list_sync; removePid_sync]
  | FlushDead => purge_and_forget_sync
  | ListPids => listPids_sync
  | Usage => getExternRAMUsage_sync
  | Stat => ifdef MONITORSTATS (steps [LRUBufferSize_sync; StatsGetLRUBufferCap_sync; StatsGetNumUFDS_sync; StatsGetLastFaultTime_sync])
  | ClearStats => ifdef MONITORSTATS StatsClear_sync
  | NoRequest => Skip
  end.
Definition ui_processing_thread_sync (qs : list ui_kind) : sync := Loop (any (ui_request_sync <$> qs)).

(** The threads of a monitor that is sent requests of the kinds [qs], with [n]
    threads that hand over descriptors and, if so built, the reaper. *)
Definition monitor_threads (reaper : bool) (n : nat) (qs : list ui_kind) : list sync :=
  [poll_on_ufds_sync; ui_processing_thread_sync qs; main_thread_sync] ++
  (if THREADED_WRITE_TO_EXTERNRAM then [write_into_externram_thread_sync] else []) ++
  (if THREADED_PREFETCH then [prefetch_thread_sync] else []) ++
  (if THREADED_REINIT then [reinit_thread_sync buf_readpage; reinit_thread_sync buf_evictpage] else []) ++
  (if reaper then [reaper_thread_sync] else []) ++ replicate n new_ufd_handler_sync.

Definition initial_sems (e : sync_event) : nat := match e with add_fd_lock => 1 | _ => 0 end.

Definition monitor_start (reaper : bool) (n : nat) (qs : list ui_kind) : config mutex shared sync_event :=
  start (monitor_threads reaper n qs) initial_sems.
End threads.

(** The order in which the code nests its mutexes. *)
Definition lock_rank (l : mutex) : nat :=
  match l with
  | read_lock => 0 | pagecache_lock => 1 | lru_lock => 1 | list_lock => 2 | flush_write_needed_lock => 3
  | fdUpidMap_lock => 4 | zh_lock => 4 | noop_mutex => 5 | cons_lock _ => 6 | prod_lock _ => 6
  | LRU_Buffer_size_lock | LRU_Buffer_capacity_lock | registered_UFD_count_lock | last_page_fault_lock => 7
  end.

Definition asks (q : ui_kind) (qs : list ui_kind) : bool := existsb (fun q' => bool_decide (q' = q)) qs.

(** The mutex that protects a variable, when the monitor is or is not sent
    [evict] and [clearstats]: the first uses the resident list without
    [lru_lock], the second the time of the last fault without its mutex. The page
    cache, the elements of the map, the vector of the polling thread and the ring
    for evicted pages have no mutex that all users take. *)
Definition protects (evict clear : bool) (v : shared) : option mutex :=
  match v with
  | v_lru => if evict then None else Some lru_lock
  | v_last_page_fault => if clear then None else Some last_page_fault_lock
  | v_fdUpidMap => Some fdUpidMap_lock
  | v_zookeeper => Some zh_lock
  | v_kv => Some noop_mutex
  | v_write_list | v_prefetch_list | v_isWriterWaiting | v_isPrefetcherWaiting | v_isUfhandlerWaiting => Some list_lock
  | v_flushWriteListNeeded => Some flush_write_needed_lock
  | v_LRU_Buffer_size => Some LRU_Buffer_size_lock
  | v_LRU_Buffer_capacity => Some LRU_Buffer_capacity_lock
  | v_registered_UFD_count => Some registered_UFD_count_lock
  | v_ring buf_readpage => Some (prod_lock buf_readpage)
  | v_pageCache | v_map_element | v_pollfd_vector | v_ring buf_evictpage => None
  end.

(** A thread may wait for a free page of the ring for evicted pages with mutexes
    held, but with none of the rings; at every other wait it holds none. *)
Definition ring_patience (reinit : bool) (e : sync_event) : nat :=
  match e with cons_cond buf_evictpage => if reinit then 6 else 0 | _ => 0 end.

Definition builds : list BuildFlags :=
  let bb := [true; false] in
  c ← bb; p ← bb; z ← bb; m ← bb; w ← bb; t ← bb; r ← bb; a ← bb;
  [Build_BuildFlags c p z m w t r a].

(** The discipline, for a build, a store and the requests allowed. *)
Definition good_build (F : BuildFlags) : bool := implb ASYNREAD THREADED_PREFETCH.
Definition good_thread (F : BuildFlags) (evict clear : bool) : sync -> bool := disciplined lock_rank (protects evict clear) (ring_patience THREADED_REINIT).
Definition good_request (evict clear : bool) (q : ui_kind) : bool :=
  match q with Disconnect => false | Evict => evict | ClearStats => clear | _ => true end.

Definition requests : list ui_kind := [Evict; Resize; Disconnect; FlushDead; ListPids; Usage; Stat; ClearStats; NoRequest].

Definition build_checks (F : BuildFlags) (B : backend_kind) (evict clear : bool) : bool :=
  forallb (good_thread F evict clear)
    ([poll_on_ufds_sync B; main_thread_sync; write_into_externram_thread_sync B; prefetch_thread_sync B;
      reinit_thread_sync false buf_readpage; reinit_thread_sync false buf_evictpage; reaper_thread_sync B; new_ufd_handler_sync]) &&
  forallb (fun q => implb (good_request evict clear q) (good_thread F evict clear (ui_request_sync B q))) requests.

(** [n] steps of thread [i], which goes the second way at the places [no]. *)
Definition turns (i n : nat) (no : list nat) : list (nat * bool) :=
  (fun k => (i, negb (existsb (Nat.eqb k) no))) <$> List.seq 0 n.

(** Threads [i] and [j] are about to use [v]. *)
Definition both_use (v : shared) (i j : nat) (c : config mutex shared sync_event) : bool :=
  at_b c i (Touch v) && at_b c j (Touch v).

(** A build with the page cache and the thread for page buffers as given. *)
Definition plain_build (pagecache reinit : bool) : BuildFlags := {|
  CACHE := true; PAGECACHE := pagecache; PAGECACHE_ZEROPAGE_OPTIMIZATION := false; MONITORSTATS := true;
  THREADED_WRITE_TO_EXTERNRAM := false; THREADED_PREFETCH := false; THREADED_REINIT := reinit; ASYNREAD := false |}.

Lemma builds_all (F : BuildFlags) : F ∈ builds.
Proof.
  assert (Hb : forall b, b ∈ [true; false]) by (intros []; set_solver).
  destruct F as [c p z m w t r a]. unfold builds. repeat (apply list_elem_of_bind; eexists; split; [|apply Hb]). by apply list_elem_of_singleton.
Qed.

Lemma every_build_checks :
  forallb (fun F => implb (good_build F)
    (forallb (fun B => forallb (fun e => forallb (build_checks F B e) [true; false]) [true; false]) [noop_store; other_store])) builds = true.
Proof. vm_compute. reflexivity. Qed.

Lemma build_checked F B e cl : good_build F = true -> build_checks F B e cl = true.
Proof.
  intros HF. pose proof every_build_checks as H. rewrite forallb_forall in H.
  specialize (H F (proj1 (list_elem_of_In _ _) (builds_all F))). rewrite HF in H. cbn [implb] in H.
  rewrite forallb_forall in H. assert (HB : In B [noop_store; other_store]) by (destruct B; cbn; tauto). specialize (H B HB).
  assert (Hb : forall b, In b [true; false]) by (intros []; cbn; tauto).
  rewrite forallb_forall in H. specialize (H e (Hb e)). rewrite forallb_forall in H. exact (H cl (Hb cl)).
Qed.

Lemma check_any F evict clear cs :
  Forall (fun c => good_thread F evict clear c = true) cs -> good_thread F evict clear (Loop (any cs)) = true.
Proof.
  intros Hc. assert (Ha : check lock_rank (protects evict clear) (ring_patience THREADED_REINIT) [] (any cs) = Some []).
  { induction Hc as [|c cs Hh _ IH]; [done|]. apply bool_decide_eq_true_1 in Hh. cbn [any check]. by rewrite Hh, IH. }
  apply bool_decide_eq_true_2. cbn [check]. by rewrite Ha.
Qed.

Section monitor.
Context `{F : BuildFlags} (B : backend_kind) (reaper : bool) (n : nat) (qs : list ui_kind).
Hypothesis HF : good_build F = true.
Hypothesis Hq : Disconnect ∉ qs.

Lemma asks_elem q : q ∈ qs -> asks q qs = true.
Proof. intros H. apply existsb_exists. exists q. split; [by apply list_elem_of_In|by apply bool_decide_eq_true_2]. Qed.

Lemma monitor_disciplined :
  Forall (fun p => disciplined lock_rank (protects (asks Evict qs) (asks ClearStats qs)) (ring_patience THREADED_REINIT) p = true)
    (monitor_threads B false reaper n qs).
Proof.
  pose proof (build_checked F B (asks Evict qs) (asks ClearStats qs) HF) as H. unfold build_checks in H.
  apply andb_true_iff in H as [Ht Hr]. rewrite forallb_forall in Ht, Hr.
  assert (Hi : forall p, In p _ -> disciplined lock_rank (protects (asks Evict qs) (asks ClearStats qs)) (ring_patience THREADED_REINIT) p = true) by exact Ht.
  assert (Hu : disciplined lock_rank (protects (asks Evict qs) (asks ClearStats qs)) (ring_patience THREADED_REINIT) (ui_processing_thread_sync B qs) = true).
  { apply check_any, Forall_fmap, Forall_forall. intros q Hqs.
    assert (In q requests) as Hin by (destruct q; cbn; tauto). apply Hr in Hin.
    assert (Hg : good_request (asks Evict qs) (asks ClearStats qs) q = true) by (destruct q; try done; cbn; by apply asks_elem).
    by rewrite Hg in Hin. }
  unfold monitor_threads. repeat (apply Forall_app; split); repeat constructor; try done; try (apply Hi; cbn; tauto).
  - destruct THREADED_WRITE_TO_EXTERNRAM; repeat constructor. apply Hi; cbn; tauto.
  - destruct THREADED_PREFETCH; repeat constructor. apply Hi; cbn; tauto.
  - destruct THREADED_REINIT; repeat constructor; apply Hi; cbn; tauto.
  - destruct reaper; repeat constructor. apply Hi; cbn; tauto.
  - apply Forall_replicate. apply Hi; cbn; tauto.
Qed.

Lemma monitor_safe c : reaches (monitor_start B false reaper n qs) c ->
  safe lock_rank (protects (asks Evict qs) (asks ClearStats qs)) (ring_patience THREADED_REINIT) c.
Proof. apply safe_reaches, monitor_disciplined. Qed.
End monitor.

(** * The monitor *)





Lemma both_use_race F q v j s :
  good_build F = true -> Disconnect ∉ [q] -> j <> O ->
  match run_schedule s (monitor_start other_store false false 0 [q]) with Some c => both_use v 0 j c | None => false end = true ->
  exists (F : BuildFlags) B qs c i j, good_build F = true /\ Disconnect ∉ qs /\
    reaches (monitor_start B false false 0 qs) c /\ i <> j /\ at_ c i (Touch v) /\ at_ c j (Touch v).
Proof.
  intros HF Hq Hj Hs. apply schedule_reaches in Hs as (c & Hr & Hb). apply andb_true_iff in Hb as [H0 H1].
  exists F, other_store, [q], c, O, j. split; [done|]. split; [done|]. split; [done|]. split; [done|]. split; by apply at_b_at.
Qed.



(** The conditions above are needed. After a
    [disconnectpid] that found its process, the mutex of the map is unlocked by a
    thread that does not hold it, possibly under the hands of one that does. *)
Lemma disconnect_unlocks_foreign_mutex :
  exists c, reaches (@monitor_start default_build other_store false false 0 [Disconnect]) c /\
    at_ c 1 (Release fdUpidMap_lock) /\ (holds fdUpidMap_lock <$> threads c !! 1%nat) = Some false /\
    (holds fdUpidMap_lock <$> threads c !! 0%nat) = Some true.
Proof.
  destruct (schedule_reaches (turns 1 27 [7; 15; 20]%nat ++ turns 0 26 [5; 20]%nat)
    (@monitor_start default_build other_store false false 0 [Disconnect])
    (fun c => at_b c 1 (Release fdUpidMap_lock) && bool_decide ((holds fdUpidMap_lock <$> threads c !! 1%nat) = Some false) &&
              bool_decide ((holds fdUpidMap_lock <$> threads c !! 0%nat) = Some true))) as (c & Hr & Hb); [vm_compute; reflexivity|].
  exists c. apply andb_true_iff in Hb as [Hb H3]. apply andb_true_iff in Hb as [H1 H2].
  apply bool_decide_eq_true_1 in H2, H3. split; [done|]. split; [by apply at_b_at|done].
Qed.

(** With [ASYNREAD] and without [THREADED_PREFETCH] the handler unlocks a
    [read_lock] it never locked. *)
Lemma asynread_alone_unlocks_unlocked :
  exists c, reaches (@monitor_start (Build_BuildFlags true true false true false false false true) other_store false false 0 []) c /\
    at_ c 0 (Release read_lock) /\ (holds read_lock <$> threads c !! 0%nat) = Some false.
Proof.
  destruct (schedule_reaches (turns 0 42 [5; 33; 36]%nat)
    (@monitor_start (Build_BuildFlags true true false true false false false true) other_store false false 0 [])
    (fun c => at_b c 0 (Release read_lock) && bool_decide ((holds read_lock <$> threads c !! 0%nat) = Some false))) as (c & Hr & Hb);
    [vm_compute; reflexivity|].
  exists c. apply andb_true_iff in Hb as [H1 H2]. apply bool_decide_eq_true_1 in H2. split; [done|]. split; [by apply at_b_at|done].
Qed.

(** When [mmap] fails, the thread that prepares pages stops at its own mutex. *)
Lemma failed_refill_blocks_itself :
  exists c, reaches (@monitor_start (plain_build false true) other_store true false 0 []) c /\
    at_ c 4 (Acquire (prod_lock buf_evictpage)) /\ (holds (prod_lock buf_evictpage) <$> threads c !! 4%nat) = Some true.
Proof.
  destruct (schedule_reaches (turns 4 15 [7; 9]%nat) (@monitor_start (plain_build false true) other_store true false 0 [])
    (fun c => at_b c 4 (Acquire (prod_lock buf_evictpage)) && bool_decide ((holds (prod_lock buf_evictpage) <$> threads c !! 4%nat) = Some true)))
    as (c & Hr & Hb); [vm_compute; reflexivity|].
  exists c. apply andb_true_iff in Hb as [H1 H2]. apply bool_decide_eq_true_1 in H2. split; [done|]. split; [by apply at_b_at|done].
Qed.
