(* ===== verification/Scenario.v ===== *)
(** A monitor with a concrete kernel and the no-op backend: the theorems of the
    other files applied to it. *)
From S2P Require Import Prelude Config MonitorStats Os LruBuffer UtHash ExternRam ThreadedIo Upid.
From S2P Require Import BufferAllocator PageCache World PageCacheRead Userfault Consistency Faults.
From S2P Require Import Memory Zookeeper Processes Registration PollfdVector Monitor CachedPages.
From S2P Require Import SimOs Noop Text Ui LruCache PrefetchThread Application TestPrograms.

#[local] Existing Instance default_build.
#[local] Instance scenario_iterator : StaleIterator := @stale_undefined.
#[local] Instance scenario_fuel : WriteFuel := 1%nat.
#[local] Instance scenario_enough : EnoughFuel (noop_laws (O := SimOS)) scenario_fuel.
Proof. intros e. simpl. unfold write_fuel, scenario_fuel. lia. Qed.


(** Just started: no region, room for two pages, descriptor 5 open. *)
Definition booted : world := World
  (Sys (Sim ∅ ∅ {[1 := zero_page]} ∅ {[5]} ∅ 0) (Dbg 0 0 0 0) zero_stats)
  (LruList.new 2) (FdMap empty_hash false) (∅ : gmap ptr (gmap Z ptr))
  (mkPageCache ∅ [] 0 [] [] [] 0 0 0 0 0) init_tio 1 (PageBuffer None 0 0 0 0 0).

Definition run_or {A} (m : M world A) (w : world) : world :=
  match m w with Ok (_, w') => w' | _ => w end.
Definition is_ok {A} (x : outcome A) : bool := match x with Ok _ => true | _ => false end.

Definition registered : world := run_or (register EmptyString 5 77) booted.

Lemma noop_ok_empty (o : sim) : noop_ok (O := SimOS) (∅ : gmap ptr (gmap Z ptr)) o.
Proof. split; intros *; unfold noop_at; by rewrite lookup_empty. Qed.

Lemma booted_client u : client_of booted u = None.
Proof. done. Qed.

Lemma booted_ok : wok (LO := none_lost) booted.
Proof.
  split.
  - split; [|done]. split; [apply empty_keyed|]. intros k s. unfold get. done.
  - apply noop_ok_empty.
  - intros u c _. by rewrite booted_client.
  - done.
  - done.
  - split; [constructor|]. split; [constructor|]. done.
  - by intros u a ?%elem_of_nil.
Qed.

(** The result of a concrete run, without its steps. *)
Lemma run_or_intro {A} (m : M world A) w (P : A -> world -> Prop) :
  (exists x w', m w = Ok (x, w') /\ P x w') -> exists x, P x (run_or m w).
Proof. intros (x & w' & E & H). unfold run_or. rewrite E. by exists x. Qed.

Lemma registered_ok : monitor_ok registered /\ is_Some (client_of registered 5).
Proof.
  assert (Hr : match register EmptyString 5 77 booted with Ok (r, _) => r | _ => -1 end = 0) by (vm_compute; reflexivity).
  pose proof (register_run (LO := none_lost) EmptyString 5 77 booted booted_ok) as H.
  specialize (H ltac:(unfold is_s32; lia) eq_refl ltac:(exact I)).
  destruct H as (ret & w' & E & _ & _ & H). unfold registered, run_or. rewrite E in Hr |- *. clear E.
  destruct (H Hr) as (Hw & Hc & Hl & _ & _). clear H.
  split; [|exact Hc]. split; [exact Hw|unfold within; rewrite Hl|rewrite Hl]; by_decide.
Qed.

(** Process stores on the concrete kernel. *)
Definition sim_store (u a : Z) (pg : page) (w : world) : world :=
  let o := w_os w in
  set_sys (Sys (sim_with_app (<[(u, a) := pg]> (sim_app o)) (sim_zero o ∖ {[(u, a)]}) (sim_buf o) o : os)
             (s_dbg (w_sys w)) (s_stats (w_sys w))) w.

Lemma step_sim_store u a pg w : bool_decide (is_Some (sim_app (w_os w) !! (u, a))) = true ->
  step w (Store u a pg) (sim_store u a pg w).
Proof.
  intros H%bool_decide_eq_true. apply step_store; [exact H| | | |done]; simpl.
  - by rewrite lookup_insert_eq.
  - intros u' a' Hne. simpl. by rewrite lookup_insert_ne by congruence.
  - by intros p _.
Qed.

Lemma step_sim_fault u a w : is_ok (read_from_externram u a w) = true ->
  step w (Fault u a) (run_or (read_from_externram u a) w).
Proof.
  unfold run_or. destruct (read_from_externram u a w) as [[r w']| |] eqn:E; try done. intros _. by apply (step_fault u a w r).
Qed.

(** Three pages in a region with room for two: the first is written, evicted when
    the third is faulted in, and read back. *)
Definition page_of_ones : page := replicate (Z.to_nat PAGE_SIZE) Byte.x01.
Definition page_of_twos : page := replicate (Z.to_nat PAGE_SIZE) Byte.x02.
Definition addr1 : Z := 65536.
Definition addr2 : Z := 69632.
Definition addr3 : Z := 73728.
Definition handle (a : Z) (w : world) : world := run_or (read_from_externram 5 a) w.

Definition scene1 : world := handle addr1 registered.
Definition scene2 : world := sim_store 5 addr1 page_of_ones scene1.
Definition scene3 : world := handle addr2 scene2.
Definition scene4 : world := sim_store 5 addr2 page_of_twos scene3.
Definition scene5 : world := handle addr3 scene4.
Definition scene6 : world := handle addr1 scene5.

Definition trace : list event :=
  [Fault 5 addr1; Store 5 addr1 page_of_ones; Fault 5 addr2; Store 5 addr2 page_of_twos; Fault 5 addr3].

Lemma scene_run : run registered trace scene5.
Proof.
  pose proof (run_nil registered) as R.
  apply (run_snoc _ _ _ (Fault 5 addr1) scene1) in R; [|apply step_sim_fault|]; [|vm_compute; reflexivity..].
  apply (run_snoc _ _ _ (Store 5 addr1 page_of_ones) scene2) in R; [|apply step_sim_store|]; [|vm_compute; reflexivity..].
  apply (run_snoc _ _ _ (Fault 5 addr2) scene3) in R; [|apply step_sim_fault|]; [|vm_compute; reflexivity..].
  apply (run_snoc _ _ _ (Store 5 addr2 page_of_twos) scene4) in R; [|apply step_sim_store|]; [|vm_compute; reflexivity..].
  apply (run_snoc _ _ _ (Fault 5 addr3) scene5) in R; [|apply step_sim_fault|]; [|vm_compute; reflexivity..].
  exact R.
Qed.

Lemma trace_ok : Forall (event_ok registered) trace.
Proof.
  destruct registered_ok as [_ Hc]. repeat constructor; try exact Hc; by_decide.
Qed.

Lemma shows_self w : shows w (view w).
Proof. by intros u a _. Qed.

Lemma monitor_refines_memory_witness :
  app_page (w_os scene5) 5 addr2 = Some page_of_twos /\
  default zero_page (stored_at scene5 5 addr1) = page_of_ones.
Proof.
  destruct (monitor_refines_memory registered trace scene5 (view registered)
    (proj1 registered_ok) (shows_self registered) trace_ok scene_run) as (H1 & H2 & _).
  split.
  - destruct (app_page (w_os scene5) 5 addr2) as [pg|] eqn:E; [|exfalso; revert E; vm_compute; discriminate].
    f_equal. rewrite (H1 5 addr2 pg); [vm_compute; reflexivity|by_decide|exact E].
  - rewrite (H2 5 addr1); [vm_compute; reflexivity|by_decide|vm_compute; reflexivity].
Defined.

Lemma scene5_quiet ret w2 : read_from_externram 5 addr1 scene5 = Ok (ret, w2) -> errors w2 = errors scene5.
Proof.
  assert (Hq : (match read_from_externram 5 addr1 scene5 with Ok (_, w') => errors w' =? errors scene5 | _ => true end)%nat = true)
    by (vm_compute; reflexivity).
  intros E. rewrite E in Hq. clear E. by apply Nat.eqb_eq in Hq.
Qed.

Lemma scene5_stored : stored_at scene5 5 addr1 <> None.
Proof.
  assert (H : bool_decide (stored_at scene5 5 addr1 = None) = false) by (vm_compute; reflexivity).
  by apply bool_decide_eq_false in H.
Qed.

Lemma faults_are_served_witness : exists ret w2, read_from_externram 5 addr1 scene5 = Ok (ret, w2) /\
  app_page (w_os w2) 5 addr1 = Some page_of_ones.
Proof.
  destruct (faults_are_served registered trace scene5 (view registered) 5 addr1
    (proj1 registered_ok) (shows_self registered) trace_ok scene_run) as (ret & w2 & E & H).
  { split; [by_decide|]. split; [by_decide|]. apply registered_ok. }
  exists ret, w2. split; [exact E|]. destruct H as [H|[[H _]|H]]; [exfalso|exfalso|exact H].
  - apply scene5_quiet in E. lia.
  - exact (scene5_stored H).
Defined.

Lemma register_consistent_witness : exists ret w', register EmptyString 5 77 booted = Ok (ret, w') /\
  (ret = 0 -> is_Some (client_of w' 5)).
Proof.
  destruct (register_consistent EmptyString 5 77 booted booted_ok) as (ret & w' & E & _ & H);
    [by_decide|reflexivity|exact I|].
  exists ret, w'. split; [exact E|]. clear E. intros Hr. apply (H Hr).
Defined.

Lemma scene4_run : run registered (take 4 trace) scene4.
Proof.
  pose proof (run_nil registered) as R.
  apply (run_snoc _ _ _ (Fault 5 addr1) scene1) in R; [|apply step_sim_fault|]; [|vm_compute; reflexivity..].
  apply (run_snoc _ _ _ (Store 5 addr1 page_of_ones) scene2) in R; [|apply step_sim_store|]; [|vm_compute; reflexivity..].
  apply (run_snoc _ _ _ (Fault 5 addr2) scene3) in R; [|apply step_sim_fault|]; [|vm_compute; reflexivity..].
  apply (run_snoc _ _ _ (Store 5 addr2 page_of_twos) scene4) in R; [|apply step_sim_store|]; [|vm_compute; reflexivity..].
  exact R.
Qed.

Lemma scene4_ok : wok (LO := none_lost) scene4.
Proof.
  destruct (run_shows registered (take 4 trace) scene4 (view registered)) as (H & _);
    [apply registered_ok|apply shows_self|apply Forall_take, trace_ok|apply scene4_run|apply H].
Qed.

(** The list of pages forgotten, the pages still resident. *)
Definition unlisted : world := set_lru (mkLRUBuffer (LruList.new 2) zero_stats) scene4.

Lemma unlisted_ok : wok (LO := none_lost) unlisted.
Proof.
  apply (handled_lru scene4 (LruList.new 2) zero_stats scene4_ok);
    [split; [constructor|split; [constructor|by_decide]]|vm_compute; reflexivity|].
  intros u a H. by apply elem_of_nil in H.
Qed.

Lemma evict_to_externram_preserves_witness : exists ret w', evict_to_externram 5 addr1 unlisted = Ok (ret, w') /\
  wok (LO := none_lost) w' /\ view w' 5 addr1 = page_of_ones.
Proof.
  destruct (evict_to_externram_preserves (LO := none_lost) 5 addr1 unlisted 1 unlisted_ok)
    as (ret & w' & E & Hw & Hv & _); [by_decide|by_decide|vm_compute; reflexivity|left; vm_compute; eexists; reflexivity| |].
  { intros H. by apply elem_of_nil in H. }
  exists ret, w'. split; [exact E|]. clear E. split; [exact Hw|].
  rewrite Hv; [vm_compute; reflexivity|by_decide|apply not_none_lost].
Defined.


(** One client with nothing stored, and a buffer to write. *)
Definition one_client : gmap ptr (gmap Z ptr) := {[1 := ∅]}.
Definition one_buffer : sys := Sys (Sim ∅ ∅ {[7 := page_of_ones]} ∅ ∅ ∅ 0 : os) (Dbg 0 0 0 0) zero_stats.

Lemma one_client_ok : noop_ok (O := SimOS) one_client (s_os one_buffer).
Proof.
  assert (H : forall c k, noop_at one_client c k = None).
  { intros c k. unfold noop_at, one_client. destruct (decide (c = 1)) as [->|Hne].
    - by rewrite lookup_singleton_eq.
    - by rewrite lookup_singleton_ne. }
  split; intros *; by rewrite H.
Qed.


(** * Processes *)

(** A generator that always returns the same value. *)
#[local] Instance FixedRand : Rand := {| rstate := unit; srand := fun _ => tt; rand := fun _ => (1234, tt) |}.

Definition p_booted : pworld := Pworld (booted : world) fresh_zk (tt : rstate).
(** Process 300 sends descriptor 5. *)
Definition hello : message := Message 4 false [44; 1; 0; 0] [None; Some 5].
Definition node0 : Z := match get_node_id (w_sys booted) with Ok (n, _) => n | _ => -1 end.

Lemma node0_id (s : sys) : s_os s = w_os booted -> get_node_id s = Ok (node0, s).
Proof. intros _. reflexivity. Qed.


Lemma counters_cover_witness : counters (Z.to_nat 65535) 3 3 p_booted = seqZ 4 65532 ++ [1; 2].
Proof. rewrite (counters_cover 3); [reflexivity|lia|rewrite Z2Nat.id; lia]. Defined.

(** An identifier of a dead process in the registry. *)
Definition dead_upid : Z := mk_upid node0 300 1.
Definition p_dead : pworld := Pworld (booted : world) (@Zstate SimZk ({[upidFullPath dead_upid]}, 0%nat) false false) (tt : rstate).

Lemma dead_identifier_stays_witness : exists p', remove_upid 1 (upid_first_byte dead_upid) p_dead = Ok (0, p') /\
  upidFullPath dead_upid ∈ znodes (z_lib (pz p')).
Proof. apply (dead_identifier_stays 1 dead_upid p_dead); by_decide. Defined.

(** Descriptor 5 registered for process 300. *)
Definition p_one : pworld := Pworld (set_fd (match add_upid_in_map 5 dead_upid (FdMap empty_hash false) with
  Ok (_, m) => m | _ => FdMap empty_hash false end) booted : world) fresh_zk (tt : rstate).

Lemma p_one_ok : fm_ok (fdUpidMap (p_fd p_one)).
Proof.
  destruct (add_upid_in_map_run (FdMap empty_hash false) 5 dead_upid) as (m' & E & [H _] & _);
    [split; [apply empty_fm_ok|reflexivity]|exact I|by_decide|reflexivity|].
  unfold p_one, p_fd. cbn [pw w_fd set_fd]. rewrite E. exact H.
Qed.

Lemma removePid_double_unlock_witness : exists o, removePid 3 300 p_one = o /\ forall r p', o <> Ok (r, p').
Proof.
  eexists. split; [reflexivity|].
  apply (removePid_double_unlock 3 300 p_one node0 1 p_one_ok); [apply node0_id; reflexivity|by_decide|].
  eexists. split; [vm_compute; reflexivity|]. split; vm_compute; reflexivity.
Defined.

(** * The polling thread *)

Lemma unregistered_fault_undefined_witness : read_from_externram 5 addr1 booted = UB BadFormat.
Proof.
  apply (unregistered_fault_undefined 5 addr1 booted (ok_fd booted booted_ok)). left. exact (booted_client 5).
Defined.

(** The reload event on descriptor 3, then the region of descriptor 5. *)
Definition two_fds : Pollfd_vector :=
  match add_fd 5 (start_vector, zero_stats) with Ok (_, (v, _)) => v | _ => start_vector end.
Definition polled : mworld := Mworld registered two_fds.

Lemma two_fds_ok : vec_ok two_fds [Pollfd 3 POLLIN 0; Pollfd 5 POLLIN 0].
Proof.
  destruct (append_run start_vector [Pollfd 3 POLLIN 0] zero_stats (Pollfd 5 POLLIN 0) start_vector_ok)
    as (v' & st' & E & H & _); [by_decide|]. unfold two_fds, add_fd. by rewrite E.
Qed.

Lemma polled_ok : polling (LO := none_lost) polled [Pollfd 3 POLLIN 0; Pollfd 5 POLLIN 0].
Proof.
  destruct registered_ok as [[Hw Hin _] Hc]. split; [exact Hw|exact Hin|exact two_fds_ok|].
  eexists _, _. split; [reflexivity|]. split; [vm_compute; reflexivity|]. constructor; [|constructor].
  split; [by_decide|exact Hc].
Qed.

(** One turn in which descriptor 5 has a fault in the middle of the first page. *)
Definition fault_message (fd : Z) : uffd_read := UffdRead 32 0 UFFD_EVENT_PAGEFAULT (addr1 + 100).

(** After it the monitor is told to stop. *)
Definition two_turns : list turn :=
  [Turn 1 [0; POLLIN] false (0, 0) fault_message; Turn 0 [] true (0, 0) fault_message].

Lemma two_turns_serve r p' : poll_on_ufds two_turns polled = Ok (r, p') ->
  r = Some [3; 5] /\ app_page (w_os (mw p')) 5 addr1 = Some zero_page.
Proof.
  assert (H : match poll_on_ufds two_turns polled with
    | Ok (r, p') => bool_decide (r = Some [3; 5] /\ app_page (w_os (mw p')) 5 addr1 = Some zero_page) | _ => true end = true)
    by (vm_compute; reflexivity).
  intros E. rewrite E in H. clear E. apply bool_decide_eq_true in H. exact H.
Qed.


(** * The page cache *)

(** Two pages after [addr1] are in external memory, and two accesses were consecutive. *)
Definition some_pages : gmap (list Z) PageInfo :=
  <[page_key addr1 5 := mkPageInfo OWNERSHIP_EXTERNRAM false]>
  (<[page_key addr2 5 := mkPageInfo OWNERSHIP_EXTERNRAM false]>
  {[page_key addr3 5 := mkPageInfo OWNERSHIP_APPLICATION false]}).
Definition prefetching : world := set_pc
  (mkPageCache some_pages [] 10 (replicate 200 0) (replicate 200 NULL) (replicate 200 0) 0 addr1 2 4 1, w_sys booted) booted.

Lemma prefetch_loop_spec_witness : exists w', prefetch_loop 102 1 addr1 5 prefetching = Ok (tt, w') /\
  numPrefetch (w_pc w') = 1 /\ take 2 (keys_for_mread (w_pc w')) = [0; addr2].
Proof.
  pose proof (prefetch_loop_spec eq_refl eq_refl prefetching addr1 5 eq_refl eq_refl) as H.
  specialize (H ltac:(by_decide) ltac:(by_decide)). cbn zeta in H. rewrite H. clear H.
  eexists. split; [reflexivity|]. split; vm_compute; reflexivity.
Defined.

(** A cache of one page with a page stored; another one comes in. *)
Definition heap_os : sys (H := SimOS) :=
  Sys (H := SimOS) (Sim ∅ ∅ {[100 := page_of_ones; 200 := page_of_twos]} {[100; 200]} {[5]} ∅ 0) (Dbg 0 0 0 0) zero_stats.
Definition one_cached : page_cache := mkPageCache
  {[page_key addr1 5 := mkPageInfo OWNERSHIP_PAGE_CACHE false]} [PcNode addr1 5 100 PAGE_SIZE] 1 [] [] [] 0 0 0 0 0.

Lemma one_cached_wf : pc_wf one_cached (s_os heap_os).
Proof.
  split.
  - apply NoDup_singleton.
  - apply NoDup_singleton.
  - constructor; [|constructor]. repeat split; by_decide.
  - intros h fd Hh Hfd. unfold owner. cbn [pagehash one_cached pageCache]. rewrite lookup_singleton. case_decide as D.
    + apply page_key_inj in D as [<- <-]; try done; [|by_decide..]. split; [intros _|done]. by left.
    + split; [done|]. intros [[= -> ->]|?%elem_of_nil]%elem_of_cons; done.
Qed.

Lemma storePageInPageCache_refines_witness : exists c' s',
  storePageInPageCache addr2 5 200 PAGE_SIZE (one_cached, heap_os) = Ok (tt, (c', s')) /\
  pageCache c' = [PcNode addr2 5 200 PAGE_SIZE] /\ owner c' addr1 5 = Some OWNERSHIP_EXTERNRAM.
Proof.
  destruct (storePageInPageCache_refines one_cached heap_os addr2 5 200) as (c' & s' & E & _ & Hl & _ & Ho);
    [split; [exact one_cached_wf|]|..]; [by_decide..|].
  exists c', s'. split; [exact E|]. clear E. change (take _ _) with [PcNode addr2 5 200 PAGE_SIZE] in Hl.
  split; [exact Hl|]. rewrite Ho by by_decide. rewrite Hl, decide_False, decide_True by by_decide. reflexivity.
Defined.

Definition cached_world : world := set_pc (one_cached, heap_os) booted.

Lemma cached_page_hit_witness : exists w', readPageIfInPageCache 5 addr1 1 cached_world = Ok ((PAGE_SIZE, 100), w') /\
  pageCache (w_pc w') = [] /\ owner (w_pc w') addr1 5 = Some OWNERSHIP_APPLICATION.
Proof.
  destruct (cached_page_hit cached_world (PcNode addr1 5 100 PAGE_SIZE) 1 one_cached_wf) as (w' & E & _ & _ & _ & Hl & Ho);
    [by left|].
  exists w'. split; [exact E|]. clear E. split; [rewrite Hl; vm_compute; reflexivity|].
  rewrite Ho by by_decide. by rewrite decide_True.
Defined.

(** * The user interface *)

Definition u_scene4 : uworld := Uworld (Pworld (scene4 : world) fresh_zk (tt : rstate)) two_fds false false false [].

Lemma ui_command_understood_witness : exists msg, ui_message (Some (txt "r")) (Some (print_d 100)) = Ok msg /\
  ui_request 3 (msg ++ [10]) u_scene4 = ui_argument 3 MENU_RESIZE 100 u_scene4.
Proof.
  destruct (ui_command_understood 3 MENU_RESIZE "r" 100 [10]) as (msg & E & H); [by_decide|by_decide|by right|].
  exists msg. split; [exact E|exact (H u_scene4)].
Defined.

Lemma ui_resize_negative_witness : exists msg, ui_message (Some (txt "resize")) (Some (print_d (-1))) = Ok msg /\
  ui_request 3 (msg ++ []) u_scene4 = UB OutOfBounds.
Proof.
  apply (ui_resize_negative (LO := none_lost) 3 "resize" (-1) [] u_scene4); [by_decide|by_decide|by left|apply scene4_ok|by_decide].
Defined.

(** ** The linked cache *)

(** Two frames: the second page is the one evicted for the third. *)
Definition cache_requests : list (Z * ptr * Z) := [(addr1, NULL, 5); (addr2, NULL, 5); (addr1, NULL, 5); (addr3, NULL, 5)].

Definition cache_list : list Z :=
  match miter (fun r => lru_ref 2 r.1.1 r.1.2 r.2) cache_requests ([], scene4) with Ok (_, (l, _)) => page_addr <$> l | _ => [] end.
Lemma cache_list_eq : cache_list = [addr3; addr1].
Proof. vm_compute. reflexivity. Qed.

Lemma lrucache_refines_witness : exists c w ps l,
  miter (fun r => ReferencePage r.1.1 r.1.2 r.2) cache_requests (new_cache 2 10, scene4) = Ok (tt, (c, w)) /\
  cache_rep 2 c ps l /\ page_addr <$> l = [addr3; addr1].
Proof.
  pose proof cache_list_eq as Hl. unfold cache_list in Hl.
  pose proof (lrucache_refines 2 10 cache_requests scene4 ltac:(lia) ltac:(lia)) as H.
  destruct (miter (fun r => lru_ref 2 r.1.1 r.1.2 r.2) cache_requests ([], scene4)) as [[[] [l w]]| |]; [|discriminate Hl|discriminate Hl].
  destruct H as (c & ps & E & Hr). exists c, w, ps, l. split; [exact E|]. split; [exact Hr|exact Hl].
Defined.

(** * The prefetch thread *)

(** The second page is in external memory and asked for; the first one fills the cache. *)
Definition asking : tio := match add_prefetch_info 5 addr2 init_tio with Ok (_, t) => set_waiting false false true t | _ => init_tio end.
Definition asking_world : world := World heap_os (LruList.new 2) (w_fd registered)
  ({[default NULL (client_of registered 5) := {[addr2 := 200]}]} : gmap ptr (gmap Z ptr)) one_cached asking 1 (PageBuffer None 0 0 0 0 0).

Lemma empty_pl_ok : pl_ok empty_hash.
Proof. split; [apply empty_keyed|done|by_decide]. Qed.
Lemma asking_ok : pl_ok (prefetch_list asking).
Proof. apply (pl_add_ok empty_hash 5 addr2 empty_pl_ok); [done|by_decide|by_decide| |by_decide]. intros [p Hp]. done. Qed.

Definition garbage (i : nat) : ptr * Z := (12345, -1).
Lemma asking_read : readPages (default NULL (client_of registered 5)) (read_request garbage [addr2]) (w_ext asking_world, w_sys asking_world) =
  Ok ([(200, PAGE_SIZE)], (w_ext asking_world, w_sys asking_world)).
Proof.
  cbn [w_ext w_sys asking_world]. generalize (default NULL (client_of registered 5)). intros c.
  unfold readPages, mbind, M_bind. cbn [multiRead Noop]. unfold on_client. cbn [fst snd]. rewrite lookup_singleton_eq.
  cbn [read_request imap noop_multiRead garbage fst snd]. unfold mbind, M_bind, noop_read. rewrite lookup_singleton_eq.
  unfold mret, M_ret. cbn [fst snd]. by rewrite insert_singleton_eq.
Qed.
Lemma asking_wanted : pf_first (entries (prefetch_list asking)) = 5 /\ pf_wanted (entries (prefetch_list asking)) = [addr2].
Proof. vm_compute. done. Qed.
Lemma asking_client : exists ms, find_fd 5 (fdUpidMap (w_fd registered)) = Some ms /\ m_client ms = default NULL (client_of registered 5) /\ default NULL (client_of registered 5) <> NULL.
Proof. vm_compute. eexists. split; [reflexivity|]. split; [reflexivity|discriminate]. Qed.
Lemma asking_store : to_store 5 (with_keys [addr2] [(200, PAGE_SIZE)]) one_cached (s_os heap_os).
Proof.
  split; [apply NoDup_singleton|apply NoDup_singleton|]. intros r Hr. apply list_elem_of_singleton in Hr as ->. repeat split; by_decide.
Qed.

Lemma one_cached_inv : pc_inv one_cached (s_os heap_os).
Proof. split; [exact one_cached_wf|]. by_decide. Qed.
Lemma registered_fd : fdmap_ok (w_fd registered).
Proof. destruct registered_ok as [[[H _ _ _ _ _ _] _ _] _]. exact H. Qed.
Lemma asking_iter : HASH_ITER (prefetch_list asking) <> [].
Proof. by_decide. Qed.

Lemma prefetch_turn_witness : exists w', prefetcher_run garbage 5 PtTop asking_world = Ok (PtTop, w') /\
  pageCache (w_pc w') = [PcNode addr2 5 200 PAGE_SIZE] /\ owner (w_pc w') addr1 5 = Some OWNERSHIP_EXTERNRAM /\ ~ pl_has (prefetch_list (w_tio w')) 5 addr2 /\ ufhandler_sem (w_tio w') = 1.
Proof.
  destruct asking_client as (ms & Hms & Hc & Hn). destruct asking_wanted as [Hu Hk].
  pose proof (prefetch_turn garbage asking_world (default NULL (client_of registered 5)) ms [(200, PAGE_SIZE)]
    (w_ext asking_world) (w_sys asking_world)) as H. cbn zeta in H. cbn [w_tio asking_world w_pc w_fd] in H. rewrite Hu, Hk in H.
  destruct (H asking_ok asking_iter registered_fd Hms Hc Hn asking_read eq_refl
    one_cached_inv asking_store) as (w' & E & [_ Hg _ Hp _ Ho Hs _]). clear H.
  change (take _ _) with [PcNode addr2 5 200 PAGE_SIZE] in Hp.
  exists w'. split; [exact E|]. clear E. split; [exact Hp|]. split; [|split; [|exact Hs]].
  - rewrite Ho by by_decide. rewrite Hp, decide_False, decide_True by by_decide. reflexivity.
  - intros [Hx _]%Hg; [|by_decide|by_decide]. apply Hx. split; [done|by left].
Defined.

Definition asking_blocked : world := set_tio (set_waiting false false true asking) asking_world.
Lemma asking_check : wait_step (WaCheck 5 addr2) asking_world = Ok (WaPost 5 addr2 false, asking_blocked).
Proof.
  assert (Hf : is_Some (HASH_FIND (info_key 5 addr2) (prefetch_list asking))) by by_decide.
  unfold wait_step, mbind, M_bind, in_tio, zoom, exist_prefetch_info, mgets. cbn [w_tio asking_world].
  rewrite bool_decide_eq_true_2 by exact Hf. reflexivity.
Qed.

Lemma prefetch_wakes_handler_witness : exists w,
  rtc (pstep garbage) (WaOut, PtTop, asking_world) (WaSem 5 addr2, PtTop, w) /\ (0 < ufhandler_sem (w_tio w) \/ (~ (PtTop = PtWait /\ prefetcher_sem (w_tio w) = 0) /\
   forall p' w', prefetcher_run garbage 6 PtTop w = Ok (p', w') -> 0 < ufhandler_sem (w_tio w'))).
Proof.
  assert (Hr : rtc (pstep garbage) (WaOut, PtTop, asking_world) (WaSem 5 addr2, PtTop, asking_blocked)).
  { eapply rtc_l; [by apply (ps_fault _ _ _ 5 addr2); by_decide|]. eapply rtc_l; [apply ps_handler, asking_check|].
    eapply rtc_l; [apply ps_handler; reflexivity|]. apply rtc_refl. }
  exists asking_blocked. split; [exact Hr|].
  apply (prefetch_wakes_handler garbage asking_world 5 addr2 PtTop asking_blocked); [|exact Hr].
  split; [exact asking_ok|]. split; by_decide.
Defined.

(** * Programs in the region *)

#[local] Instance sim_app_stores : AppStores SimOS.
Proof.
  intros o u a pg Hr. exists (sim_with_app (<[(u, a) := pg]> (sim_app o)) (sim_zero o ∖ {[(u, a)]}) (sim_buf o) o).
  split; [simpl; by rewrite lookup_insert_eq|]. split; [|by intros p _].
  intros u' a' Hne. simpl. by rewrite lookup_insert_ne by congruence.
Qed.

Lemma registered_zero a : view registered 5 a = zero_page.
Proof.
  assert (Ha : sim_app (w_os registered) = ∅) by (vm_compute; reflexivity).
  assert (Hs : (w_ext registered : gmap ptr (gmap Z ptr)) !! default NULL (client_of registered 5) = Some ∅) by (vm_compute; reflexivity).
  unfold view, stored_at. change (app_page (w_os registered) 5 a) with (sim_app (w_os registered) !! (5, a)). rewrite Ha, lookup_empty.
  destruct registered_ok as [_ [c Hc]]. rewrite Hc in Hs |- *. cbn [default from_option id] in Hs. cbn [mbind option_bind].
  change (stored (w_ext registered) (w_os registered) c a) with (noop_stored (O := SimOS) (w_ext registered) (w_os registered) c a).
  unfold noop_stored, noop_at. rewrite Hs. cbn [mbind option_bind]. by rewrite lookup_empty.
Qed.

Lemma registered_full : full (view registered 5).
Proof. intros p. rewrite registered_zero. apply length_replicate. Qed.

Definition set_seven : prog Byte.byte := store addr1 Byte.x07;; load addr1.
Definition sevens : world := sim_store 5 addr1 (put_byte zero_page addr1 Byte.x07) scene1.

Lemma set_seven_runs : exists r, runs_on 5 set_seven registered r sevens.
Proof.
  destruct registered_ok as [_ Hc]. eexists. apply (on_event 5 _ (Fault 5 (page_of addr1)) _ scene1); [done|split; [by_decide|by split]| |vm_compute; reflexivity|].
  - change (page_of addr1) with addr1. apply step_sim_fault. vm_compute. reflexivity.
  - apply (on_store 5 _ _ _ _ zero_page sevens); [vm_compute; reflexivity| |vm_compute; reflexivity|].
    + change (page_of addr1) with addr1. apply step_sim_store. vm_compute. reflexivity.
    + eapply on_load; [vm_compute; reflexivity|]. apply on_return.
Qed.

Lemma application_transparent_witness : exists r w', runs_on 5 set_seven registered r w' /\ r = Byte.x07.
Proof.
  destruct set_seven_runs as [r R]. destruct registered_ok as [Hm Hc]. exists r, sevens. split; [exact R|].
  destruct (application_transparent 5 ltac:(lia) set_seven registered (view registered 5) Hm Hc ltac:(done)) as [H _].
  rewrite (proj1 (H r sevens R)). change ((run_plain set_seven (view registered 5)).1) with (peek (put (view registered 5) addr1 Byte.x07) addr1).
  rewrite peek_put, decide_True; [done|done|exact registered_full|by_decide|by_decide].
Defined.

Lemma tests_pass_on_monitor_witness :
  (exists out w', runs_on 5 (corruption_test (TestOptions 1 4096 false) addr1 [7; 9]) registered (Ok (Exit 0, out)) w') \/
  fails_on 5 (corruption_test (TestOptions 1 4096 false) addr1 [7; 9]) registered.
Proof.
  destruct registered_ok as [Hm Hc].
  apply (tests_pass_on_monitor 5 registered (TestOptions 1 4096 false) addr1 1 1 1 (fun _ => Byte.x00) [7; 9] ltac:(lia) Hm Hc registered_full).
  - repeat constructor; by_decide.
  - split; [by_decide|]. split; by_decide.
  - intros _ i _. unfold peek. rewrite registered_zero. unfold byte_of, zero_page. rewrite nth_lookup.
    destruct (replicate (Z.to_nat PAGE_SIZE) Byte.x00 !! place_of (addr1 + i)) as [b|] eqn:E; [|done]. by apply lookup_replicate in E as [-> _].
  - lia.
  - by_decide.
  - by_decide.
Defined.
