(* ===== verification/AsyncScenario.v ===== *)
(** The concrete monitor of [Scenario] with the write thread: the theorems on
    interleavings applied to it. *)
From S2P Require Import Prelude Config MonitorStats Os LruBuffer UtHash ExternRam ThreadedIo Upid.
From S2P Require Import BufferAllocator PageCache World PageCacheRead Userfault WriteThread Consistency.
From S2P Require Import Async AsyncHandler AsyncRuns AsyncCode Faults Memory SimOs Noop Scenario.

(** [./configure --enable-threadedwrite] *)
Definition threaded_build : BuildFlags := {|
  CACHE := true;
  PAGECACHE := false;
  PAGECACHE_ZEROPAGE_OPTIMIZATION := false;
  MONITORSTATS := true;
  THREADED_WRITE_TO_EXTERNRAM := true;
  THREADED_PREFETCH := false;
  THREADED_REINIT := false;
  ASYNREAD := false
|}.
#[local] Existing Instance threaded_build.
#[local] Instance threaded_async : AsyncBuild threaded_build.
Proof. done. Qed.
#[local] Instance threaded_iterator : StaleIterator := @stale_undefined.
#[local] Instance threaded_fuel : WriteFuel := 1%nat.
#[local] Instance threaded_enough : EnoughFuel (noop_laws (O := SimOS)) threaded_fuel.
Proof. intros e. simpl. unfold write_fuel, threaded_fuel. lia. Qed.

Notation state := (world * hpc * wthread)%type (only parsing).

(** A region is registered, and a flush has been asked for. *)
Definition astart : state := (set_tio (set_flush_needed true init_tio) registered, HIdle, writer_start).

(** Whether an event may happen, and the state after it. *)
Definition may_choose (w : world) (ch : choice) : bool :=
  match ch with
  | EvictPage u a => bool_decide (aligned a /\ is_s32 u /\ is_Some (client_of w u) /\ is_Some (app_page (w_os w) u a))
  | ServeFault u a => bool_decide (aligned a /\ is_s32 u /\ is_Some (client_of w u))
  | _ => true
  end.
Definition after (st : state) (ev : aevent) : option state :=
  let '(w, h, t) := st in
  match ev with
  | AHandler ch =>
      if may_choose w ch then match handler_step h ch w with Ok (h', w') => Some (w', h', t) | _ => None end else None
  | AWriter => match writer_step t w with Ok (t', w') => Some (w', h, t') | _ => None end
  | AStore u a pg =>
      if bool_decide (is_s32 u /\ aligned a /\ is_Some (sim_app (w_os w) !! (u, a)))
      then Some (sim_store u a pg w, h, t) else None
  end.
Definition roomy (l : uthash write_info) : bool :=
  match tbl l with Some t => num_buckets t <=? 2 ^ 30 | None => true end.
Fixpoint play (evs : list aevent) (st : state) : option state :=
  match evs with
  | [] => Some st
  | ev :: evs =>
      if roomy (wlist (a_world st)) then
        match after st ev with
        | Some st' => if Nat.eqb (errors (a_world st')) (errors (a_world st)) then play evs st' else None
        | None => None
        end
      else None
  end.

Lemma after_step st ev st' : after st ev = Some st' -> astep st ev st'.
Proof.
  destruct st as [[w h] t], ev as [ch| |u a pg]; cbn [after].
  - destruct (may_choose w ch) eqn:Ec; [|done]. destruct (handler_step h ch w) as [[h' w']| |] eqn:E; intros [= <-].
    apply as_handler; [|done]. destruct ch; cbn in Ec |- *; try done; apply bool_decide_eq_true in Ec.
    + destruct Ec as (? & ? & ? & ?). split; [done|]. by left.
    + done.
  - destruct (writer_step t w) as [[t' w']| |] eqn:E; intros [= <-]. by apply as_writer.
  - case_bool_decide as Hc; [|done]. intros [= <-]. destruct Hc as (Hu & Ha & Hr). apply as_store; try done; simpl.
    + by rewrite lookup_insert_eq.
    + intros u' a' Hne. simpl. by rewrite lookup_insert_ne by congruence.
Qed.

Lemma play_run evs : forall st0 tr st st', arun st0 tr st -> play evs st = Some st' -> arun st0 (tr ++ evs) st'.
Proof.
  induction evs as [|ev evs IH]; intros st0 tr st st' R; cbn [play].
  - intros [= <-]. by rewrite app_nil_r.
  - destruct (roomy _) eqn:Er; [|done]. destruct (after st ev) as [st1|] eqn:Ea; [|done].
    destruct (Nat.eqb_spec (errors (a_world st1)) (errors (a_world st))) as [He|]; [|done]. intros P.
    replace (tr ++ ev :: evs) with ((tr ++ [ev]) ++ evs) by by rewrite <- app_assoc. eapply IH; [|exact P].
    apply (arun_snoc _ _ st); [done| |by apply after_step|done].
    unfold can_grow. unfold roomy in Er. destruct (tbl _); [by apply Z.leb_le|done].
Qed.

Lemma flush_start_good (w : world) : wok (LO := none_lost) w ->
  agood (view (set_tio (set_flush_needed true init_tio) w)) (set_tio (set_flush_needed true init_tio) w, HIdle, writer_start).
Proof. intros O. apply agood_start; [by destruct O|done|done|done]. Qed.

Lemma astart_good : agood (view (a_world astart)) astart.
Proof. apply flush_start_good. exact (mo_wok _ (proj1 registered_ok)). Qed.

(** The page is written to, evicted, and wanted again while the write thread has it. *)
Definition atrace : list aevent :=
  [AHandler (ServeFault 5 addr1); AHandler Go; AHandler Go; AHandler Go; AStore 5 addr1 page_of_ones;
   AHandler (EvictPage 5 addr1); AHandler Go; AWriter; AHandler (ServeFault 5 addr1); AHandler Go].
Definition played (evs : list aevent) : state := default astart (play evs astart).
Definition p_world (st : state) : world := st.1.1.
Definition p_writer (st : state) : wthread := st.2.

Lemma played_run evs : bool_decide (is_Some (play evs astart)) = true -> arun astart evs (played evs).
Proof.
  intros [st E]%bool_decide_eq_true. unfold played. rewrite E. apply (play_run evs astart [] astart); [constructor|done].
Qed.

Lemma atrace_run : arun astart atrace (played atrace).
Proof. apply played_run. vm_compute. reflexivity. Qed.
Lemma atrace_hpc : (played atrace).1.2 = HWait 5 addr1.
Proof. vm_compute. reflexivity. Qed.
Lemma atrace_state : played atrace = (p_world (played atrace), HWait 5 addr1, p_writer (played atrace)).
Proof. rewrite <- atrace_hpc. unfold p_world, p_writer. by destruct (played atrace) as [[? ?] ?]. Qed.
Lemma atrace_run' : arun astart atrace (p_world (played atrace), HWait 5 addr1, p_writer (played atrace)).
Proof. rewrite <- atrace_state. exact atrace_run. Qed.

(** The page the handler waits for is on the list, with what was stored in it. *)
Lemma atrace_listed : match app_page (w_os (p_world (played atrace))) 5 addr1 with
  | Some _ => false | None => bool_decide (is_Some (listed (p_world (played atrace)) 5 addr1)) end = true.
Proof. vm_compute. reflexivity. Qed.
Lemma atrace_memory : amem_run (view (a_world astart)) atrace 5 addr1 = page_of_ones.
Proof. reflexivity. Qed.


Lemma atrace_room : can_grow (wlist (p_world (played atrace))).
Proof. vm_compute. discriminate. Qed.

Lemma async_no_deadlock_witness :
  ~ (handler_step (HWait 5 addr1) Go (p_world (played atrace)) = Blocked /\
     writer_step (p_writer (played atrace)) (p_world (played atrace)) = Blocked).
Proof. exact (proj2 (proj2 (async_no_deadlock _ astart atrace _ _ _ Go astart_good atrace_run' atrace_room I))). Defined.

Lemma waiting_handler_released_witness : exists n t' w', (n <= 3)%nat /\
  writer_run n (p_writer (played atrace)) (p_world (played atrace)) = Ok (t', w') /\ 0 < ufhandler_sem (w_tio w').
Proof.
  destruct (waiting_handler_released _ astart atrace _ _ _ _ astart_good atrace_run') as (n & t' & w' & H1 & H2 & H3 & _).
  exists n, t', w'. split; [exact H1|]. split; [exact H2|exact H3].
Defined.

(** The same before the write thread has picked up the page. *)
Definition btrace : list aevent := take 7 atrace.
Lemma btrace_run : arun astart btrace (p_world (played btrace), HIdle, WThread false WtTop).
Proof.
  assert (E : (played btrace).1.2 = HIdle /\ (played btrace).2 = WThread false WtTop) by (vm_compute; split; reflexivity).
  assert (R : arun astart btrace (played btrace)) by (apply played_run; vm_compute; reflexivity).
  destruct E as [E1 E2]. unfold p_world. rewrite <- E1, <- E2. by destruct (played btrace) as [[? ?] ?].
Qed.
Lemma btrace_flush : flushWriteListNeeded (w_tio (p_world (played btrace))) = true.
Proof. vm_compute. reflexivity. Qed.
Lemma btrace_length : Z.of_nat (length (entries (wlist (p_world (played btrace))))) = 1.
Proof. vm_compute. reflexivity. Qed.
Lemma btrace_absent : app_page (w_os (p_world (played btrace))) 5 addr1 = None.
Proof. vm_compute. reflexivity. Qed.
Lemma btrace_memory : amem_run (view (a_world astart)) btrace 5 addr1 = page_of_ones.
Proof. reflexivity. Qed.

Lemma flush_drains_witness : exists n t' w', writer_run n (WThread false WtTop) (p_world (played btrace)) = Ok (t', w') /\
  entries (wlist w') = [] /\ default zero_page (stored_at w' 5 addr1) = page_of_ones.
Proof.
  destruct (flush_drains _ astart btrace _ _ false astart_good btrace_run eq_refl btrace_flush) as (n & fr & w' & _ & E & He & _ & H);
    [rewrite btrace_length; reflexivity|].
  exists (4 * n)%nat, (WThread fr WtTop), w'. split; [exact E|]. split; [exact He|].
  rewrite H; [exact btrace_memory|by_decide|by_decide|exact btrace_absent].
Defined.

Lemma astart_room : can_grow (wlist (a_world astart)).
Proof. exact I. Qed.
Lemma flush_returns_early_witness : exists w1 w2 w3,
  writer_step (WThread false WtTop) (a_world astart) = Ok (WThread false WtWait, w1) /\
  in_tio (add_write_info 5 addr2 7) w1 = Ok (tt, w2) /\ flush_write_list w2 = Ok (tt, w3) /\
  listed w3 5 addr2 = Some (WriteInfo 5 addr2 7 false).
Proof.
  apply (flush_returns_early (a_world astart) 5 addr2 7 empty_wl_ok eq_refl eq_refl);
    [discriminate|exact astart_room|by_decide|by_decide].
Defined.

(** A fault on a page that waits on the list. *)
Definition served : world := run_or (read_from_externram 5 addr1) (p_world (played btrace)).
Lemma served_run : exists ret, read_from_externram 5 addr1 (p_world (played btrace)) = Ok (ret, served).
Proof.
  assert (H : is_ok (read_from_externram 5 addr1 (p_world (played btrace))) = true) by (vm_compute; reflexivity).
  unfold served, run_or. destruct (read_from_externram _ _ _) as [[ret w']| |]; [|done|done]. by exists ret.
Qed.
